(* ===== verification/_CoqProject ===== *)
-Q . S2P
Prelude.v
Types.v
Text.v
Ttl.v
Replica.v
Errors.v
Messages.v
Fid.v
Files.v
Fs.v
Needle.v
NeedleCodec.v
NeedleMap.v
NeedleMapFacts.v
Volume.v
VolumeFacts.v
NeedleType.v
Vacuum.v
VacuumFacts.v
ShardBits.v
EcCodec.v
EcCodecFacts.v
EcRebuild.v
EcLocate.v
EcIndex.v
EcVolume.v
Store.v
StoreFacts.v
EcDisk.v
EcDiskFacts.v
Node.v
NodeFacts.v
Rand.v
VolumeLayout.v
VolumeLayoutFacts.v
VolumeGrow.v
VolumeGrowFacts.v
EcShards.v
Sequence.v
Topology.v
TopologyFacts.v
RaftLog.v
Raft.v
Client.v
Directory.v
DirectoryFacts.v
MasterFacts.v
HeartbeatFacts.v
Api.v
ApiFacts.v
Server.v
ServerFacts.v
SealFacts.v
RebuildFacts.v
RestoreFacts.v
Cluster.v
ClusterFacts.v
Startup.v
Routes.v
RaftNet.v
Tests.v
