(* ===== verification/Prelude.v ===== *)
(** * Verification of helyim

    helyim is an object store in the style of SeaweedFS, written in Rust
    ([src/helyim/src]).  Objects ("needles") are appended to large volume files
    on volume servers; a master keeps the topology of data centers, racks and
    data nodes, decides where volumes are created, and hands out file ids.
    Cold volumes are cut into erasure-coded shards.

    This library is a shallow embedding: pure code is translated to functions,
    stateful code to state-passing functions (the monad [M] below), fallible
    code to [outcome], which keeps errors and panics apart.

    ** Files and sources

    - [Prelude]: outcomes, the state and error monad, machine integers, bytes
      and big-endian encodings, slices; the hint database [helyim].
    - [Types], [Ttl], [Replica], [Text]: [storage/types.rs], [version.rs],
      [ttl.rs], [volume/replica_placement.rs], and decimal and hexadecimal
      numbers as [parse] and [format!] treat them.
    - [Errors]: the error enums of needles and volumes.
    - [Fid]: [storage/file_id.rs], [util/parser.rs], the key-hash parser.
    - [Files], [Fs]: files as byte lists with positioned reads and writes that
      may fail part-way, and a directory of named files.
    - [Needle], [NeedleCodec]: [storage/needle/mod.rs] and its round trip.
    - [NeedleMap], [NeedleMapFacts]: [needle_map.rs], [needle_value_map.rs],
      [metric.rs].  The trait [NeedleValueMap] is a class with laws, the memory
      map and the sorted map are its instances.
    - [Volume], [VolumeFacts]: [storage/volume/mod.rs], [checking.rs].
    - [Vacuum], [VacuumFacts]: [storage/volume/vacuum.rs] and the scan of a
      data file.
    - [ShardBits]: [storage/erasure_coding/volume_info.rs]; shard sets share
      cells of a heap, as clones of an [Arc<AtomicU32>] do.
    - [EcCodec], [EcCodecFacts]: [encoder.rs], [decoder.rs]: cutting a data file
      into shards and back.
    - [EcLocate]: [locate.rs]: the intervals of a range of the data file.
    - [EcIndex]: the sorted index ([erasure_coding/mod.rs], [encoder.rs],
      [decoder.rs], [SortedIndexMap]).
    - [EcVolume]: [erasure_coding/volume.rs], [shard.rs] and the reads of
      [erasure_coding/store.rs].
    - [Node], [NodeFacts]: [topology/node.rs], [rack.rs], [data_center.rs],
      [data_node.rs]: the tree with its counters, nodes as addresses.
    - [Rand]: random numbers as a class.
    - [VolumeLayout], [VolumeLayoutFacts]: [topology/volume_layout.rs].
    - [VolumeGrow], [VolumeGrowFacts]: [find_empty_slots] and
      [randomly_pick_nodes] of [topology/volume_grow.rs].
    - [EcShards]: [topology/erasure_coding]: the master's registry of shards.
    - [Sequence]: [sequence/*.rs].
    - [Topology], [TopologyFacts]: [topology/topology.rs], [collection.rs], the
      rest of [volume_grow.rs] and the batch vacuum of [vacuum.rs].
    - [NeedleType]: what the readers of [needle/mod.rs] guarantee on any bytes.
    - [Messages]: the messages of [proto/helyim.proto] the model exchanges.
    - [Store], [StoreFacts]: [storage/store.rs], [storage/disk_location.rs]: the
      volumes of several directories, the requests to them and the heartbeat.
    - [EcRebuild]: the theorem about [rebuild_ec_files_inner] of [encoder.rs].
    - [EcDisk], [EcDiskFacts]: the files of shards: [shard.rs], [volume.rs],
      [encoder.rs] and [decoder.rs] over a directory of files,
      [erasure_coding/disk_location.rs], the mounting of [erasure_coding/store.rs],
      [proto/mod.rs], [util/file.rs], [Store::new], [VolumeOptions].
    - [RaftLog], [Raft]: [raft/store/log_store.rs]; node ids, the state machine
      and its snapshots ([raft/mod.rs], [store/mod.rs]).
    - [Client]: [client/mod.rs], [client/location.rs].
    - [Directory], [DirectoryFacts], [MasterFacts], [HeartbeatFacts]: [directory/server.rs],
      [directory/api.rs], [operation/assign.rs], [operation/lookup.rs]: the
      master's streams and requests, over [Topology] and [EcShards]; [MasterFacts]
      has the master as a state machine that takes them in any order.
    - [Api], [ApiFacts]: [storage/api/mod.rs], [operation/upload.rs]:
      uploads, downloads and deletions over HTTP, with replication.
    - [Server], [ServerFacts], [SealFacts], [RebuildFacts], [RestoreFacts]:
      [storage/server.rs]: the gRPC handlers of a volume server and its heartbeat
      loop; what sealing a volume into shards, rebuilding lost shards and turning
      the shards back into a volume amount to.
    - [Cluster], [ClusterFacts]: servers that call each other:
      [util/grpc.rs], the calls of [topology/data_node.rs] to volume servers (the
      instance [cluster] of [Rpc]), [storage/api/erasure_coding.rs],
      [util/http/extractor.rs], [operation/cluster.rs], [VolumeServer::new].
    - [Startup]: [bin/helyim.rs], [DirectoryServer::new] and [start],
      [MasterOptions], the start of raft in [raft/mod.rs], the vacuum loop of
      [topology.rs].
    - [Routes]: the routers of [start_volume_server], [start_directory_server] and
      [create_raft_router] as terms of axum's builder, and the HTTP service of a
      volume server that runs the handlers of [Api] and [Cluster] behind it.  Which
      handler a router runs is a parameter ([Axum]) with the laws axum documents
      ([AxumLaws]); a router built as documented has exactly one meaning.
    - [RaftNet]: [raft/client.rs], [raft/network]: the client that follows the
      leader, the messages of openraft and their handlers, joined by [Routes]; the
      race for volume ids.
    - [Tests]: the unit tests of the repository, run on the model.

    ** What is shown

    - Storage: a volume is a finite map from needle ids to needles under every
      sequence of operations below 4 GiB, with failing writes ([volume_refines_map]);
      needles, super blocks, TTLs, placements and file ids survive their
      encodings; the index file replays to the live map for writes; compaction
      keeps exactly the live needles, and fails on a volume that stored nothing.
    - Erasure coding: shards decode to the data file, located intervals read
      the range asked for, the sorted index answers as the map of the index
      file, and together a needle can be read from the shards of its volume.
    - Master: the counters of every node are the sums of its children's after any
      history of the master in which no server is linked again beside a new node of
      its id; new volumes are placed as the replica placement
      asks; a layout offers exactly the volumes with enough healthy replicas;
      growing a collection makes a writable volume; keys do not repeat, and neither
      do the ids of volumes that are created one after the other.
    - Servers: a store is a map of maps as long as its volumes are below 4 GiB; the
      heartbeats after the first of a stream carry it to the master, and follow the
      leader; an assignment names a writable volume with enough
      replicas; a client follows the master's stream; the log store is a log, the
      state machine raises the volume id it agreed on.
    - HTTP and shards on disk: what is posted to a volume without replicas
      is served (with replicas the post is answered with an error), cookies guard
      needles, deletions remove them; a restart mounts the shards that are there; a
      sealed volume is readable after a restart, for eleven seconds unless the master
      knows the shards; lost shards are rebuilt, and shards can be turned back into a
      volume; a shard is read over the network.
    - Whole clusters: an assigned file id can be uploaded to and downloaded from
      the server it names, even when its volume was just allocated there
      ([assigned_upload_served]); requests reach the leader
      ([requests_reach_leader]); the first of the peers founds the cluster
      ([cluster_founding]); file requests reach their handlers, and assignments the
      leader's, through the routers ([file_requests_served],
      [leader_guards_requests]); writes to raft reach the leader
      ([writes_reach_leader]).
    - Where the code departs from what it means to do, a theorem states the
      behaviour it has (for example [load_forgets_needles],
      [ecx_delete_scrambles], [vacuum_blocks]).

    ** Conventions

    - The release profile: integer arithmetic wraps at its width, slices out of
      range and [unwrap] of [None] are [Panic].  Offsets inside erasure-coded
      files are below [2^63] and are plain integers.
    - A handle is the name of its file.  Faults are arguments of the operations
      that write.  Messages of errors are dropped, their variants kept.
    - A step that waits for a lock its own caller holds has no result: [None],
      or [Panic] where the monad has no other way to say so.  The vacuum of the master
      carries the locks of the map entries its loops hold, and [Topology.get_mut]
      fails exactly on those.
    - Maps that are iterated are association lists in iteration order, or take
      the order as an argument constrained to a permutation of the entries.
    - Loops that are not structural have fuel: the scan of a data file, the
      search and locate loops and the encoder a turn per byte or entry, the
      topology walks the depth of the tree ([MAX_DEPTH]), the bit count 33
      turns.  The theorems about results show that the fuel is enough.
    - Parameters: the checksum, the random generator ([Rng]), the snowflake
      generator ([Flake]), the shards of a concurrent map ([Shards]), the calls to volume servers ([Rpc], which [Cluster]
      instantiates, and [EcCluster]), the Reed-Solomon code ([ReedSolomon],
      [ReedSolomonInverse]), the crates behind the HTTP handlers ([Web]), the JSON
      of volume descriptions ([VolumeInfoJson]), openraft ([RaftTypeConfig],
      [StateMachineTypes], [OpenRaft], [RaftMessages], [OpenRaftNode]) and axum
      ([Axum]).  Times and listings of directories are
      arguments.
    - Erasure-coded volumes carry what their open files hold; a handler that
      writes such files brings them up to date ([Server.sync]).

    ** Not modelled

    - The raft consensus algorithm and the HTTP and gRPC stacks: they are other
      crates, and parameters.  Listeners and shutdown, logging, connection pools
      ([util/connector.rs]), signals and the images are code without logic of its
      own around those crates.
    - [dir_status_handler] and [Serialize] instances: what serde prints.
    - [Display] and [Debug] of the types whose text is only logged, and the texts of
      errors.
    - The command line parser.
    - [filer]: a module without code.
*)

From Stdlib Require Export ZArith Lia.
From Stdlib Require Import Strings.Byte.
From stdpp Require Export base option list gmap strings.

#[global] Open Scope Z_scope.

(** ** Outcomes

    A Rust function that can fail returns [Result]; one that indexes out of
    range, unwraps a [None] or reaches [todo!()] panics.  [outcome] keeps the
    three apart. *)

Inductive outcome (E A : Type) : Type :=
| Ok (a : A)
| Err (e : E)
| Panic.
Arguments Ok {E A} a.
Arguments Err {E A} e.
Arguments Panic {E A}.

Definition is_ok {E A} (o : outcome E A) : bool :=
  match o with Ok _ => true | _ => false end.

Definition obind {E A B} (o : outcome E A) (k : A -> outcome E B) : outcome E B :=
  match o with Ok a => k a | Err e => Err e | Panic => Panic end.

Definition map_err {E F A} (f : E -> F) (o : outcome E A) : outcome F A :=
  match o with Ok a => Ok a | Err e => Err (f e) | Panic => Panic end.

(** [Option::unwrap] and slice indexing: [None] is the panic. *)
Definition unwrap {E A} (o : option A) : outcome E A :=
  match o with Some a => Ok a | None => Panic end.

(** ** State and outcomes

    Methods taking [&mut self] (or writing files) are functions of the state;
    what was written before an error or a panic stays written. *)

Definition M (S E A : Type) : Type := S -> S * outcome E A.

Definition mret {S E A} (a : A) : M S E A := fun s => (s, Ok a).
Definition mthrow {S E A} (e : E) : M S E A := fun s => (s, Err e).
Definition mpanic {S E A} : M S E A := fun s => (s, Panic).
Definition mget {S E} : M S E S := fun s => (s, Ok s).
Definition mmodify {S E} (f : S -> S) : M S E unit := fun s => (f s, Ok tt).
Definition mlift {S E A} (o : outcome E A) : M S E A := fun s => (s, o).
Definition mbind' {S E A B} (m : M S E A) (k : A -> M S E B) : M S E B :=
  fun s => let '(s', o) := m s in
           match o with
           | Ok a => k a s'
           | Err e => (s', Err e)
           | Panic => (s', Panic)
           end.

Declare Scope helyim_scope.
Delimit Scope helyim_scope with helyim.
Notation "'let?' x ':=' c 'in' k" := (obind c (fun x => k))
  (at level 10, x binder, c at level 100, k at level 200) : helyim_scope.
Notation "'let*' x ':=' c 'in' k" := (mbind' c (fun x => k))
  (at level 10, x binder, c at level 100, k at level 200) : helyim_scope.
#[global] Open Scope helyim_scope.

(** ** Machine integers

    The arithmetic of the release profile: an operation on an unsigned [w]-bit
    type wraps modulo [2^w], a cast to [i32] is two's complement. *)

Definition u8 (z : Z) : Z := z mod 2 ^ 8.
Definition u16 (z : Z) : Z := z mod 2 ^ 16.
Definition u32 (z : Z) : Z := z mod 2 ^ 32.
Definition u64 (z : Z) : Z := z mod 2 ^ 64.
Definition i32 (z : Z) : Z := (z + 2 ^ 31) mod 2 ^ 32 - 2 ^ 31.
Definition i64 (z : Z) : Z := (z + 2 ^ 63) mod 2 ^ 64 - 2 ^ 63.

Definition in_u8 (z : Z) : Prop := 0 <= z < 2 ^ 8.
Definition in_u16 (z : Z) : Prop := 0 <= z < 2 ^ 16.
Definition in_u32 (z : Z) : Prop := 0 <= z < 2 ^ 32.
Definition in_u64 (z : Z) : Prop := 0 <= z < 2 ^ 64.
Definition in_i32 (z : Z) : Prop := - 2 ^ 31 <= z < 2 ^ 31.

(** Casts and bounds, unfolded and closed with [lia]. *)
Ltac unfold_ints :=
  unfold u8, u16, u32, u64, i32, i64, in_u8, in_u16, in_u32, in_u64, in_i32 in *;
  change (2 ^ 8) with 256 in *; change (2 ^ 16) with 65536 in *;
  change (2 ^ 31) with 2147483648 in *; change (2 ^ 32) with 4294967296 in *;
  change (2 ^ 63) with 9223372036854775808 in *;
  change (2 ^ 64) with 18446744073709551616 in *.
Ltac int_solve := unfold_ints; Z.div_mod_to_equations; lia.

(** Case split on the boolean tests of a goal, turning them into
    propositions. *)
Ltac bool_cases :=
  repeat match goal with
  | |- context [(?a <? ?b)] => destruct (Z.ltb_spec a b)
  | |- context [(?a <=? ?b)] => destruct (Z.leb_spec a b)
  | |- context [(?a =? ?b)] => destruct (Z.eqb_spec a b)
  end.

Create HintDb helyim.
Create Rewrite HintDb len.

Lemma u8_id z : in_u8 z -> u8 z = z.
Proof. int_solve. Qed.
Lemma u16_id z : in_u16 z -> u16 z = z.
Proof. int_solve. Qed.
Lemma u32_id z : in_u32 z -> u32 z = z.
Proof. int_solve. Qed.
Lemma u64_id z : in_u64 z -> u64 z = z.
Proof. int_solve. Qed.
Lemma u32_range z : in_u32 (u32 z).
Proof. int_solve. Qed.
Lemma i32_range z : in_i32 (i32 z).
Proof. int_solve. Qed.
Lemma i32_u32 z : in_i32 z -> i32 (u32 z) = z.
Proof. int_solve. Qed.
Lemma u32_nonneg_i32 z : 0 <= z -> in_i32 z -> u32 z = z.
Proof. int_solve. Qed.
#[export] Hint Resolve u8_id u16_id u32_id u64_id u32_range i32_range i32_u32 : helyim.

(** ** Bytes *)

Abbreviation byte := Byte.byte.

Definition b2z (b : byte) : Z := Z.of_N (Byte.to_N b).
Definition z2b (z : Z) : byte :=
  match Byte.of_N (Z.to_N (z mod 256)) with Some b => b | None => Byte.x00 end.

Lemma b2z_range b : 0 <= b2z b < 256.
Proof. unfold b2z. pose proof (Byte.to_N_bounded b). lia. Qed.

Lemma b2z_z2b z : b2z (z2b z) = z mod 256.
Proof.
  unfold b2z, z2b.
  destruct (Byte.of_N (Z.to_N (z mod 256))) as [b|] eqn:E.
  - apply Byte.to_of_N in E. rewrite E. rewrite Z2N.id; [done|].
    apply Z.mod_pos_bound. lia.
  - apply Byte.of_N_None_iff in E. pose proof (Z.mod_pos_bound z 256). lia.
Qed.

Lemma b2z_inj a b : b2z a = b2z b -> a = b.
Proof.
  unfold b2z. intros H. apply N2Z.inj in H.
  pose proof (Byte.of_to_N a) as Ha. pose proof (Byte.of_to_N b) as Hb.
  rewrite H in Ha. congruence.
Qed.

Lemma z2b_b2z b : z2b (b2z b) = b.
Proof.
  apply b2z_inj. rewrite b2z_z2b. apply Z.mod_small, b2z_range.
Qed.

#[export] Instance byte_eq_dec : EqDecision byte.
Proof. intros x y. unfold Decision. apply Byte.byte_eq_dec. Defined.

(** ** Big-endian integers: [BufMut::put_uN] and [Buf::get_uN] *)

Fixpoint be_bytes (n : nat) (z : Z) : list byte :=
  match n with
  | O => []
  | S k => be_bytes k (z / 256) ++ [z2b z]
  end.

Definition be_val (l : list byte) : Z :=
  fold_left (fun a b => a * 256 + b2z b) l 0.

Lemma be_bytes_length n z : length (be_bytes n z) = n.
Proof. revert z; induction n; intros; simpl; [done|]. rewrite length_app, IHn. simpl. lia. Qed.

Lemma be_val_snoc l b : be_val (l ++ [b]) = be_val l * 256 + b2z b.
Proof. unfold be_val. by rewrite fold_left_app. Qed.

Lemma be_val_bytes_mod n z : be_val (be_bytes n z) = z mod 256 ^ Z.of_nat n.
Proof.
  revert z; induction n as [|n IH]; intros z.
  - simpl. by rewrite Z.mod_1_r.
  - cbn [be_bytes]. rewrite be_val_snoc, IH, b2z_z2b.
    replace (Z.of_nat (S n)) with (Z.of_nat n + 1) by lia.
    rewrite Z.pow_add_r by lia. rewrite Z.pow_1_r.
    rewrite (Z.mul_comm (256 ^ Z.of_nat n)).
    rewrite Z.rem_mul_r by (try lia; apply Z.pow_pos_nonneg; lia). lia.
Qed.

Lemma be_val_bytes n z : 0 <= z < 256 ^ Z.of_nat n -> be_val (be_bytes n z) = z.
Proof. intros H. rewrite be_val_bytes_mod. by apply Z.mod_small. Qed.

Lemma be_val_range l : 0 <= be_val l < 256 ^ Z.of_nat (length l).
Proof.
  induction l as [|b l IH] using rev_ind; [cbn; lia|].
  rewrite be_val_snoc, length_app. simpl length.
  replace (Z.of_nat (length l + 1)) with (Z.of_nat (length l) + 1) by lia.
  rewrite Z.pow_add_r by lia. pose proof (b2z_range b). lia.
Qed.

Lemma z2b_mod z : z2b (z mod 256) = z2b z.
Proof. unfold z2b. by rewrite Z.mod_mod by lia. Qed.

Lemma be_bytes_val l : be_bytes (length l) (be_val l) = l.
Proof.
  induction l as [|b l IH] using rev_ind; [done|].
  rewrite length_app. simpl length. rewrite Nat.add_1_r. cbn [be_bytes].
  rewrite be_val_snoc. pose proof (b2z_range b).
  replace ((be_val l * 256 + b2z b) / 256) with (be_val l)
    by (Z.div_mod_to_equations; lia).
  rewrite IH. f_equal. f_equal. rewrite <- (z2b_b2z b) at 2.
  rewrite <- z2b_mod. f_equal. Z.div_mod_to_equations; lia.
Qed.

Definition put_u8 (z : Z) : list byte := [z2b z].
Definition put_u16 (z : Z) : list byte := be_bytes 2 z.
Definition put_u32 (z : Z) : list byte := be_bytes 4 z.
Definition put_i32 (z : Z) : list byte := be_bytes 4 (u32 z).
Definition put_u64 (z : Z) : list byte := be_bytes 8 z.

(** ** Slices: [&l[a..b]], [None] when the bounds are out of range *)

Definition len {A} (l : list A) : Z := Z.of_nat (length l).

Definition slice {A} (l : list A) (a b : Z) : option (list A) :=
  if (0 <=? a) && (a <=? b) && (b <=? len l)
  then Some (take (Z.to_nat (b - a)) (drop (Z.to_nat a) l))
  else None.

Lemma len_app {A} (l k : list A) : len (l ++ k) = len l + len k.
Proof. unfold len. rewrite length_app. lia. Qed.
Lemma len_nil {A} : len (@nil A) = 0.
Proof. done. Qed.
Lemma len_cons {A} (x : A) l : len (x :: l) = 1 + len l.
Proof. unfold len. simpl. lia. Qed.
Lemma len_nonneg {A} (l : list A) : 0 <= len l.
Proof. unfold len. lia. Qed.
Lemma len_be_bytes n z : len (be_bytes n z) = Z.of_nat n.
Proof. unfold len. by rewrite be_bytes_length. Qed.
Lemma len_replicate {A} n (x : A) : len (replicate n x) = Z.of_nat n.
Proof. unfold len. by rewrite length_replicate. Qed.
#[export] Hint Rewrite @len_app @len_nil @len_cons @len_be_bytes @len_replicate : len.

(** The middle of three concatenated pieces. *)
Lemma slice_app_mid {A} (p m s : list A) a b :
  a = len p -> b = len p + len m -> slice (p ++ m ++ s) a b = Some m.
Proof.
  intros -> ->. unfold slice.
  pose proof (len_nonneg p). pose proof (len_nonneg m). pose proof (len_nonneg s).
  rewrite !len_app.
  rewrite (proj2 (Z.leb_le _ _)) by lia. rewrite (proj2 (Z.leb_le _ _)) by lia.
  rewrite (proj2 (Z.leb_le _ _)) by lia. simpl. f_equal.
  replace (Z.to_nat (len p)) with (length p) by (unfold len; lia).
  replace (Z.to_nat (len p + len m - len p)) with (length m) by (unfold len; lia).
  rewrite drop_app_length. by rewrite take_app_length.
Qed.

Lemma slice_full {A} (l : list A) : slice l 0 (len l) = Some l.
Proof.
  rewrite <- (app_nil_r l) at 1. change (l ++ []) with ([] ++ l ++ []).
  apply slice_app_mid; done.
Qed.

Lemma slice_len {A} (l m : list A) a b :
  slice l a b = Some m -> 0 <= a <= b /\ b <= len l /\ len m = b - a.
Proof.
  unfold slice.
  destruct (Z.leb_spec 0 a); [|done]. destruct (Z.leb_spec a b); [|done].
  destruct (Z.leb_spec b (len l)); [|done]. simpl. intros [= <-].
  repeat split; [lia..|]. unfold len in *.
  rewrite length_take, length_drop. lia.
Qed.
