(* ===== verification/Types.v ===== *)
(** * Needle offsets and sizes ([storage/types.rs])

    [Offset] counts units of eight bytes in the data file, [Size] is the length
    of a needle's body; a negative size is a tombstone. *)

From S2P Require Import Prelude.

(** The constants of [storage/needle/mod.rs]. *)
Definition TOMBSTONE_FILE_SIZE : Z := -1.
Definition NEEDLE_HEADER_SIZE : Z := 16.
Definition NEEDLE_PADDING_SIZE : Z := 8.
Definition NEEDLE_ID_SIZE : Z := 8.
Definition OFFSET_SIZE : Z := 4.
Definition SIZE_SIZE : Z := 4.
Definition NEEDLE_ENTRY_SIZE : Z := NEEDLE_ID_SIZE + OFFSET_SIZE + SIZE_SIZE.
Definition NEEDLE_CHECKSUM_SIZE : Z := 4.
Definition NEEDLE_INDEX_SIZE : Z := 16.
Definition MAX_POSSIBLE_VOLUME_SIZE : Z := 4 * 1024 * 1024 * 1024 * 8.
Definition LAST_MODIFIED_BYTES_LENGTH : Z := 8.
Definition TTL_BYTES_LENGTH : Z := 2.
Definition VERSION2 : Z := 2.
Definition CURRENT_VERSION : Z := VERSION2.

Module Offset.

(** [Offset::actual_offset]: the product is a [u32]. *)
Definition actual_offset (o : Z) : Z := u32 (o * NEEDLE_PADDING_SIZE).

(** [From<u64> for Offset]: the cast binds tighter than the division. *)
Definition from_u64 (value : Z) : Z := u32 value / NEEDLE_PADDING_SIZE.

Lemma from_u64_range v : 0 <= from_u64 v < 2 ^ 29.
Proof. unfold from_u64, NEEDLE_PADDING_SIZE. int_solve. Qed.

Lemma actual_from v :
  0 <= v < 2 ^ 32 -> v mod 8 = 0 -> actual_offset (from_u64 v) = v.
Proof. unfold from_u64, actual_offset, NEEDLE_PADDING_SIZE. int_solve. Qed.

Lemma actual_from_mod v :
  0 <= v -> v mod 8 = 0 -> actual_offset (from_u64 v) = v mod 2 ^ 32.
Proof. unfold from_u64, actual_offset, NEEDLE_PADDING_SIZE. int_solve. Qed.

Lemma from_nonzero v : 8 <= v < 2 ^ 32 -> from_u64 v <> 0.
Proof. unfold from_u64, NEEDLE_PADDING_SIZE. int_solve. Qed.

End Offset.

Module Size.

Definition is_deleted (s : Z) : bool := (s <? 0) || (s =? TOMBSTONE_FILE_SIZE).

Definition padding_len (s : Z) : Z :=
  u32 (NEEDLE_PADDING_SIZE
       - u32 (u32 (NEEDLE_HEADER_SIZE + u32 s) + NEEDLE_CHECKSUM_SIZE) mod NEEDLE_PADDING_SIZE).

Definition actual_size (s : Z) : Z :=
  u32 (u32 (u32 (NEEDLE_HEADER_SIZE + u32 s) + NEEDLE_CHECKSUM_SIZE) + padding_len s).

(** The sizes for which no intermediate sum leaves [u32]. *)
Definition valid (s : Z) : Prop := 0 <= s < 2 ^ 31.

Lemma padding_len_bounds s : 1 <= padding_len s <= 8.
Proof.
  unfold padding_len, NEEDLE_PADDING_SIZE, NEEDLE_HEADER_SIZE, NEEDLE_CHECKSUM_SIZE.
  int_solve.
Qed.

Lemma actual_size_eq s : valid s -> actual_size s = 20 + s + padding_len s.
Proof.
  intros Hv. unfold actual_size. pose proof (padding_len_bounds s).
  unfold valid, NEEDLE_HEADER_SIZE, NEEDLE_CHECKSUM_SIZE in *. int_solve.
Qed.

Lemma actual_size_aligned s : valid s -> actual_size s mod 8 = 0.
Proof.
  intros Hv. rewrite actual_size_eq by done.
  unfold valid, padding_len, NEEDLE_PADDING_SIZE, NEEDLE_HEADER_SIZE, NEEDLE_CHECKSUM_SIZE in *.
  int_solve.
Qed.

Lemma valid_not_deleted s : valid s -> is_deleted s = false.
Proof. unfold valid, is_deleted, TOMBSTONE_FILE_SIZE. intros. bool_cases; simpl; lia. Qed.

Lemma valid_i32 s : valid s -> in_i32 s.
Proof. unfold valid. int_solve. Qed.

End Size.

#[export] Hint Resolve Size.valid_not_deleted Size.valid_i32 Size.actual_size_aligned : helyim.

(** ** The properties of the component *)

(** C34: storing an aligned file position as an [Offset] and expanding it again
    is the identity exactly below 4 GiB; at and above it the position is
    reduced modulo 2^32, although [MAX_POSSIBLE_VOLUME_SIZE] is 32 GiB. *)
Theorem offset_roundtrip_iff : forall v,
  0 <= v < MAX_POSSIBLE_VOLUME_SIZE -> v mod NEEDLE_PADDING_SIZE = 0 ->
  (Offset.actual_offset (Offset.from_u64 v) = v <-> v < 2 ^ 32).
Proof.
  intros v Hv Ha. unfold NEEDLE_PADDING_SIZE, MAX_POSSIBLE_VOLUME_SIZE in *.
  rewrite Offset.actual_from_mod by lia. int_solve.
Qed.

Lemma offset_roundtrip_iff_witness :
  (Offset.actual_offset (Offset.from_u64 4096) = 4096 <-> 4096 < 2 ^ 32)
  /\ Offset.actual_offset (Offset.from_u64 (2 ^ 32 + 8)) = 8.
Proof.
  split; [|vm_compute; reflexivity].
  apply (offset_roundtrip_iff 4096); [split; vm_compute; congruence | reflexivity].
Defined.

(** The space a needle occupies covers header, body and checksum, is a
    multiple of the padding unit, and wastes between one and eight bytes. *)
Theorem actual_size_spec : forall s,
  Size.valid s ->
  Size.actual_size s = NEEDLE_HEADER_SIZE + s + NEEDLE_CHECKSUM_SIZE + Size.padding_len s
  /\ Size.actual_size s mod NEEDLE_PADDING_SIZE = 0
  /\ 1 <= Size.padding_len s <= NEEDLE_PADDING_SIZE.
Proof.
  intros s Hs. split; [|split].
  - rewrite Size.actual_size_eq by done. unfold NEEDLE_HEADER_SIZE, NEEDLE_CHECKSUM_SIZE. lia.
  - by apply Size.actual_size_aligned.
  - apply Size.padding_len_bounds.
Qed.

Lemma actual_size_spec_witness : Size.actual_size 11 = 32 /\ Size.actual_size 11 mod 8 = 0.
Proof.
  split; [vm_compute; reflexivity|].
  apply (actual_size_spec 11). unfold Size.valid. lia.
Defined.
