(* ===== verification/Text.v ===== *)
(** * Text: the parts of [core::str], [core::num] and [core::fmt] the code uses

    A [&str] is its sequence of bytes, a Rocq [string]; [str::len] is the byte
    length and a slice at a byte that is not a character boundary panics. *)

From S2P Require Import Prelude.
From Stdlib Require Import Ascii.

#[local] Open Scope string_scope.
#[local] Open Scope Z_scope.

Definition zchar (c : ascii) : Z := Z.of_nat (nat_of_ascii c).
Definition chars (s : string) : list ascii := String.list_ascii_of_string s.
Definition str_len (s : string) : Z := Z.of_nat (String.length s).
Definition is_empty (s : string) : bool := bool_decide (s = "").

(** UTF-8 continuation bytes are [10xxxxxx]. *)
Definition is_continuation (c : ascii) : bool := (128 <=? zchar c) && (zchar c <? 192).

Definition is_char_boundary (s : string) (i : Z) : bool :=
  if (i =? 0) || (i =? str_len s) then true
  else match String.get (Z.to_nat i) s with
       | Some c => negb (is_continuation c)
       | None => false
       end.

(** [&s[a..b]] *)
Definition str_slice (s : string) (a b : Z) : option string :=
  if (0 <=? a) && (a <=? b) && (b <=? str_len s) && is_char_boundary s a && is_char_boundary s b
  then Some (String.substring (Z.to_nat a) (Z.to_nat (b - a)) s)
  else None.

(** [str::find(c)] for an ASCII character: byte index of the first occurrence. *)
Fixpoint str_find (c : ascii) (s : string) : option Z :=
  match s with
  | String.EmptyString => None
  | String.String d t => if Ascii.eqb c d then Some 0 else option_map Z.succ (str_find c t)
  end.

(** [str::rfind(c)] *)
Fixpoint str_rfind (c : ascii) (s : string) : option Z :=
  match s with
  | String.EmptyString => None
  | String.String d t =>
      match str_rfind c t with
      | Some i => Some (Z.succ i)
      | None => if Ascii.eqb c d then Some 0 else None
      end
  end.

Inductive parse_int_error := PieEmpty | PieInvalidDigit | PiePosOverflow | PieNegOverflow.

(** [char::to_digit(radix)] *)
Definition to_digit (radix : Z) (c : ascii) : option Z :=
  let z := zchar c in
  let d := if (48 <=? z) && (z <=? 57) then z - 48
           else if (97 <=? z) && (z <=? 122) then z - 87
           else if (65 <=? z) && (z <=? 90) then z - 55
           else radix in
  if d <? radix then Some d else None.

(** [char::from_digit(d, radix)], lower case *)
Definition from_digit (d : Z) : ascii :=
  ascii_of_nat (Z.to_nat (if d <? 10 then d + 48 else d + 87)).

(** The digit loop of [from_str_radix] for an unsigned type below [bound]. *)
Fixpoint digits_value (radix bound acc : Z) (s : list ascii) : outcome parse_int_error Z :=
  match s with
  | [] => Ok acc
  | c :: s' =>
      match to_digit radix c with
      | None => Err PieInvalidDigit
      | Some d =>
          if acc * radix + d <? bound then digits_value radix bound (acc * radix + d) s'
          else Err PiePosOverflow
      end
  end.

(** [uN::from_str_radix]: one leading [+] is accepted, a lone sign is not. *)
Definition from_str_radix (radix bound : Z) (s : string) : outcome parse_int_error Z :=
  match chars s with
  | [] => Err PieEmpty
  | c :: rest =>
      if Ascii.eqb c "+" then
        match rest with
        | [] => Err PieInvalidDigit
        | _ => digits_value radix bound 0 rest
        end
      else digits_value radix bound 0 (c :: rest)
  end.

Definition parse_u8 := from_str_radix 10 (2 ^ 8).
Definition parse_u16 := from_str_radix 10 (2 ^ 16).
Definition parse_u32 := from_str_radix 10 (2 ^ 32).
Definition parse_u64 := from_str_radix 10 (2 ^ 64).

(** [i64::from_str]: also one leading [-]. *)
Definition parse_i64 (s : string) : outcome parse_int_error Z :=
  match chars s with
  | [] => Err PieEmpty
  | c :: rest =>
      if Ascii.eqb c "-" then
        match rest with
        | [] => Err PieInvalidDigit
        | _ => match digits_value 10 (2 ^ 63 + 1) 0 rest with
               | Ok n => Ok (- n)
               | Err PiePosOverflow => Err PieNegOverflow
               | r => r
               end
        end
      else from_str_radix 10 (2 ^ 63) s
  end.

(** [{}] and [{:x}] of an unsigned integer; [fuel] bounds the digits. *)
Fixpoint digits (radix : Z) (fuel : nat) (z : Z) : list Z :=
  match fuel with
  | O => []
  | S k => if z <? radix then [z] else (digits radix k (z / radix) ++ [z mod radix])%list
  end.

Definition fmt_digits (ds : list Z) : string := String.string_of_list_ascii (map from_digit ds).

(** 64 digits are enough for any machine integer in any radix. *)
Definition fmt_dec (z : Z) : string := fmt_digits (digits 10 64 z).
Definition fmt_hex (z : Z) : string := fmt_digits (digits 16 64 z).

(** [{:0w$}] and [{:0w$x}] *)
Definition pad_left (w : nat) (ds : list Z) : list Z := (replicate (w - length ds) 0 ++ ds)%list.
Definition fmt_dec_pad (w : nat) (z : Z) : string := fmt_digits (pad_left w (digits 10 64 z)).
Definition fmt_hex_pad (w : nat) (z : Z) : string := fmt_digits (pad_left w (digits 16 64 z)).

(** ** Digits *)

Lemma to_from_digit radix d :
  0 <= d < radix -> radix <= 16 -> to_digit radix (from_digit d) = Some d.
Proof.
  intros Hd Hr. unfold to_digit, from_digit, zchar.
  assert (Z.of_nat (nat_of_ascii (ascii_of_nat (Z.to_nat (if d <? 10 then d + 48 else d + 87))))
          = if d <? 10 then d + 48 else d + 87) as ->.
  { rewrite nat_ascii_embedding; [|bool_cases; lia]. bool_cases; lia. }
  destruct (Z.ltb_spec d 10).
  - rewrite (proj2 (Z.leb_le 48 (d + 48))), (proj2 (Z.leb_le (d + 48) 57)) by lia. simpl.
    rewrite (proj2 (Z.ltb_lt _ _)) by lia. f_equal. lia.
  - rewrite (proj2 (Z.leb_le 48 (d + 87))), (proj2 (Z.leb_gt (d + 87) 57)) by lia.
    rewrite (proj2 (Z.leb_le 97 (d + 87))), (proj2 (Z.leb_le (d + 87) 122)) by lia. simpl.
    rewrite (proj2 (Z.ltb_lt _ _)) by lia. f_equal. lia.
Qed.

Lemma zchar_from_digit d : 0 <= d < 16 -> zchar (from_digit d) = if d <? 10 then d + 48 else d + 87.
Proof.
  intros. unfold zchar, from_digit.
  rewrite nat_ascii_embedding; bool_cases; lia.
Qed.

Definition digits_num (radix : Z) (ds : list Z) : Z :=
  fold_left (fun a d => a * radix + d) ds 0.

Lemma digits_num_snoc radix ds d : digits_num radix (ds ++ [d])%list = digits_num radix ds * radix + d.
Proof. unfold digits_num. by rewrite fold_left_app. Qed.

Lemma digits_range radix fuel z :
  2 <= radix -> 0 <= z -> Forall (fun d => 0 <= d < radix) (digits radix fuel z).
Proof.
  intros Hr. revert z. induction fuel as [|k IH]; intros z Hz; simpl; [constructor|].
  destruct (Z.ltb_spec z radix).
  - repeat constructor; lia.
  - apply Forall_app. split; [apply IH; apply Z.div_pos; lia|].
    constructor; [|constructor]. apply Z.mod_pos_bound. lia.
Qed.

Lemma digits_value_ok radix fuel z :
  2 <= radix -> 0 <= z < radix ^ Z.of_nat fuel -> digits_num radix (digits radix fuel z) = z.
Proof.
  intros Hr. revert z. induction fuel as [|k IH]; intros z Hz.
  - simpl in *. unfold digits_num. simpl. lia.
  - cbn [digits]. destruct (Z.ltb_spec z radix); [done|].
    rewrite digits_num_snoc, IH.
    + Z.div_mod_to_equations; nia.
    + rewrite Nat2Z.inj_succ, Z.pow_succ_r in Hz by lia.
      split; [apply Z.div_pos; lia|]. apply Z.div_lt_upper_bound; lia.
Qed.

Lemma digits_length_bound radix fuel z k :
  2 <= radix -> 0 <= z < radix ^ Z.of_nat k -> (1 <= k)%nat -> (length (digits radix fuel z) <= k)%nat.
Proof.
  intros Hr. revert z k. induction fuel as [|f IH]; intros z k Hz Hk; simpl; [lia|].
  destruct (Z.ltb_spec z radix); [simpl; lia|].
  rewrite length_app. simpl.
  destruct k as [|[|k]]; [lia| |].
  - simpl in Hz. lia.
  - assert (length (digits radix f (z / radix)) <= S k)%nat; [|lia].
    apply IH; [|lia]. rewrite Nat2Z.inj_succ, Z.pow_succ_r in Hz by lia.
    split; [apply Z.div_pos; lia|]. apply Z.div_lt_upper_bound; lia.
Qed.

Lemma digits_nonempty radix fuel z : (1 <= fuel)%nat -> digits radix fuel z <> [].
Proof.
  destruct fuel; [lia|]. intros _. simpl. destruct (z <? radix); [done|].
  intros H. by apply app_eq_nil in H as [_ ?].
Qed.

Lemma digits_num_acc radix ds a :
  fold_left (fun x d => x * radix + d) ds a = a * radix ^ len ds + digits_num radix ds.
Proof.
  revert a. induction ds as [|d ds IH] using rev_ind; intros a.
  - simpl. unfold digits_num. simpl. rewrite len_nil. lia.
  - rewrite fold_left_app. simpl. rewrite IH, digits_num_snoc.
    autorewrite with len. rewrite Z.add_0_r, Z.pow_add_r by (try lia; apply len_nonneg). lia.
Qed.

Lemma digits_num_app radix xs ys :
  digits_num radix (xs ++ ys)%list = digits_num radix xs * radix ^ len ys + digits_num radix ys.
Proof. unfold digits_num at 1. rewrite fold_left_app. apply digits_num_acc. Qed.

Lemma digits_num_nonneg radix ds :
  2 <= radix -> Forall (fun d => 0 <= d < radix) ds -> 0 <= digits_num radix ds.
Proof.
  intros Hr. induction ds as [|d ds IH] using rev_ind; intros H; [unfold digits_num; simpl; lia|].
  rewrite digits_num_snoc. apply Forall_app in H as [H1 H2].
  inversion H2; subst. specialize (IH H1). nia.
Qed.

(** Printing digits and reading them back. *)
Lemma digits_value_map radix bound ds a :
  2 <= radix <= 16 -> Forall (fun d => 0 <= d < radix) ds -> 0 <= a ->
  fold_left (fun x d => x * radix + d) ds a < bound ->
  digits_value radix bound a (map from_digit ds)
  = Ok (fold_left (fun x d => x * radix + d) ds a).
Proof.
  intros Hr. revert a. induction ds as [|d ds IH]; intros a Hd Ha Hb; simpl in *; [done|].
  inversion Hd as [|? ? Hd1 Hd2]; subst.
  rewrite to_from_digit by lia.
  assert (Hle : a * radix + d <= fold_left (fun x d => x * radix + d) ds (a * radix + d)).
  { rewrite digits_num_acc. pose proof (digits_num_nonneg radix ds ltac:(lia) Hd2).
    pose proof (Z.pow_pos_nonneg radix (len ds) ltac:(lia) (len_nonneg _)). nia. }
  rewrite (proj2 (Z.ltb_lt _ _)) by lia. apply IH; auto; lia.
Qed.

Lemma chars_fmt_digits ds : chars (fmt_digits ds) = map from_digit ds.
Proof. unfold chars, fmt_digits. by rewrite String.list_ascii_of_string_of_list_ascii. Qed.

Lemma fmt_digits_app xs ys : fmt_digits (xs ++ ys)%list = fmt_digits xs ++ fmt_digits ys.
Proof.
  unfold fmt_digits. induction xs as [|x xs IH]; [done|].
  cbn [map app String.string_of_list_ascii]. by rewrite IH.
Qed.

Lemma from_digit_not_plus d : 0 <= d < 16 -> Ascii.eqb (from_digit d) "+" = false.
Proof.
  intros H. apply Ascii.eqb_neq. intros E. apply (f_equal zchar) in E.
  rewrite zchar_from_digit in E by done. revert E.
  change (zchar "+") with 43. bool_cases; lia.
Qed.

Lemma from_str_radix_digits radix bound ds :
  2 <= radix <= 16 -> Forall (fun d => 0 <= d < radix) ds -> ds <> [] ->
  digits_num radix ds < bound ->
  from_str_radix radix bound (fmt_digits ds) = Ok (digits_num radix ds).
Proof.
  intros Hr Hd Hne Hb. unfold from_str_radix. rewrite chars_fmt_digits.
  destruct ds as [|d ds]; [done|]. cbn [map].
  assert (Ascii.eqb (from_digit d) "+" = false) as ->.
  { apply from_digit_not_plus. inversion Hd; subst. lia. }
  change (from_digit d :: map from_digit ds) with (map from_digit (d :: ds)).
  apply digits_value_map; auto; lia.
Qed.

Lemma str_len_fmt_digits ds : str_len (fmt_digits ds) = len ds.
Proof.
  unfold str_len, fmt_digits, len. induction ds; simpl; [done|]. lia.
Qed.

Lemma digits_num_pad radix w ds : digits_num radix (pad_left w ds) = digits_num radix ds.
Proof.
  unfold pad_left. rewrite digits_num_app.
  assert (digits_num radix (replicate (w - length ds) 0) = 0) as ->; [|lia].
  induction (w - length ds)%nat as [|n IH]; [done|].
  rewrite replicate_S_end, digits_num_snoc, IH. lia.
Qed.

Lemma pad_left_length w ds : length (pad_left w ds) = Nat.max w (length ds).
Proof. unfold pad_left. rewrite length_app, length_replicate. lia. Qed.

Lemma pad_left_range radix w ds :
  2 <= radix -> Forall (fun d => 0 <= d < radix) ds ->
  Forall (fun d => 0 <= d < radix) (pad_left w ds).
Proof.
  intros Hr H. unfold pad_left. apply Forall_app. split; [|done].
  apply Forall_replicate. lia.
Qed.

(** Slicing an ASCII text built from two parts. *)
Lemma string_length_app s t : String.length (s ++ t) = (String.length s + String.length t)%nat.
Proof. induction s; simpl; [done|]. by rewrite IHs. Qed.

Lemma substring_app_l s t : String.substring 0 (String.length s) (s ++ t) = s.
Proof. induction s; simpl; [by destruct t|]. by rewrite IHs. Qed.

Lemma substring_all s : String.substring 0 (String.length s) s = s.
Proof. induction s; simpl; [done|]. by rewrite IHs. Qed.

Lemma substring_app_r s t : String.substring (String.length s) (String.length t) (s ++ t) = t.
Proof. induction s; simpl; [apply substring_all|]. done. Qed.

Definition is_ascii (c : ascii) : Prop := zchar c < 128.

Lemma is_char_boundary_ascii s i :
  Forall is_ascii (chars s) -> 0 <= i <= str_len s -> is_char_boundary s i = true.
Proof.
  intros Ha Hi. unfold is_char_boundary.
  destruct (Z.eqb_spec i 0); [done|]. destruct (Z.eqb_spec i (str_len s)); [done|]. simpl.
  destruct (String.get (Z.to_nat i) s) as [c|] eqn:E.
  - assert (Hc : is_ascii c).
    { clear -Ha E. revert E. generalize (Z.to_nat i). induction s as [|d s IH]; intros n E; [done|].
      simpl in Ha. inversion Ha; subst. destruct n; simpl in E; [by simplify_eq|]. eauto. }
    unfold is_continuation, is_ascii in *. by rewrite (proj2 (Z.leb_gt _ _)) by lia.
  - exfalso. unfold str_len in *. assert (Hl : (Z.to_nat i < String.length s)%nat) by lia.
    clear -E Hl. revert E Hl. generalize (Z.to_nat i).
    induction s; intros n E Hl; simpl in *; [lia|]. destruct n; [done|]. eapply IHs; eauto. lia.
Qed.

Lemma chars_app s t : chars (s ++ t) = (chars s ++ chars t)%list.
Proof. unfold chars. induction s; simpl; [done|]. by rewrite IHs. Qed.

Lemma str_len_app s t : str_len (s ++ t) = str_len s + str_len t.
Proof. unfold str_len. rewrite string_length_app. lia. Qed.

Lemma str_len_nonneg s : 0 <= str_len s.
Proof. unfold str_len. lia. Qed.

Lemma str_slice_app_l s t :
  Forall is_ascii (chars (s ++ t)) -> str_slice (s ++ t) 0 (str_len s) = Some s.
Proof.
  intros Ha. unfold str_slice. pose proof (str_len_nonneg s). pose proof (str_len_nonneg t).
  rewrite !is_char_boundary_ascii by (try done; rewrite ?str_len_app; lia).
  rewrite (proj2 (Z.leb_le _ _)) by lia. rewrite (proj2 (Z.leb_le _ _)) by lia.
  rewrite (proj2 (Z.leb_le _ _)) by (rewrite str_len_app; lia). simpl. f_equal.
  rewrite Z.sub_0_r. unfold str_len. rewrite Nat2Z.id. apply substring_app_l.
Qed.

Lemma str_slice_app_r s t :
  Forall is_ascii (chars (s ++ t)) -> str_slice (s ++ t) (str_len s) (str_len (s ++ t)) = Some t.
Proof.
  intros Ha. unfold str_slice. pose proof (str_len_nonneg s). pose proof (str_len_nonneg t).
  rewrite !is_char_boundary_ascii by (try done; rewrite ?str_len_app; lia).
  rewrite (proj2 (Z.leb_le _ _)) by lia.
  rewrite (proj2 (Z.leb_le _ _)) by (rewrite str_len_app; lia).
  rewrite (proj2 (Z.leb_le _ _)) by lia. simpl. f_equal.
  rewrite str_len_app. replace (str_len s + str_len t - str_len s) with (str_len t) by lia.
  unfold str_len. rewrite !Nat2Z.id. apply substring_app_r.
Qed.

Lemma fmt_digits_ascii ds : Forall (fun d => 0 <= d < 16) ds -> Forall is_ascii (chars (fmt_digits ds)).
Proof.
  intros H. rewrite chars_fmt_digits. apply List.Forall_map.
  eapply Forall_impl; [exact H|]. intros d Hd. simpl in *. unfold is_ascii.
  rewrite zchar_from_digit by done. bool_cases; lia.
Qed.

Lemma append_assoc' (a b c : string) : ((a ++ b) ++ c)%string = (a ++ (b ++ c))%string.
Proof.
  induction a as [|x a IH]; [done|].
  change (String.String x ((a ++ b) ++ c) = String.String x (a ++ (b ++ c))). by rewrite IH.
Qed.

Lemma append_nil_r' (s : string) : (s ++ "")%string = s.
Proof.
  induction s as [|c s IH]; [done|].
  change (String.String c (s ++ "") = String.String c s). by rewrite IH.
Qed.

#[global] Arguments digits : simpl never.
#[global] Arguments fmt_dec : simpl never.
#[global] Arguments fmt_hex : simpl never.
#[global] Arguments fmt_hex_pad : simpl never.
