(* ===== verification/Ttl.v ===== *)
(** * Time-to-live values ([storage/ttl.rs]) *)

From S2P Require Import Prelude Text.
From Stdlib Require Import Ascii.
#[local] Open Scope string_scope.
#[local] Open Scope Z_scope.

Inductive unit_ := Empty | Minute | Hour | Day | Week | Month | Year.

#[export] Instance unit_eq_dec : EqDecision unit_.
Proof. solve_decision. Defined.

Inductive TtlError := InvalidUnit.

Module Unit.

(** [#[repr(u8)]]: the discriminants. *)
Definition to_u8 (u : unit_) : Z :=
  match u with
  | Empty => 0 | Minute => 1 | Hour => 2 | Day => 3 | Week => 4 | Month => 5 | Year => 6
  end.

Definition from_u8 (u : Z) : option unit_ :=
  match u with
  | 0 => Some Empty
  | 1 => Some Minute
  | 2 => Some Hour
  | 3 => Some Day
  | 4 => Some Week
  | 5 => Some Month
  | 6 => Some Year
  | _ => None
  end.

Definition new (u : ascii) : unit_ :=
  if Ascii.eqb u "h" then Hour
  else if Ascii.eqb u "d" then Day
  else if Ascii.eqb u "w" then Week
  else if Ascii.eqb u "M" then Month
  else if Ascii.eqb u "y" then Year
  else Minute.

Definition fmt (u : unit_) : string :=
  match u with
  | Minute => "m" | Hour => "h" | Day => "d" | Week => "w" | Month => "M" | Year => "y"
  | Empty => ""
  end.

Lemma from_to_u8 u : from_u8 (to_u8 u) = Some u.
Proof. by destruct u. Qed.

Lemma to_u8_range u : 0 <= to_u8 u <= 6.
Proof. destruct u; simpl; lia. Qed.

Lemma from_u8_Some z u : from_u8 z = Some u -> z = to_u8 u.
Proof.
  unfold from_u8.
  repeat match goal with
  | |- context [match ?z with _ => _ end] => destruct z; simpl; try congruence
  end; intros; simplify_eq; reflexivity.
Qed.

End Unit.

Record ttl := Ttl { ttl_count : Z; ttl_unit : unit_ }.

#[export] Instance ttl_eq_dec : EqDecision ttl.
Proof. solve_decision. Defined.

(** The errors of [Ttl::new]: nom's, and [ParseIntError]. *)
Inductive parse_ttl_error := NomError | ParseInt (e : parse_int_error).

Module Ttl.

Definition default : ttl := Ttl 0 Empty.

(** nom's [digit1]: the longest non-empty prefix of ASCII digits. *)
Fixpoint span_digits (s : list ascii) : list ascii * list ascii :=
  match s with
  | c :: t =>
      if (48 <=? zchar c) && (zchar c <=? 57)
      then let '(d, r) := span_digits t in (c :: d, r)
      else ([], s)
  | [] => ([], [])
  end.

Definition is_unit_char (c : ascii) : bool :=
  Ascii.eqb c "m" || Ascii.eqb c "h" || Ascii.eqb c "d"
  || Ascii.eqb c "w" || Ascii.eqb c "M" || Ascii.eqb c "y".

(** [parse_ttl]: the text left after the unit is ignored. *)
Definition parse_ttl (input : string) : outcome parse_ttl_error (Z * ascii) :=
  let '(ds, rest) := span_digits (chars input) in
  match ds with
  | [] => Err NomError
  | _ =>
      let u := match rest with
               | c :: _ => if is_unit_char c then c else "m"%char
               | [] => "m"%char
               end in
      let? n := map_err ParseInt (parse_u32 (String.string_of_list_ascii ds)) in
      Ok (n, u)
  end.

Definition new (s : string) : outcome parse_ttl_error ttl :=
  if bool_decide (s = "") then Ok default
  else let? p := parse_ttl s in
       Ok (Ttl (u8 p.1) (Unit.new p.2)).

(** [buf[1]] and [buf[0]] panic on a shorter slice. *)
Definition from_bytes (buf : list byte) : outcome TtlError ttl :=
  match buf with
  | b0 :: b1 :: _ =>
      match Unit.from_u8 (b2z b1) with
      | Some u => Ok (Ttl (b2z b0) u)
      | None => Err InvalidUnit
      end
  | _ => Panic
  end.

Definition as_bytes (t : ttl) : list byte := [z2b t.(ttl_count); z2b (Unit.to_u8 t.(ttl_unit))].

Definition from_u32 (value : Z) : outcome TtlError ttl :=
  from_bytes [z2b (Z.shiftr value 8); z2b value].

Definition to_u32 (t : ttl) : Z :=
  if t.(ttl_count) =? 0 then 0 else u32 (u32 (Z.shiftl t.(ttl_count) 8) + Unit.to_u8 t.(ttl_unit)).

(** [From<Ttl> for u32]: as [to_u32], without the test on the count. *)
Definition into_u32 (t : ttl) : Z := u32 (u32 (Z.shiftl t.(ttl_count) 8) + Unit.to_u8 t.(ttl_unit)).

Definition minutes (t : ttl) : Z :=
  match t.(ttl_unit) with
  | Empty => 0
  | Minute => t.(ttl_count)
  | Hour => u32 (t.(ttl_count) * 60)
  | Day => u32 (u32 (t.(ttl_count) * 60) * 24)
  | Week => u32 (u32 (u32 (t.(ttl_count) * 60) * 24) * 7)
  | Month => u32 (u32 (u32 (t.(ttl_count) * 60) * 24) * 31)
  | Year => u32 (u32 (u32 (t.(ttl_count) * 60) * 24) * 365)
  end.

Definition fmt (t : ttl) : string :=
  if t.(ttl_count) =? 0 then "" else fmt_dec t.(ttl_count) ++ Unit.fmt t.(ttl_unit).

Definition wf (t : ttl) : Prop := in_u8 t.(ttl_count).

(** *** Lemmas *)

Lemma as_bytes_length t : length (as_bytes t) = 2%nat.
Proof. done. Qed.

Lemma from_as_bytes t : wf t -> from_bytes (as_bytes t) = Ok t.
Proof.
  intros H. unfold from_bytes, as_bytes. rewrite !b2z_z2b.
  pose proof (Unit.to_u8_range (ttl_unit t)).
  rewrite (Z.mod_small (Unit.to_u8 _)) by lia. rewrite Unit.from_to_u8.
  rewrite Z.mod_small by exact H. by destruct t.
Qed.

Lemma shiftl8 c u : in_u8 c -> 0 <= u <= 6 -> u32 (u32 (Z.shiftl c 8) + u) = c * 256 + u.
Proof. intros. rewrite Z.shiftl_mul_pow2 by lia. int_solve. Qed.

Lemma from_into_u32 t : wf t -> from_u32 (into_u32 t) = Ok t.
Proof.
  intros H. unfold from_u32, into_u32. pose proof (Unit.to_u8_range (ttl_unit t)).
  rewrite shiftl8 by done. rewrite <- (from_as_bytes t H). f_equal. unfold as_bytes.
  f_equal; [|f_equal].
  - f_equal. rewrite Z.shiftr_div_pow2 by lia. change (2 ^ 8) with 256.
    Z.div_mod_to_equations; lia.
  - rewrite <- z2b_mod. rewrite <- (z2b_mod (Unit.to_u8 _)). f_equal. Z.div_mod_to_equations; lia.
Qed.

Lemma minutes_no_overflow t :
  wf t ->
  minutes t = match t.(ttl_unit) with
              | Empty => 0 | Minute => t.(ttl_count) | Hour => t.(ttl_count) * 60
              | Day => t.(ttl_count) * 1440 | Week => t.(ttl_count) * 10080
              | Month => t.(ttl_count) * 44640 | Year => t.(ttl_count) * 525600
              end.
Proof. unfold wf, minutes. destruct t as [c []]; simpl; intros; int_solve. Qed.

Lemma span_digits_app ds rest :
  Forall (fun d => 0 <= d < 10) ds ->
  match rest with [] => True | c :: _ => zchar c < 48 \/ 57 < zchar c end ->
  span_digits (map from_digit ds ++ rest)%list = (map from_digit ds, rest).
Proof.
  intros Hd Hr. induction ds as [|d ds IH]; simpl.
  - destruct rest as [|c r]; [done|]. simpl.
    destruct (Z.leb_spec 48 (zchar c)); [|done].
    destruct (Z.leb_spec (zchar c) 57); [lia|done].
  - inversion Hd; subst. rewrite zchar_from_digit by lia.
    rewrite (proj2 (Z.ltb_lt d 10)) by lia.
    rewrite (proj2 (Z.leb_le 48 _)), (proj2 (Z.leb_le _ 57)) by lia. simpl.
    by rewrite IH.
Qed.

(** Reading back what [fmt] prints, for a count that is not zero. *)
Lemma new_fmt t :
  wf t -> t.(ttl_count) <> 0 -> t.(ttl_unit) <> Empty -> new (fmt t) = Ok t.
Proof.
  intros Hw Hc Hu. unfold new, fmt. rewrite (proj2 (Z.eqb_neq _ _)) by done.
  destruct t as [c u]; simpl in *. unfold fmt_dec.
  set (ds := digits 10 64 c).
  assert (Hds : Forall (fun d => 0 <= d < 10) ds)
    by (apply digits_range; unfold wf in Hw; simpl in Hw; int_solve).
  assert (Hne : ds <> []) by (apply digits_nonempty; lia).
  assert (Hnum : digits_num 10 ds = c).
  { apply digits_value_ok; [lia|]. unfold wf in Hw. simpl in Hw.
    split; [int_solve|]. transitivity 256; [int_solve|vm_compute; reflexivity]. }
  rewrite bool_decide_eq_false_2.
  2:{ intros E. apply (f_equal String.length) in E. rewrite string_length_app in E. simpl in E.
      pose proof (str_len_fmt_digits ds) as E2. unfold str_len, len in E2.
      destruct ds; [done|simpl in *; lia]. }
  unfold parse_ttl. rewrite chars_app, chars_fmt_digits.
  rewrite span_digits_app; [|done|destruct u; simpl; try done; right; vm_compute; reflexivity].
  assert (Hp : parse_u32 (fmt_digits ds) = Ok c).
  { unfold parse_u32. rewrite from_str_radix_digits; [by rewrite Hnum|lia|done|done|].
    rewrite Hnum. unfold wf in Hw. simpl in Hw. int_solve. }
  clearbody ds. unfold fmt_digits in Hp.
  destruct (map from_digit ds) eqn:Em; [by destruct ds|].
  rewrite Hp. simpl. unfold wf in Hw. simpl in Hw. rewrite u8_id by done.
  f_equal. f_equal. by destruct u.
Qed.

End Ttl.

#[export] Hint Resolve Ttl.from_as_bytes : helyim.

(** The two encodings of a TTL (two bytes in a needle or super block, one
    [u32] in a heartbeat) are inverted by their decoders. *)
Theorem ttl_roundtrip : forall t,
  Ttl.wf t -> Ttl.from_bytes (Ttl.as_bytes t) = Ok t /\ Ttl.from_u32 (Ttl.into_u32 t) = Ok t.
Proof. intros t H. split; [by apply Ttl.from_as_bytes | by apply Ttl.from_into_u32]. Qed.

Lemma ttl_roundtrip_witness : Ttl.from_u32 (Ttl.into_u32 (Ttl 5 Year)) = Ok (Ttl 5 Year).
Proof. apply (ttl_roundtrip (Ttl 5 Year)). unfold Ttl.wf, in_u8. simpl. lia. Defined.

(** The text a TTL prints as parses back to it, and its length in minutes
    never overflows a [u32]. *)
Theorem ttl_text_roundtrip : forall t,
  Ttl.wf t -> t.(ttl_count) <> 0 -> t.(ttl_unit) <> Empty ->
  Ttl.new (Ttl.fmt t) = Ok t /\ 0 < Ttl.minutes t <= 255 * 525600.
Proof.
  intros t Hw Hc Hu. split; [by apply Ttl.new_fmt|].
  rewrite Ttl.minutes_no_overflow by done. destruct t as [c []]; unfold Ttl.wf in Hw; simpl in *;
    int_solve || done.
Qed.

Lemma ttl_text_roundtrip_witness : Ttl.new "50d" = Ok (Ttl 50 Day).
Proof.
  apply (ttl_text_roundtrip (Ttl 50 Day)); [unfold Ttl.wf, in_u8; simpl; lia | done | done].
Defined.
