(* ===== verification/Replica.v ===== *)
(** * Replica placement ([storage/volume/replica_placement.rs]) *)

From S2P Require Import Prelude Text.
From Stdlib Require Import Ascii.
#[local] Open Scope string_scope.
#[local] Open Scope Z_scope.

Record replica_placement := ReplicaPlacement {
  same_rack_count : Z;
  diff_rack_count : Z;
  diff_data_center_count : Z;
}.

#[export] Instance replica_placement_eq_dec : EqDecision replica_placement.
Proof. solve_decision. Defined.

(** [VolumeError::ReplicaPlacement] *)
Inductive replica_error := InvalidReplicaPlacement (s : string).

Module Replica.

Definition default : replica_placement := ReplicaPlacement 0 0 0.

Definition new (s : string) : outcome replica_error replica_placement :=
  match chars s with
  | [b0; b1; b2] =>
      Ok {| diff_data_center_count := u8 (zchar b0 - 48);
            diff_rack_count := u8 (zchar b1 - 48);
            same_rack_count := u8 (zchar b2 - 48) |}
  | _ => Err (InvalidReplicaPlacement s)
  end.

Definition from_u8 (u : Z) : outcome replica_error replica_placement :=
  new (fmt_dec_pad 3 u).

Definition copy_count (rp : replica_placement) : Z :=
  u8 (u8 (u8 (rp.(diff_data_center_count) + rp.(diff_rack_count)) + rp.(same_rack_count)) + 1).

(** [From<ReplicaPlacement> for u8] *)
Definition into_u8 (rp : replica_placement) : Z :=
  u8 (u8 (u8 (rp.(diff_data_center_count) * 100) + u8 (rp.(diff_rack_count) * 10))
      + rp.(same_rack_count)).

Definition fmt (rp : replica_placement) : string :=
  fmt_dec rp.(diff_data_center_count) ++ fmt_dec rp.(diff_rack_count)
  ++ fmt_dec rp.(same_rack_count).

(** Every digit field below ten, as the documentation of the type wants. *)
Definition digits_ok (rp : replica_placement) : Prop :=
  0 <= rp.(diff_data_center_count) < 10 /\ 0 <= rp.(diff_rack_count) < 10
  /\ 0 <= rp.(same_rack_count) < 10.

Definition round_trips (u : Z) : bool :=
  match from_u8 u with
  | Ok rp => (into_u8 rp =? u)
             && (rp.(diff_data_center_count) * 100 + rp.(diff_rack_count) * 10
                 + rp.(same_rack_count) =? u)
  | _ => false
  end.

Lemma round_trips_all : forallb (fun n => round_trips (Z.of_nat n)) (seq 0 256) = true.
Proof. vm_compute. reflexivity. Qed.

Lemma round_trips_u8 u : in_u8 u -> round_trips u = true.
Proof.
  intros Hu. pose proof round_trips_all as H. rewrite forallb_forall in H.
  specialize (H (Z.to_nat u)). rewrite Z2Nat.id in H by int_solve.
  apply H, in_seq. int_solve.
Qed.

Lemma from_u8_total u : in_u8 u -> exists rp, from_u8 u = Ok rp /\ into_u8 rp = u.
Proof.
  intros Hu. pose proof (round_trips_u8 u Hu) as H. unfold round_trips in H.
  destruct (from_u8 u) as [rp| |]; try done. exists rp. split; [done|].
  apply andb_prop in H as [H _]. by apply Z.eqb_eq.
Qed.

Lemma copy_count_digits rp :
  digits_ok rp ->
  copy_count rp = rp.(diff_data_center_count) + rp.(diff_rack_count) + rp.(same_rack_count) + 1.
Proof. intros [? [? ?]]. unfold copy_count. int_solve. Qed.

Lemma digits_small d : 0 <= d < 10 -> digits 10 64 d = [d].
Proof. intros. unfold digits. by rewrite (proj2 (Z.ltb_lt d 10)) by lia. Qed.

Lemma placement_new_fmt rp : digits_ok rp -> new (fmt rp) = Ok rp.
Proof.
  destruct rp as [s r d]. intros [Hd [Hr Hs]]. simpl in *.
  unfold new, fmt, fmt_dec. simpl diff_data_center_count. simpl diff_rack_count.
  simpl same_rack_count.
  rewrite !chars_app, !chars_fmt_digits, !digits_small by done. cbn [map app].
  rewrite !zchar_from_digit by lia.
  rewrite !(proj2 (Z.ltb_lt _ 10)) by lia. f_equal. f_equal; int_solve.
Qed.

(** Nothing is checked about the three characters. *)
Lemma new_total s : str_len s = 3 -> exists rp, new s = Ok rp.
Proof.
  unfold new, str_len. intros H.
  destruct s as [|a [|b [|c [|]]]]; simpl in *; try lia. eauto.
Qed.

Lemma from_u8_digits u q : in_u8 u -> from_u8 u = Ok q -> digits_ok q.
Proof.
  unfold from_u8, new, fmt_dec_pad. rewrite chars_fmt_digits. intros Hu.
  assert (Forall (fun d => 0 <= d < 10) (pad_left 3 (digits 10 64 u))) as F
    by (apply pad_left_range; [lia|]; apply digits_range; [lia|]; int_solve).
  revert F. generalize (pad_left 3 (digits 10 64 u)). intros l F Eq.
  destruct l as [|x [|y [|z [|]]]]; try done. simpl in Eq. simplify_eq. unfold digits_ok. simpl.
  rewrite !Forall_cons in F. destruct F as [? [? [? _]]].
  rewrite !zchar_from_digit by lia. rewrite !(proj2 (Z.ltb_lt _ 10)) by lia. int_solve.
Qed.

Lemma from_u8_sum u : in_u8 u -> exists q, from_u8 u = Ok q
  /\ q.(diff_data_center_count) * 100 + q.(diff_rack_count) * 10 + q.(same_rack_count) = u.
Proof.
  intros Hu. pose proof (round_trips_u8 u Hu) as H. unfold round_trips in H.
  destruct (from_u8 u) as [q| |]; try done. exists q. split; [done|]. apply andb_prop in H as [_ H]. by apply Z.eqb_eq in H.
Qed.

Lemma into_from_u8 rp :
  digits_ok rp ->
  rp.(diff_data_center_count) * 100 + rp.(diff_rack_count) * 10 + rp.(same_rack_count) < 256 ->
  from_u8 (into_u8 rp) = Ok rp.
Proof.
  intros Hd Hlt.
  assert (E : into_u8 rp = rp.(diff_data_center_count) * 100 + rp.(diff_rack_count) * 10 + rp.(same_rack_count))
    by (destruct Hd as [? [? ?]]; unfold into_u8; int_solve).
  assert (Hu : in_u8 (into_u8 rp)) by (destruct Hd as [? [? ?]]; int_solve).
  destruct (from_u8_sum (into_u8 rp) Hu) as (q & Eq & Hq). pose proof (from_u8_digits _ q Hu Eq) as Hdq.
  rewrite Eq. f_equal. clear Eq Hu. rewrite E in Hq. destruct Hdq as [? [? ?]], Hd as [? [? ?]], rp, q; simpl in *. f_equal; lia.
Qed.

End Replica.

(** Every byte of a super block decodes to a placement that encodes to the
    same byte, and a placement with decimal digits that fits a byte survives
    both the byte and the text encoding. *)
Theorem replica_placement_roundtrip :
  (forall u, in_u8 u -> exists rp, Replica.from_u8 u = Ok rp /\ Replica.into_u8 rp = u)
  /\ (forall rp, Replica.digits_ok rp -> Replica.new (Replica.fmt rp) = Ok rp)
  /\ (forall rp, Replica.digits_ok rp ->
        rp.(diff_data_center_count) * 100 + rp.(diff_rack_count) * 10 + rp.(same_rack_count) < 256 ->
        Replica.from_u8 (Replica.into_u8 rp) = Ok rp).
Proof.
  split; [exact Replica.from_u8_total|]. split; [exact Replica.placement_new_fmt|exact Replica.into_from_u8].
Qed.
