(* ===== verification/Errors.v ===== *)
(** * Error types ([storage/needle/mod.rs], [storage/volume/mod.rs])

    Variants that carry a formatted message keep the variant and drop the
    text. *)

From S2P Require Import Prelude Text Ttl Replica.

(** [std::io::ErrorKind], the kinds the code tells apart and one for the rest. *)
Inductive io_error := UnexpectedEof | NotFoundIo | OtherIo.

#[export] Instance io_error_eq_dec : EqDecision io_error.
Proof. solve_decision. Defined.

Inductive NeedleError :=
| NIo (e : io_error)
| NBox
| NParseIntError (e : parse_int_error)
| NTtl (e : TtlError)
| NDeleted (vid : Z) (needle : Z)
| NExpired (vid : Z) (needle : Z)
| NNotFound (needle : Z)
| NCookieNotMatch (needle_cookie got : Z)
| NSizeNotMatch (needle_size got : Z)
| NUnsupportedVersion (v : Z)
| NCrc (read calculated : Z)
| NInvalidFid (fid : string)
| NInvalidKeyHash (hash : string).

Inductive VolumeError :=
| VIo (e : io_error)
| VString
| VParseInt (e : parse_int_error)
| VReplicaPlacement (s : string)
| VNoWritableVolumes
| VNotFound (vid : Z)
| VDataIntegrity
| VNotLoad (vid : Z)
| VHasLoaded (vid : Z)
| VReadonly (vid : Z)
| VCompacting (vid : Z)
| VNeedle (e : NeedleError)
| VTtl (e : TtlError)
| VNeedleMapperNotLoad (vid : Z)
| VNoFreeSpace
| VVolumeSizeLimit (limit size : Z)
| VWrongNodeType
| VBox
| VSerdeJson
| VTonicStatus
| VTonicTransport
| VReqwest
| VMasterNotFound
| VStartHeartbeat
| VSendHeartbeat (master : string)
| VLeaderChanged (new old : string).

(** [Ttl::new] answers a [VolumeError]. *)
Definition of_parse_ttl_error (e : parse_ttl_error) : VolumeError :=
  match e with NomError => VString | ParseInt e => VParseInt e end.
