(* ===== verification/Messages.v ===== *)
(** * Messages between volume servers and the master
      (the generated [helyim_proto::directory])

    The fields the two sides exchange; the encoding is the gRPC library's. *)

From S2P Require Import Prelude.
#[local] Open Scope string_scope.

(** [VolumeInformationMessage]; a [VolumeShortInformationMessage] has only the
    first five fields. *)
Record volume_message := VolumeMessage {
  vm_id : Z;
  vm_collection : string;
  vm_replica_placement : Z;
  vm_version : Z;
  vm_ttl : Z;
  vm_size : Z;
  vm_file_count : Z;
  vm_delete_count : Z;
  vm_deleted_bytes : Z;
  vm_read_only : bool;
}.

Definition short_message (id : Z) (collection : string) (replica_placement version ttl : Z) : volume_message :=
  VolumeMessage id collection replica_placement version ttl 0 0 0 0 false.

(** [VolumeEcShardInformationMessage] *)
Record ec_message := EcMessage { em_id : Z; em_collection : string; em_ec_index_bits : Z }.

(** [HeartbeatRequest] *)
Record heartbeat := Heartbeat {
  hb_ip : string;
  hb_port : Z;
  hb_public_url : string;
  hb_max_volume_count : Z;
  hb_max_file_key : Z;
  hb_data_center : string;
  hb_rack : string;
  hb_volumes : list volume_message;
  hb_new_volumes : list volume_message;
  hb_deleted_volumes : list volume_message;
  hb_has_no_volumes : bool;
  hb_ec_shards : list ec_message;
  hb_new_ec_shards : list ec_message;
  hb_deleted_ec_shards : list ec_message;
  hb_has_no_ec_shards : bool;
}.

Definition heartbeat_default : heartbeat :=
  Heartbeat "" 0 "" 0 0 "" "" [] [] [] false [] [] [] false.

(** [HeartbeatResponse]; the secret key is never set. *)
Record heartbeat_reply := HeartbeatReply { hr_volume_size_limit : Z; hr_leader : string }.

(** [VolumeLocation], and [VolumeLocation::new] *)
Record volume_location := VolumeLocation {
  lo_url : string;
  lo_public_url : string;
  lo_new_vids : list Z;
  lo_deleted_vids : list Z;
  lo_leader : option string;
  lo_new_ec_vids : list Z;
  lo_deleted_ec_vids : list Z;
}.

Definition volume_location_new : volume_location := VolumeLocation "" "" [] [] None [] [].

(** A server, as answers to lookups name it ([Location]). *)
Record server_location := ServerLocation { lc_url : string; lc_public_url : string }.

(** [VolumeIdLocation] *)
Record volume_id_location := VolumeIdLocation {
  vl_volume_or_file_id : string;
  vl_found : list server_location;
  vl_error : string;
}.
