(* ===== verification/Fid.v ===== *)
(** * File ids: printing and parsing
    ([storage/file_id.rs], [util/parser.rs], the fid part of [storage/needle/mod.rs]) *)

From S2P Require Import Prelude Text Ttl Replica Errors.
From Stdlib Require Import Ascii.
#[local] Open Scope string_scope.
#[local] Open Scope Z_scope.

Record file_id := FileId { volume_id : Z; key : Z; hash : Z }.

(** nom's parsers on a [&str]: the remaining input and the recognised text, or
    the error. *)
Module Nom.
Definition is_dec_digit (c : ascii) : bool := (48 <=? zchar c) && (zchar c <=? 57).
Definition is_alpha (c : ascii) : bool :=
  ((65 <=? zchar c) && (zchar c <=? 90)) || ((97 <=? zchar c) && (zchar c <=? 122)).
Definition is_alphanum (c : ascii) : bool := is_alpha c || is_dec_digit c.

(** the longest prefix whose characters satisfy [p], and the rest *)
Fixpoint span (p : ascii -> bool) (s : list ascii) : list ascii * list ascii :=
  match s with
  | [] => ([], [])
  | c :: t => if p c then let '(a, b) := span p t in (c :: a, b) else ([], s)
  end.

Definition span1 (p : ascii -> bool) (s : list ascii) : option (list ascii * list ascii) :=
  match span p s with
  | ([], _) => None
  | r => Some r
  end.

Definition digit1 := span1 is_dec_digit.
Definition alphanumeric1 := span1 is_alphanum.

Definition char_ (x : ascii) (s : list ascii) : option (list ascii) :=
  match s with
  | c :: t => if Ascii.eqb c x then Some t else None
  | [] => None
  end.

Lemma span_app p a b :
  Forall (fun c => p c = true) a ->
  match b with [] => True | c :: _ => p c = false end ->
  span p (a ++ b)%list = (a, b).
Proof.
  intros Ha Hb. induction a as [|c a IH]; simpl.
  - destruct b as [|c b]; [done|]. simpl. by rewrite Hb.
  - inversion Ha as [|? ? Hc Ha']; subst. rewrite Hc. by rewrite (IH Ha').
Qed.

Lemma span1_app p a b :
  a <> [] -> Forall (fun c => p c = true) a ->
  match b with [] => True | c :: _ => p c = false end ->
  span1 p (a ++ b)%list = Some (a, b).
Proof. intros Hn Ha Hb. unfold span1. rewrite span_app by done. by destruct a. Qed.

Lemma digit_is_dec_digit d : 0 <= d < 10 -> is_dec_digit (from_digit d) = true.
Proof.
  intros. unfold is_dec_digit. rewrite zchar_from_digit by lia.
  rewrite (proj2 (Z.ltb_lt d 10)) by lia.
  by rewrite (proj2 (Z.leb_le _ _)), (proj2 (Z.leb_le _ _)) by lia.
Qed.

Lemma hex_is_alphanum d : 0 <= d < 16 -> is_alphanum (from_digit d) = true.
Proof.
  intros. destruct (Z.ltb_spec d 10).
  - unfold is_alphanum. rewrite digit_is_dec_digit by lia. apply orb_true_r.
  - unfold is_alphanum, is_alpha. rewrite zchar_from_digit by lia.
    rewrite (proj2 (Z.ltb_ge d 10)) by lia.
    by rewrite (proj2 (Z.leb_le 97 _)), (proj2 (Z.leb_le _ 122)), orb_true_r by lia.
Qed.
End Nom.

Definition of_chars := String.string_of_list_ascii.

Module Parser.

(** [parse_vid_fid]: digits, a [/] or a [,], letters and digits. *)
Definition parse_vid_fid (input : list ascii)
  : option (list ascii * (list ascii * list ascii)) :=
  match Nom.digit1 input with
  | None => None
  | Some (vid, rest) =>
      match (match Nom.char_ "/" rest with
             | Some r => Some r
             | None => Nom.char_ "," rest
             end) with
      | None => None
      | Some rest =>
          match Nom.alphanumeric1 rest with
          | None => None
          | Some (fid, rest) => Some (rest, (vid, fid))
          end
      end
  end.

Definition parse_filename (input : list ascii) : list ascii * list ascii :=
  let '(name, rest) := Nom.span (fun c => negb (Ascii.eqb c ".")) input in (rest, name).

(** [parse_url_path]: volume id, file id, optional file name, what is left. *)
Definition parse_url_path (input : string)
  : outcome VolumeError (Z * string * option string * string) :=
  match Nom.char_ "/" (chars input) with
  | None => Err VString
  | Some rest =>
      match parse_vid_fid rest with
      | None => Err VString
      | Some (rest, (vid, fid)) =>
          let '(rest, filename) :=
            match Nom.char_ "/" rest with
            | Some r => let '(r', name) := parse_filename r in (r', Some name)
            | None => (rest, None)
            end in
          let? v := map_err VParseInt (parse_u32 (of_chars vid)) in
          Ok (v, of_chars fid, option_map of_chars filename, of_chars rest)
      end
  end.

(** [parse_host_port] *)
Definition parse_host_port (addr : string) : outcome parse_int_error (string * Z) :=
  match str_rfind ":" addr with
  | Some idx =>
      let? p := unwrap (str_slice addr (idx + 1) (str_len addr)) in
      let? port := parse_u16 p in
      let? host := unwrap (str_slice addr 0 idx) in
      Ok (host, port)
  | None => Ok (addr, 80)
  end.

(** [parse_collection_volume_id] *)
Definition parse_collection_volume_id (name : string) : outcome VolumeError (Z * string) :=
  match str_find "_" name with
  | Some index =>
      let? collection := unwrap (str_slice name 0 index) in
      let? vid := unwrap (str_slice name (index + 1) (str_len name)) in
      let? v := map_err VParseInt (parse_u32 vid) in
      Ok (v, collection)
  | None => let? v := map_err VParseInt (parse_u32 name) in Ok (v, "")
  end.

End Parser.

Module FileId.

(** [Display for FileId]: ["{},{:x}{:08x}"] *)
Definition fmt_key_hash (k h : Z) : string := fmt_hex k ++ fmt_hex_pad 8 h.
Definition fmt (f : file_id) : string :=
  fmt_dec f.(volume_id) ++ "," ++ fmt_key_hash f.(key) f.(hash).

Definition wf (f : file_id) : Prop := in_u32 f.(volume_id) /\ in_u64 f.(key) /\ in_u32 f.(hash).

End FileId.

Module KeyHash.

(** [parse_key_hash]: the last eight characters are the cookie. *)
Definition parse_key_hash (hash : string) : outcome NeedleError (Z * Z) :=
  if (str_len hash <=? 8) || (24 <? str_len hash) then Err (NInvalidKeyHash hash)
  else
    let key_end := str_len hash - 8 in
    let? k := unwrap (str_slice hash 0 key_end) in
    let? key := map_err NParseIntError (from_str_radix 16 (2 ^ 64) k) in
    let? c := unwrap (str_slice hash key_end (str_len hash)) in
    let? cookie := map_err NParseIntError (from_str_radix 16 (2 ^ 32) c) in
    Ok (key, cookie).

(** [Needle::parse_path], as the id and the cookie it assigns. *)
Definition parse_path (fid : string) : outcome NeedleError (Z * Z) :=
  if str_len fid <=? 8 then Err (NInvalidFid fid)
  else
    let? p := match str_find "_" fid with
              | Some idx =>
                  let? id := unwrap (str_slice fid 0 idx) in
                  let? delta := unwrap (str_slice fid (idx + 1) (str_len fid)) in
                  Ok (id, delta)
              | None =>
                  let? id := unwrap (str_slice fid 0 (str_len fid)) in
                  let? delta := unwrap (str_slice fid 0 0) in
                  Ok (id, delta)
              end in
    let '(id, delta) := p in
    let? kc := parse_key_hash id in
    let '(key, cookie) := kc in
    if bool_decide (delta = "") then Ok (key, cookie)
    else let? id_delta := map_err NParseIntError (parse_u64 delta) in
         Ok (u64 (key + id_delta), cookie).

(** *** Lemmas *)

Lemma fmt_hex_digits z : 0 <= z < 16 ^ 64 ->
  Forall (fun d => 0 <= d < 16) (digits 16 64 z) /\ digits_num 16 (digits 16 64 z) = z
  /\ digits 16 64 z <> [].
Proof.
  intros Hz. split; [apply digits_range; lia|]. split; [|by apply digits_nonempty; lia].
  apply digits_value_ok; [lia|]. change (Z.of_nat 64) with 64. lia.
Qed.

Lemma hex_len z n : 0 <= z < 16 ^ Z.of_nat n -> (1 <= n)%nat ->
  1 <= len (digits 16 64 z) <= Z.of_nat n.
Proof.
  intros Hz Hn. split.
  - pose proof (digits_nonempty 16 64 z ltac:(lia)). destruct (digits 16 64 z); [done|].
    rewrite len_cons. pose proof (len_nonneg l). lia.
  - unfold len. pose proof (digits_length_bound 16 64 z n ltac:(lia) Hz Hn). lia.
Qed.

Lemma parse_fmt_key_hash k h :
  in_u64 k -> in_u32 h -> parse_key_hash (FileId.fmt_key_hash k h) = Ok (k, h).
Proof.
  intros Hk Hh. unfold parse_key_hash, FileId.fmt_key_hash, fmt_hex, fmt_hex_pad.
  destruct (fmt_hex_digits k) as [Fk [Nk Ek]]; [unfold in_u64 in *; lia|].
  destruct (fmt_hex_digits h) as [Fh [Nh Eh]]; [unfold in_u32 in *; lia|].
  pose proof (hex_len k 16 ltac:(unfold in_u64 in *; simpl Z.of_nat; lia) ltac:(lia)) as Lk.
  pose proof (hex_len h 8 ltac:(unfold in_u32 in *; simpl Z.of_nat; lia) ltac:(lia)) as Lh.
  set (dk := digits 16 64 k) in *. set (dh := digits 16 64 h) in *.
  assert (Lp : str_len (fmt_digits (pad_left 8 dh)) = 8).
  { rewrite str_len_fmt_digits. unfold len in *. rewrite pad_left_length. lia. }
  assert (Hasc : Forall is_ascii (chars (fmt_digits dk ++ fmt_digits (pad_left 8 dh)))).
  { rewrite chars_app. apply Forall_app. split; apply fmt_digits_ascii; [done|].
    by apply pad_left_range. }
  assert (Lt : str_len (fmt_digits dk ++ fmt_digits (pad_left 8 dh)) = len dk + 8)
    by (rewrite str_len_app, Lp, str_len_fmt_digits; done).
  rewrite Lt at 1 2. rewrite (proj2 (Z.leb_gt _ _)), (proj2 (Z.ltb_ge _ _)) by lia. simpl orb.
  cbv iota.
  replace (str_len (fmt_digits dk ++ fmt_digits (pad_left 8 dh)) - 8)
    with (str_len (fmt_digits dk)) by (rewrite Lt, str_len_fmt_digits; lia).
  rewrite str_slice_app_l, str_slice_app_r by done. simpl.
  rewrite from_str_radix_digits; [|lia|done|done|rewrite Nk; unfold in_u64 in *; lia].
  simpl. rewrite from_str_radix_digits; [|lia|by apply pad_left_range| |].
  - simpl. by rewrite digits_num_pad, Nk, Nh.
  - intros E. apply (f_equal (@List.length Z)) in E. rewrite pad_left_length in E. simpl in E. lia.
  - rewrite digits_num_pad, Nh. unfold in_u32 in *. lia.
Qed.

Lemma str_find_none c s : Forall (fun d => d <> c) (chars s) -> str_find c s = None.
Proof.
  induction s as [|d s IH]; simpl; intros H; [done|]. inversion H; subst.
  rewrite IH by done. destruct (Ascii.eqb_spec c d); [congruence|done].
Qed.

Lemma from_digit_zchar_ne d c : 0 <= d < 16 -> zchar c = 95 -> from_digit d <> c.
Proof.
  intros Hd Hc E. apply (f_equal zchar) in E. rewrite zchar_from_digit, Hc in E by done.
  revert E. bool_cases; lia.
Qed.

Lemma str_slice_id s : str_slice s 0 (str_len s) = Some s.
Proof.
  unfold str_slice, is_char_boundary. rewrite (Z.eqb_refl (str_len s)), orb_true_r. simpl.
  pose proof (str_len_nonneg s). rewrite (proj2 (Z.leb_le _ _)) by lia.
  rewrite (proj2 (Z.leb_le _ _)) by lia. simpl. f_equal. rewrite Z.sub_0_r. unfold str_len.
  rewrite Nat2Z.id. apply substring_all.
Qed.

Lemma parse_path_fmt k h :
  in_u64 k -> in_u32 h -> parse_path (FileId.fmt_key_hash k h) = Ok (k, h).
Proof.
  intros Hk Hh. unfold parse_path.
  assert (Hlen : 8 < str_len (FileId.fmt_key_hash k h)).
  { unfold FileId.fmt_key_hash, fmt_hex, fmt_hex_pad. rewrite str_len_app, !str_len_fmt_digits.
    pose proof (hex_len k 16 ltac:(unfold in_u64 in *; simpl Z.of_nat; lia) ltac:(lia)).
    unfold len in *. rewrite pad_left_length. lia. }
  rewrite (proj2 (Z.leb_gt _ _)) by lia.
  rewrite str_find_none.
  - rewrite str_slice_id. simpl.
    replace (str_slice (FileId.fmt_key_hash k h) 0 0) with (Some "").
    + simpl. rewrite parse_fmt_key_hash by done. done.
    + unfold str_slice. pose proof (str_len_nonneg (FileId.fmt_key_hash k h)).
      rewrite (proj2 (Z.leb_le 0 (str_len _))) by lia. simpl.
      destruct (FileId.fmt_key_hash k h); reflexivity.
  - unfold FileId.fmt_key_hash, fmt_hex, fmt_hex_pad. rewrite chars_app, !chars_fmt_digits.
    destruct (fmt_hex_digits k) as [Fk _]; [unfold in_u64 in *; lia|].
    destruct (fmt_hex_digits h) as [Fh _]; [unfold in_u32 in *; lia|].
    apply Forall_app. split; apply List.Forall_map; (eapply Forall_impl; [|intros d Hd;
      apply from_digit_zchar_ne; [exact Hd|reflexivity]]); [done|by apply pad_left_range].
Qed.

End KeyHash.

(** The text of a file id, as characters. *)
Lemma fmt_dec_digits z : 0 <= z < 10 ^ 64 ->
  Forall (fun d => 0 <= d < 10) (digits 10 64 z) /\ digits_num 10 (digits 10 64 z) = z
  /\ digits 10 64 z <> [].
Proof.
  intros Hz. split; [apply digits_range; lia|]. split; [|by apply digits_nonempty; lia].
  apply digits_value_ok; [lia|]. change (Z.of_nat 64) with 64. lia.
Qed.

Lemma of_chars_chars s : of_chars (chars s) = s.
Proof. apply String.string_of_list_ascii_of_string. Qed.

Lemma fmt_key_hash_digits k h :
  FileId.fmt_key_hash k h = fmt_digits (digits 16 64 k ++ pad_left 8 (digits 16 64 h)).
Proof.
  unfold FileId.fmt_key_hash, fmt_hex, fmt_hex_pad. by rewrite fmt_digits_app.
Qed.

Lemma key_hash_digits_ok k h :
  in_u64 k -> in_u32 h ->
  (digits 16 64 k ++ pad_left 8 (digits 16 64 h))%list <> []
  /\ Forall (fun d => 0 <= d < 16) (digits 16 64 k ++ pad_left 8 (digits 16 64 h))%list.
Proof.
  intros Hk Hh. split.
  - intros E. apply app_eq_nil in E as [E _]. revert E. by apply digits_nonempty; lia.
  - apply Forall_app. split; [|apply pad_left_range; [lia|]]; apply digits_range;
      unfold in_u64, in_u32 in *; lia.
Qed.

Lemma str_find_app c s t :
  Forall (fun d => d <> c) (chars s) -> str_find c (s ++ String.String c t) = Some (str_len s).
Proof.
  induction s as [|d s IH]; simpl; intros H.
  - by rewrite Ascii.eqb_refl.
  - inversion H; subst. rewrite IH by done.
    destruct (Ascii.eqb_spec c d); [congruence|]. simpl. f_equal. unfold str_len. simpl. lia.
Qed.

Lemma key_hash_no_underscore k h :
  in_u64 k -> in_u32 h -> Forall (fun d => d <> "_"%char) (chars (FileId.fmt_key_hash k h)).
Proof.
  intros Hk Hh. rewrite fmt_key_hash_digits, chars_fmt_digits. apply List.Forall_map.
  eapply Forall_impl; [apply (key_hash_digits_ok k h Hk Hh)|].
  intros d Hd. by apply KeyHash.from_digit_zchar_ne.
Qed.

(** A file id with a delta: [Needle::parse_path] adds it to the key. *)
Lemma parse_path_delta k h d :
  in_u64 k -> in_u32 h -> in_u64 d ->
  KeyHash.parse_path (FileId.fmt_key_hash k h ++ "_" ++ fmt_dec d) = Ok (u64 (k + d), h).
Proof.
  intros Hk Hh Hd. set (s := FileId.fmt_key_hash k h).
  destruct (fmt_dec_digits d) as [Fd [Nd Ed]]; [unfold in_u64 in *; lia|].
  assert (Has : Forall is_ascii (chars (s ++ "_" ++ fmt_dec d))).
  { unfold s. rewrite fmt_key_hash_digits. rewrite !chars_app. apply Forall_app. split.
    - apply fmt_digits_ascii. by apply key_hash_digits_ok.
    - apply Forall_app. split; [repeat constructor|]. apply fmt_digits_ascii.
      eapply Forall_impl; [exact Fd|]. simpl. lia. }
  assert (Hlen : 8 < str_len s).
  { unfold s. rewrite fmt_key_hash_digits, str_len_fmt_digits. unfold len.
    rewrite length_app, pad_left_length.
    pose proof (digits_nonempty 16 64 k ltac:(lia)). destruct (digits 16 64 k); [done|simpl; lia]. }
  unfold KeyHash.parse_path. pose proof (str_len_nonneg ("_" ++ fmt_dec d)).
  rewrite (proj2 (Z.leb_gt _ _)) by (rewrite str_len_app; lia).
  change ("_" ++ fmt_dec d) with (String.String "_" (fmt_dec d)) at 1.
  rewrite str_find_app by (by apply key_hash_no_underscore).
  rewrite str_slice_app_l by done. cbn [unwrap obind].
  replace (str_len s + 1) with (str_len (s ++ "_")) by (rewrite str_len_app; done).
  rewrite <- append_assoc' in *. rewrite str_slice_app_r by done. cbn [unwrap obind].
  unfold s. rewrite KeyHash.parse_fmt_key_hash by done. cbn [obind].
  assert (fmt_dec d <> "") as Hne.
  { intros E2. apply (f_equal str_len) in E2. unfold fmt_dec in E2.
    rewrite str_len_fmt_digits in E2. change (str_len "") with 0 in E2.
    destruct (digits 10 64 d) as [|x l]; [done|]. rewrite len_cons in E2.
    pose proof (len_nonneg l). lia. }
  rewrite bool_decide_eq_false_2 by done. unfold parse_u64, fmt_dec.
  rewrite from_str_radix_digits; [|lia|done|done|rewrite Nd; unfold in_u64 in *; lia].
  simpl. by rewrite Nd.
Qed.

(** Parsing ["/<vid>,<hex>"] followed by characters that are neither
    alphanumeric nor a [/]. *)
Lemma parse_url_path_fid v hex rest :
  in_u32 v -> hex <> [] -> Forall (fun d => 0 <= d < 16) hex ->
  match chars rest with [] => True | c :: _ => Nom.is_alphanum c = false /\ c <> "/"%char end ->
  Parser.parse_url_path ("/" ++ fmt_dec v ++ "," ++ fmt_digits hex ++ rest)
  = Ok (v, fmt_digits hex, None, rest).
Proof.
  intros Hv Hne Hhex Hrest. unfold Parser.parse_url_path.
  destruct (fmt_dec_digits v) as [Fv [Nv Ev]]; [unfold in_u32 in *; lia|].
  change (chars ("/" ++ fmt_dec v ++ "," ++ fmt_digits hex ++ rest))
    with ("/"%char :: chars (fmt_dec v ++ "," ++ fmt_digits hex ++ rest)).
  cbn [Nom.char_]. change (Ascii.eqb "/" "/") with true. cbv iota.
  unfold Parser.parse_vid_fid, Nom.digit1, Nom.alphanumeric1.
  unfold fmt_dec. rewrite !chars_app, !chars_fmt_digits.
  rewrite Nom.span1_app; [| |apply List.Forall_map; eapply Forall_impl; [exact Fv|];
    intros; by apply Nom.digit_is_dec_digit|by vm_compute].
  2:{ destruct (digits 10 64 v); done. }
  change (chars "," ++ map from_digit hex ++ chars rest)%list
    with (","%char :: (map from_digit hex ++ chars rest))%list.
  cbn [Nom.char_]. change (Ascii.eqb "," "/") with false. change (Ascii.eqb "," ",") with true.
  cbv iota.
  rewrite Nom.span1_app; [|by destruct hex|apply List.Forall_map; eapply Forall_impl; [exact Hhex|];
    intros; by apply Nom.hex_is_alphanum|destruct (chars rest); [done|by destruct Hrest]].
  assert (Nom.char_ "/" (chars rest) = None) as ->.
  { destruct (chars rest) as [|c t]; [done|]. simpl. destruct Hrest as [_ Hc].
    destruct (Ascii.eqb_spec c "/"); [congruence|done]. }
  change (of_chars (map from_digit (digits 10 64 v))) with (fmt_digits (digits 10 64 v)).
  unfold parse_u32.
  rewrite from_str_radix_digits; [|lia|done|done|rewrite Nv; unfold in_u32 in *; lia].
  simpl. rewrite Nv, of_chars_chars. done.
Qed.

(** The path of a file id. *)
Lemma parse_fid_path f : FileId.wf f ->
  Parser.parse_url_path ("/" ++ FileId.fmt f) = Ok (f.(volume_id), FileId.fmt_key_hash f.(key) f.(hash), None, "").
Proof.
  intros [Hv [Hk Hh]]. unfold FileId.fmt. rewrite fmt_key_hash_digits.
  destruct (key_hash_digits_ok f.(key) f.(hash) Hk Hh) as [Hne Hds].
  pose proof (parse_url_path_fid f.(volume_id) _ "" Hv Hne Hds I) as E.
  rewrite append_nil_r' in E. exact E.
Qed.

(** C33: the path of an assigned file id parses back to the same volume, key and
    cookie: what [/dir/assign] prints is what the volume server reads. *)
Theorem file_id_roundtrip : forall f,
  FileId.wf f ->
  exists fid,
    Parser.parse_url_path ("/" ++ FileId.fmt f) = Ok (f.(volume_id), fid, None, "")
    /\ KeyHash.parse_path fid = Ok (f.(key), f.(hash)).
Proof.
  intros f Hf. exists (FileId.fmt_key_hash f.(key) f.(hash)). split; [by apply parse_fid_path|].
  destruct Hf as [_ [Hk Hh]]. by apply KeyHash.parse_path_fmt.
Qed.

Lemma file_id_roundtrip_witness : exists fid,
  Parser.parse_url_path "/6,16b7578a5" = Ok (6, fid, None, "")
  /\ KeyHash.parse_path fid = Ok (1, 1802860709).
Proof.
  apply (file_id_roundtrip (FileId 6 1 1802860709)).
  unfold FileId.wf, in_u32, in_u64. simpl. lia.
Defined.

(** A path may carry a [_delta] after the file id; the URL parser stops at
    the underscore and reports it as the extension, so the handlers that go
    through it use key [k], where [Needle::parse_path] of the same text, which
    the upload handler uses, gives key [k + delta]. *)
Theorem url_path_drops_delta : forall v k h d,
  in_u32 v -> in_u64 k -> in_u32 h -> in_u64 d ->
  let text := FileId.fmt_key_hash k h ++ "_" ++ fmt_dec d in
  Parser.parse_url_path ("/" ++ fmt_dec v ++ "," ++ text)
    = Ok (v, FileId.fmt_key_hash k h, None, "_" ++ fmt_dec d)
  /\ KeyHash.parse_path (FileId.fmt_key_hash k h) = Ok (k, h)
  /\ KeyHash.parse_path text = Ok (u64 (k + d), h).
Proof.
  intros v k h d Hv Hk Hh Hd text. split; [|split].
  - unfold text. rewrite fmt_key_hash_digits.
    destruct (key_hash_digits_ok k h Hk Hh) as [Hne Hds].
    by apply parse_url_path_fid.
  - by apply KeyHash.parse_path_fmt.
  - by apply parse_path_delta.
Qed.

Lemma url_path_drops_delta_witness :
  Parser.parse_url_path "/3,1637037d6_1" = Ok (3, "1637037d6", None, "_1")
  /\ KeyHash.parse_path "1637037d6" = Ok (1, 1668298710)
  /\ KeyHash.parse_path "1637037d6_1" = Ok (2, 1668298710).
Proof. apply (url_path_drops_delta 3 1 1668298710 1); unfold in_u32, in_u64; lia. Defined.
