(* ===== verification/Files.v ===== *)
(** * Regular files ([std::fs::File] with [os::unix::fs::FileExt])

    A file is its bytes.  Reads fail only at the end of the file; a write can be
    interrupted by the environment: a [fault] says how many bytes reached the
    file before the error. *)

From S2P Require Import Prelude Text Ttl Replica Errors.

Abbreviation file := (list byte).

Definition zeros (n : Z) : list byte := replicate (Z.to_nat n) Byte.x00.

(** [FileExt::read_exact_at] with a buffer of [n] bytes. *)
Definition read_exact_at (f : file) (off n : Z) : outcome io_error (list byte) :=
  if n =? 0 then Ok []
  else if off + n <=? len f then Ok (take (Z.to_nat n) (drop (Z.to_nat off) f))
  else Err UnexpectedEof.

(** [FileExt::read_at]: as many of the [n] bytes as the file has. *)
Definition read_at (f : file) (off n : Z) : list byte :=
  take (Z.to_nat n) (drop (Z.to_nat off) f).

(** The file after writing [buf] at [off]; a hole is filled with zeros. *)
Definition pwrite (f : file) (off : Z) (buf : list byte) : file :=
  match buf with
  | [] => f
  | _ => take (Z.to_nat off) (f ++ zeros (off - len f)) ++ buf
         ++ drop (Z.to_nat (off + len buf)) f
  end.

Definition fault : Type := option (nat * io_error).

(** [FileExt::write_all_at] *)
Definition write_all_at (flt : fault) (f : file) (off : Z) (buf : list byte)
  : file * outcome io_error unit :=
  match flt with
  | None => (pwrite f off buf, Ok tt)
  | Some (k, e) => (pwrite f off (take k buf), Err e)
  end.

(** [ftruncate] *)
Definition ftruncate (f : file) (n : Z) : file := take (Z.to_nat n) (f ++ zeros (n - len f)).

(** ** Lemmas *)

Lemma len_zeros n : 0 <= n -> len (zeros n) = n.
Proof. intros. unfold zeros. rewrite len_replicate. lia. Qed.

Lemma zeros_nonpos n : n <= 0 -> zeros n = [].
Proof. intros. unfold zeros. by replace (Z.to_nat n) with O by lia. Qed.

Lemma take_len {A} (l : list A) : take (Z.to_nat (len l)) l = l.
Proof. unfold len. rewrite Nat2Z.id. by rewrite firstn_all. Qed.

Lemma drop_len {A} (l : list A) n : len l <= n -> drop (Z.to_nat n) l = [].
Proof. unfold len. intros. apply skipn_all2. lia. Qed.

(** Appending at or after the end. *)
Lemma pwrite_append f off buf :
  len f <= off -> buf <> [] -> pwrite f off buf = f ++ zeros (off - len f) ++ buf.
Proof.
  intros Hle Hne. unfold pwrite. pose proof (len_nonneg f).
  destruct buf as [|b buf]; [done|].
  rewrite drop_len by (rewrite len_cons; pose proof (len_nonneg buf); lia).
  rewrite app_nil_r.
  assert (off = len (f ++ zeros (off - len f))) as E
    by (rewrite len_app, len_zeros by lia; lia).
  rewrite E at 1. rewrite take_len. by rewrite <- app_assoc.
Qed.

Lemma pwrite_append_any f off buf :
  len f <= off -> exists k, pwrite f off buf = f ++ k.
Proof.
  intros. destruct buf as [|b buf].
  - exists []. simpl. by rewrite app_nil_r.
  - eexists. by apply pwrite_append.
Qed.

Lemma write_all_at_append flt f off buf :
  len f <= off -> exists k, (write_all_at flt f off buf).1 = f ++ k.
Proof.
  intros. destruct flt as [[n e]|]; simpl; by apply pwrite_append_any.
Qed.

Lemma read_exact_at_prefix f k off n r :
  0 <= off -> 0 <= n -> read_exact_at f off n = Ok r -> read_exact_at (f ++ k) off n = Ok r.
Proof.
  intros Ho Hn. unfold read_exact_at. destruct (Z.eqb_spec n 0); [done|].
  destruct (Z.leb_spec (off + n) (len f)); [|done]. intros [= <-].
  rewrite (proj2 (Z.leb_le _ _)) by (rewrite len_app; pose proof (len_nonneg k); lia).
  f_equal. unfold len in *. rewrite drop_app_le by lia.
  rewrite take_app_le; [done|]. rewrite length_drop. lia.
Qed.

Lemma read_exact_at_app p m s :
  read_exact_at (p ++ m ++ s) (len p) (len m) = Ok m.
Proof.
  unfold read_exact_at. destruct (Z.eqb_spec (len m) 0) as [E|E].
  - destruct m; [done|]. rewrite len_cons in E. pose proof (len_nonneg m). lia.
  - rewrite (proj2 (Z.leb_le _ _)) by (rewrite !len_app; pose proof (len_nonneg s); lia).
    f_equal. unfold len. rewrite !Nat2Z.id. rewrite drop_app_length. by rewrite take_app_length.
Qed.

Lemma ftruncate_app f k n :
  len f <= n -> exists z, ftruncate (f ++ k) n = f ++ z.
Proof.
  intros H. unfold ftruncate. rewrite <- app_assoc.
  eexists. rewrite take_app_ge by (unfold len in *; lia). reflexivity.
Qed.

#[global] Arguments pwrite : simpl never.
#[global] Arguments write_all_at : simpl never.
#[global] Arguments read_exact_at : simpl never.
#[global] Arguments ftruncate : simpl never.
#[global] Arguments zeros : simpl never.
