(* ===== verification/Fs.v ===== *)
(** * The directory of a volume server

    Files by name.  An open handle is the name it was opened under: no operation
    modelled here uses a handle after its name was renamed or removed. *)

From S2P Require Import Prelude Types Text Ttl Replica Errors Files.

Record fnode := FNode { f_bytes : file; f_readonly : bool }.

Abbreviation fs := (gmap string fnode).

(** [File::metadata], [open] without [create]. *)
Definition fs_get (s : fs) (name : string) : outcome io_error file :=
  match s !! name with Some nd => Ok nd.(f_bytes) | None => Err NotFoundIo end.

Definition fs_put (name : string) (f : file) (s : fs) : fs :=
  match s !! name with
  | Some nd => <[name := FNode f nd.(f_readonly)]> s
  | None => <[name := FNode f false]> s
  end.

(** [create(true).truncate(true)] *)
Definition fs_create (name : string) (s : fs) : fs := fs_put name [] s.

(** [fs::rename] and [fs::remove_file] *)
Definition fs_rename (a b : string) (s : fs) : fs * outcome io_error unit :=
  match s !! a with
  | Some nd => (<[b := nd]> (delete a s), Ok tt)
  | None => (s, Err NotFoundIo)
  end.

Definition fs_remove (a : string) (s : fs) : fs * outcome io_error unit :=
  match s !! a with
  | Some _ => (delete a s, Ok tt)
  | None => (s, Err NotFoundIo)
  end.

Definition fs_bytes (s : fs) (name : string) : option file := f_bytes <$> s !! name.

Lemma fs_bytes_put_eq n f s : fs_bytes (fs_put n f s) n = Some f.
Proof. unfold fs_bytes, fs_put. destruct (s !! n); by rewrite lookup_insert_eq. Qed.

Lemma fs_bytes_put_ne n m f s : n <> m -> fs_bytes (fs_put n f s) m = fs_bytes s m.
Proof. intros. unfold fs_bytes, fs_put. destruct (s !! n); by rewrite lookup_insert_ne. Qed.

Lemma fs_put_lookup_ne name f s n : n <> name -> fs_put name f s !! n = s !! n.
Proof. intros. unfold fs_put. destruct (s !! name); by rewrite lookup_insert_ne. Qed.

Lemma fs_get_bytes s n f : fs_bytes s n = Some f <-> fs_get s n = Ok f.
Proof. unfold fs_bytes, fs_get. destruct (s !! n); simpl; split; intros; simplify_eq; done. Qed.

