(* ===== verification/Needle.v ===== *)
(** * Needles: the record format of a volume's data file ([storage/needle/mod.rs])

    [append] writes header, body, checksum and padding; [read_bytes] and
    [read_needle_body] read them back.  The CRC-32 of the [crc32fast] crate is
    the parameter [crc]. *)

From S2P Require Import Prelude Types Text Ttl Replica Errors Fid Files.

Record needle := Needle {
  n_cookie : Z;
  n_id : Z;
  n_size : Z;
  n_data_size : Z;
  n_data : list byte;
  n_flags : Z;
  n_name_size : Z;
  n_name : list byte;
  n_mime_size : Z;
  n_mime : list byte;
  n_pairs_size : Z;
  n_pairs : list byte;
  n_last_modified : Z;
  n_ttl : ttl;
  n_checksum : Z;
  n_padding : list byte;
}.

(** [Needle::default] *)
Definition needle_default : needle :=
  Needle 0 0 0 0 [] 0 0 [] 0 [] 0 [] 0 Ttl.default 0 [].

(** Assignments to the fields. *)
Definition set_header (c i s : Z) (n : needle) : needle :=
  Needle c i s n.(n_data_size) n.(n_data) n.(n_flags) n.(n_name_size) n.(n_name)
    n.(n_mime_size) n.(n_mime) n.(n_pairs_size) n.(n_pairs) n.(n_last_modified) n.(n_ttl)
    n.(n_checksum) n.(n_padding).
Definition set_data (ds : Z) (d : list byte) (fl : Z) (n : needle) : needle :=
  Needle n.(n_cookie) n.(n_id) n.(n_size) ds d fl n.(n_name_size) n.(n_name)
    n.(n_mime_size) n.(n_mime) n.(n_pairs_size) n.(n_pairs) n.(n_last_modified) n.(n_ttl)
    n.(n_checksum) n.(n_padding).
Definition set_name_fields (s : Z) (b : list byte) (n : needle) : needle :=
  Needle n.(n_cookie) n.(n_id) n.(n_size) n.(n_data_size) n.(n_data) n.(n_flags) s b
    n.(n_mime_size) n.(n_mime) n.(n_pairs_size) n.(n_pairs) n.(n_last_modified) n.(n_ttl)
    n.(n_checksum) n.(n_padding).
Definition set_mime_fields (s : Z) (b : list byte) (n : needle) : needle :=
  Needle n.(n_cookie) n.(n_id) n.(n_size) n.(n_data_size) n.(n_data) n.(n_flags)
    n.(n_name_size) n.(n_name) s b n.(n_pairs_size) n.(n_pairs) n.(n_last_modified) n.(n_ttl)
    n.(n_checksum) n.(n_padding).
Definition set_pairs_fields (s : Z) (b : list byte) (n : needle) : needle :=
  Needle n.(n_cookie) n.(n_id) n.(n_size) n.(n_data_size) n.(n_data) n.(n_flags)
    n.(n_name_size) n.(n_name) n.(n_mime_size) n.(n_mime) s b n.(n_last_modified) n.(n_ttl)
    n.(n_checksum) n.(n_padding).
Definition set_last_modified (v : Z) (n : needle) : needle :=
  Needle n.(n_cookie) n.(n_id) n.(n_size) n.(n_data_size) n.(n_data) n.(n_flags)
    n.(n_name_size) n.(n_name) n.(n_mime_size) n.(n_mime) n.(n_pairs_size) n.(n_pairs) v n.(n_ttl)
    n.(n_checksum) n.(n_padding).
Definition set_ttl (t : ttl) (n : needle) : needle :=
  Needle n.(n_cookie) n.(n_id) n.(n_size) n.(n_data_size) n.(n_data) n.(n_flags)
    n.(n_name_size) n.(n_name) n.(n_mime_size) n.(n_mime) n.(n_pairs_size) n.(n_pairs)
    n.(n_last_modified) t n.(n_checksum) n.(n_padding).
Definition set_checksum (c : Z) (n : needle) : needle :=
  Needle n.(n_cookie) n.(n_id) n.(n_size) n.(n_data_size) n.(n_data) n.(n_flags)
    n.(n_name_size) n.(n_name) n.(n_mime_size) n.(n_mime) n.(n_pairs_size) n.(n_pairs)
    n.(n_last_modified) n.(n_ttl) c n.(n_padding).

(** ** Flags *)

Definition FLAG_GZIP : Z := 1.
Definition FLAG_HAS_NAME : Z := 2.
Definition FLAG_HAS_MIME : Z := 4.
Definition FLAG_HAS_LAST_MODIFIED_DATE : Z := 8.
Definition FLAG_HAS_TTL : Z := 16.
Definition FLAG_HAS_PAIRS : Z := 32.
Definition FLAG_IS_DELETE : Z := 64.
Definition FLAG_IS_CHUNK_MANIFEST : Z := 128.

Definition has_flag (flags f : Z) : bool := 0 <? Z.land flags f.
Definition has_name (n : needle) : bool := has_flag n.(n_flags) FLAG_HAS_NAME.
Definition has_mime (n : needle) : bool := has_flag n.(n_flags) FLAG_HAS_MIME.
Definition has_last_modified_date (n : needle) : bool :=
  has_flag n.(n_flags) FLAG_HAS_LAST_MODIFIED_DATE.
Definition has_ttl (n : needle) : bool := has_flag n.(n_flags) FLAG_HAS_TTL.
Definition has_pairs (n : needle) : bool := has_flag n.(n_flags) FLAG_HAS_PAIRS.
Definition is_gzipped (n : needle) : bool := has_flag n.(n_flags) FLAG_GZIP.

Definition set_flag (f : Z) (n : needle) : needle :=
  set_data n.(n_data_size) n.(n_data) (Z.lor n.(n_flags) f) n.

(** [Needle::etag]: the buffer already holds four zero bytes when the checksum
    is appended to it. *)
Definition etag (n : needle) : list Z :=
  let buf := (zeros 4 ++ put_u32 n.(n_checksum))%list in
  map b2z (take 4 buf).

Definition disk_size (n : needle) : Z := Size.actual_size n.(n_size).
Definition data_size (n : needle) : Z := len n.(n_data).
Definition body_len (n : needle) : Z :=
  u32 (u32 (u32 n.(n_size) + NEEDLE_CHECKSUM_SIZE) + Size.padding_len n.(n_size)).

(** ** Reading *)

Definition NM := M needle NeedleError.

(** [Buf::get_uN] on a slice that is too short panics. *)
Definition get_be (k : nat) (bytes : list byte) (at_ : Z) : NM Z :=
  let* b := mlift (unwrap (slice bytes at_ (at_ + Z.of_nat k))) in mret (be_val b).

Definition parse_needle_header (bytes : list byte) : NM unit :=
  let* cookie := get_be 4 bytes 0 in
  let* n := mget in
  let* _ := mmodify (set_header cookie n.(n_id) n.(n_size)) in
  let* id := get_be 8 bytes 4 in
  let* _ := mmodify (set_header cookie id n.(n_size)) in
  let* size := get_be 4 bytes 12 in
  mmodify (set_header cookie id (i32 size)).

(** The stages of [read_needle_data]; each returns the next index. *)
Definition read_head (bytes : list byte) (idx : Z) : NM Z :=
  if idx <? len bytes then
    let* ds := get_be 4 bytes idx in
    let* n := mget in
    let* _ := mmodify (set_data ds n.(n_data) n.(n_flags)) in
    let* d := mlift (unwrap (slice bytes (idx + 4) (idx + 4 + ds))) in
    let* _ := mmodify (set_data ds d n.(n_flags)) in
    let* fl := get_be 1 bytes (idx + 4 + ds) in
    let* _ := mmodify (set_data ds d fl) in
    mret (idx + 4 + ds + 1)
  else mret idx.

Definition read_name (bytes : list byte) (idx : Z) : NM Z :=
  let* n := mget in
  if (idx <? len bytes) && has_name n then
    let* s := get_be 1 bytes idx in
    let* _ := mmodify (set_name_fields s n.(n_name)) in
    let* b := mlift (unwrap (slice bytes (idx + 1) (idx + 1 + s))) in
    let* _ := mmodify (set_name_fields s b) in
    mret (idx + 1 + s)
  else mret idx.

Definition read_mime (bytes : list byte) (idx : Z) : NM Z :=
  let* n := mget in
  if (idx <? len bytes) && has_mime n then
    let* s := get_be 1 bytes idx in
    let* _ := mmodify (set_mime_fields s n.(n_mime)) in
    let* b := mlift (unwrap (slice bytes (idx + 1) (idx + 1 + s))) in
    let* _ := mmodify (set_mime_fields s b) in
    mret (idx + 1 + s)
  else mret idx.

Definition read_last_modified (bytes : list byte) (idx : Z) : NM Z :=
  let* n := mget in
  if (idx <? len bytes) && has_last_modified_date n then
    let* v := get_be 8 bytes idx in
    let* _ := mmodify (set_last_modified v) in
    mret (idx + LAST_MODIFIED_BYTES_LENGTH)
  else mret idx.

Definition read_ttl (bytes : list byte) (idx : Z) : NM Z :=
  let* n := mget in
  if (idx <? len bytes) && has_ttl n then
    let* b := mlift (unwrap (slice bytes idx (idx + TTL_BYTES_LENGTH))) in
    let* t := mlift (map_err NTtl (Ttl.from_bytes b)) in
    let* _ := mmodify (set_ttl t) in
    mret (idx + TTL_BYTES_LENGTH)
  else mret idx.

Definition read_pairs (bytes : list byte) (idx : Z) : NM unit :=
  let* n := mget in
  if (idx <? len bytes) && has_pairs n then
    let* s := get_be 2 bytes idx in
    let* _ := mmodify (set_pairs_fields s n.(n_pairs)) in
    let* b := mlift (unwrap (slice bytes (idx + 2) (idx + 2 + s))) in
    mmodify (set_pairs_fields s b)
  else mret tt.

Definition read_needle_data (bytes : list byte) : NM unit :=
  let* idx := read_head bytes 0 in
  let* idx := read_name bytes idx in
  let* idx := read_mime bytes idx in
  let* idx := read_last_modified bytes idx in
  let* idx := read_ttl bytes idx in
  read_pairs bytes idx.

(** [read_needle_blob] *)
Definition read_needle_blob (f : file) (offset size : Z) : outcome NeedleError (list byte) :=
  map_err NIo (read_exact_at f (Offset.actual_offset offset) (Size.actual_size size)).

(** [read_needle_header] *)
Definition read_needle_header (f : file) (version offset : Z) : outcome NeedleError (needle * Z) :=
  if version =? VERSION2 then
    let? buf := map_err NIo (read_exact_at f offset NEEDLE_ENTRY_SIZE) in
    match parse_needle_header buf needle_default with
    | (n, Ok _) => Ok (n, body_len n)
    | (_, Err e) => Err e
    | (_, Panic) => Panic
    end
  else Ok (needle_default, 0).

Section Checksum.
Context (crc : list byte -> Z).

(** [Needle::read_bytes] *)
Definition read_bytes (bytes : list byte) (offset size version : Z) : NM unit :=
  let* _ := parse_needle_header bytes in
  let* n := mget in
  if negb (n.(n_size) =? size) && (Offset.actual_offset offset <? MAX_POSSIBLE_VOLUME_SIZE)
  then mthrow (NSizeNotMatch n.(n_size) size)
  else
    let* _ := (if version =? VERSION2 then
                 let end_ := u32 (NEEDLE_HEADER_SIZE + u32 n.(n_size)) in
                 let* body := mlift (unwrap (slice bytes NEEDLE_HEADER_SIZE end_)) in
                 read_needle_data body
               else mret tt) in
    let checksum_start := u32 (NEEDLE_HEADER_SIZE + u32 size) in
    let checksum_end := u32 (checksum_start + NEEDLE_CHECKSUM_SIZE) in
    let* c := mlift (unwrap (slice bytes checksum_start checksum_end)) in
    let* _ := mmodify (set_checksum (be_val c)) in
    let* n := mget in
    let checksum := crc n.(n_data) in
    if n.(n_checksum) =? checksum then mret tt
    else mthrow (NCrc n.(n_checksum) checksum).

(** [Needle::read_data] *)
Definition read_data (f : file) (offset size version : Z) : NM unit :=
  let* bytes := mlift (read_needle_blob f offset size) in
  read_bytes bytes offset size version.

(** [Needle::read_needle_body] *)
Definition read_needle_body (f : file) (offset blen version : Z) : NM unit :=
  if blen =? 0 then mret tt
  else if version =? VERSION2 then
    let* buf := mlift (map_err NIo (read_exact_at f offset blen)) in
    let* _ := read_needle_data buf in
    let* n := mget in
    mmodify (set_checksum (crc n.(n_data)))
  else mthrow (NUnsupportedVersion version).

End Checksum.

(** ** Writing *)

(** The size fields [append] computes from the buffers. *)
Definition with_sizes (size : Z) (n : needle) : needle :=
  Needle n.(n_cookie) n.(n_id) size (u32 (len n.(n_data))) n.(n_data) n.(n_flags)
    (u8 (len n.(n_name))) n.(n_name) (u8 (len n.(n_mime))) n.(n_mime)
    (u16 (len n.(n_pairs))) n.(n_pairs) n.(n_last_modified) n.(n_ttl)
    n.(n_checksum) n.(n_padding).

(** One optional field of the body: the bytes put and the amount added to
    [self.size]. *)
Definition put_if (b : bool) (bytes : list byte) (sz : Z) (acc : list byte * Z)
  : list byte * Z :=
  if b then ((acc.1 ++ bytes)%list, i32 (acc.2 + i32 sz)) else acc.

(** The body and the size [append] accounts for it. *)
Definition append_body (n0 : needle) : list byte * Z :=
  let n := with_sizes 0 n0 in
  if 0 <? n.(n_data_size) then
    let acc := ((put_u32 n.(n_data_size) ++ n.(n_data) ++ put_u8 n.(n_flags))%list,
                i32 (i32 (4 + i32 n.(n_data_size)) + 1)) in
    let acc := put_if (has_name n) (put_u8 n.(n_name_size) ++ n.(n_name))%list
                 (1 + n.(n_name_size)) acc in
    let acc := put_if (has_mime n) (put_u8 n.(n_mime_size) ++ n.(n_mime))%list
                 (1 + n.(n_mime_size)) acc in
    let acc := put_if (has_last_modified_date n) (put_u64 n.(n_last_modified))
                 LAST_MODIFIED_BYTES_LENGTH acc in
    let acc := put_if (has_ttl n) (Ttl.as_bytes n.(n_ttl)) TTL_BYTES_LENGTH acc in
    put_if (has_pairs n) (put_u16 n.(n_pairs_size) ++ n.(n_pairs))%list
      (2 + len n.(n_pairs)) acc
  else ([], 0).

(** [Needle::append]: the buffer handed to [write_all_at], and [self] after. *)
Definition append_buf (n0 : needle) : needle * list byte :=
  let '(body, size) := append_body n0 in
  let n := with_sizes size n0 in
  let buf := (put_u32 n.(n_cookie) ++ put_u64 n.(n_id) ++ put_i32 0 ++ body)%list in
  let buf := if 0 <? size
             then (take 12 buf ++ put_u32 (u32 size) ++ drop 16 buf)%list else buf in
  (n, (buf ++ put_u32 n.(n_checksum) ++ zeros (Size.padding_len size))%list).

Definition append (flt : fault) (n : needle) (w : file) (offset version : Z)
  : needle * file * outcome NeedleError unit :=
  if negb (version =? CURRENT_VERSION) then (n, w, Err (NUnsupportedVersion version))
  else
    let '(n', buf) := append_buf n in
    let '(w', r) := write_all_at flt w offset buf in
    (n', w', map_err NIo r).

(** [Needle::new_with_fid] *)
Definition new_with_fid (fid : string) : outcome NeedleError needle :=
  let? kc := KeyHash.parse_path fid in
  Ok (set_header kc.2 kc.1 0 needle_default).
