(* ===== verification/NeedleCodec.v ===== *)
(** * The needle codec: reading back what [Needle::append] wrote *)

From S2P Require Import Prelude Types Text Ttl Replica Errors Fid Files Needle.

(** ** The format *)

(** The fields fit the widths the format gives them.  The bound on the data
    keeps the body below 2^31; requests are limited to 50 MiB.  Nothing checks the
    bounds on names and pairs before a needle is appended: an upload takes its file
    name as it comes, and the theorems are about needles within the bounds
    (a longer name is stored with a truncated length, [append_body_long_name]). *)
Definition MAX_DATA : Z := 2 ^ 31 - 2 ^ 17.

Record needle_wf (n : needle) : Prop := {
  wf_cookie : in_u32 n.(n_cookie);
  wf_id : in_u64 n.(n_id);
  wf_flags : in_u8 n.(n_flags);
  wf_data : len n.(n_data) < MAX_DATA;
  wf_name : len n.(n_name) < 2 ^ 8;
  wf_mime : len n.(n_mime) < 2 ^ 8;
  wf_pairs : len n.(n_pairs) < 2 ^ 16;
  wf_last_modified : in_u64 n.(n_last_modified);
  wf_ttl : Ttl.wf n.(n_ttl);
  wf_checksum : in_u32 n.(n_checksum);
}.

Definition enc_name (n : needle) : list byte :=
  if has_name n then put_u8 (len n.(n_name)) ++ n.(n_name) else [].
Definition enc_mime (n : needle) : list byte :=
  if has_mime n then put_u8 (len n.(n_mime)) ++ n.(n_mime) else [].
Definition enc_last_modified (n : needle) : list byte :=
  if has_last_modified_date n then put_u64 n.(n_last_modified) else [].
Definition enc_ttl (n : needle) : list byte :=
  if has_ttl n then Ttl.as_bytes n.(n_ttl) else [].
Definition enc_pairs (n : needle) : list byte :=
  if has_pairs n then put_u16 (len n.(n_pairs)) ++ n.(n_pairs) else [].

Definition body (n : needle) : list byte :=
  if len n.(n_data) =? 0 then []
  else put_u32 (len n.(n_data)) ++ n.(n_data) ++ put_u8 n.(n_flags) ++ enc_name n ++ enc_mime n
       ++ enc_last_modified n ++ enc_ttl n ++ enc_pairs n.

(** A stored needle: header, body, checksum, zero padding. *)
Definition encode (n : needle) : list byte :=
  put_u32 n.(n_cookie) ++ put_u64 n.(n_id) ++ put_u32 (len (body n)) ++ body n
  ++ put_u32 n.(n_checksum) ++ zeros (Size.padding_len (len (body n))).

(** What reading it does to a needle [m]. *)
Definition decode_body (n m : needle) : needle :=
  if len n.(n_data) =? 0 then m
  else
    let m := set_data (len n.(n_data)) n.(n_data) n.(n_flags) m in
    let m := if has_name n then set_name_fields (len n.(n_name)) n.(n_name) m else m in
    let m := if has_mime n then set_mime_fields (len n.(n_mime)) n.(n_mime) m else m in
    let m := if has_last_modified_date n then set_last_modified n.(n_last_modified) m else m in
    let m := if has_ttl n then set_ttl n.(n_ttl) m else m in
    if has_pairs n then set_pairs_fields (len n.(n_pairs)) n.(n_pairs) m else m.

Definition decode (n m : needle) : needle :=
  set_checksum n.(n_checksum)
    (decode_body n (set_header n.(n_cookie) n.(n_id) (len (body n)) m)).

(** ** Writing produces the format *)

Lemma len_put_u8 z : len (put_u8 z) = 1.
Proof. done. Qed.
Lemma len_put_u16 z : len (put_u16 z) = 2.
Proof. apply len_be_bytes. Qed.
Lemma len_put_u32 z : len (put_u32 z) = 4.
Proof. apply len_be_bytes. Qed.
Lemma len_put_u64 z : len (put_u64 z) = 8.
Proof. apply len_be_bytes. Qed.
Lemma len_ttl_bytes t : len (Ttl.as_bytes t) = 2.
Proof. done. Qed.
#[export] Hint Rewrite len_put_u8 len_put_u16 len_put_u32 len_put_u64 len_ttl_bytes : len.

Lemma len_body_bound n : needle_wf n -> Size.valid (len (body n)).
Proof.
  intros []. unfold Size.valid. split; [apply len_nonneg|].
  unfold body, enc_name, enc_mime, enc_last_modified, enc_ttl, enc_pairs, MAX_DATA in *.
  destruct (len (n_data n) =? 0); [done|].
  repeat match goal with |- context [if ?b then _ else _] => destruct b end;
    autorewrite with len; lia.
Qed.

Lemma put_if_spec b bytes sz acc bs :
  acc = (bs, len bs) -> sz = len bytes -> len bs + len bytes < 2 ^ 31 ->
  put_if b bytes sz acc = (bs ++ (if b then bytes else []), len (bs ++ (if b then bytes else []))).
Proof.
  intros -> -> Hlt. unfold put_if. pose proof (len_nonneg bs). pose proof (len_nonneg bytes).
  destruct b; simpl; [|by rewrite app_nil_r]. rewrite len_app. f_equal. int_solve.
Qed.

Ltac put_if_step b :=
  erewrite (put_if_spec b);
  [ | reflexivity
    | autorewrite with len; unfold LAST_MODIFIED_BYTES_LENGTH, TTL_BYTES_LENGTH; lia
    | repeat match goal with |- context [if ?c then _ else _] => destruct c end;
      autorewrite with len; lia ].

Lemma append_body_spec n : needle_wf n -> append_body n = (body n, len (body n)).
Proof.
  intros Hwf. pose proof (len_body_bound n Hwf) as Hb. destruct Hwf.
  unfold append_body, body in *. cbn [n_data_size with_sizes].
  pose proof (len_nonneg (n_data n)). pose proof (len_nonneg (n_name n)).
  pose proof (len_nonneg (n_mime n)). pose proof (len_nonneg (n_pairs n)).
  unfold MAX_DATA in *. rewrite u32_id by int_solve.
  destruct (Z.eqb_spec (len (n_data n)) 0) as [E|E].
  - rewrite (proj2 (Z.ltb_ge _ _)) by lia. done.
  - rewrite (proj2 (Z.ltb_lt _ _)) by lia.
    change (has_name (with_sizes 0 n)) with (has_name n).
    change (has_mime (with_sizes 0 n)) with (has_mime n).
    change (has_last_modified_date (with_sizes 0 n)) with (has_last_modified_date n).
    change (has_ttl (with_sizes 0 n)) with (has_ttl n).
    change (has_pairs (with_sizes 0 n)) with (has_pairs n).
    cbn [n_data n_flags n_name_size n_name n_mime_size n_mime n_pairs_size n_pairs
         n_last_modified n_ttl with_sizes].
    rewrite !u8_id, u16_id by int_solve.
    unfold enc_name, enc_mime, enc_last_modified, enc_ttl, enc_pairs in *.
    set (h := put_u32 (len (n_data n)) ++ n_data n ++ put_u8 (n_flags n)).
    assert (Hh : len h = len (n_data n) + 5) by (unfold h; autorewrite with len; lia).
    assert (Hi : i32 (i32 (4 + i32 (len (n_data n))) + 1) = len h) by (rewrite Hh; int_solve).
    rewrite Hi.
    put_if_step (has_name n). put_if_step (has_mime n).
    put_if_step (has_last_modified_date n). put_if_step (has_ttl n). put_if_step (has_pairs n).
    unfold h. by rewrite <- !app_assoc.
Qed.

Lemma append_buf_spec n :
  needle_wf n -> append_buf n = (with_sizes (len (body n)) n, encode n).
Proof.
  intros Hwf. pose proof (len_body_bound n Hwf) as Hb.
  unfold append_buf. rewrite append_body_spec by done. cbn [n_cookie n_id n_checksum with_sizes].
  f_equal. unfold encode.
  assert (Hpre : len (put_u32 (n_cookie n) ++ put_u64 (n_id n)) = 12) by (autorewrite with len; lia).
  destruct (Z.ltb_spec 0 (len (body n))) as [Hlt|Hge].
  - rewrite (app_assoc (put_u32 (n_cookie n)) (put_u64 (n_id n))).
    set (pre := put_u32 (n_cookie n) ++ put_u64 (n_id n)) in *.
    rewrite (u32_nonneg_i32 (len (body n))) by (try apply len_nonneg; by apply Size.valid_i32).
    assert (length pre = 12%nat) as Hl by (unfold len in Hpre; lia).
    rewrite take_app_le by lia. rewrite firstn_all2 by lia.
    replace 16%nat with (length (pre ++ put_i32 0))
      by (rewrite length_app, Hl; unfold put_i32; rewrite be_bytes_length; done).
    rewrite (app_assoc pre (put_i32 0)), drop_app_length.
    unfold pre. by rewrite <- !app_assoc.
  - pose proof (len_nonneg (body n)). assert (body n = []) as ->.
    { destruct (body n); [done|]. rewrite len_cons in Hge. pose proof (len_nonneg l). lia. }
    change (put_i32 0) with (put_u32 0). rewrite <- !app_assoc. done.
Qed.

Lemma len_encode n : needle_wf n -> len (encode n) = Size.actual_size (len (body n)).
Proof.
  intros Hwf. pose proof (len_body_bound n Hwf) as Hb. rewrite Size.actual_size_eq by done.
  pose proof (Size.padding_len_bounds (len (body n))).
  unfold encode. autorewrite with len. rewrite len_zeros by lia. lia.
Qed.

Lemma encode_nonempty n : encode n <> [].
Proof.
  intros E. apply (f_equal len) in E. unfold encode in E.
  autorewrite with len in E. pose proof (len_nonneg (body n)).
  pose proof (len_nonneg (zeros (Size.padding_len (len (body n))))). lia.
Qed.

(** [append] at or past the end of the file, when no write fails. *)
Lemma append_ok n w off :
  needle_wf n -> len w <= off ->
  append None n w off CURRENT_VERSION
  = (with_sizes (len (body n)) n, w ++ zeros (off - len w) ++ encode n, Ok tt).
Proof.
  intros Hwf Hle. unfold append. simpl negb. cbv iota. rewrite append_buf_spec by done.
  unfold write_all_at. rewrite pwrite_append by (done || apply encode_nonempty). done.
Qed.

(** ** Reading it back *)

Lemma get_be_at k bytes p z s idx st :
  bytes = p ++ be_bytes k z ++ s -> idx = len p -> 0 <= z < 256 ^ Z.of_nat k ->
  get_be k bytes idx st = (st, Ok z).
Proof.
  intros -> -> Hz. unfold get_be, mbind', mlift.
  rewrite (slice_app_mid p (be_bytes k z) s) by (rewrite ?len_be_bytes; done).
  simpl. unfold mret. by rewrite be_val_bytes.
Qed.

Lemma slice_at {A} (bytes p m s : list A) a b :
  bytes = p ++ m ++ s -> a = len p -> b = a + len m -> slice bytes a b = Some m.
Proof. intros -> -> ->. by apply slice_app_mid. Qed.

Ltac run := unfold mbind', mlift, mret, mget, mmodify; cbn [unwrap].

Lemma read_head_spec n bytes rest st :
  needle_wf n -> bytes = put_u32 (len n.(n_data)) ++ n.(n_data) ++ put_u8 n.(n_flags) ++ rest ->
  read_head bytes 0 st
  = (set_data (len n.(n_data)) n.(n_data) n.(n_flags) st, Ok (len n.(n_data) + 5)).
Proof.
  intros Hwf ->. destruct Hwf. unfold read_head. unfold MAX_DATA in *.
  pose proof (len_nonneg (n_data n)). pose proof (len_nonneg rest).
  rewrite (proj2 (Z.ltb_lt _ _)) by (autorewrite with len; lia).
  run. rewrite (get_be_at 4 _ [] (len (n_data n)) (n_data n ++ put_u8 (n_flags n) ++ rest))
    by (simpl Z.of_nat; done || lia).
  run. rewrite (slice_at _ (put_u32 (len (n_data n))) (n_data n) (put_u8 (n_flags n) ++ rest))
    by (autorewrite with len; done || lia).
  run. rewrite (get_be_at 1 _ (put_u32 (len (n_data n)) ++ n_data n) (n_flags n) rest).
  - f_equal. f_equal. lia.
  - by rewrite <- app_assoc.
  - autorewrite with len. lia.
  - simpl Z.of_nat. unfold in_u8 in *. lia.
Qed.

Lemma read_name_spec n bytes p rest st :
  needle_wf n -> st.(n_flags) = n.(n_flags) -> bytes = p ++ enc_name n ++ rest ->
  read_name bytes (len p) st
  = (if has_name n then set_name_fields (len n.(n_name)) n.(n_name) st else st,
     Ok (len (p ++ enc_name n))).
Proof.
  intros Hwf Hf ->. destruct Hwf. unfold read_name. run.
  assert (has_name st = has_name n) as -> by (unfold has_name; by rewrite Hf).
  unfold enc_name. pose proof (len_nonneg p). pose proof (len_nonneg (n_name n)).
  pose proof (len_nonneg rest).
  destruct (has_name n); [|by rewrite andb_false_r, app_nil_r].
  rewrite (proj2 (Z.ltb_lt _ _)) by (autorewrite with len; lia). cbn [andb].
  rewrite (get_be_at 1 _ p (len (n_name n)) (n_name n ++ rest));
    [|by rewrite <- !app_assoc|done|simpl Z.of_nat; lia].
  run. rewrite (slice_at _ (p ++ put_u8 (len (n_name n))) (n_name n) rest);
    [|by rewrite <- !app_assoc|by autorewrite with len|autorewrite with len; lia].
  run. f_equal. f_equal. autorewrite with len. lia.
Qed.

Lemma read_mime_spec n bytes p rest st :
  needle_wf n -> st.(n_flags) = n.(n_flags) -> bytes = p ++ enc_mime n ++ rest ->
  read_mime bytes (len p) st
  = (if has_mime n then set_mime_fields (len n.(n_mime)) n.(n_mime) st else st,
     Ok (len (p ++ enc_mime n))).
Proof.
  intros Hwf Hf ->. destruct Hwf. unfold read_mime. run.
  assert (has_mime st = has_mime n) as -> by (unfold has_mime; by rewrite Hf).
  unfold enc_mime. pose proof (len_nonneg p). pose proof (len_nonneg (n_mime n)).
  pose proof (len_nonneg rest).
  destruct (has_mime n); [|by rewrite andb_false_r, app_nil_r].
  rewrite (proj2 (Z.ltb_lt _ _)) by (autorewrite with len; lia). cbn [andb].
  rewrite (get_be_at 1 _ p (len (n_mime n)) (n_mime n ++ rest));
    [|by rewrite <- !app_assoc|done|simpl Z.of_nat; lia].
  run. rewrite (slice_at _ (p ++ put_u8 (len (n_mime n))) (n_mime n) rest);
    [|by rewrite <- !app_assoc|by autorewrite with len|autorewrite with len; lia].
  run. f_equal. f_equal. autorewrite with len. lia.
Qed.

Lemma read_last_modified_spec n bytes p rest st :
  needle_wf n -> st.(n_flags) = n.(n_flags) -> bytes = p ++ enc_last_modified n ++ rest ->
  read_last_modified bytes (len p) st
  = (if has_last_modified_date n then set_last_modified n.(n_last_modified) st else st,
     Ok (len (p ++ enc_last_modified n))).
Proof.
  intros Hwf Hf ->. destruct Hwf. unfold read_last_modified. run.
  assert (has_last_modified_date st = has_last_modified_date n) as ->
    by (unfold has_last_modified_date; by rewrite Hf).
  unfold enc_last_modified. pose proof (len_nonneg rest).
  destruct (has_last_modified_date n); [|by rewrite andb_false_r, app_nil_r].
  rewrite (proj2 (Z.ltb_lt _ _)) by (autorewrite with len; lia). cbn [andb].
  rewrite (get_be_at 8 _ p (n_last_modified n) rest);
    [|done|done|simpl Z.of_nat; unfold in_u64 in *; lia].
  f_equal. f_equal. autorewrite with len. done.
Qed.

Lemma read_ttl_spec n bytes p rest st :
  needle_wf n -> st.(n_flags) = n.(n_flags) -> bytes = p ++ enc_ttl n ++ rest ->
  read_ttl bytes (len p) st
  = (if has_ttl n then set_ttl n.(n_ttl) st else st, Ok (len (p ++ enc_ttl n))).
Proof.
  intros Hwf Hf ->. destruct Hwf. unfold read_ttl. run.
  assert (has_ttl st = has_ttl n) as -> by (unfold has_ttl; by rewrite Hf).
  unfold enc_ttl. pose proof (len_nonneg rest).
  destruct (has_ttl n); [|by rewrite andb_false_r, app_nil_r].
  rewrite (proj2 (Z.ltb_lt _ _)) by (autorewrite with len; lia). cbn [andb].
  rewrite (slice_at _ p (Ttl.as_bytes (n_ttl n)) rest) by done. run.
  rewrite Ttl.from_as_bytes by done. cbn [map_err]. f_equal. f_equal. autorewrite with len. done.
Qed.

Lemma read_pairs_spec n bytes p rest st :
  needle_wf n -> st.(n_flags) = n.(n_flags) -> bytes = p ++ enc_pairs n ++ rest ->
  read_pairs bytes (len p) st
  = (if has_pairs n then set_pairs_fields (len n.(n_pairs)) n.(n_pairs) st else st, Ok tt).
Proof.
  intros Hwf Hf ->. destruct Hwf. unfold read_pairs. run.
  assert (has_pairs st = has_pairs n) as -> by (unfold has_pairs; by rewrite Hf).
  unfold enc_pairs. pose proof (len_nonneg p). pose proof (len_nonneg (n_pairs n)).
  pose proof (len_nonneg rest).
  destruct (has_pairs n); [|by rewrite andb_false_r].
  rewrite (proj2 (Z.ltb_lt _ _)) by (autorewrite with len; lia). cbn [andb].
  rewrite (get_be_at 2 _ p (len (n_pairs n)) (n_pairs n ++ rest));
    [|by rewrite <- !app_assoc|done|simpl Z.of_nat; lia].
  run. rewrite (slice_at _ (p ++ put_u16 (len (n_pairs n))) (n_pairs n) rest);
    [|by rewrite <- !app_assoc|by autorewrite with len|autorewrite with len; lia].
  done.
Qed.

Ltac flags_kept :=
  repeat match goal with |- context [if ?b then _ else _] => destruct b end; reflexivity.

(** Bytes after the body (the checksum and padding, when the caller passes
    them) do not change what is read. *)
Lemma read_needle_data_spec n tail m :
  needle_wf n -> len n.(n_data) <> 0 ->
  read_needle_data (body n ++ tail) m = (decode_body n m, Ok tt).
Proof.
  intros Hwf Hd. unfold read_needle_data, body, decode_body.
  rewrite (proj2 (Z.eqb_neq _ _)) by done.
  set (h := put_u32 (len (n_data n)) ++ n_data n ++ put_u8 (n_flags n)).
  assert (Hh : len h = len (n_data n) + 5) by (unfold h; autorewrite with len; lia).
  set (bytes := (put_u32 (len (n_data n)) ++ n_data n ++ put_u8 (n_flags n) ++ enc_name n
    ++ enc_mime n ++ enc_last_modified n ++ enc_ttl n ++ enc_pairs n) ++ tail).
  unfold mbind'.
  rewrite (read_head_spec n bytes (enc_name n ++ enc_mime n ++ enc_last_modified n ++ enc_ttl n
    ++ enc_pairs n ++ tail)); [|done|unfold bytes; by rewrite <- !app_assoc].
  rewrite <- Hh.
  erewrite (read_name_spec n bytes h); [|done|done|unfold bytes, h; by rewrite <- !app_assoc].
  erewrite (read_mime_spec n bytes (h ++ enc_name n));
    [|done|flags_kept|unfold bytes, h; by rewrite <- !app_assoc].
  erewrite (read_last_modified_spec n bytes ((h ++ enc_name n) ++ enc_mime n));
    [|done|flags_kept|unfold bytes, h; by rewrite <- !app_assoc].
  erewrite (read_ttl_spec n bytes (((h ++ enc_name n) ++ enc_mime n) ++ enc_last_modified n));
    [|done|flags_kept|unfold bytes, h; by rewrite <- !app_assoc].
  erewrite (read_pairs_spec n bytes
    ((((h ++ enc_name n) ++ enc_mime n) ++ enc_last_modified n) ++ enc_ttl n));
    [|done|flags_kept|unfold bytes, h; by rewrite <- !app_assoc].
  reflexivity.
Qed.

Lemma parse_needle_header_spec c i s rest m :
  in_u32 c -> in_u64 i -> Size.valid s ->
  parse_needle_header (put_u32 c ++ put_u64 i ++ put_u32 s ++ rest) m
  = (set_header c i s m, Ok tt).
Proof.
  intros Hc Hi Hs. unfold parse_needle_header. run. unfold Size.valid in Hs.
  rewrite (get_be_at 4 _ [] c (put_u64 i ++ put_u32 s ++ rest));
    [|done|done|simpl Z.of_nat; unfold in_u32 in *; lia].
  run. rewrite (get_be_at 8 _ (put_u32 c) i (put_u32 s ++ rest));
    [|done|by rewrite len_put_u32|simpl Z.of_nat; unfold in_u64 in *; lia].
  run. rewrite (get_be_at 4 _ (put_u32 c ++ put_u64 i) s rest);
    [|by rewrite <- app_assoc|autorewrite with len; lia|simpl Z.of_nat; lia].
  assert (i32 s = s) as -> by int_solve. done.
Qed.

Section Crc.
Context (crc : list byte -> Z).

(** The needle that [Volume::read_needle] starts from has no data yet. *)
Lemma read_bytes_encode n m offset :
  needle_wf n -> n.(n_checksum) = crc n.(n_data) -> m.(n_data) = [] ->
  read_bytes crc (encode n) offset (len (body n)) VERSION2 m = (decode n m, Ok tt).
Proof.
  intros Hwf Hcrc Hm. pose proof (len_body_bound n Hwf) as Hb.
  unfold read_bytes, mbind'. unfold encode at 1.
  rewrite parse_needle_header_spec by (try apply Hwf; done).
  unfold mget. cbn [n_size set_header]. rewrite Z.eqb_refl. cbn [negb andb].
  rewrite (u32_nonneg_i32 (len (body n))) by (try apply len_nonneg; by apply Size.valid_i32).
  unfold Size.valid in Hb. rewrite (u32_id (NEEDLE_HEADER_SIZE + _))
    by (unfold NEEDLE_HEADER_SIZE; int_solve).
  set (hd := put_u32 (n_cookie n) ++ put_u64 (n_id n) ++ put_u32 (len (body n))).
  assert (Hhd : len hd = 16) by (unfold hd; autorewrite with len; lia).
  rewrite (slice_at _ hd (body n)
    (put_u32 (n_checksum n) ++ zeros (Size.padding_len (len (body n)))));
    [|unfold encode, hd; by rewrite <- !app_assoc|done|unfold NEEDLE_HEADER_SIZE; lia].
  unfold mlift, mret. cbn [unwrap].
  assert (Hrd : read_needle_data (body n)
                  (set_header (n_cookie n) (n_id n) (len (body n)) m)
                = (decode_body n (set_header (n_cookie n) (n_id n) (len (body n)) m), Ok tt)).
  { destruct (Z.eq_dec (len (n_data n)) 0) as [E|E].
    - unfold decode_body, body. rewrite (proj2 (Z.eqb_eq _ _)) by done. reflexivity.
    - rewrite <- (app_nil_r (body n)) at 1. by apply read_needle_data_spec. }
  change (VERSION2 =? VERSION2) with true. cbv iota beta. rewrite Hrd. clear Hrd.
  rewrite (u32_id (_ + NEEDLE_CHECKSUM_SIZE))
    by (unfold NEEDLE_HEADER_SIZE, NEEDLE_CHECKSUM_SIZE; int_solve).
  rewrite (slice_at _ (hd ++ body n) (put_u32 (n_checksum n))
    (zeros (Size.padding_len (len (body n)))));
    [|unfold encode, hd; by rewrite <- !app_assoc
     |rewrite len_app; unfold NEEDLE_HEADER_SIZE; lia
     |unfold NEEDLE_HEADER_SIZE, NEEDLE_CHECKSUM_SIZE; autorewrite with len; lia].
  cbn [unwrap]. unfold mmodify.
  assert (be_val (put_u32 (n_checksum n)) = n_checksum n) as ->
    by (apply be_val_bytes; simpl Z.of_nat; destruct Hwf; unfold in_u32 in *; lia).
  fold (decode n m). cbn [n_checksum].
  assert (n_data (decode n m) = n_data n) as ->.
  { unfold decode, decode_body. destruct (Z.eqb_spec (len (n_data n)) 0) as [E|E].
    - simpl. rewrite Hm. destruct (n_data n); [done|]. rewrite len_cons in E.
      pose proof (len_nonneg l). lia.
    - flags_kept. }
  change (n_checksum (decode n m)) with (n_checksum n).
  rewrite Hcrc, Z.eqb_refl. done.
Qed.

Lemma read_data_encode n m f k offset :
  needle_wf n -> n.(n_checksum) = crc n.(n_data) -> m.(n_data) = [] ->
  len f = Offset.actual_offset offset ->
  read_data crc (f ++ encode n ++ k) offset (len (body n)) VERSION2 m = (decode n m, Ok tt).
Proof.
  intros Hwf Hc Hm Ho. unfold read_data, read_needle_blob, mbind', mlift.
  rewrite <- Ho, <- len_encode by done. rewrite read_exact_at_app. simpl.
  by apply read_bytes_encode.
Qed.
End Crc.

(** ** Names that do not fit their length byte *)

(** [put_if] when the size already lags [d] bytes behind the buffer. *)
Lemma put_if_lag b bytes sz acc bs d :
  acc = (bs, len bs - d) -> sz = len bytes -> 0 <= d <= len bs -> len bs + len bytes < 2 ^ 31 ->
  put_if b bytes sz acc
  = (bs ++ (if b then bytes else []), len (bs ++ (if b then bytes else [])) - d).
Proof.
  intros -> -> Hd Hlt. unfold put_if. pose proof (len_nonneg bytes).
  destruct b; simpl; [|by rewrite app_nil_r]. rewrite len_app. f_equal. int_solve.
Qed.

(** A needle that is well formed but for a name of 256 bytes or more. *)
Definition long_name (n : needle) : Prop :=
  needle_wf (set_name_fields n.(n_name_size) [] n) /\ 256 <= len n.(n_name) < 2 ^ 16
  /\ has_name n = true /\ len n.(n_data) <> 0 /\ len n.(n_data) + 2 ^ 16 < MAX_DATA.

Ltac put_if_lag_step b d :=
  erewrite (put_if_lag b _ _ _ _ d);
  [ | reflexivity
    | autorewrite with len; unfold LAST_MODIFIED_BYTES_LENGTH, TTL_BYTES_LENGTH; lia
    | repeat match goal with |- context [if ?c then _ else _] => destruct c end;
      autorewrite with len; lia
    | repeat match goal with |- context [if ?c then _ else _] => destruct c end;
      autorewrite with len; lia ].

Lemma append_body_long_name n :
  long_name n ->
  (append_body n).2 = len (append_body n).1 - (len n.(n_name) - len n.(n_name) mod 256).
Proof.
  intros ([] & Hn & Hf & Hd & Hlt). cbn [set_name_fields n_data n_mime n_pairs] in *.
  unfold append_body. cbn [n_data_size with_sizes]. unfold MAX_DATA in *.
  pose proof (len_nonneg (n_data n)). pose proof (len_nonneg (n_mime n)).
  pose proof (len_nonneg (n_pairs n)).
  rewrite u32_id by int_solve. rewrite (proj2 (Z.ltb_lt _ _)) by lia.
  change (has_name (with_sizes 0 n)) with (has_name n). rewrite Hf.
  change (has_mime (with_sizes 0 n)) with (has_mime n).
  change (has_last_modified_date (with_sizes 0 n)) with (has_last_modified_date n).
  change (has_ttl (with_sizes 0 n)) with (has_ttl n).
  change (has_pairs (with_sizes 0 n)) with (has_pairs n).
  cbn [n_data n_flags n_name_size n_name n_mime_size n_mime n_pairs_size n_pairs
       n_last_modified n_ttl with_sizes].
  rewrite (u8_id (len (n_mime n))), u16_id by int_solve.
  set (h := put_u32 (len (n_data n)) ++ n_data n ++ put_u8 (n_flags n)).
  assert (Hh : len h = len (n_data n) + 5) by (unfold h; autorewrite with len; lia).
  set (d := len (n_name n) - len (n_name n) mod 256).
  assert (Hdr : 0 <= d <= len (n_name n)) by (unfold d; Z.div_mod_to_equations; lia).
  assert (Hname : put_if true (put_u8 (u8 (len (n_name n))) ++ n_name n)
                    (1 + u8 (len (n_name n))) (h, i32 (i32 (4 + i32 (len (n_data n))) + 1))
                  = (h ++ put_u8 (u8 (len (n_name n))) ++ n_name n,
                     len (h ++ put_u8 (u8 (len (n_name n))) ++ n_name n) - d)).
  { unfold put_if. cbn [fst snd]. f_equal. autorewrite with len. rewrite Hh. unfold d. int_solve. }
  rewrite Hname.
  put_if_lag_step (has_mime n) d. put_if_lag_step (has_last_modified_date n) d.
  put_if_lag_step (has_ttl n) d. put_if_lag_step (has_pairs n) d. done.
Qed.

(** C23: reading the bytes [append] produced, at the size [append] recorded,
    yields the needle that was written: every stored field, for every
    combination of flags, and the checksum passes, when the fields fit the widths
    of the format ([needle_wf]). *)
Theorem needle_codec_roundtrip : forall crc n offset w m,
  needle_wf n -> n.(n_checksum) = crc n.(n_data) -> m.(n_data) = [] ->
  len w = Offset.actual_offset offset ->
  exists n' w',
    append None n w (len w) CURRENT_VERSION = (n', w', Ok tt)
    /\ len w' = len w + Size.actual_size n'.(n_size)
    /\ read_data crc w' offset n'.(n_size) CURRENT_VERSION m = (decode n m, Ok tt).
Proof.
  intros crc n offset w m Hwf Hcrc Hm Ho.
  exists (with_sizes (len (body n)) n), (w ++ encode n). split; [|split].
  - rewrite append_ok by (done || lia). by rewrite zeros_nonpos by lia.
  - rewrite len_app, len_encode by done. done.
  - cbn [n_size with_sizes]. rewrite <- (app_nil_r (encode n)).
    by apply read_data_encode.
Qed.

(** A checksum and a needle with every optional field, for the witnesses. *)
Definition sum_crc (l : list byte) : Z := u32 (fold_left (fun a b => a + b2z b) l 7).
Definition hello : list byte := [Byte.x48; Byte.x65; Byte.x6c; Byte.x6c; Byte.x6f].
Definition sample_needle : needle :=
  Needle 305419896 42 0 0 hello 62 0 [Byte.x61] 0 [Byte.x62; Byte.x63] 0 hello 1700000000
    (Ttl 3 Day) (sum_crc hello) [].

Lemma sample_needle_wf : needle_wf sample_needle.
Proof. split; unfold Ttl.wf; vm_compute; split; congruence || reflexivity. Qed.

Lemma needle_codec_roundtrip_witness : exists n' w',
  append None sample_needle (zeros 8) 8 CURRENT_VERSION = (n', w', Ok tt)
  /\ len w' = 8 + Size.actual_size n'.(n_size)
  /\ read_data sum_crc w' 1 n'.(n_size) CURRENT_VERSION needle_default
     = (decode sample_needle needle_default, Ok tt).
Proof.
  apply (needle_codec_roundtrip sum_crc sample_needle 1 (zeros 8) needle_default);
    [exact sample_needle_wf|reflexivity..].
Defined.

(** The size a needle records is the number of bytes its body occupies as
    long as the name fits its length byte; a longer name is written whole while
    only its length modulo 256 is counted, so the recorded size lags behind. *)
Theorem needle_size_accounting :
  (forall n, needle_wf n -> (append_body n).2 = len (append_body n).1)
  /\ (forall n, long_name n -> (append_body n).2 < len (append_body n).1).
Proof.
  split; intros n Hn.
  - by rewrite append_body_spec.
  - rewrite append_body_long_name by done. destruct Hn as (_ & Hl & _).
    Z.div_mod_to_equations; lia.
Qed.

(** The entity tag does not depend on the needle. *)
Theorem etag_constant : forall n, etag n = [0; 0; 0; 0].
Proof. intros n. reflexivity. Qed.

(** Bytes after the body do not influence what [read_needle_body] reads. *)
Lemma read_needle_body_lemma crc n f rest m :
  needle_wf n -> len n.(n_data) <> 0 ->
  read_needle_body crc
    (f ++ body n ++ put_u32 n.(n_checksum) ++ zeros (Size.padding_len (len (body n))) ++ rest)
    (len f) (body_len (with_sizes (len (body n)) n)) VERSION2 m
  = (set_checksum (crc n.(n_data)) (decode_body n m), Ok tt).
Proof.
  intros Hwf Hd. pose proof (len_body_bound n Hwf) as Hb. unfold Size.valid in Hb.
  pose proof (Size.padding_len_bounds (len (body n))) as Hp.
  set (tail := put_u32 n.(n_checksum) ++ zeros (Size.padding_len (len (body n)))).
  assert (Hlen : body_len (with_sizes (len (body n)) n) = len (body n ++ tail)).
  { unfold body_len, tail. cbn [n_size with_sizes]. autorewrite with len.
    rewrite len_zeros by lia. unfold NEEDLE_CHECKSUM_SIZE. int_solve. }
  unfold read_needle_body. rewrite Hlen.
  rewrite (proj2 (Z.eqb_neq _ _)).
  2:{ unfold tail. autorewrite with len. pose proof (len_nonneg (body n)).
      pose proof (len_nonneg (zeros (Size.padding_len (len (body n))))). lia. }
  change (VERSION2 =? VERSION2) with true. cbv iota.
  assert (f ++ body n ++ put_u32 (n_checksum n) ++ zeros (Size.padding_len (len (body n))) ++ rest
          = f ++ (body n ++ tail) ++ rest) as ->
    by (unfold tail; by rewrite <- !app_assoc).
  unfold mbind', mlift. rewrite read_exact_at_app. cbn [map_err].
  rewrite read_needle_data_spec by done. unfold mget, mmodify. f_equal. f_equal. f_equal.
  unfold decode_body. rewrite (proj2 (Z.eqb_neq _ _)) by done. flags_kept.
Qed.

(** Scanning reads a needle's body back: given the position after the
    header and the length the header announces, [read_needle_body] restores
    every stored field and recomputes the checksum, whatever follows the
    needle in the file. *)
Theorem read_needle_body_spec : forall crc n f rest m,
  needle_wf n -> len n.(n_data) <> 0 ->
  read_needle_body crc
    (f ++ body n ++ put_u32 n.(n_checksum) ++ zeros (Size.padding_len (len (body n))) ++ rest)
    (len f) (body_len (with_sizes (len (body n)) n)) VERSION2 m
  = (set_checksum (crc n.(n_data)) (decode_body n m), Ok tt).
Proof. intros. by apply read_needle_body_lemma. Qed.

Lemma read_needle_body_spec_witness :
  read_needle_body sum_crc
    (zeros 24 ++ body sample_needle ++ put_u32 sample_needle.(n_checksum)
     ++ zeros (Size.padding_len (len (body sample_needle))) ++ hello)
    24 (body_len (with_sizes (len (body sample_needle)) sample_needle)) VERSION2 needle_default
  = (set_checksum (sum_crc hello) (decode_body sample_needle needle_default), Ok tt).
Proof.
  apply (read_needle_body_spec sum_crc sample_needle (zeros 24) hello needle_default
           sample_needle_wf). vm_compute. congruence.
Defined.
