(* ===== verification/NeedleMap.v ===== *)
(** * The needle index ([storage/needle/needle_map.rs], [needle_value_map.rs],
    [metric.rs], and [NeedleValue] of [storage/needle/mod.rs]) *)

From S2P Require Import Prelude Types Text Ttl Replica Errors Files Fs.

Record needle_value := NeedleValue { nv_offset : Z; nv_size : Z }.

#[export] Instance needle_value_eq_dec : EqDecision needle_value.
Proof. solve_decision. Defined.

Definition nv_deleted : needle_value := NeedleValue 0 (-1).

(** [NeedleValue::as_bytes] *)
Definition as_bytes (v : needle_value) (needle_id : Z) : list byte :=
  put_u64 needle_id ++ put_u32 v.(nv_offset) ++ put_i32 v.(nv_size).

(** [read_index_entry] *)
Definition read_index_entry {E} (buf : list byte) : outcome E (Z * Z * Z) :=
  let? k := unwrap (slice buf 0 8) in
  let? o := unwrap (slice buf 8 12) in
  let? s := unwrap (slice buf 12 16) in
  Ok (be_val k, be_val o, i32 (be_val s)).

Record nv_wf (v : needle_value) : Prop := {
  nv_offset_range : in_u32 v.(nv_offset);
  nv_size_range : in_i32 v.(nv_size);
}.

(** ** Metrics *)

Record metric := Metric {
  max_file_key : Z;
  file_count : Z;
  deleted_count : Z;
  deleted_bytes : Z;
  file_bytes : Z;
}.

Definition metric_default : metric := Metric 0 0 0 0 0.

Definition maybe_max_file_key (key : Z) (m : metric) : metric :=
  if m.(max_file_key) <? key
  then Metric key m.(file_count) m.(deleted_count) m.(deleted_bytes) m.(file_bytes)
  else m.

Definition add_file (size : Z) (m : metric) : metric :=
  Metric m.(max_file_key) (u64 (m.(file_count) + 1)) m.(deleted_count) m.(deleted_bytes)
    (u64 (m.(file_bytes) + Size.actual_size size)).

Definition delete_file (size : Z) (m : metric) : metric :=
  Metric m.(max_file_key) m.(file_count) (u64 (m.(deleted_count) + 1))
    (u64 (m.(deleted_bytes) + Size.actual_size size)) m.(file_bytes).

(** ** The interface [trait NeedleValueMap]

    [set] and [delete] return the value that was there. *)

Class NeedleValueMap (T : Type) := {
  nvm_empty : T;
  nvm_set : T -> Z -> needle_value -> T * option needle_value;
  nvm_delete : T -> Z -> T * option needle_value;
  nvm_get : T -> Z -> option needle_value;
}.

Class NeedleValueMapLaws (T : Type) `{NeedleValueMap T} := {
  nvm_wf : T -> Prop;
  nvm_wf_empty : nvm_wf nvm_empty;
  nvm_wf_set m k v : nvm_wf m -> nvm_wf (nvm_set m k v).1;
  nvm_wf_delete m k : nvm_wf m -> nvm_wf (nvm_delete m k).1;
  nvm_get_empty k : nvm_get nvm_empty k = None;
  nvm_set_old m k v : nvm_wf m -> (nvm_set m k v).2 = nvm_get m k;
  nvm_delete_old m k : nvm_wf m -> (nvm_delete m k).2 = nvm_get m k;
  nvm_get_set m k v j :
    nvm_wf m -> nvm_get (nvm_set m k v).1 j = if decide (k = j) then Some v else nvm_get m j;
  nvm_get_delete m k j :
    nvm_wf m -> nvm_get (nvm_delete m k).1 j = if decide (k = j) then None else nvm_get m j;
}.

(** [MemoryNeedleValueMap]: a concurrent hash map used as a map. *)
Definition memory_map : Type := gmap Z needle_value.

#[export] Instance MemoryNeedleValueMap : NeedleValueMap memory_map := {
  nvm_empty := (∅ : gmap Z needle_value);
  nvm_set m k v := (<[k := v]> (m : gmap Z needle_value), (m : gmap Z needle_value) !! k);
  nvm_delete m k := (delete k (m : gmap Z needle_value), (m : gmap Z needle_value) !! k);
  nvm_get m k := (m : gmap Z needle_value) !! k;
}.

#[export] Instance memory_map_laws : NeedleValueMapLaws memory_map.
Proof.
  refine {| nvm_wf := fun _ => True |}; simpl; try done.
  - intros m k v j _. rewrite lookup_insert. by case_decide.
  - intros m k j _. rewrite lookup_delete. by case_decide.
Defined.

(** [SortedIndexMap]: an [IndexMap], the entries in insertion order. *)
Definition index_map : Type := list (Z * needle_value).

Fixpoint index_get (m : index_map) (k : Z) : option needle_value :=
  match m with
  | [] => None
  | (j, v) :: m' => if j =? k then Some v else index_get m' k
  end.

(** [IndexMap::insert]: in place for a key that is there, else at the end. *)
Fixpoint index_insert (m : index_map) (k : Z) (v : needle_value) : index_map :=
  match m with
  | [] => [(k, v)]
  | (j, w) :: m' => if j =? k then (j, v) :: m' else (j, w) :: index_insert m' k v
  end.

(** [IndexMap::shift_remove]: the order of the others is kept. *)
Fixpoint index_shift_remove (m : index_map) (k : Z) : index_map :=
  match m with
  | [] => []
  | (j, w) :: m' => if j =? k then m' else (j, w) :: index_shift_remove m' k
  end.

#[export] Instance SortedIndexMap : NeedleValueMap index_map := {
  nvm_empty := [];
  nvm_set m k v := (index_insert m k v, index_get m k);
  nvm_delete m k := (index_shift_remove m k, index_get m k);
  nvm_get := index_get;
}.

Definition index_keys (m : index_map) : list Z := map fst m.

Lemma index_get_In m k : index_get m k <> None <-> k ∈ index_keys m.
Proof.
  induction m as [|[j v] m IH]; simpl.
  - split; [done|]. intros H. by apply not_elem_of_nil in H.
  - rewrite elem_of_cons. destruct (Z.eqb_spec j k); [naive_solver|].
    rewrite IH. naive_solver.
Qed.

Lemma index_insert_keys m k v :
  index_keys (index_insert m k v)
  = match index_get m k with Some _ => index_keys m | None => index_keys m ++ [k] end.
Proof.
  induction m as [|[j w] m IH]; simpl; [done|].
  destruct (Z.eqb_spec j k) as [->|Hne]; [done|].
  simpl. rewrite IH. by destruct (index_get m k).
Qed.

Lemma index_remove_keys m k j :
  j ∈ index_keys (index_shift_remove m k) -> j ∈ index_keys m.
Proof.
  induction m as [|[i w] m IH]; simpl; [done|].
  destruct (Z.eqb_spec i k); simpl; rewrite !elem_of_cons; naive_solver.
Qed.

#[export] Instance index_map_laws : NeedleValueMapLaws index_map.
Proof.
  refine {| nvm_wf := fun m => NoDup (index_keys m) |}; simpl; try done.
  - constructor.
  - intros m k v H. rewrite index_insert_keys.
    destruct (index_get m k) eqn:Hd; [done|].
    apply NoDup_app. repeat split; [done| |apply NoDup_singleton].
    intros x Hx Hk. apply list_elem_of_singleton in Hk as ->.
    by apply index_get_In in Hx.
  - intros m k. induction m as [|[j w] m IH]; simpl; [done|]. intros [H1 H2]%NoDup_cons.
    destruct (j =? k); [done|]. simpl. apply NoDup_cons. split; [|by apply IH].
    intros H. by apply H1, (index_remove_keys _ k).
  - intros m k v j _. induction m as [|[i w] m IH]; simpl.
    + destruct (Z.eqb_spec k j); by case_decide.
    + destruct (Z.eqb_spec i k); simpl; destruct (Z.eqb_spec i j); repeat case_decide; naive_solver.
  - intros m k j. induction m as [|[i w] m IH]; simpl.
    + intros _. by case_decide.
    + intros [H1 H2]%NoDup_cons. destruct (Z.eqb_spec i k) as [->|Hik]; simpl.
      * destruct (Z.eqb_spec k j) as [->|].
        -- rewrite decide_True by done. destruct (index_get m j) eqn:E; [|done].
           exfalso. apply H1. apply index_get_In. congruence.
        -- by rewrite decide_False.
      * rewrite IH by done. destruct (Z.eqb_spec i j); repeat case_decide; naive_solver.
Defined.

(** ** Walking an index file *)

(** [walk_index_file]: [(len + 15) / 16] entries; an incomplete last entry is an
    error. *)
Fixpoint walk_entries {S} (n : nat) (bytes : list byte) (walk : Z -> Z -> Z -> M S NeedleError unit)
  : M S VolumeError unit :=
  match n with
  | O => mret tt
  | S n' =>
      let* buf := mlift (if 16 <=? len bytes then Ok (take 16 bytes) else Err (VIo UnexpectedEof)) in
      let* e := mlift (read_index_entry buf) in
      let '(key, offset, size) := e in
      let* _ := (fun s => let '(s', r) := walk key offset size s in (s', map_err VNeedle r)) in
      walk_entries n' (drop 16 bytes) walk
  end.

Definition walk_index_file {S} (f : file) (walk : Z -> Z -> Z -> M S NeedleError unit)
  : M S VolumeError unit :=
  walk_entries (Z.to_nat ((len f + 15) / 16)) f walk.

(** ** [NeedleMapper] *)

Section Mapper.
Context {T : Type} `{NeedleValueMap T}.

Record needle_mapper := NeedleMapper {
  nm_volume_id : Z;
  nm_map : T;
  nm_index_file : option string;
  nm_metric : metric;
}.

(** [NeedleMapper::new] *)
Definition mapper_new (volume_id : Z) : needle_mapper :=
  NeedleMapper volume_id nvm_empty None metric_default.

Definition set_map (m : T) (nm : needle_mapper) : needle_mapper :=
  NeedleMapper nm.(nm_volume_id) m nm.(nm_index_file) nm.(nm_metric).
Definition set_metric (f : metric -> metric) (nm : needle_mapper) : needle_mapper :=
  NeedleMapper nm.(nm_volume_id) nm.(nm_map) nm.(nm_index_file) (f nm.(nm_metric)).
Definition set_index_file (p : option string) (nm : needle_mapper) : needle_mapper :=
  NeedleMapper nm.(nm_volume_id) nm.(nm_map) p nm.(nm_metric).

(** The mapper and the directory its index file lives in. *)
Definition MM := M (needle_mapper * fs) VolumeError.

Definition on_mapper (f : needle_mapper -> needle_mapper) : MM unit :=
  mmodify (fun s => (f s.1, s.2)).

(** [append_to_index_file] *)
Definition append_to_index_file (flt : fault) (key : Z) (value : needle_value) : MM unit :=
  let* s := mget in
  match s.1.(nm_index_file) with
  | None => mret tt
  | Some path =>
      let* f := mlift (map_err VIo (fs_get s.2 path)) in
      let '(f', r) := write_all_at flt f (len f) (as_bytes value key) in
      let* _ := mmodify (fun s => (s.1, fs_put path f' s.2)) in
      mlift (map_err VIo r)
  end.

(** [NeedleMapper::set] *)
Definition mapper_set (flt : fault) (key : Z) (index : needle_value) : MM (option needle_value) :=
  let* _ := on_mapper (set_metric (maybe_max_file_key key)) in
  let* _ := on_mapper (set_metric (add_file index.(nv_size))) in
  let* s := mget in
  let '(m', old) := nvm_set s.1.(nm_map) key index in
  let* _ := on_mapper (set_map m') in
  let* _ := (match old with
             | Some n => on_mapper (set_metric (delete_file n.(nv_size)))
             | None => mret tt
             end) in
  let* _ := append_to_index_file flt key index in
  mret old.

(** [NeedleMapper::delete]: the value that was there goes to the index file. *)
Definition mapper_delete (flt : fault) (key : Z) : MM (option needle_value) :=
  let* s := mget in
  let '(m', deleted) := nvm_delete s.1.(nm_map) key in
  let* _ := on_mapper (set_map m') in
  match deleted with
  | Some index =>
      let* _ := on_mapper (set_metric (delete_file index.(nv_size))) in
      let* _ := append_to_index_file flt key index in
      mret deleted
  | None => mret deleted
  end.

Definition mapper_get (nm : needle_mapper) (key : Z) : option needle_value :=
  nvm_get nm.(nm_map) key.

(** [index_file_size] *)
Definition index_file_size (s : fs) (nm : needle_mapper) : outcome VolumeError Z :=
  match nm.(nm_index_file) with
  | Some path => let? f := map_err VIo (fs_get s path) in Ok (len f)
  | None => Ok 0
  end.

(** One entry of [load_index_file]; errors are boxed. *)
Definition load_entry (key offset size : Z) : M (needle_mapper * fs) NeedleError unit :=
  fun s =>
    if (offset =? 0) || Size.is_deleted size
    then let '(s', r) := mapper_delete None key s in
         (s', match r with Ok _ => Ok tt | Err _ => Err NBox | Panic => Panic end)
    else let '(s', r) := mapper_set None key (NeedleValue offset size) s in
         (s', match r with Ok _ => Ok tt | Err _ => Err NBox | Panic => Panic end).

(** [NeedleMapper::load_index_file], the file opened as [path]. *)
Definition load_index_file (path : string) : MM unit :=
  let* s := mget in
  let* f := mlift (map_err VIo (fs_get s.2 path)) in
  let* _ := walk_index_file f load_entry in
  on_mapper (set_index_file (Some path)).

End Mapper.
Arguments needle_mapper T : clear implicits.
