(* ===== verification/NeedleMapFacts.v ===== *)
(** * The index file as a log of the needle map

    [replay] is the abstract meaning of an index file: the map obtained by
    applying its entries in order.  [load_index_file] computes it; [set] keeps
    the file and the map in step; [delete] does not. *)

From S2P Require Import Prelude Types Text Ttl Replica Errors Files Fs Needle NeedleCodec NeedleMap.

(** ** Entries *)

Definition entry_wf (e : Z * needle_value) : Prop := in_u64 e.1 /\ nv_wf e.2.

Definition entries_bytes (es : list (Z * needle_value)) : file :=
  concat (map (fun e => as_bytes e.2 e.1) es).

Lemma len_entry v k : len (as_bytes v k) = 16.
Proof. unfold as_bytes, put_i32. autorewrite with len. lia. Qed.

Lemma length_entry v k : length (as_bytes v k) = 16%nat.
Proof. pose proof (len_entry v k). unfold len in *. lia. Qed.

Lemma read_index_entry_as_bytes {E} v k :
  entry_wf (k, v) -> @read_index_entry E (as_bytes v k) = Ok (k, v.(nv_offset), v.(nv_size)).
Proof.
  intros [Hk [Ho Hs]]. cbn [fst snd] in *. unfold read_index_entry, as_bytes.
  rewrite (slice_at _ [] (put_u64 k) (put_u32 (nv_offset v) ++ put_i32 (nv_size v)))
    by (autorewrite with len; done).
  cbn [unwrap obind].
  rewrite (slice_at _ (put_u64 k) (put_u32 (nv_offset v)) (put_i32 (nv_size v)))
    by (autorewrite with len; done).
  cbn [unwrap obind].
  rewrite (slice_at _ (put_u64 k ++ put_u32 (nv_offset v)) (put_i32 (nv_size v)) []).
  - cbn [unwrap obind]. unfold put_u64, put_u32, put_i32.
    rewrite !be_val_bytes; [by rewrite i32_u32|..]; simpl Z.of_nat;
      [pose proof (u32_range (nv_size v))|..]; unfold in_u32, in_u64 in *; lia.
  - by rewrite app_nil_r, <- app_assoc.
  - autorewrite with len. lia.
  - unfold put_i32. autorewrite with len. lia.
Qed.

Lemma len_entries_bytes es : len (entries_bytes es) = 16 * len es.
Proof.
  induction es as [|[k v] es IH]; [done|].
  change (entries_bytes ((k, v) :: es)) with (as_bytes v k ++ entries_bytes es).
  rewrite len_app, IH, len_entry, len_cons. lia.
Qed.

Lemma entries_bytes_snoc es k v :
  entries_bytes (es ++ [(k, v)]) = entries_bytes es ++ as_bytes v k.
Proof. unfold entries_bytes. rewrite map_app, concat_app. cbn [map concat fst snd]. by rewrite app_nil_r. Qed.

(** [walk_index_file] over a whole number of entries visits them in order. *)
Fixpoint run_entries {S} (es : list (Z * needle_value)) (walk : Z -> Z -> Z -> M S NeedleError unit)
  : M S VolumeError unit :=
  match es with
  | [] => mret tt
  | (k, v) :: es' =>
      let* _ := (fun s => let '(s', r) := walk k v.(nv_offset) v.(nv_size) s in (s', map_err VNeedle r)) in
      run_entries es' walk
  end.

Lemma walk_index_file_entries {S} es (walk : Z -> Z -> Z -> M S NeedleError unit) s :
  Forall entry_wf es -> walk_index_file (entries_bytes es) walk s = run_entries es walk s.
Proof.
  intros Hwf. unfold walk_index_file.
  assert (Z.to_nat ((len (entries_bytes es) + 15) / 16) = length es) as ->.
  { rewrite len_entries_bytes. unfold len.
    replace ((16 * Z.of_nat (length es) + 15) / 16) with (Z.of_nat (length es)); [lia|].
    Z.div_mod_to_equations; lia. }
  revert s. induction es as [|[k v] es IH]; intros s; [done|].
  inversion Hwf as [|? ? H1 H2]; subst.
  change (entries_bytes ((k, v) :: es)) with (as_bytes v k ++ entries_bytes es).
  cbn [length walk_entries run_entries]. unfold mbind', mlift.
  rewrite len_app, len_entry. rewrite (proj2 (Z.leb_le _ _))
    by (pose proof (len_nonneg (entries_bytes es)); lia).
  rewrite take_app_le by (rewrite length_entry; lia).
  rewrite (firstn_all2 (as_bytes v k)) by (rewrite length_entry; lia).
  rewrite read_index_entry_as_bytes by done.
  assert (drop 16 (as_bytes v k ++ entries_bytes es) = entries_bytes es) as ->.
  { rewrite <- (length_entry v k). apply drop_app_length. }
  destruct (walk k (nv_offset v) (nv_size v) s) as [s' [] ]; cbn [map_err]; try done.
  by apply IH.
Qed.

(** ** The abstract map *)

Definition is_tombstone (v : needle_value) : bool := (v.(nv_offset) =? 0) || Size.is_deleted v.(nv_size).

Definition apply_entry (m : gmap Z needle_value) (e : Z * needle_value) : gmap Z needle_value :=
  if is_tombstone e.2 then delete e.1 m else <[e.1 := e.2]> m.

Definition replay (es : list (Z * needle_value)) : gmap Z needle_value := foldl apply_entry ∅ es.

Lemma replay_snoc es e : replay (es ++ [e]) = apply_entry (replay es) e.
Proof. unfold replay. by rewrite foldl_app. Qed.

Section Facts.
Context {T : Type} `{NeedleValueMapLaws T}.

(** A mapper represents an abstract map. *)
Definition represents (nm : needle_mapper T) (m : gmap Z needle_value) : Prop :=
  nvm_wf nm.(nm_map) /\ forall k, mapper_get nm k = m !! k.

Lemma represents_new vid : represents (mapper_new vid) ∅.
Proof.
  split; [apply nvm_wf_empty|]. intros k. unfold mapper_get. simpl.
  by rewrite nvm_get_empty, lookup_empty.
Qed.

(** [set] and [delete] on the map, whatever happens to the index file. *)
Lemma mapper_set_spec flt k v (nm : needle_mapper T) s m :
  represents nm m ->
  exists nm',
    nm'.(nm_index_file) = nm.(nm_index_file)
    /\ represents nm' (<[k := v]> m)
    /\ mapper_set flt k v (nm, s)
       = let '(s', r) := append_to_index_file flt k v (nm', s) in
         (s', match r with Ok _ => Ok (m !! k) | Err e => Err e | Panic => Panic end).
Proof.
  intros [Hwf Hg]. unfold mapper_set, on_mapper, mmodify, mget, mbind', mret. cbn [fst snd].
  cbn [set_metric set_map nm_map nm_volume_id nm_index_file nm_metric].
  pose proof (nvm_set_old (nm_map nm) k v Hwf) as Ho.
  destruct (nvm_set (nm_map nm) k v) as [m' old] eqn:E. simpl in Ho. subst old.
  assert (Hk : nvm_get (nm_map nm) k = m !! k) by apply Hg.
  assert (Hrep : forall q mt, represents (NeedleMapper (nm_volume_id nm) m' q mt) (<[k:=v]> m)).
  { intros q mt. split; simpl.
    - replace m' with (nvm_set (nm_map nm) k v).1 by (by rewrite E). by apply nvm_wf_set.
    - intros j. unfold mapper_get. simpl.
      replace m' with (nvm_set (nm_map nm) k v).1 by (by rewrite E).
      rewrite nvm_get_set by done. rewrite lookup_insert.
      case_decide; [done|]. apply Hg. }
  set (mt := add_file (nv_size v) (maybe_max_file_key k (nm_metric nm))).
  rewrite Hk. exists (NeedleMapper (nm_volume_id nm) m' (nm_index_file nm)
    (match m !! k with Some old => delete_file (nv_size old) mt | None => mt end)).
  split; [done|]. split; [apply Hrep|]. destruct (m !! k) as [old|]; unfold mt;
    cbn [fst snd set_metric set_map nm_map nm_volume_id nm_index_file nm_metric];
    destruct (append_to_index_file _ _ _ _) as [? []]; reflexivity.
Qed.

Lemma mapper_delete_spec flt k (nm : needle_mapper T) s m :
  represents nm m ->
  exists nm',
    nm'.(nm_index_file) = nm.(nm_index_file)
    /\ represents nm' (delete k m)
    /\ mapper_delete flt k (nm, s)
       = match m !! k with
         | None => ((nm', s), Ok None)
         | Some old =>
             let '(s', r) := append_to_index_file flt k old (nm', s) in
             (s', match r with Ok _ => Ok (Some old) | Err e => Err e | Panic => Panic end)
         end.
Proof.
  intros [Hwf Hg]. unfold mapper_delete, on_mapper, mmodify, mget, mbind', mret. cbn [fst snd].
  pose proof (nvm_delete_old (nm_map nm) k Hwf) as Ho.
  destruct (nvm_delete (nm_map nm) k) as [m' old] eqn:E. simpl in Ho. subst old.
  assert (Hk : nvm_get (nm_map nm) k = m !! k) by apply Hg.
  assert (Hrep : forall q mt, represents (NeedleMapper (nm_volume_id nm) m' q mt) (delete k m)).
  { intros q mt. split; simpl.
    - replace m' with (nvm_delete (nm_map nm) k).1 by (by rewrite E). by apply nvm_wf_delete.
    - intros j. unfold mapper_get. simpl.
      replace m' with (nvm_delete (nm_map nm) k).1 by (by rewrite E).
      rewrite nvm_get_delete by done. rewrite lookup_delete.
      case_decide; [done|]. apply Hg. }
  rewrite Hk. exists (NeedleMapper (nm_volume_id nm) m' (nm_index_file nm)
    (match m !! k with Some old => delete_file (nv_size old) (nm_metric nm) | None => nm_metric nm end)).
  split; [done|]. split; [apply Hrep|]. destruct (m !! k) as [old|];
    cbn [fst snd set_metric set_map nm_map nm_volume_id nm_index_file nm_metric];
    [destruct (append_to_index_file _ _ _ _) as [? []]|]; reflexivity.
Qed.

Lemma append_to_index_none flt k v (nm : needle_mapper T) s :
  nm.(nm_index_file) = None -> append_to_index_file flt k v (nm, s) = ((nm, s), Ok tt).
Proof. intros E. unfold append_to_index_file, mbind', mget. simpl. by rewrite E. Qed.

Lemma append_to_index_ok k v (nm : needle_mapper T) s p f :
  nm.(nm_index_file) = Some p -> fs_bytes s p = Some f ->
  append_to_index_file None k v (nm, s) = ((nm, fs_put p (f ++ as_bytes v k) s), Ok tt).
Proof.
  intros E Hf. unfold append_to_index_file, mbind', mget, mlift, mmodify. simpl. rewrite E.
  apply fs_get_bytes in Hf. rewrite Hf. cbn [map_err]. unfold write_all_at.
  rewrite pwrite_append; [|lia|].
  - by rewrite zeros_nonpos by lia.
  - intros Hn. apply (f_equal len) in Hn. rewrite len_entry in Hn. done.
Qed.

(** While the index file is not attached, loading an entry touches only the
    map. *)
Lemma load_entry_spec k v (nm : needle_mapper T) s m :
  nm.(nm_index_file) = None -> represents nm m ->
  exists nm', load_entry k v.(nv_offset) v.(nv_size) (nm, s) = ((nm', s), Ok tt)
              /\ nm'.(nm_index_file) = None /\ represents nm' (apply_entry m (k, v)).
Proof.
  intros Hn Hr. unfold load_entry, apply_entry, is_tombstone. cbn [fst snd].
  destruct ((nv_offset v =? 0) || Size.is_deleted (nv_size v)).
  - destruct (mapper_delete_spec None k nm s m Hr) as (nm' & Hi & Hr' & ->).
    exists nm'. rewrite Hn in Hi. split; [|done].
    destruct (m !! k); [|done]. rewrite append_to_index_none by done. done.
  - destruct (mapper_set_spec None k v nm s m Hr) as (nm' & Hi & Hr' & E).
    exists nm'. rewrite Hn in Hi. destruct v as [o z]. cbn [nv_offset nv_size] in *. rewrite E.
    rewrite append_to_index_none by done. done.
Qed.

Lemma run_entries_replay es (nm : needle_mapper T) s es0 :
  nm.(nm_index_file) = None -> represents nm (replay es0) ->
  exists nm', run_entries es load_entry (nm, s) = ((nm', s), Ok tt)
              /\ nm'.(nm_index_file) = None /\ represents nm' (replay (es0 ++ es)).
Proof.
  revert nm es0. induction es as [|[k v] es IH]; intros nm es0 Hn Hr.
  - exists nm. rewrite app_nil_r. done.
  - destruct (load_entry_spec k v nm s (replay es0) Hn Hr) as (nm1 & E1 & Hn1 & Hr1).
    destruct (IH nm1 (es0 ++ [(k, v)])) as (nm2 & E2 & Hn2 & Hr2);
      [done|by rewrite replay_snoc|].
    exists nm2. rewrite <- app_assoc in Hr2. split; [|done].
    cbn [run_entries]. unfold mbind'. rewrite E1. simpl. done.
Qed.

Lemma load_index_file_spec vid s path es :
  fs_bytes s path = Some (entries_bytes es) -> Forall entry_wf es ->
  exists nm : needle_mapper T,
    load_index_file path (mapper_new vid, s) = ((nm, s), Ok tt)
    /\ nm.(nm_index_file) = Some path /\ represents nm (replay es).
Proof.
  intros Hf Hwf. apply fs_get_bytes in Hf.
  destruct (run_entries_replay es (mapper_new vid) s []) as (nm & E & _ & Hr);
    [done|apply represents_new|].
  exists (set_index_file (Some path) nm). split; [|done].
  unfold load_index_file, mbind', mget, mlift. cbn [fst snd]. rewrite Hf. cbn [map_err].
  rewrite walk_index_file_entries by done. by rewrite E.
Qed.

(** The mapper, its file and the log agree. *)
Record in_step (nm : needle_mapper T) (s : fs) (path : string) (es : list (Z * needle_value))
  : Prop := {
  is_path : nm.(nm_index_file) = Some path;
  is_file : fs_bytes s path = Some (entries_bytes es);
  is_wf : Forall entry_wf es;
  is_map : represents nm (replay es);
}.

Lemma mapper_set_in_step k v nm s path es :
  in_step nm s path es -> entry_wf (k, v) -> is_tombstone v = false ->
  exists nm' s', mapper_set None k v (nm, s) = ((nm', s'), Ok (mapper_get nm k))
                 /\ in_step nm' s' path (es ++ [(k, v)])
                 /\ s' = fs_put path (entries_bytes (es ++ [(k, v)])) s.
Proof.
  intros [Hp Hf Hw Hm] He Ht.
  destruct (mapper_set_spec None k v nm s (replay es) Hm) as (nm' & Hi & Hr & E).
  rewrite Hp in Hi. rewrite (append_to_index_ok k v nm' s path (entries_bytes es)) in E by done.
  exists nm', (fs_put path (entries_bytes (es ++ [(k, v)])) s).
  rewrite entries_bytes_snoc. split; [|split; [|done]].
  - rewrite E. do 2 f_equal. symmetry. apply Hm.
  - split; [done| | |].
    + by rewrite fs_bytes_put_eq, entries_bytes_snoc.
    + apply Forall_app. auto.
    + rewrite replay_snoc. unfold apply_entry. cbn [fst snd]. by rewrite Ht.
Qed.

(** A sequence of [set]s. *)
Fixpoint run_sets (l : list (Z * needle_value)) : M (needle_mapper T * fs) VolumeError unit :=
  match l with
  | [] => mret tt
  | (k, v) :: l' => let* _ := mapper_set None k v in run_sets l'
  end.

Lemma run_sets_in_step l nm s path es :
  in_step nm s path es ->
  Forall (fun e => entry_wf e /\ is_tombstone e.2 = false) l ->
  exists nm' s', run_sets l (nm, s) = ((nm', s'), Ok tt) /\ in_step nm' s' path (es ++ l).
Proof.
  revert nm s es. induction l as [|[k v] l IH]; intros nm s es Hin Hl.
  - exists nm, s. by rewrite app_nil_r.
  - inversion Hl as [|? ? [H1 H2] H3]; subst.
    destruct (mapper_set_in_step k v nm s path es Hin H1 H2) as (nm1 & s1 & E1 & Hin1 & _).
    destruct (IH nm1 s1 (es ++ [(k, v)]) Hin1 H3) as (nm2 & s2 & E2 & Hin2).
    exists nm2, s2. rewrite <- app_assoc in Hin2. split; [|done].
    cbn [run_sets]. unfold mbind'. by rewrite E1.
Qed.

End Facts.

(** Durability of writes in the index: after any sequence of [set]s a
    mapper loaded afresh from the index file answers every lookup as the live
    one does, and both answer as the map the log describes.  The statement
    holds for every implementation of the map interface. *)
Theorem index_sets_durable : forall (T : Type) `{NeedleValueMapLaws T} vid path s l,
  fs_bytes s path = Some [] ->
  Forall (fun e => entry_wf e /\ is_tombstone e.2 = false) l ->
  exists (nm nm1 nm2 : needle_mapper T) s1,
    load_index_file path (mapper_new vid, s) = ((nm, s), Ok tt)
    /\ run_sets l (nm, s) = ((nm1, s1), Ok tt)
    /\ load_index_file path (mapper_new vid, s1) = ((nm2, s1), Ok tt)
    /\ forall k, mapper_get nm2 k = mapper_get nm1 k /\ mapper_get nm1 k = replay l !! k.
Proof.
  intros T ? ? vid path s l Hs Hl.
  destruct (load_index_file_spec (T := T) vid s path []) as (nm & E & Hp & Hr); [done|constructor|].
  destruct (run_sets_in_step l nm s path []) as (nm1 & s1 & E1 & Hin1);
    [by split; [|done|constructor|]|done|].
  destruct (load_index_file_spec (T := T) vid s1 path ([] ++ l)) as (nm2 & E2 & Hp2 & Hr2);
    [apply Hin1..|].
  exists nm, nm1, nm2, s1. do 3 (split; [done|]). intros k.
  destruct Hin1 as [_ _ _ [_ Hg1]]. destruct Hr2 as [_ Hg2]. by rewrite Hg1, Hg2.
Qed.

Lemma index_sets_durable_witness :
  exists (nm nm1 nm2 : needle_mapper memory_map) s1,
    load_index_file "1.idx"%string (mapper_new 1, {[ "1.idx"%string := FNode [] false ]})
      = ((nm, {[ "1.idx"%string := FNode [] false ]}), Ok tt)
    /\ run_sets [(7, NeedleValue 1 5); (9, NeedleValue 5 0); (7, NeedleValue 9 11)]
         (nm, {[ "1.idx"%string := FNode [] false ]}) = ((nm1, s1), Ok tt)
    /\ load_index_file "1.idx"%string (mapper_new 1, s1) = ((nm2, s1), Ok tt)
    /\ forall k, mapper_get nm2 k = mapper_get nm1 k
         /\ mapper_get nm1 k
            = replay [(7, NeedleValue 1 5); (9, NeedleValue 5 0); (7, NeedleValue 9 11)] !! k.
Proof.
  apply (index_sets_durable memory_map 1 "1.idx"%string); [reflexivity|].
  repeat constructor; vm_compute; congruence.
Defined.

(** Deletions are not durable: [delete] appends the old value instead of a
    tombstone, so the key is gone from the live map and back after a reload. *)
Theorem index_delete_not_durable :
  forall (T : Type) `{NeedleValueMapLaws T} vid path s (nm : needle_mapper T) es k v,
  in_step nm s path es -> mapper_get nm k = Some v -> entry_wf (k, v) -> is_tombstone v = false ->
  exists (nm1 nm2 : needle_mapper T) s1,
    mapper_delete None k (nm, s) = ((nm1, s1), Ok (Some v))
    /\ mapper_get nm1 k = None
    /\ load_index_file path (mapper_new vid, s1) = ((nm2, s1), Ok tt)
    /\ mapper_get nm2 k = Some v.
Proof.
  intros T ? ? vid path s nm es k v [Hp Hf Hw Hm] Hk He Ht.
  destruct (mapper_delete_spec None k nm s (replay es) Hm) as (nm1 & Hi & [Hwf1 Hr1] & E).
  rewrite Hp in Hi. destruct Hm as [Hwf Hm]. rewrite <- Hm, Hk in E.
  rewrite (append_to_index_ok k v nm1 s path (entries_bytes es)) in E by done.
  rewrite <- entries_bytes_snoc in E.
  destruct (load_index_file_spec (T := T) vid (fs_put path (entries_bytes (es ++ [(k, v)])) s)
    path (es ++ [(k, v)])) as (nm2 & E2 & _ & [_ Hr2]);
    [by rewrite fs_bytes_put_eq|apply Forall_app; auto|].
  exists nm1, nm2, (fs_put path (entries_bytes (es ++ [(k, v)])) s).
  split; [done|]. split; [by rewrite Hr1, lookup_delete_eq|]. split; [done|].
  rewrite Hr2, replay_snoc. unfold apply_entry. cbn [fst snd]. rewrite Ht. apply lookup_insert_eq.
Qed.

Lemma index_delete_not_durable_witness :
  exists (nm1 nm2 : needle_mapper memory_map) s1,
    mapper_delete None 7
      (NeedleMapper 1 ({[ 7 := NeedleValue 1 5 ]} : memory_map) (Some "1.idx"%string) metric_default,
       {[ "1.idx"%string := FNode (entries_bytes [(7, NeedleValue 1 5)]) false ]})
      = ((nm1, s1), Ok (Some (NeedleValue 1 5)))
    /\ mapper_get nm1 7 = None
    /\ load_index_file "1.idx"%string (mapper_new 1, s1) = ((nm2, s1), Ok tt)
    /\ mapper_get nm2 7 = Some (NeedleValue 1 5).
Proof.
  apply (index_delete_not_durable memory_map 1 "1.idx"%string _ _ [(7, NeedleValue 1 5)]).
  - split; [done|reflexivity|repeat constructor; vm_compute; congruence|].
    split; [exact I|reflexivity].
  - reflexivity.
  - repeat constructor; vm_compute; congruence.
  - reflexivity.
Defined.
