(* ===== verification/Volume.v ===== *)
(** * Volumes ([storage/volume/mod.rs], [storage/volume/checking.rs])

    A volume keeps needles in an append-only data file, and an index from needle
    ids to positions, in memory and in an index file. *)

From S2P Require Import Prelude Types Text Ttl Replica Errors Fid Files Fs Needle NeedleMap.
From Stdlib Require Import Ascii.
#[local] Open Scope string_scope.
#[local] Open Scope list_scope.
#[local] Open Scope Z_scope.

Definition SUPER_BLOCK_SIZE : Z := 8.

(** ** The super block *)

Record super_block := SuperBlock {
  sb_version : Z;
  sb_replica_placement : replica_placement;
  sb_ttl : ttl;
  sb_compact_revision : Z;
}.

Definition super_block_default : super_block :=
  SuperBlock CURRENT_VERSION Replica.default Ttl.default 0.

Definition of_replica_error (e : replica_error) : VolumeError :=
  match e with InvalidReplicaPlacement s => VReplicaPlacement s end.

Module SuperBlock.

Definition parse (buf : list byte) : outcome VolumeError super_block :=
  let? b1 := unwrap (buf !! 1%nat) in
  let? rp := map_err of_replica_error (Replica.from_u8 (b2z b1)) in
  let? t := unwrap (slice buf 2 4) in
  let? ttl := map_err VTtl (Ttl.from_bytes t) in
  let? r := unwrap (slice buf 4 6) in
  let? b0 := unwrap (buf !! 0%nat) in
  Ok (SuperBlock (b2z b0) rp ttl (be_val r)).

Definition as_bytes (sb : super_block) : list byte :=
  put_u8 sb.(sb_version) ++ put_u8 (Replica.into_u8 sb.(sb_replica_placement))
  ++ Ttl.as_bytes sb.(sb_ttl) ++ put_u16 sb.(sb_compact_revision) ++ zeros 2.

(** [add_compact_revision]: a [fetch_add] on an [AtomicU16]. *)
Definition add_compact_revision (r : Z) (sb : super_block) : super_block :=
  SuperBlock sb.(sb_version) sb.(sb_replica_placement) sb.(sb_ttl)
    (u16 (sb.(sb_compact_revision) + r)).

Record wf (sb : super_block) : Prop := {
  wf_version : in_u8 sb.(sb_version);
  wf_rp : Replica.digits_ok sb.(sb_replica_placement);
  wf_rp_u8 : sb.(sb_replica_placement).(diff_data_center_count) * 100
             + sb.(sb_replica_placement).(diff_rack_count) * 10
             + sb.(sb_replica_placement).(same_rack_count) < 256;
  wf_ttl : Ttl.wf sb.(sb_ttl);
  wf_revision : in_u16 sb.(sb_compact_revision);
}.

Lemma len_as_bytes sb : len (as_bytes sb) = SUPER_BLOCK_SIZE.
Proof. reflexivity. Qed.

Lemma parse_as_bytes sb : wf sb -> parse (as_bytes sb) = Ok sb.
Proof.
  intros []. unfold parse, as_bytes. cbn [put_u8 app lookup list_lookup unwrap obind].
  assert (b2z (z2b (Replica.into_u8 (sb_replica_placement sb)))
          = Replica.into_u8 (sb_replica_placement sb)) as ->.
  { rewrite b2z_z2b. apply Z.mod_small. unfold Replica.into_u8. int_solve. }
  rewrite Replica.into_from_u8 by done. cbn [map_err obind].
  change (slice _ 2 4) with (Some (Ttl.as_bytes (sb_ttl sb))). cbn [unwrap obind].
  rewrite Ttl.from_as_bytes by done. cbn [map_err obind].
  change (slice _ 4 6) with (Some (put_u16 (sb_compact_revision sb))). cbn [unwrap obind].
  unfold put_u16. rewrite be_val_bytes by (simpl Z.of_nat; unfold in_u16 in *; lia).
  rewrite b2z_z2b, Z.mod_small by exact wf_version0. by destruct sb.
Qed.

End SuperBlock.

(** ** The volume *)

Record volume := Volume {
  v_id : Z;
  v_dir : string;
  v_collection : string;
  v_data_file : option string;
  v_needle_mapper : option (needle_mapper memory_map);
  v_super_block : super_block;
  v_no_write_or_delete : bool;
  v_no_write_can_delete : bool;
  v_is_compacting : bool;
  v_last_modified : Z;
  v_last_compact_index_offset : Z;
  v_last_compact_revision : Z;
}.

Definition with_data_file (d : option string) (v : volume) : volume :=
  Volume v.(v_id) v.(v_dir) v.(v_collection) d v.(v_needle_mapper) v.(v_super_block)
    v.(v_no_write_or_delete) v.(v_no_write_can_delete) v.(v_is_compacting) v.(v_last_modified)
    v.(v_last_compact_index_offset) v.(v_last_compact_revision).
Definition with_mapper (m : option (needle_mapper memory_map)) (v : volume) : volume :=
  Volume v.(v_id) v.(v_dir) v.(v_collection) v.(v_data_file) m v.(v_super_block)
    v.(v_no_write_or_delete) v.(v_no_write_can_delete) v.(v_is_compacting) v.(v_last_modified)
    v.(v_last_compact_index_offset) v.(v_last_compact_revision).
Definition with_super_block (sb : super_block) (v : volume) : volume :=
  Volume v.(v_id) v.(v_dir) v.(v_collection) v.(v_data_file) v.(v_needle_mapper) sb
    v.(v_no_write_or_delete) v.(v_no_write_can_delete) v.(v_is_compacting) v.(v_last_modified)
    v.(v_last_compact_index_offset) v.(v_last_compact_revision).
Definition set_no_write_or_delete (b : bool) (v : volume) : volume :=
  Volume v.(v_id) v.(v_dir) v.(v_collection) v.(v_data_file) v.(v_needle_mapper) v.(v_super_block)
    b v.(v_no_write_can_delete) v.(v_is_compacting) v.(v_last_modified)
    v.(v_last_compact_index_offset) v.(v_last_compact_revision).
Definition set_no_write_can_delete (b : bool) (v : volume) : volume :=
  Volume v.(v_id) v.(v_dir) v.(v_collection) v.(v_data_file) v.(v_needle_mapper) v.(v_super_block)
    v.(v_no_write_or_delete) b v.(v_is_compacting) v.(v_last_modified)
    v.(v_last_compact_index_offset) v.(v_last_compact_revision).
Definition set_is_compacting (b : bool) (v : volume) : volume :=
  Volume v.(v_id) v.(v_dir) v.(v_collection) v.(v_data_file) v.(v_needle_mapper) v.(v_super_block)
    v.(v_no_write_or_delete) v.(v_no_write_can_delete) b v.(v_last_modified)
    v.(v_last_compact_index_offset) v.(v_last_compact_revision).
Definition set_last_modified (t : Z) (v : volume) : volume :=
  Volume v.(v_id) v.(v_dir) v.(v_collection) v.(v_data_file) v.(v_needle_mapper) v.(v_super_block)
    v.(v_no_write_or_delete) v.(v_no_write_can_delete) v.(v_is_compacting) t
    v.(v_last_compact_index_offset) v.(v_last_compact_revision).
Definition set_last_compact (o r : Z) (v : volume) : volume :=
  Volume v.(v_id) v.(v_dir) v.(v_collection) v.(v_data_file) v.(v_needle_mapper) v.(v_super_block)
    v.(v_no_write_or_delete) v.(v_no_write_can_delete) v.(v_is_compacting) v.(v_last_modified) o r.

Definition readonly (v : volume) : bool := v.(v_no_write_or_delete) || v.(v_no_write_can_delete).
Definition version (v : volume) : Z := v.(v_super_block).(sb_version).

(** [str::ends_with('/')] *)
Definition ends_with_slash (s : string) : bool :=
  match last (chars s) with Some c => Ascii.eqb c "/" | None => false end.

(** [Volume::filename] *)
Definition filename (v : volume) : string :=
  let dirname := if ends_with_slash v.(v_dir) then v.(v_dir) else (v.(v_dir) ++ "/")%string in
  if bool_decide (v.(v_collection) = "") then (dirname ++ fmt_dec v.(v_id))%string
  else (dirname ++ v.(v_collection) ++ "_" ++ fmt_dec v.(v_id))%string.

Definition data_filename (v : volume) : string := (filename v ++ ".dat")%string.
Definition index_filename (v : volume) : string := (filename v ++ ".idx")%string.
Definition compact_data_filename (v : volume) : string := (filename v ++ ".cpd")%string.
Definition compact_index_filename (v : volume) : string := (filename v ++ ".cpx")%string.

(** A volume and the directory of its files. *)
Definition VM := M (volume * fs) VolumeError.

Definition on_volume (f : volume -> volume) : VM unit := mmodify (fun s => (f s.1, s.2)).
Definition get_volume : VM volume := let* s := mget in mret s.1.

(** [Volume::data_file]: the content of the open data file. *)
Definition data_file (v : volume) (s : fs) : outcome VolumeError (string * file) :=
  match v.(v_data_file) with
  | Some name => let? f := map_err VIo (fs_get s name) in Ok (name, f)
  | None => Err (VNotLoad v.(v_id))
  end.

Definition needle_mapper_of (v : volume) : outcome VolumeError (needle_mapper memory_map) :=
  match v.(v_needle_mapper) with
  | Some nm => Ok nm
  | None => Err (VNeedleMapperNotLoad v.(v_id))
  end.

(** Running a mapper operation on the volume's mapper. *)
Definition with_nm {A} (op : M (needle_mapper memory_map * fs) VolumeError A) : VM A :=
  fun s =>
    match needle_mapper_of s.1 with
    | Ok nm => let '((nm', fs'), r) := op (nm, s.2) in ((with_mapper (Some nm') s.1, fs'), r)
    | Err e => (s, Err e)
    | Panic => (s, Panic)
    end.

Definition set_index (flt : fault) (key : Z) (index : needle_value) : VM (option needle_value) :=
  with_nm (mapper_set flt key index).
Definition delete_index (flt : fault) (key : Z) : VM (option needle_value) :=
  with_nm (mapper_delete flt key).
Definition get_index (v : volume) (key : Z) : outcome VolumeError (option needle_value) :=
  let? nm := needle_mapper_of v in Ok (mapper_get nm key).

(** The statistics getters answer zero while no mapper is loaded. *)
Definition metric_or (f : metric -> Z) (v : volume) : Z :=
  match v.(v_needle_mapper) with Some nm => f nm.(nm_metric) | None => 0 end.
Definition deleted_bytes_of := metric_or deleted_bytes.
Definition deleted_count_of := metric_or deleted_count.
Definition max_file_key_of := metric_or max_file_key.
Definition file_count_of := metric_or file_count.
Definition content_size := metric_or file_bytes.
Definition volume_index_file_size (v : volume) (s : fs) : outcome VolumeError Z :=
  match v.(v_needle_mapper) with
  | Some nm => index_file_size s nm
  | None => Ok 0
  end.

(** [append_needle_at]: the end of the file, rounded up. *)
Definition append_needle_at (f : file) : Z :=
  let offset := len f in
  if offset mod NEEDLE_PADDING_SIZE =? 0 then offset
  else u64 (offset + (NEEDLE_PADDING_SIZE - offset mod NEEDLE_PADDING_SIZE)).

(** ** Integrity checking ([storage/volume/checking.rs]) *)

Definition verify_index_file_integrity (index_file : file) : outcome VolumeError Z :=
  if negb (len index_file mod NEEDLE_INDEX_SIZE =? 0) then Err VDataIntegrity
  else Ok (len index_file).

Definition read_index_entry_at_offset (index_file : file) (offset : Z)
  : outcome VolumeError (list byte) :=
  map_err VIo (read_exact_at index_file offset NEEDLE_INDEX_SIZE).

Section WithCrc.
Context (crc : list byte -> Z).

Definition verify_needle_integrity (f : file) (version key offset size : Z)
  : outcome VolumeError unit :=
  match read_data crc f offset size version needle_default with
  | (n, Ok _) => if n.(n_id) =? key then Ok tt else Err VDataIntegrity
  | (_, Err e) => Err (VNeedle e)
  | (_, Panic) => Panic
  end.

Definition check_volume_data_integrity (v : volume) (s : fs) (index_file : file)
  : outcome VolumeError unit :=
  let? index_size := verify_index_file_integrity index_file in
  if index_size =? 0 then Ok tt
  else
    let? last_index_entry := read_index_entry_at_offset index_file (index_size - NEEDLE_INDEX_SIZE) in
    let? e := read_index_entry last_index_entry in
    let '(key, offset, size) := e in
    if (offset =? 0) || Size.is_deleted size then Ok tt
    else let? df := data_file v s in
         verify_needle_integrity df.2 (version v) key offset size.

(** ** Loading *)

Definition read_super_block (v : volume) (s : fs) : outcome VolumeError super_block :=
  let? df := data_file v s in
  let? buf := map_err VIo (read_exact_at df.2 0 SUPER_BLOCK_SIZE) in
  SuperBlock.parse buf.

(** [write_super_block]: only an empty file gets one; the handle of a file
    without write permission is not writable. *)
Definition write_super_block (flt : fault) : VM unit :=
  let* s := mget in
  let* df := mlift (data_file s.1 s.2) in
  let '(name, f) := df in
  if negb (len f =? 0) then mret tt
  else
    let ro := match s.2 !! name with Some nd => nd.(f_readonly) | None => false end in
    let flt := if ro then Some (O, OtherIo) else flt in
    let '(f', r) := write_all_at flt f 0 (SuperBlock.as_bytes s.1.(v_super_block)) in
    let* _ := mmodify (fun s => (s.1, fs_put name f' s.2)) in
    let* _ := mlift (map_err VIo r) in
    let* _ := on_volume (set_no_write_or_delete false) in
    on_volume (set_no_write_can_delete false).

(** The index part of [Volume::load]. *)
Definition load_index_part : VM unit :=
  let* s := mget in
  let iname := index_filename s.1 in
  let* _ := (if s.1.(v_no_write_or_delete) then
               let* _ := mlift (map_err VIo (fs_get s.2 iname)) in mret tt
             else mmodify (fun s => (s.1, fs_create iname s.2))) in
  let* s := mget in
  let* index_file := mlift (map_err VIo (fs_get s.2 iname)) in
  let* _ := (match check_volume_data_integrity s.1 s.2 index_file with
             | Ok _ => mret tt
             | Err _ => on_volume (set_no_write_or_delete true)
             | Panic => mpanic
             end) in
  let* v := get_volume in
  if readonly v then mpanic (* todo!("load index file from sorted file") *)
  else fun s =>
    let '((nm, fs'), r) := load_index_file iname (mapper_new v.(v_id), s.2) in
    match r with
    | Ok _ => ((with_mapper (Some nm) s.1, fs'), Ok tt)
    | Err e => ((s.1, fs'), Err e)
    | Panic => ((s.1, fs'), Panic)
    end.

(** [Volume::load]; [mtime] is the data file's modification time. *)
Definition load (flt : fault) (mtime : Z) (create_if_missing load_index : bool) : VM unit :=
  let* v := get_volume in
  match v.(v_data_file) with
  | Some _ => mthrow (VHasLoaded v.(v_id))
  | None =>
      let name := data_filename v in
      let* s := mget in
      let* _ := (match s.2 !! name with
                 | Some _ => mret tt
                 | None => if create_if_missing then mmodify (fun s => (s.1, fs_create name s.2))
                           else mthrow (VIo NotFoundIo)
                 end) in
      let* s := mget in
      let* nd := mlift (unwrap (s.2 !! name)) in
      let has_super_block := SUPER_BLOCK_SIZE <=? len nd.(f_bytes) in
      let* _ := (if nd.(f_readonly) then on_volume (set_no_write_or_delete true)
                 else on_volume (set_last_modified mtime)) in
      let* _ := on_volume (with_data_file (Some name)) in
      let* _ := (if has_super_block then
                   let* s := mget in
                   let* sb := mlift (read_super_block s.1 s.2) in
                   on_volume (with_super_block sb)
                 else write_super_block flt) in
      if load_index then load_index_part else mret tt
  end.

(** [Volume::new] *)
Definition volume_new (flt : fault) (mtime : Z) (dir collection : string) (id : Z)
    (rp : replica_placement) (t : ttl) (s : fs) : fs * outcome VolumeError volume :=
  let v := Volume id dir collection None None (SuperBlock CURRENT_VERSION rp t 0)
             false false false 0 0 0 in
  match load flt mtime true true (v, s) with
  | ((v', s'), Ok _) => (s', Ok v')
  | ((_, s'), Err e) => (s', Err e)
  | ((_, s'), Panic) => (s', Panic)
  end.

(** [load_volume_without_index] *)
Definition load_volume_without_index (mtime : Z) (dir collection : string) (id : Z) (s : fs)
  : fs * outcome VolumeError volume :=
  let v := Volume id dir collection None None super_block_default false false false 0 0 0 in
  match load None mtime false false (v, s) with
  | ((v', s'), Ok _) => (s', Ok v')
  | ((_, s'), Err e) => (s', Err e)
  | ((_, s'), Panic) => (s', Panic)
  end.

(** ** Reading and writing needles *)

(** [Volume::write_needle]: [flt] and [iflt] are the faults of the data write
    and of the index write. *)
Definition write_needle (flt iflt : fault) (n : needle) : VM (needle * Z) :=
  let* v := get_volume in
  if readonly v then mthrow (VReadonly v.(v_id))
  else
    let* s := mget in
    let* df := mlift (data_file s.1 s.2) in
    let '(name, f) := df in
    let offset := append_needle_at f in
    let '(n', f', r) := append flt n f offset (version v) in
    let* _ := mmodify (fun s => (s.1, fs_put name f' s.2)) in
    match r with
    | Err err =>
        let* _ := mmodify (fun s => (s.1, fs_put name (ftruncate f' offset) s.2)) in
        mthrow (VNeedle err)
    | Panic => mpanic
    | Ok _ =>
        let nv := NeedleValue (Offset.from_u64 offset) n'.(n_size) in
        let* _ := set_index iflt n'.(n_id) nv in
        let* _ := (if v.(v_last_modified) <? n'.(n_last_modified)
                   then on_volume (set_last_modified n'.(n_last_modified)) else mret tt) in
        mret (n', data_size n')
    end.

(** [Volume::delete_needle]: a failed write is not undone. *)
Definition delete_needle (flt iflt : fault) (n : needle) : VM (needle * Z) :=
  let* v := get_volume in
  if readonly v then mthrow (VReadonly v.(v_id))
  else
    let* idx := mlift (get_index v n.(n_id)) in
    match idx with
    | None => mret (n, 0)
    | Some _ =>
        let* s := mget in
        let* df := mlift (data_file s.1 s.2) in
        let '(name, f) := df in
        let offset := append_needle_at f in
        let '(n', f', r) := append flt n f offset (version v) in
        let* _ := mmodify (fun s => (s.1, fs_put name f' s.2)) in
        let* _ := mlift (map_err VNeedle r) in
        let* _ := delete_index iflt n'.(n_id) in
        mret (n', data_size n')
    end.

(** [Volume::read_needle] at [now] seconds; the sum and the product are [u64]. *)
Definition read_needle (now : Z) (n : needle) (v : volume) (s : fs)
  : outcome VolumeError (needle * Z) :=
  let? idx := get_index v n.(n_id) in
  match idx with
  | None => Err (VNeedle (NNotFound n.(n_id)))
  | Some nv =>
      if (nv.(nv_offset) =? 0) || Size.is_deleted nv.(nv_size)
      then Err (VNeedle (NDeleted v.(v_id) n.(n_id)))
      else
        let? df := data_file v s in
        match read_data crc df.2 nv.(nv_offset) nv.(nv_size) (version v) n with
        | (_, Err e) => Err (VNeedle e)
        | (_, Panic) => Panic
        | (n', Ok _) =>
            let ds := data_size n' in
            if negb (has_ttl n') then Ok (n', ds)
            else
              let minutes := Ttl.minutes n'.(n_ttl) in
              if minutes =? 0 then Ok (n', ds)
              else if negb (has_last_modified_date n') then Ok (n', ds)
              else if now <? u64 (n'.(n_last_modified) + u64 (minutes * 60)) then Ok (n', ds)
              else Err (VNeedle (NExpired v.(v_id) n'.(n_id)))
        end
  end.

End WithCrc.

(** ** Expiry and statistics *)

Definition need_to_replicate (v : volume) : bool :=
  1 <? Replica.copy_count v.(v_super_block).(sb_replica_placement).

(** [Volume::expired] *)
Definition expired (now volume_size_limit : Z) (v : volume) : bool :=
  if volume_size_limit =? 0 then false
  else if content_size v =? 0 then false
  else if Ttl.minutes v.(v_super_block).(sb_ttl) =? 0 then false
  else u64 (v.(v_last_modified) + u64 (Ttl.minutes v.(v_super_block).(sb_ttl) * 60)) <? now.

(** [Volume::expired_long_enough] *)
Definition expired_long_enough (now max_delay_minutes : Z) (v : volume) : bool :=
  let m := Ttl.minutes v.(v_super_block).(sb_ttl) in
  if m =? 0 then false
  else
    let delay := if max_delay_minutes <? m / 10 then max_delay_minutes else m / 10 in
    u64 (u64 (u64 (m + delay) * 60) + v.(v_last_modified)) <? now.

Record volume_info := VolumeInfo {
  vi_id : Z;
  vi_size : Z;
  vi_replica_placement : replica_placement;
  vi_ttl : ttl;
  vi_collection : string;
  vi_version : Z;
  vi_file_count : Z;
  vi_delete_count : Z;
  vi_delete_bytes : Z;
  vi_read_only : bool;
}.

(** [Volume::get_volume_info] *)
Definition get_volume_info (v : volume) : volume_info :=
  VolumeInfo v.(v_id) (content_size v) v.(v_super_block).(sb_replica_placement)
    v.(v_super_block).(sb_ttl) v.(v_collection) (version v) (i64 (file_count_of v))
    (i64 (deleted_count_of v)) (deleted_bytes_of v) (readonly v).

(** [Volume::destroy] *)
Definition destroy (v : volume) (s : fs) : fs * outcome VolumeError unit :=
  if v.(v_is_compacting) then (s, Err (VCompacting v.(v_id)))
  else
    match fs_remove (data_filename v) s with
    | (s1, Ok _) =>
        match fs_remove (index_filename v) s1 with
        | (s2, Ok _) => (s2, Ok tt)
        | (s2, Err e) => (s2, Err (VIo e))
        | (s2, Panic) => (s2, Panic)
        end
    | (s1, Err e) => (s1, Err (VIo e))
    | (s1, Panic) => (s1, Panic)
    end.
