(* ===== verification/VolumeFacts.v ===== *)
(** * A volume refines a map of needles

    The abstract state of a volume is a finite map from needle ids to the
    needles last written under them.  [vol_inv] ties it to the data file, the
    index and the mapper; writes, deletes and reads are simulated step by step,
    including the steps in which the data write or the index write fails. *)

From S2P Require Import Prelude Types Text Ttl Replica Errors Fid Files Fs Needle NeedleCodec NeedleMap NeedleMapFacts Volume.
#[local] Open Scope Z_scope.

Lemma append_needle_at_spec f :
  len f < 2 ^ 32 ->
  len f <= append_needle_at f < len f + 8 /\ append_needle_at f mod 8 = 0.
Proof.
  intros H. pose proof (len_nonneg f). unfold append_needle_at, NEEDLE_PADDING_SIZE.
  destruct (Z.eqb_spec (len f mod 8) 0); int_solve.
Qed.

Section Refinement.
Context (crc : list byte -> Z).

(** A needle a client may store: its fields fit the format and its checksum
    is the checksum of its data. *)
Definition storable (n : needle) : Prop := needle_wf n /\ n.(n_checksum) = crc n.(n_data).

(** [n] is stored in [f] where [nv] points. *)
Definition stored (f : file) (k : Z) (n : needle) (nv : needle_value) : Prop :=
  storable n /\ n.(n_id) = k
  /\ exists p q, f = p ++ encode n ++ q
                 /\ 8 <= len p < 2 ^ 32 /\ len p mod 8 = 0
                 /\ nv = NeedleValue (Offset.from_u64 (len p)) (len (body n)).

Record vol_at (vid : Z) (dname iname : string) (v : volume) (s : fs) (f : file)
    (nm : needle_mapper memory_map) (ix : gmap Z needle_value) (A : gmap Z needle) : Prop := {
  at_id : v.(v_id) = vid;
  at_data : v.(v_data_file) = Some dname;
  at_file : fs_bytes s dname = Some f;
  at_mapper : v.(v_needle_mapper) = Some nm;
  at_index : nm.(nm_index_file) = Some iname;
  at_index_file : is_Some (fs_bytes s iname);
  at_names : iname <> dname;
  at_version : version v = CURRENT_VERSION;
  at_writable : readonly v = false;
  at_super : 8 <= len f;
  at_map : represents nm ix;
  at_dom : forall k, A !! k = None -> ix !! k = None;
  at_stored : forall k n, A !! k = Some n -> exists nv, ix !! k = Some nv /\ stored f k n nv;
}.

Definition vol_inv (vid : Z) (dname iname : string) (bound : Z) (st : volume * fs)
    (A : gmap Z needle) : Prop :=
  exists f nm ix, vol_at vid dname iname st.1 st.2 f nm ix A /\ len f <= bound.

(** ** The abstract operations *)

(** A needle read back is served unless it carries a TTL and a date and the
    date plus the TTL has passed. *)
Definition live (now : Z) (n : needle) : bool :=
  negb (has_ttl n) || (Ttl.minutes n.(n_ttl) =? 0) || negb (has_last_modified_date n)
  || (now <? u64 (n.(n_last_modified) + u64 (Ttl.minutes n.(n_ttl) * 60))).

Definition spec_read (vid now : Z) (m : needle) (A : gmap Z needle)
  : outcome VolumeError (needle * Z) :=
  match A !! m.(n_id) with
  | None => Err (VNeedle (NNotFound m.(n_id)))
  | Some n => if live now (decode n m) then Ok (decode n m, data_size (decode n m))
              else Err (VNeedle (NExpired vid n.(n_id)))
  end.

Definition stored_result (iflt : fault) (n : needle) : outcome VolumeError (needle * Z) :=
  match iflt with
  | None => Ok (with_sizes (len (body n)) n, data_size n)
  | Some (_, e) => Err (VIo e)
  end.

Definition spec_write (flt iflt : fault) (n : needle) (A : gmap Z needle)
  : gmap Z needle * outcome VolumeError (needle * Z) :=
  match flt with
  | Some (_, e) => (A, Err (VNeedle (NIo e)))
  | None => (<[n.(n_id) := n]> A, stored_result iflt n)
  end.

Definition spec_delete (flt iflt : fault) (n : needle) (A : gmap Z needle)
  : gmap Z needle * outcome VolumeError (needle * Z) :=
  match A !! n.(n_id) with
  | None => (A, Ok (n, 0))
  | Some _ =>
      match flt with
      | Some (_, e) => (A, Err (VNeedle (NIo e)))
      | None => (delete n.(n_id) A, stored_result iflt n)
      end
  end.

(** ** Stability of the invariant *)

Lemma stored_app f k n nv z : stored f k n nv -> stored (f ++ z) k n nv.
Proof.
  intros (Hs & Hid & p & q & -> & Hr). split; [done|]. split; [done|].
  exists p, (q ++ z). split; [by rewrite <- !app_assoc|done].
Qed.

Lemma vol_at_grow vid d i v s f nm ix A z :
  vol_at vid d i v s f nm ix A -> vol_at vid d i v (fs_put d (f ++ z) s) (f ++ z) nm ix A.
Proof.
  intros []. split; try done.
  - by rewrite fs_bytes_put_eq.
  - by rewrite fs_bytes_put_ne.
  - rewrite len_app. pose proof (len_nonneg z). lia.
  - intros k n Hk. destruct (at_stored0 k n Hk) as (nv & ? & ?).
    exists nv. split; [done|]. by apply stored_app.
Qed.

Lemma vol_at_index vid d i v s f nm ix A nm' g :
  vol_at vid d i v s f nm ix A -> nm'.(nm_index_file) = Some i ->
  represents nm' ix ->
  vol_at vid d i (with_mapper (Some nm') v) (fs_put i g s) f nm' ix A.
Proof.
  intros [] Hi Hr. split; try done.
  - by rewrite fs_bytes_put_ne.
  - by rewrite fs_bytes_put_eq.
Qed.

Lemma vol_at_insert vid d i v s f nm ix A nm' n nv :
  vol_at vid d i v s f nm ix A -> nm'.(nm_index_file) = Some i ->
  stored f n.(n_id) n nv -> represents nm' (<[n.(n_id) := nv]> ix) ->
  vol_at vid d i (with_mapper (Some nm') v) s f nm' (<[n.(n_id) := nv]> ix)
    (<[n.(n_id) := n]> A).
Proof.
  intros [] Hi Hst Hr. split; try done.
  - intros k [Hk Hne]%lookup_insert_None. rewrite lookup_insert_ne by done. auto.
  - intros k m. destruct (decide (n.(n_id) = k)) as [<-|Hne].
    + rewrite !lookup_insert_eq. intros [= <-]. eauto.
    + rewrite !lookup_insert_ne by done. auto.
Qed.

Lemma vol_at_delete vid d i v s f nm ix A nm' k :
  vol_at vid d i v s f nm ix A -> nm'.(nm_index_file) = Some i ->
  represents nm' (delete k ix) ->
  vol_at vid d i (with_mapper (Some nm') v) s f nm' (delete k ix) (delete k A).
Proof.
  intros [] Hi Hr. split; try done.
  - intros j. rewrite !lookup_delete_None. naive_solver.
  - intros j m [Hne Hj]%lookup_delete_Some. rewrite lookup_delete_ne by done. auto.
Qed.

(** An index write, failed or not, only changes the index file. *)
Lemma append_to_index_any flt k x nm s i :
  nm.(nm_index_file) = Some i -> is_Some (fs_bytes s i) ->
  exists g, append_to_index_file (T := memory_map) flt k x (nm, s)
            = ((nm, fs_put i g s),
               match flt with None => Ok tt | Some (_, e) => Err (VIo e) end)
            /\ (flt = None -> forall h, fs_bytes s i = Some h -> g = h ++ as_bytes x k).
Proof.
  intros E [f Hf]. pose proof Hf as Hg. apply fs_get_bytes in Hf.
  exists (write_all_at flt f (len f) (as_bytes x k)).1. split.
  - unfold append_to_index_file, mbind', mget, mlift, mmodify. simpl. rewrite E, Hf.
    cbn [map_err]. destruct flt as [[c e]|]; done.
  - intros -> h Hh. rewrite Hg in Hh. injection Hh as <-. unfold write_all_at. cbn [fst].
    rewrite pwrite_append, zeros_nonpos; [done|lia|lia|].
    intros En. pose proof (len_entry x k) as L. by rewrite En in L.
Qed.

Lemma data_file_ok vid d i v s f nm ix A :
  vol_at vid d i v s f nm ix A -> data_file v s = Ok (d, f).
Proof.
  intros []. unfold data_file. rewrite at_data0. apply fs_get_bytes in at_file0.
  by rewrite at_file0.
Qed.

Lemma get_index_ok vid d i v s f nm ix A k :
  vol_at vid d i v s f nm ix A -> get_index v k = Ok (ix !! k).
Proof.
  intros []. unfold get_index, needle_mapper_of. rewrite at_mapper0. simpl.
  f_equal. apply at_map0.
Qed.

Lemma vol_at_modified vid d i v s f nm ix A t :
  vol_at vid d i v s f nm ix A -> vol_at vid d i (Volume.set_last_modified t v) s f nm ix A.
Proof. by intros []; split. Qed.

(** ** Simulation of the operations *)

(** What no operation changes: where the volume lives and its super block. *)
Definition identity (v : volume) : Z * string * string * super_block :=
  (v.(v_id), v.(v_dir), v.(v_collection), v.(v_super_block)).

(** The data file after an append that did not fail. *)
Definition appended (f : file) (n : needle) : file :=
  f ++ zeros (append_needle_at f - len f) ++ encode n.

Lemma set_index_sim vid d i v s f nm ix A iflt n nv :
  vol_at vid d i v s f nm ix A -> stored f n.(n_id) n nv ->
  exists v' s' nm',
    set_index iflt n.(n_id) nv (v, s)
    = ((v', s'), match iflt with None => Ok (ix !! n.(n_id)) | Some (_, e) => Err (VIo e) end)
    /\ vol_at vid d i v' s' f nm' (<[n.(n_id) := nv]> ix) (<[n.(n_id) := n]> A)
    /\ identity v' = identity v
    /\ (iflt = None -> forall h, fs_bytes s i = Some h -> fs_bytes s' i = Some (h ++ as_bytes nv n.(n_id))).
Proof.
  intros Hv Hst. unfold set_index, with_nm, needle_mapper_of. cbn [fst snd].
  pose proof Hv as []. rewrite at_mapper0.
  destruct (mapper_set_spec iflt (n_id n) nv nm s ix at_map0) as (nm' & Hi & Hr & ->).
  rewrite at_index0 in Hi.
  destruct (append_to_index_any iflt (n_id n) nv nm' s i Hi at_index_file0) as (g & -> & Hg).
  exists (with_mapper (Some nm') v), (fs_put i g s), nm'.
  split; [by destruct iflt as [[? ?]|]|].
  split; [|split; [done|intros Hn h Hh; by rewrite fs_bytes_put_eq, (Hg Hn h Hh)]].
  apply (vol_at_index _ _ _ (with_mapper (Some nm') v) _ _ nm'); [|done..].
  by apply (vol_at_insert _ _ _ _ _ _ nm ix).
Qed.

Lemma delete_index_sim vid d i v s f nm ix A iflt k nv :
  vol_at vid d i v s f nm ix A -> ix !! k = Some nv ->
  exists v' s' nm',
    delete_index iflt k (v, s)
    = ((v', s'), match iflt with None => Ok (Some nv) | Some (_, e) => Err (VIo e) end)
    /\ vol_at vid d i v' s' f nm' (delete k ix) (delete k A)
    /\ identity v' = identity v
    /\ (iflt = None -> forall h, fs_bytes s i = Some h -> fs_bytes s' i = Some (h ++ as_bytes nv k)).
Proof.
  intros Hv Hk. unfold delete_index, with_nm, needle_mapper_of. cbn [fst snd].
  pose proof Hv as []. rewrite at_mapper0.
  destruct (mapper_delete_spec iflt k nm s ix at_map0) as (nm' & Hi & Hr & ->).
  rewrite at_index0 in Hi. rewrite Hk.
  destruct (append_to_index_any iflt k nv nm' s i Hi at_index_file0) as (g & -> & Hg).
  exists (with_mapper (Some nm') v), (fs_put i g s), nm'.
  split; [by destruct iflt as [[? ?]|]|].
  split; [|split; [done|intros Hn h Hh; by rewrite fs_bytes_put_eq, (Hg Hn h Hh)]].
  apply (vol_at_index _ _ _ (with_mapper (Some nm') v) _ _ nm'); [|done..].
  by apply (vol_at_delete _ _ _ _ _ _ nm ix).
Qed.

(** What [append] at the end of a data file does, with and without a fault. *)
Lemma append_at_end flt n f :
  needle_wf n -> 8 <= len f < 2 ^ 32 ->
  exists z,
    append flt n f (append_needle_at f) CURRENT_VERSION
    = (with_sizes (len (body n)) n, f ++ z,
       match flt with None => Ok tt | Some (_, e) => Err (NIo e) end)
    /\ len z <= 8 + len (encode n)
    /\ (flt = None -> exists g, z = g ++ encode n /\ append_needle_at f = len (f ++ g)
                                /\ f ++ z = appended f n).
Proof.
  intros Hwf Hf. destruct (append_needle_at_spec f) as [Ha Hm]; [lia|].
  set (g := zeros (append_needle_at f - len f)).
  assert (Hg : len g = append_needle_at f - len f) by (apply len_zeros; lia).
  destruct flt as [[c e]|].
  - unfold append. simpl negb. cbv iota. rewrite append_buf_spec by done. unfold write_all_at.
    destruct (decide (take c (encode n) = [])) as [E|E].
    + exists []. rewrite E, app_nil_r. pose proof (len_nonneg (encode n)).
      split; [done|]. split; [unfold len at 1; simpl; lia|done].
    + exists (g ++ take c (encode n)). rewrite pwrite_append by (done || lia).
      split; [done|]. split; [|done]. rewrite len_app, Hg.
      assert (len (take c (encode n)) <= len (encode n)); [|lia].
      unfold len. rewrite length_take. lia.
  - exists (g ++ encode n). rewrite append_ok by (done || lia). split; [done|].
    split; [rewrite len_app; lia|]. intros _. exists g. rewrite len_app. split; [done|].
    split; [lia|done].
Qed.

Lemma write_sim vid d i v s f nm ix A flt iflt n :
  vol_at vid d i v s f nm ix A -> storable n -> len f + 8 < 2 ^ 32 ->
  exists v' s' f' nm' ix',
    write_needle flt iflt n (v, s) = ((v', s'), (spec_write flt iflt n A).2)
    /\ vol_at vid d i v' s' f' nm' ix' (spec_write flt iflt n A).1
    /\ len f' <= len f + 8 + len (encode n)
    /\ identity v' = identity v
    /\ (flt = None -> f' = appended f n
         /\ ix' = <[n.(n_id) := NeedleValue (Offset.from_u64 (append_needle_at f)) (len (body n))]> ix
         /\ (iflt = None -> forall h, fs_bytes s i = Some h -> fs_bytes s' i
              = Some (h ++ as_bytes (NeedleValue (Offset.from_u64 (append_needle_at f)) (len (body n))) n.(n_id)))).
Proof.
  intros Hv [Hwf Hcrc] Hf. pose proof Hv as []. pose proof (len_nonneg (encode n)).
  unfold write_needle, get_volume, mbind', mget, mret, mlift, mmodify. cbn [fst snd].
  rewrite at_writable0. cbn [fst snd]. rewrite (data_file_ok _ _ _ _ _ _ _ _ _ Hv), at_version0.
  destruct (append_needle_at_spec f) as [Ha Hm]; [lia|].
  destruct (append_at_end flt n f Hwf) as (z & -> & Hz & Hnone); [lia|].
  destruct flt as [[c e]|]; cbn [fst snd].
  - destruct (ftruncate_app f z (append_needle_at f)) as [w Hw]; [lia|].
    exists v, (fs_put d (f ++ w) (fs_put d (f ++ z) s)), (f ++ w), nm, ix.
    rewrite Hw. split; [done|]. split.
    + pose proof (vol_at_grow _ _ _ _ _ _ _ _ _ z Hv) as Hv1. destruct (vol_at_grow _ _ _ _ _ _ _ _ _ w Hv).
      destruct Hv1. split; try done; by rewrite ?fs_bytes_put_eq, ?fs_bytes_put_ne by done.
    + split; [|done]. rewrite <- Hw. unfold ftruncate, len at 1. rewrite length_take. lia.
  - destruct (Hnone eq_refl) as (g & -> & Hpos & Happ).
    assert (Hst : stored (f ++ g ++ encode n) n.(n_id) n
      (NeedleValue (Offset.from_u64 (append_needle_at f)) (len (body n)))).
    { split; [done|]. split; [done|]. exists (f ++ g), [].
      rewrite app_nil_r, <- app_assoc, <- Hpos. repeat split; done || lia. }
    destruct (set_index_sim _ _ _ _ _ _ _ _ _ iflt n _
      (vol_at_grow _ _ _ _ _ _ _ _ _ (g ++ encode n) Hv) Hst)
      as (v' & s' & nm' & E & Hv' & Hid & Hix). rewrite fs_bytes_put_ne in Hix by done.
    change (n_id (with_sizes (len (body n)) n)) with (n_id n).
    cbn [n_size with_sizes]. rewrite E.
    set (ix' := <[n_id n := _]> ix) in *.
    assert (Hlen : len (f ++ g ++ encode n) <= len f + 8 + len (encode n))
      by (rewrite !len_app in *; lia).
    destruct iflt as [[c e]|]; [by exists v', s', (f ++ g ++ encode n), nm', ix'|].
    cbn [n_last_modified with_sizes spec_write stored_result fst snd].
    destruct (v_last_modified v <? n_last_modified n).
    + exists (Volume.set_last_modified (n_last_modified n) v'), s', (f ++ g ++ encode n), nm', ix'.
      split; [done|]. split; [by apply vol_at_modified|done].
    + by exists v', s', (f ++ g ++ encode n), nm', ix'.
Qed.

Lemma delete_sim vid d i v s f nm ix A flt iflt n :
  vol_at vid d i v s f nm ix A -> needle_wf n -> len f + 8 < 2 ^ 32 ->
  exists v' s' f' nm' ix',
    delete_needle flt iflt n (v, s) = ((v', s'), (spec_delete flt iflt n A).2)
    /\ vol_at vid d i v' s' f' nm' ix' (spec_delete flt iflt n A).1
    /\ len f' <= len f + 8 + len (encode n)
    /\ identity v' = identity v
    /\ (flt = None -> match A !! n.(n_id) with
                      | None => f' = f /\ ix' = ix /\ s' = s
                      | Some _ => f' = appended f n /\ ix' = delete n.(n_id) ix
                          /\ (iflt = None -> forall nv h, ix !! n.(n_id) = Some nv -> fs_bytes s i = Some h ->
                                fs_bytes s' i = Some (h ++ as_bytes nv n.(n_id)))
                      end).
Proof.
  intros Hv Hwf Hf. pose proof Hv as []. pose proof (len_nonneg (encode n)).
  unfold delete_needle, get_volume, mbind', mget, mret, mlift, mmodify. cbn [fst snd].
  rewrite at_writable0, (get_index_ok _ _ _ _ _ _ _ _ _ _ Hv). unfold spec_delete.
  destruct (A !! n_id n) as [n0|] eqn:EA.
  2:{ rewrite (at_dom0 _ EA). exists v, s, f, nm, ix.
      split; [done|]. split; [done|]. split; [lia|done]. }
  destruct (at_stored0 _ _ EA) as (nv & Hk & _). rewrite Hk. cbn [fst snd].
  rewrite (data_file_ok _ _ _ _ _ _ _ _ _ Hv), at_version0.
  destruct (append_at_end flt n f Hwf) as (z & -> & Hz & Hnone); [lia|].
  pose proof (vol_at_grow _ _ _ _ _ _ _ _ _ z Hv) as Hv1.
  assert (Hlen : len (f ++ z) <= len f + 8 + len (encode n)) by (rewrite len_app; lia).
  destruct flt as [[c e]|]; cbn [fst snd map_err].
  - by exists v, (fs_put d (f ++ z) s), (f ++ z), nm, ix.
  - change (n_id (with_sizes (len (body n)) n)) with (n_id n).
    destruct (delete_index_sim _ _ _ _ _ _ _ _ _ iflt (n_id n) nv Hv1 Hk)
      as (v' & s' & nm' & E & Hv' & Hid & Hix). rewrite E. rewrite fs_bytes_put_ne in Hix by done.
    destruct (Hnone eq_refl) as (_ & _ & _ & Happ).
    exists v', s', (f ++ z), nm', (delete (n_id n) ix). split; [by destruct iflt as [[? ?]|]|].
    do 3 (split; [done|]). intros _. do 2 (split; [done|]). intros Hn nv' h Hk' Hh.
    injection Hk' as <-. by apply Hix.
Qed.

Lemma read_sim vid d i v s f nm ix A now m :
  vol_at vid d i v s f nm ix A -> m.(n_data) = [] ->
  read_needle crc now m v s = spec_read vid now m A.
Proof.
  intros Hv Hm. pose proof Hv as []. unfold read_needle, spec_read.
  rewrite (get_index_ok _ _ _ _ _ _ _ _ _ _ Hv). cbn [obind].
  destruct (A !! n_id m) as [n|] eqn:EA; [|by rewrite (at_dom0 _ EA)].
  destruct (at_stored0 _ _ EA) as (nv & -> & [Hwf Hc] & Hid & p & q & Hf & Hp & Hm8 & ->).
  cbn [nv_offset nv_size]. pose proof (len_body_bound n Hwf) as Hb.
  rewrite (proj2 (Z.eqb_neq _ _)) by (apply Offset.from_nonzero; lia).
  rewrite Size.valid_not_deleted by done. cbn [orb].
  rewrite (data_file_ok _ _ _ _ _ _ _ _ _ Hv), at_version0. cbn [obind fst snd].
  rewrite Hf, (read_data_encode crc n m p q) by (try done; by rewrite Offset.actual_from by lia).
  unfold live. assert (n_id (decode n m) = n_id n) as ->.
  { unfold decode, decode_body. destruct (len (n_data n) =? 0); [done|]. flags_kept. }
  rewrite at_id0. set (x := decode n m).
  destruct (has_ttl x), (Ttl.minutes (n_ttl x) =? 0), (has_last_modified_date x); cbn [negb orb];
    done.
Qed.

(** ** Sequences of operations *)

Inductive op :=
| OpWrite (flt iflt : fault) (n : needle)
| OpDelete (flt iflt : fault) (n : needle)
| OpRead (now : Z) (m : needle).

Definition op_ok (o : op) : Prop :=
  match o with
  | OpWrite _ _ n => storable n
  | OpDelete _ _ n => needle_wf n
  | OpRead _ m => m.(n_data) = []
  end.

(** The bytes an operation can add to the data file. *)
Definition op_cost (o : op) : Z :=
  match o with
  | OpWrite _ _ n | OpDelete _ _ n => 8 + len (encode n)
  | OpRead _ _ => 0
  end.

Definition exec (o : op) : VM (needle * Z) :=
  match o with
  | OpWrite flt iflt n => write_needle flt iflt n
  | OpDelete flt iflt n => delete_needle flt iflt n
  | OpRead now m => fun st => (st, read_needle crc now m st.1 st.2)
  end.

Definition spec_exec (vid : Z) (o : op) (A : gmap Z needle)
  : gmap Z needle * outcome VolumeError (needle * Z) :=
  match o with
  | OpWrite flt iflt n => spec_write flt iflt n A
  | OpDelete flt iflt n => spec_delete flt iflt n A
  | OpRead now m => (A, spec_read vid now m A)
  end.

(** Running a sequence, collecting every result: an error ends a request, not
    the volume. *)
Fixpoint exec_all (os : list op) (st : volume * fs)
  : (volume * fs) * list (outcome VolumeError (needle * Z)) :=
  match os with
  | [] => (st, [])
  | o :: os' => let '(st1, r) := exec o st in
                let '(st2, rs) := exec_all os' st1 in (st2, r :: rs)
  end.

Fixpoint spec_exec_all (vid : Z) (os : list op) (A : gmap Z needle)
  : gmap Z needle * list (outcome VolumeError (needle * Z)) :=
  match os with
  | [] => (A, [])
  | o :: os' => let '(A1, r) := spec_exec vid o A in
                let '(A2, rs) := spec_exec_all vid os' A1 in (A2, r :: rs)
  end.

Definition total_cost (os : list op) : Z := fold_right (fun o c => op_cost o + c) 0 os.

Lemma op_cost_nonneg o : 0 <= op_cost o.
Proof. destruct o; simpl; try pose proof (len_nonneg (encode n)); lia. Qed.

Lemma total_cost_nonneg os : 0 <= total_cost os.
Proof. induction os as [|o os IH]; simpl; [lia|]. pose proof (op_cost_nonneg o). lia. Qed.

Lemma exec_sim vid d i o st A bound :
  vol_inv vid d i bound st A -> op_ok o -> bound + 8 < 2 ^ 32 ->
  exists st', exec o st = (st', (spec_exec vid o A).2)
              /\ vol_inv vid d i (bound + op_cost o) st' (spec_exec vid o A).1.
Proof.
  intros (f & nm & ix & Hv & Hf) Ho Hb. destruct st as [v s]. cbn [fst snd] in Hv.
  destruct o as [flt iflt n|flt iflt n|now m]; simpl in Ho |- *.
  - destruct (write_sim _ _ _ _ _ _ _ _ _ flt iflt n Hv Ho) as (v' & s' & f' & nm' & ix' & E & H1 & H2 & _);
      [lia|]. exists (v', s'). split; [done|]. exists f', nm', ix'. split; [done|lia].
  - destruct (delete_sim _ _ _ _ _ _ _ _ _ flt iflt n Hv Ho) as (v' & s' & f' & nm' & ix' & E & H1 & H2 & _);
      [lia|]. exists (v', s'). split; [done|]. exists f', nm', ix'. split; [done|lia].
  - exists (v, s). split; [by rewrite (read_sim _ _ _ _ _ _ _ _ _ now m Hv Ho)|].
    exists f, nm, ix. split; [done|lia].
Qed.

Lemma exec_all_sim vid d i os st A bound :
  vol_inv vid d i bound st A -> Forall op_ok os -> bound + total_cost os + 8 < 2 ^ 32 ->
  exists st', exec_all os st = (st', (spec_exec_all vid os A).2)
              /\ vol_inv vid d i (bound + total_cost os) st' (spec_exec_all vid os A).1.
Proof.
  revert st A bound. induction os as [|o os IH]; intros st A bound Hv Hok Hb; simpl in *.
  - exists st. rewrite Z.add_0_r. done.
  - inversion Hok as [|? ? H1 H2]; subst. pose proof (total_cost_nonneg os).
    pose proof (op_cost_nonneg o).
    destruct (exec_sim vid d i o st A bound Hv H1) as (st1 & -> & Hv1); [lia|].
    destruct (IH st1 (spec_exec vid o A).1 (bound + op_cost o) Hv1 H2) as (st2 & -> & Hv2); [lia|].
    exists st2. destruct (spec_exec vid o A) as [A1 r]. cbn [fst snd] in *.
    destruct (spec_exec_all vid os A1) as [A2 rs]. split; [done|].
    by rewrite Z.add_assoc.
Qed.
End Refinement.

(** ** Creating and reopening a volume *)

Lemma filename_suffixes v : index_filename v <> data_filename v.
Proof.
  unfold index_filename, data_filename. generalize (filename v). intros x.
  induction x as [|c x IH]; [done|]. intros [= E]. by apply IH.
Qed.

Lemma fs_put_new s n f : s !! n = None -> fs_put n f s = <[n := FNode f false]> s.
Proof. intros E. unfold fs_put. by rewrite E. Qed.

Lemma fs_put_old s n f g b : s !! n = Some (FNode g b) -> fs_put n f s = <[n := FNode f b]> s.
Proof. intros E. unfold fs_put. by rewrite E. Qed.

Lemma write_all_at_empty buf : buf <> [] -> write_all_at None [] 0 buf = (buf, Ok tt).
Proof. intros H. unfold write_all_at. rewrite pwrite_append by done. done. Qed.

Lemma load_index_empty vid s path :
  fs_bytes s path = Some [] ->
  exists nm : needle_mapper memory_map,
    load_index_file path (mapper_new vid, s) = ((nm, s), Ok tt)
    /\ nm.(nm_index_file) = Some path /\ represents nm ∅ /\ nm.(nm_metric) = metric_default.
Proof.
  intros H%fs_get_bytes. exists (set_index_file (Some path) (mapper_new vid)). split; [|split; [done|split; [|done]]].
  - unfold load_index_file, mbind', mget, mlift. cbn [fst snd]. rewrite H. done.
  - exact (represents_new (T := memory_map) vid).
Qed.

(** The index part of [load] on a writable volume: whatever the index file
    held, the index is empty afterwards. *)
Lemma load_index_part_spec crc v s :
  readonly v = false ->
  exists nm : needle_mapper memory_map,
    load_index_part crc (v, s)
    = ((with_mapper (Some nm) v, fs_create (index_filename v) s), Ok tt)
    /\ nm.(nm_index_file) = Some (index_filename v) /\ represents nm ∅ /\ nm.(nm_metric) = metric_default.
Proof.
  intros Hr. set (i := index_filename v).
  assert (Hi : fs_bytes (fs_create i s) i = Some []) by apply fs_bytes_put_eq.
  destruct (load_index_empty (v_id v) (fs_create i s) i Hi) as (nm & E & H1 & H2 & H3).
  exists nm. split; [|done]. pose proof Hr as [Hw _]%orb_false_iff.
  unfold load_index_part, get_volume, mbind', mget, mret, mlift, mmodify. cbn [fst snd].
  fold i. rewrite Hw. cbn [fst snd]. rewrite (proj1 (fs_get_bytes _ _ _) Hi).
  cbn [map_err fst snd].
  assert (check_volume_data_integrity crc v (fs_create i s) [] = Ok tt) as -> by reflexivity.
  cbn [fst snd]. rewrite Hr. cbn [fst snd]. rewrite E. done.
Qed.

(** An empty, writable data file gets the super block. *)
Lemma write_super_block_spec v s d :
  v.(v_data_file) = Some d -> s !! d = Some (FNode [] false) ->
  write_super_block None (v, s)
  = ((set_no_write_can_delete false (set_no_write_or_delete false v),
      fs_put d (SuperBlock.as_bytes v.(v_super_block)) s), Ok tt).
Proof.
  intros Hd Hs. unfold write_super_block, data_file, fs_get, mbind', mget, mlift, mmodify.
  cbn [fst snd]. rewrite Hd, Hs. cbn [f_bytes map_err obind f_readonly].
  change (negb (len [] =? 0)) with false. cbn [fst snd]. rewrite Hs. cbn [f_readonly].
  rewrite write_all_at_empty by done. done.
Qed.

Lemma volume_new_spec crc mtime dir collection id rp t s :
  let v0 := Volume id dir collection None None (SuperBlock CURRENT_VERSION rp t 0)
              false false false 0 0 0 in
  s !! data_filename v0 = None -> 
  exists v s',
    volume_new crc None mtime dir collection id rp t s = (s', Ok v)
    /\ identity v = identity v0
    /\ vol_inv crc id (data_filename v0) (index_filename v0) 8 (v, s') ∅
    /\ fs_bytes s' (data_filename v0)
       = Some (SuperBlock.as_bytes (SuperBlock CURRENT_VERSION rp t 0))
    /\ content_size v = 0 /\ v.(v_no_write_or_delete) = false
    /\ fs_bytes s' (index_filename v0) = Some []
    /\ forall n, n <> data_filename v0 -> n <> index_filename v0 -> s' !! n = s !! n.
Proof.
  intros v0 Hd. pose proof (filename_suffixes v0) as Hne. set (d := data_filename v0) in *.
  set (sb := SuperBlock CURRENT_VERSION rp t 0).
  set (v1 := Volume id dir collection (Some d) None sb false false false mtime 0 0).
  set (s1 := fs_put d (SuperBlock.as_bytes sb) (fs_create d s)).
  destruct (load_index_part_spec crc v1 s1 eq_refl) as (nm & E & H1 & H2 & H3).
  change (index_filename v1) with (index_filename v0) in *. set (i := index_filename v0) in *.
  assert (Hs1 : fs_bytes s1 d = Some (SuperBlock.as_bytes sb)) by apply fs_bytes_put_eq.
  assert (Hc : fs_create d s !! d = Some (FNode [] false))
    by (unfold fs_create; rewrite fs_put_new by done; apply lookup_insert_eq).
  exists (with_mapper (Some nm) v1), (fs_create i s1). split; [|split; [done|split]].
  - unfold volume_new. fold v0. unfold load, get_volume, mbind', mget, mret, mlift, mmodify.
    cbn [fst snd v_data_file v0]. fold v0. fold d. rewrite Hd. cbn [fst snd].
    rewrite Hc. cbn [unwrap f_readonly f_bytes].
    change (SUPER_BLOCK_SIZE <=? len []) with false. unfold on_volume, mmodify. cbn [fst snd].
    rewrite (write_super_block_spec _ _ d) by done. cbn [fst snd].
    change (load_index_part crc _) with (load_index_part crc (v1, s1)). rewrite E. done.
  - exists (SuperBlock.as_bytes sb), nm, ∅. split; [|done]. cbn [fst snd].
    split; try done.
    + unfold fs_create. by rewrite fs_bytes_put_ne.
    + unfold fs_create. by rewrite fs_bytes_put_eq.
  - split; [unfold fs_create; by rewrite fs_bytes_put_ne|]. split; [|split; [done|split]].
    + unfold content_size, metric_or. cbn. by rewrite H3.
    + apply fs_bytes_put_eq.
    + intros n N1 N2. unfold s1, fs_create. by rewrite !fs_put_lookup_ne.
Qed.

Lemma load_existing crc mtime c v s sb q :
  v.(v_data_file) = None -> readonly v = false -> SuperBlock.wf sb ->
  s !! data_filename v = Some (FNode (SuperBlock.as_bytes sb ++ q) false) ->
  exists nm : needle_mapper memory_map,
    load crc None mtime c true (v, s)
    = ((with_mapper (Some nm)
          (with_super_block sb
             (with_data_file (Some (data_filename v)) (Volume.set_last_modified mtime v))),
        fs_create (index_filename v) s), Ok tt)
    /\ nm.(nm_index_file) = Some (index_filename v) /\ represents nm ∅.
Proof.
  intros Hn Hr Hwf Hs. set (d := data_filename v) in *.
  set (v1 := with_super_block sb (with_data_file (Some d) (Volume.set_last_modified mtime v))).
  destruct (load_index_part_spec crc v1 s Hr) as (nm & E & H1 & H2 & _).
  exists nm. split; [|done].
  unfold load, get_volume, mbind', mget, mret, mlift, mmodify. cbn [fst snd]. rewrite Hn.
  cbn [fst snd]. fold d. rewrite Hs. cbn [fst snd]. rewrite Hs. cbn [unwrap f_readonly f_bytes].
  rewrite len_app, SuperBlock.len_as_bytes. pose proof (len_nonneg q).
  rewrite (proj2 (Z.leb_le _ _)) by (unfold SUPER_BLOCK_SIZE; lia).
  unfold on_volume, mmodify. cbn [fst snd]. unfold read_super_block, data_file, fs_get.
  cbn [v_data_file with_data_file]. rewrite Hs. cbn [f_bytes map_err obind fst snd].
  pose proof (read_exact_at_app [] (SuperBlock.as_bytes sb) q) as Hrd.
  rewrite SuperBlock.len_as_bytes in Hrd. rewrite app_nil_l in Hrd.
  change (len (@nil byte)) with 0 in Hrd. rewrite Hrd. cbn [map_err obind].
  rewrite SuperBlock.parse_as_bytes by done. cbn [fst snd].
  fold v1. rewrite E. done.
Qed.

(** ** The properties of the component *)

(** C1: a new volume behaves as a finite map from needle ids to needles: for
    every sequence of writes, deletes and reads of needles that fit the format
    (name and mime type below 256 bytes, pairs below 64 KiB, data below
    [MAX_DATA]) and keep the data file below 4 GiB, with or without failing data
    and index writes, the results are those of the map.  A write whose data write fails reports the error and stores
    nothing; one whose index write fails reports the error although the needle
    is stored. *)
Theorem volume_refines_map : forall crc mtime dir collection id rp t s os,
  let v0 := Volume id dir collection None None (SuperBlock CURRENT_VERSION rp t 0)
              false false false 0 0 0 in
  s !! data_filename v0 = None -> Forall (op_ok crc) os -> total_cost os < 2 ^ 32 - 16 ->
  exists v s' st,
    volume_new crc None mtime dir collection id rp t s = (s', Ok v)
    /\ exec_all crc os (v, s') = (st, (spec_exec_all id os ∅).2)
    /\ vol_inv crc id (data_filename v0) (index_filename v0) (8 + total_cost os) st
         (spec_exec_all id os ∅).1.
Proof.
  intros crc mtime dir collection id rp t s os v0 Hd Hok Hc.
  destruct (volume_new_spec crc mtime dir collection id rp t s Hd) as (v & s' & E & _ & Hv & _).
  destruct (exec_all_sim crc _ _ _ os _ _ _ Hv Hok) as (st & E2 & Hst); [lia|].
  by exists v, s', st.
Qed.

Definition ask (id : Z) : needle := set_header 0 id 0 needle_default.

Lemma ask_wf id : in_u64 id -> needle_wf (ask id).
Proof. intros H. split; cbn; try done; unfold Ttl.wf; vm_compute; split; congruence. Qed.

Lemma volume_refines_map_witness : exists v s' st,
  volume_new sum_crc None 5 "/d" "" 3 Replica.default Ttl.default ∅ = (s', Ok v)
  /\ exec_all sum_crc
       [OpWrite (Some (10%nat, OtherIo)) None sample_needle; OpRead 100 (ask 42);
        OpWrite None None sample_needle; OpRead 100 (ask 42);
        OpDelete None None (ask 42); OpRead 100 (ask 42)] (v, s')
     = (st, [Err (VNeedle (NIo OtherIo)); Err (VNeedle (NNotFound 42));
             Ok (with_sizes (len (body sample_needle)) sample_needle, 5);
             Ok (decode sample_needle (ask 42), 5);
             Ok (with_sizes 0 (ask 42), 0); Err (VNeedle (NNotFound 42))]).
Proof.
  destruct (volume_refines_map sum_crc 5 "/d" "" 3 Replica.default Ttl.default ∅
    [OpWrite (Some (10%nat, OtherIo)) None sample_needle; OpRead 100 (ask 42);
     OpWrite None None sample_needle; OpRead 100 (ask 42);
     OpDelete None None (ask 42); OpRead 100 (ask 42)]) as (v & s' & st & H1 & H2 & _).
  - reflexivity.
  - repeat (apply Forall_cons_2 || apply Forall_nil_2);
      first [exact (conj sample_needle_wf eq_refl) | exact (ask_wf 42 ltac:(done)) | reflexivity].
  - vm_compute. reflexivity.
  - exists v, s', st. split; [exact H1|]. rewrite H2. vm_compute. reflexivity.
Defined.

(** C37: opening a volume whose files exist reads back the super block and
    keeps the data file, but empties the index file: every needle that was
    stored is reported as not found. *)
Theorem load_forgets_needles : forall crc mtime c v s sb q,
  v.(v_data_file) = None -> readonly v = false -> SuperBlock.wf sb ->
  s !! data_filename v = Some (FNode (SuperBlock.as_bytes sb ++ q) false) ->
  exists v' s',
    load crc None mtime c true (v, s) = ((v', s'), Ok tt)
    /\ v'.(v_super_block) = sb
    /\ fs_bytes s' (data_filename v) = Some (SuperBlock.as_bytes sb ++ q)
    /\ fs_bytes s' (index_filename v) = Some []
    /\ forall now m, read_needle crc now m v' s' = Err (VNeedle (NNotFound m.(n_id))).
Proof.
  intros crc mtime c v s sb q Hn Hr Hwf Hs.
  destruct (load_existing crc mtime c v s sb q Hn Hr Hwf Hs) as (nm & E & _ & [_ Hg]).
  eexists _, _. split; [exact E|]. split; [done|]. split; [|split].
  - unfold fs_create. rewrite fs_bytes_put_ne by apply filename_suffixes.
    unfold fs_bytes. by rewrite Hs.
  - apply fs_bytes_put_eq.
  - intros now m. unfold read_needle, get_index, needle_mapper_of. cbn [v_needle_mapper with_mapper obind].
    by rewrite Hg.
Qed.

Lemma load_forgets_needles_witness : exists v' s',
  load sum_crc None 5 true true
    (Volume 3 "/d" "" None None super_block_default false false false 0 0 0,
     {[ "/d/3.dat"%string := FNode (SuperBlock.as_bytes super_block_default ++ encode sample_needle) false;
        "/d/3.idx"%string := FNode (entries_bytes [(42, NeedleValue 1 (len (body sample_needle)))]) false ]})
  = ((v', s'), Ok tt)
  /\ fs_bytes s' "/d/3.idx" = Some []
  /\ read_needle sum_crc 100 (ask 42) v' s' = Err (VNeedle (NNotFound 42)).
Proof.
  destruct (load_forgets_needles sum_crc 5 true
    (Volume 3 "/d" "" None None super_block_default false false false 0 0 0)
    {[ "/d/3.dat"%string := FNode (SuperBlock.as_bytes super_block_default ++ encode sample_needle) false;
       "/d/3.idx"%string := FNode (entries_bytes [(42, NeedleValue 1 (len (body sample_needle)))]) false ]}
    super_block_default (encode sample_needle)) as (v' & s' & H1 & _ & _ & H2 & H3).
  - reflexivity.
  - reflexivity.
  - split; unfold Ttl.wf, Replica.digits_ok; vm_compute; repeat split; congruence.
  - reflexivity.
  - exists v', s'. split; [exact H1|]. split; [exact H2|]. apply (H3 100 (ask 42)).
Defined.

(** Every operation on a volume that represents a map leaves it
    representing the map the operation specifies, and returns what the map
    returns, whatever writes fail. *)
Theorem volume_step_refines : forall crc vid d i o st A bound,
  vol_inv crc vid d i bound st A -> op_ok crc o -> bound + 8 < 2 ^ 32 ->
  exists st', exec crc o st = (st', (spec_exec vid o A).2)
              /\ vol_inv crc vid d i (bound + op_cost o) st' (spec_exec vid o A).1.
Proof. intros crc vid d i o st A bound Hv Ho Hb. by apply exec_sim. Qed.

(** The super block read back is the super block written. *)
Theorem super_block_roundtrip : forall sb,
  SuperBlock.wf sb ->
  SuperBlock.parse (SuperBlock.as_bytes sb) = Ok sb /\ len (SuperBlock.as_bytes sb) = SUPER_BLOCK_SIZE.
Proof. intros sb H. split; [by apply SuperBlock.parse_as_bytes|reflexivity]. Qed.

Lemma super_block_roundtrip_witness :
  let sb := SuperBlock 2 (ReplicaPlacement 1 2 0) (Ttl 3 Week) 513 in
  SuperBlock.parse (SuperBlock.as_bytes sb) = Ok sb.
Proof.
  intros sb. apply (super_block_roundtrip sb).
  split; unfold Ttl.wf, Replica.digits_ok; vm_compute; repeat split; congruence.
Defined.
