(* ===== verification/NeedleType.v ===== *)
(** * Whatever the disk holds

    The fields of a needle have fixed widths.  The readers keep them, on any bytes,
    and what a volume returns carries a checksum that matches its data. *)

From S2P Require Import Prelude Types Text Ttl Replica Errors Fid Files Fs Needle NeedleCodec NeedleMap NeedleMapFacts Volume VolumeFacts.
#[local] Open Scope list_scope.
#[local] Open Scope Z_scope.

Record typed (n : needle) : Prop := {
  ty_cookie : in_u32 n.(n_cookie);
  ty_id : in_u64 n.(n_id);
  ty_size : in_i32 n.(n_size);
  ty_data_size : in_u32 n.(n_data_size);
  ty_data : len n.(n_data) < 2 ^ 32;
  ty_flags : in_u8 n.(n_flags);
  ty_name_size : in_u8 n.(n_name_size);
  ty_name : len n.(n_name) < 2 ^ 8;
  ty_mime_size : in_u8 n.(n_mime_size);
  ty_mime : len n.(n_mime) < 2 ^ 8;
  ty_pairs_size : in_u16 n.(n_pairs_size);
  ty_pairs : len n.(n_pairs) < 2 ^ 16;
  ty_last_modified : in_u64 n.(n_last_modified);
  ty_ttl : Ttl.wf n.(n_ttl);
  ty_checksum : in_u32 n.(n_checksum);
}.

Lemma typed_default : typed needle_default.
Proof. split; cbn; try done; vm_compute; split; congruence. Qed.

(** A reader that leaves a typed needle, and what it returns. *)
Definition keeps_typed {A} (Q : A -> Prop) (m : NM A) : Prop :=
  forall n, typed n -> typed (m n).1 /\ forall a, (m n).2 = Ok a -> Q a.

Section rules.
Context {A B : Type}.

Lemma keeps_bind (Q : A -> Prop) (Q' : B -> Prop) (m : NM A) (f : A -> NM B) :
  keeps_typed Q m -> (forall a, Q a -> keeps_typed Q' (f a)) -> keeps_typed Q' (let* a := m in f a).
Proof.
  intros Hm Hf n Hn. unfold mbind'. destruct (Hm n Hn) as [H1 H2]. destruct (m n) as [n' [a|e|]]; cbn [fst snd] in *;
    [|by split..]. by apply (Hf a (H2 a eq_refl)).
Qed.

Lemma keeps_ret (Q : A -> Prop) a : Q a -> keeps_typed Q (mret a).
Proof. intros Ha n Hn. split; [done|]. by intros b [= <-]. Qed.

Lemma keeps_lift (Q : A -> Prop) (o : outcome NeedleError A) : (forall a, o = Ok a -> Q a) -> keeps_typed Q (mlift o).
Proof. intros H n Hn. split; done. Qed.

Lemma keeps_throw (Q : A -> Prop) e : keeps_typed Q (mthrow e).
Proof. intros n Hn. split; done. Qed.
End rules.

Lemma keeps_get : keeps_typed typed mget.
Proof. intros n Hn. split; [done|]. by intros a [= <-]. Qed.

Lemma keeps_modify f (Q : unit -> Prop) : Q tt -> (forall n, typed n -> typed (f n)) -> keeps_typed Q (mmodify f).
Proof. intros Hq Hf n Hn. split; [by apply Hf|]. by intros [] _. Qed.

Lemma slice_unwrap_len {E} (l : list byte) a b x : @unwrap E _ (slice l a b) = Ok x -> len x = b - a /\ 0 <= b - a.
Proof.
  unfold slice. destruct ((0 <=? a) && (a <=? b) && (b <=? len l)) eqn:Eb; [|done]. intros [= <-].
  rewrite !andb_true_iff, !Z.leb_le in Eb. unfold len in *. rewrite length_take, length_drop. lia.
Qed.

Lemma keeps_get_be k bytes at_ : keeps_typed (fun v => 0 <= v < 256 ^ Z.of_nat k) (get_be k bytes at_).
Proof.
  unfold get_be. eapply (keeps_bind (fun b : list byte => len b = Z.of_nat k)).
  - apply keeps_lift. intros b Hb. apply slice_unwrap_len in Hb. lia.
  - intros b Hb. apply keeps_ret. pose proof (be_val_range b) as H. unfold len in Hb.
    replace (length b) with k in H by lia. done.
Qed.

Lemma keeps_slice bytes a b : keeps_typed (fun x : list byte => len x = b - a) (mlift (unwrap (slice bytes a b))).
Proof. apply keeps_lift. intros x Hx. by apply slice_unwrap_len in Hx as []. Qed.

Lemma i32_in z : in_i32 (i32 z).
Proof. int_solve. Qed.

(** One step of a reader. *)
Ltac keeps_step :=
  lazymatch goal with
  | |- keeps_typed _ (mbind' (get_be _ _ _) _) => eapply keeps_bind; [apply keeps_get_be|intros ? ?; cbn beta in *]
  | |- keeps_typed _ (mbind' mget _) => eapply keeps_bind; [apply keeps_get|intros ? ?]
  | |- keeps_typed _ (mbind' (mlift (unwrap _)) _) => eapply keeps_bind; [apply keeps_slice|intros ? ?; cbn beta in *]
  | |- keeps_typed _ (mbind' (mmodify _) _) =>
      eapply (keeps_bind (fun _ => True)); [apply keeps_modify; [exact I|]|intros _ _]
  | |- keeps_typed _ (mmodify _) => apply keeps_modify; [exact I|]
  | |- keeps_typed _ (mret _) => apply keeps_ret; exact I
  | |- keeps_typed _ (if _ then _ else _) => case_match
  end.
Ltac retype :=
  intros; repeat match goal with H : typed _ |- _ => destruct H end;
  split; cbn; try assumption; try apply i32_in; unfold in_u8, in_u16, in_u32, in_u64 in *; lia.
Ltac keeps := repeat keeps_step; try retype.

Definition anything {A} (_ : A) : Prop := True.

Lemma header_typed bytes : keeps_typed anything (parse_needle_header bytes).
Proof. unfold parse_needle_header. keeps. Qed.

Lemma read_head_typed bytes idx : keeps_typed anything (read_head bytes idx).
Proof. unfold read_head. keeps. Qed.
Lemma read_name_typed bytes idx : keeps_typed anything (read_name bytes idx).
Proof. unfold read_name. keeps. Qed.
Lemma read_mime_typed bytes idx : keeps_typed anything (read_mime bytes idx).
Proof. unfold read_mime. keeps. Qed.
Lemma read_last_modified_typed bytes idx : keeps_typed anything (read_last_modified bytes idx).
Proof. unfold read_last_modified. keeps. Qed.
Lemma read_pairs_typed bytes idx : keeps_typed anything (read_pairs bytes idx).
Proof. unfold read_pairs. keeps. Qed.

Lemma read_ttl_typed bytes idx : keeps_typed anything (read_ttl bytes idx).
Proof.
  unfold read_ttl. keeps. eapply (keeps_bind Ttl.wf).
  - apply keeps_lift. intros t Ht. unfold Ttl.from_bytes in Ht. destruct a0 as [|b0 [|b1 a0]]; [done..|].
    destruct (Unit.from_u8 (b2z b1)); [|done]. injection Ht as <-. apply b2z_range.
  - intros t Ht. keeps.
Qed.

Create HintDb typed_readers.
#[export] Hint Resolve read_head_typed read_name_typed read_mime_typed read_last_modified_typed read_ttl_typed read_pairs_typed : typed_readers.

Lemma read_needle_data_typed bytes : keeps_typed anything (read_needle_data bytes).
Proof. unfold read_needle_data. do 5 (eapply (keeps_bind anything); [auto with typed_readers|intros ? _]). auto with typed_readers. Qed.

(** The checksum is compared last. *)
Lemma read_bytes_typed crc bytes offset size ver n : typed n ->
  let '(n', r) := read_bytes crc bytes offset size ver n in
  typed n' /\ (r = Ok tt -> n'.(n_checksum) = crc n'.(n_data)).
Proof.
  intros Hn. unfold read_bytes. unfold mbind' at 1. destruct (header_typed bytes n Hn) as [H1 _].
  destruct (parse_needle_header bytes n) as [n1 [[]|e|]]; cbn [fst] in H1; [|by split..].
  unfold mbind' at 1, mget at 1. destruct (_ && _); [done|].
  match goal with |- context [mbind' (if ver =? VERSION2 then ?a else ?b) _] => set (m := if ver =? VERSION2 then a else b) end.
  assert (Hm : keeps_typed anything m).
  { unfold m. destruct (ver =? VERSION2); [|by apply keeps_ret]. eapply keeps_bind; [apply keeps_slice|].
    intros body _. apply read_needle_data_typed. }
  clearbody m.
  unfold mbind' at 1. destruct (Hm n1 H1) as [H2 _]. destruct (m n1) as [n2 [[]|e|]]; cbn [fst] in H2; [|by split..].
  unfold mbind' at 1, mlift.
  destruct (slice bytes _ _) as [c|] eqn:Ec; cbn [unwrap]; [|done].
  assert (Hc : in_u32 (be_val c)).
  { pose proof (be_val_range c) as Hr. apply (f_equal (@unwrap NeedleError _)), slice_unwrap_len in Ec.
    unfold NEEDLE_CHECKSUM_SIZE in Ec. unfold len in Ec.
    assert (Hle : (length c <= 4)%nat) by (destruct Ec as [Ec _]; int_solve).
    assert (256 ^ Z.of_nat (length c) <= 256 ^ 4) by (apply Z.pow_le_mono_r; lia). unfold in_u32. lia. }
  unfold mbind', mmodify, mget, mret, mthrow. cbn [fst snd].
  assert (H3 : typed (set_checksum (be_val c) n2)) by (destruct H2; split; done).
  destruct (Z.eqb_spec (n_checksum (set_checksum (be_val c) n2)) (crc (n_data (set_checksum (be_val c) n2)))); done.
Qed.

(** C24: whatever the data file and the index hold, reading a needle from a volume
    fails, or returns a needle all of whose fields are within their widths and
    whose stored checksum is the checksum of its data, with the length of that
    data. *)
Theorem read_needle_typed : forall crc now m v s n size, typed m ->
  read_needle crc now m v s = Ok (n, size) ->
  typed n /\ n.(n_checksum) = crc n.(n_data) /\ size = len n.(n_data).
Proof.
  intros crc now m v s n size Hm. unfold read_needle.
  destruct (get_index v (n_id m)) as [[nv|]|e|]; cbn [obind]; [|done..].
  destruct (_ || _); [done|]. destruct (data_file v s) as [df|e|]; cbn [obind]; [|done..].
  unfold read_data, mbind', mlift. destruct (read_needle_blob df.2 (nv_offset nv) (nv_size nv)) as [bytes|e|]; [|done..].
  pose proof (read_bytes_typed crc bytes (nv_offset nv) (nv_size nv) (version v) m Hm) as H.
  destruct (read_bytes _ _ _ _ _ m) as [n' [[]|e|]]; [|done..]. destruct H as [Ht Hc].
  repeat case_match; intros [= <- <-]; (split; [done|]); (split; [by apply Hc|done]).
Qed.

Definition stored_sample : option (volume * fs) :=
  match volume_new sum_crc None 5 "/d" "" 3 Replica.default Ttl.default ∅ with
  | (s, Ok v) => Some (exec_all sum_crc [OpWrite None None sample_needle] (v, s)).1
  | _ => None
  end.

Lemma read_needle_typed_witness : exists v s n, stored_sample = Some (v, s)
  /\ read_needle sum_crc 100 (ask 42) v s = Ok (n, 5)
  /\ typed n /\ n.(n_checksum) = sum_crc n.(n_data).
Proof.
  destruct stored_sample as [[v s]|] eqn:E; [|exfalso; revert E; vm_compute; discriminate].
  assert (Hr : read_needle sum_crc 100 (ask 42) v s = Ok (decode sample_needle (ask 42), 5)).
  { assert (H : match stored_sample with
                | Some (v, s) => read_needle sum_crc 100 (ask 42) v s = Ok (decode sample_needle (ask 42), 5)
                | None => False end) by (vm_compute; reflexivity).
    rewrite E in H. exact H. }
  exists v, s, (decode sample_needle (ask 42)). split; [reflexivity|]. split; [exact Hr|].
  assert (Ha : typed (ask 42)) by (destruct typed_default; split; cbn in *; try assumption; vm_compute; split; congruence).
  destruct (read_needle_typed sum_crc 100 (ask 42) v s _ 5 Ha Hr) as (H1 & H2 & _). split; [exact H1|exact H2].
Defined.
