(* ===== verification/Vacuum.v ===== *)
(** * Vacuum ([storage/volume/vacuum.rs], [scan_volume_file] of [storage/volume/mod.rs])

    Compaction copies the live needles of a volume to [.cpd] and [.cpx] files,
    either by scanning the data file ([compact]) or by walking the index file
    ([compact2]); the commit adds what was written in between, renames the files
    and loads the volume again.  The writes of this file do not fail. *)

From S2P Require Import Prelude Types Text Ttl Replica Errors Fid Files Fs Needle NeedleMap Volume.
#[local] Open Scope Z_scope.

(** A read on the directory half of a state. *)
Definition read_file {X} (name : string) : M (X * fs) VolumeError file :=
  let* s := mget in mlift (map_err VIo (fs_get s.2 name)).

(** [write_all_at] on an open file. *)
Definition write_file {X E} (name : string) (off : Z) (buf : list byte) (f : file)
  : M (X * fs) E unit :=
  mmodify (fun s => (s.1, fs_put name (pwrite f off buf) s.2)).

Definition create_file {X} (name : string) : M (X * fs) VolumeError unit :=
  mmodify (fun s => (s.1, fs_create name s.2)).

Section WithCrc.
Context (crc : list byte -> Z).

(** ** Scanning a data file *)

Section Scan.
Context {X : Type}.
Context (read_body : bool) (visit_needle : needle -> Z -> M (X * fs) VolumeError unit).

Definition is_eof (e : NeedleError) : bool :=
  match e with NIo UnexpectedEof => true | _ => false end.

(** The needle as the visitor sees it: an unreadable body is only logged. *)
Definition scan_body (vol : volume) (offset : Z) (n : needle) (rest : Z)
  : M (X * fs) VolumeError needle :=
  let* s := mget in
  let* df := mlift (data_file vol s.2) in
  if read_body then
    let '(n1, r) := read_needle_body crc df.2 (u64 (offset + NEEDLE_ENTRY_SIZE)) rest
                      (version vol) n in
    match r with Panic => mpanic | _ => mret n1 end
  else mret n.

(** Reading the next header: the end of the file ends the scan. *)
Definition scan_next (vol : volume) (offset : Z)
    (k : needle -> Z -> M (X * fs) VolumeError unit) : M (X * fs) VolumeError unit :=
  let* s := mget in
  let* df := mlift (data_file vol s.2) in
  match read_needle_header df.2 (version vol) offset with
  | Ok nr => k nr.1 nr.2
  | Err e => if is_eof e then mret tt else mthrow (VNeedle e)
  | Panic => mpanic
  end.

(** The loop of [scan_volume_file]: the needle at [offset] has its header read,
    [rest] is the length of its body.  [fuel] bounds the turns; running out is a
    [Panic]. *)
Fixpoint scan_loop (fuel : nat) (vol : volume) (offset : Z) (n : needle) (rest : Z)
  : M (X * fs) VolumeError unit :=
  match fuel with
  | O => mpanic
  | S fuel' =>
      let* n1 := scan_body vol offset n rest in
      fun s =>
        let '(s1, r) := visit_needle n1 offset s in
        match r with
        | Panic => (s1, Panic)
        | _ =>
            if match r with Err (VNeedle e) => is_eof e | _ => false end then (s1, Ok tt)
            else
              let offset' := u64 (offset + u32 (NEEDLE_ENTRY_SIZE + rest)) in
              scan_next vol offset' (scan_loop fuel' vol offset') s1
        end
  end.

(** [scan_volume_file]; the volume it loads is its own copy. *)
Definition scan_volume_file (fuel : nat) (mtime : Z) (dirname collection : string) (id : Z)
    (visit_super_block : super_block -> M (X * fs) VolumeError unit) : M (X * fs) VolumeError unit :=
  fun st =>
    let '(s1, r) := load_volume_without_index crc mtime dirname collection id st.2 in
    match r with
    | Panic => ((st.1, s1), Panic)
    | Err e => ((st.1, s1), Err e)
    | Ok vol =>
        (let* _ := visit_super_block vol.(v_super_block) in
         let* s := mget in
         let* df := mlift (data_file vol s.2) in
         let* nr := mlift (map_err VNeedle
                             (read_needle_header df.2 (version vol) SUPER_BLOCK_SIZE)) in
         scan_loop fuel vol SUPER_BLOCK_SIZE nr.1 nr.2) (st.1, s1)
    end.

End Scan.

(** ** Copying the live needles *)

(** The TTL test of both copies: [now] is in milliseconds, and the TTL is the
    volume's. *)
Definition vacuum_expired (now : Z) (sb : super_block) (n : needle) : bool :=
  has_ttl n && (u64 (n.(n_last_modified) + u64 (Ttl.minutes sb.(sb_ttl) * 60)) <=? now).

(** What the closures of the copies update: the mapper of the new index and
    the next position in the new data file. *)
Definition copy_state : Type := needle_mapper memory_map * Z.

Definition on_nm {A} (op : M (needle_mapper memory_map * fs) VolumeError A)
  : M (copy_state * fs) VolumeError A :=
  fun s => let '((nm', fs'), r) := op (s.1.1, s.2) in (((nm', s.1.2), fs'), r).

Definition add_new_offset (d : Z) : M (copy_state * fs) VolumeError unit :=
  mmodify (fun s => ((s.1.1, u64 (s.1.2 + d)), s.2)).

(** Appending a needle to the compacted data file. *)
Definition append_copy (name : string) (n : needle) (offset version : Z) (f : file)
  : M (copy_state * fs) VolumeError needle :=
  let '(n', f', r) := append None n f offset version in
  let* _ := mmodify (fun s => (s.1, fs_put name f' s.2)) in
  let* _ := mlift (map_err VNeedle r) in
  mret n'.

(** The [visit_needle] closure of [copy_data_and_generate_index_file]. *)
Definition copy_visit (v : volume) (now : Z) (cpd : string) (n : needle) (offset : Z)
  : M (copy_state * fs) VolumeError unit :=
  if vacuum_expired now v.(v_super_block) n then mret tt
  else
    let* idx := mlift (get_index v n.(n_id)) in
    match idx with
    | None => mret tt
    | Some nv =>
        if (Offset.actual_offset nv.(nv_offset) =? offset) && (0 <? nv.(nv_size)) then
          let* s := mget in
          let* _ := on_nm (mapper_set None n.(n_id)
                             (NeedleValue (Offset.from_u64 s.1.2) n.(n_size))) in
          let* dst := read_file cpd in
          let* n' := append_copy cpd n (append_needle_at dst) (version v) dst in
          add_new_offset (disk_size n')
        else mret tt
    end.

(** The [visit_super_block] closure. *)
Definition copy_visit_super_block (cpd : string) (sb : super_block)
  : M (copy_state * fs) VolumeError unit :=
  let* f := read_file cpd in
  write_file cpd 0 (SuperBlock.as_bytes (SuperBlock.add_compact_revision 1 sb)) f.

Definition copy_data_and_generate_index_file (fuel : nat) (mtime now : Z) (v : volume)
    (cpd cpx : string) (s : fs) : fs * outcome VolumeError unit :=
  let s := fs_create cpx (fs_create cpd s) in
  let '((nm, s), r) := load_index_file cpx (mapper_new v.(v_id), s) in
  match r with
  | Panic => (s, Panic)
  | Err e => (s, Err e)
  | Ok _ =>
      let '((_, s), r) := scan_volume_file true (copy_visit v now cpd) fuel mtime
                            v.(v_dir) v.(v_collection) v.(v_id) (copy_visit_super_block cpd)
                            ((nm, SUPER_BLOCK_SIZE), s) in
      (s, r)
  end.

(** Errors of the volume inside [walk_index_file]'s closure are boxed. *)
Definition boxed {S A} (m : M S VolumeError A) : M S NeedleError A :=
  fun s => let '(s', r) := m s in (s', match r with Ok a => Ok a | Err _ => Err NBox | Panic => Panic end).

(** The closure of [copy_data_based_on_index_file]. *)
Definition copy_index_entry (v : volume) (now : Z) (cpd : string) (key offset size : Z)
  : M (copy_state * fs) NeedleError unit :=
  if offset =? 0 then mret tt
  else
    let* idx := boxed (mlift (get_index v key)) in
    match idx with
    | None => mret tt
    | Some nv =>
        let* s := mget in
        let* df := boxed (mlift (data_file v s.2)) in
        let '(n, r) := read_data crc df.2 offset size (version v) needle_default in
        let* _ := mlift r in
        if vacuum_expired now v.(v_super_block) n then mret tt
        else if (nv.(nv_offset) =? offset) && (0 <? nv.(nv_size)) then
          let* s := mget in
          let* _ := boxed (on_nm (mapper_set None n.(n_id)
                                    (NeedleValue (Offset.from_u64 s.1.2) n.(n_size)))) in
          let* dst := boxed (read_file cpd) in
          let '(n', f', r) := append None n dst s.1.2 (version v) in
          let* _ := mmodify (fun s => (s.1, fs_put cpd f' s.2)) in
          let* _ := mlift r in
          boxed (add_new_offset (disk_size n'))
        else mret tt
    end.

(** [copy_data_based_on_index_file]; the volume's own compact revision grows. *)
Definition copy_data_based_on_index_file (now : Z) (cpd cpx : string) : VM unit :=
  let* _ := create_file cpd in
  let* _ := create_file cpx in
  let* v := get_volume in
  let* old_idx := read_file (index_filename v) in
  fun st =>
    let '((nm, s1), r) := load_index_file cpx (mapper_new v.(v_id), st.2) in
    match r with
    | Panic => ((st.1, s1), Panic)
    | Err e => ((st.1, s1), Err e)
    | Ok _ =>
        (let* _ := on_volume (fun w =>
           with_super_block (SuperBlock.add_compact_revision 1 w.(v_super_block)) w) in
         let* v := get_volume in
         let* f := read_file cpd in
         let* _ := write_file cpd 0 (SuperBlock.as_bytes v.(v_super_block)) f in
         fun st =>
           let '((_, s2), r) := walk_index_file old_idx (copy_index_entry v now cpd)
                                  ((nm, SUPER_BLOCK_SIZE), st.2) in
           ((st.1, s2), r)) (st.1, s1)
    end.

(** ** [compact], [compact2] *)

Definition begin_compact : VM unit :=
  let* st := mget in
  let* sz := mlift (volume_index_file_size st.1 st.2) in
  let* _ := on_volume (set_last_compact sz st.1.(v_super_block).(sb_compact_revision)) in
  on_volume (set_is_compacting true).

Definition compact (fuel : nat) (mtime now : Z) : VM unit :=
  let* _ := begin_compact in
  let* v := get_volume in
  let* _ := (fun st => let '(s', r) := copy_data_and_generate_index_file fuel mtime now v
                                         (compact_data_filename v) (compact_index_filename v) st.2 in
                       ((st.1, s'), r)) in
  on_volume (set_is_compacting false).

Definition compact2 (now : Z) : VM unit :=
  let* _ := begin_compact in
  let* v := get_volume in
  let* _ := copy_data_based_on_index_file now (compact_data_filename v) (compact_index_filename v) in
  on_volume (set_is_compacting false).

(** ** [makeup_diff] *)

Definition fetch_compact_revision_from_data_file (f : file) : outcome VolumeError Z :=
  let? buf := map_err VIo (read_exact_at f 0 SUPER_BLOCK_SIZE) in
  let? sb := SuperBlock.parse buf in
  Ok sb.(sb_compact_revision).

(** The index entries from the last one back to [stop], the latest of a key
    winning; one turn per entry of the file, so [fuel] is their number. *)
Fixpoint collect_diff (fuel : nat) (old_idx : file) (idx_offset stop : Z)
    (acc : gmap Z needle_value) : outcome VolumeError (gmap Z needle_value) :=
  match fuel with
  | O => Ok acc
  | S fuel' =>
      if stop <=? idx_offset then
        let? buf := read_index_entry_at_offset old_idx idx_offset in
        let? e := read_index_entry buf in
        let '(key, offset, size) := e in
        let acc := match acc !! key with
                   | Some _ => acc
                   | None => <[key := NeedleValue offset size]> acc
                   end in
        collect_diff fuel' old_idx (idx_offset - NEEDLE_INDEX_SIZE) stop acc
      else Ok acc
  end.

Definition fake_del_needle (key : Z) : needle := set_header 305419896 key 0 needle_default.

(** One entry of the difference: the needle's bytes, or a delete marker, go to
    the new data file, an entry to the new index file. *)
Definition apply_diff (old_data : file) (new_data new_idx : string) (key : Z) (value : needle_value)
  : VM unit :=
  let* f := read_file new_data in
  let offset := append_needle_at f in
  let* v := get_volume in
  let* st := mget in
  let* _ := (if len f mod NEEDLE_PADDING_SIZE =? 0 then mret tt
             else let* _ := mlift (data_file v st.2) in mret tt) in
  let* o := (if negb (value.(nv_offset) =? 0) && negb (value.(nv_size) =? 0) then
               let* bytes := mlift (map_err VNeedle
                                      (read_needle_blob old_data value.(nv_offset) value.(nv_size))) in
               let* _ := write_file new_data offset bytes f in
               mret (u32 offset / NEEDLE_PADDING_SIZE)
             else
               let '(_, f', r) := append None (fake_del_needle key) f offset (version v) in
               let* _ := mmodify (fun s => (s.1, fs_put new_data f' s.2)) in
               let* _ := mlift (map_err VNeedle r) in
               mret 0) in
  let* ix := read_file new_idx in
  write_file new_idx (len ix) (put_u64 key ++ put_u32 o ++ put_i32 value.(nv_size)) ix.

Fixpoint apply_diffs (old_data : file) (new_data new_idx : string)
    (es : list (Z * needle_value)) : VM unit :=
  match es with
  | [] => mret tt
  | (k, v) :: es' =>
      let* _ := apply_diff old_data new_data new_idx k v in
      apply_diffs old_data new_data new_idx es'
  end.

(** [makeup_diff]; [order] is the order in which the hash map is iterated. *)
Definition makeup_diff (order : gmap Z needle_value -> list (Z * needle_value))
    (new_data new_idx old_data old_idx : string) : VM unit :=
  let* old_idx_file := read_file old_idx in
  let* old_data_file := read_file old_data in
  let* v := get_volume in
  let* index_size := mlift (verify_index_file_integrity old_idx_file) in
  if (index_size =? 0) || (index_size <=? v.(v_last_compact_index_offset)) then mret tt
  else
    let* old_rev := mlift (fetch_compact_revision_from_data_file old_data_file) in
    if negb (old_rev =? v.(v_last_compact_revision)) then mthrow VString
    else
      let* diff := mlift (collect_diff (Z.to_nat (index_size / NEEDLE_INDEX_SIZE)) old_idx_file
                            (index_size - NEEDLE_INDEX_SIZE) v.(v_last_compact_index_offset) ∅) in
      if bool_decide (diff = ∅) then mret tt
      else
        let* _ := read_file new_idx in
        let* new_data_file := read_file new_data in
        let* new_rev := mlift (fetch_compact_revision_from_data_file new_data_file) in
        if negb (u16 (old_rev + 1) =? new_rev) then mthrow VString
        else apply_diffs old_data_file new_data new_idx (order diff).

(** ** [commit_compact], [cleanup_compact] *)

Definition vm_fs (op : fs -> fs * outcome io_error unit) : VM unit :=
  fun st => let '(s', r) := op st.2 in ((st.1, s'), map_err VIo r).

Definition commit_compact (order : gmap Z needle_value -> list (Z * needle_value)) (mtime : Z)
  : VM unit :=
  let* v := get_volume in
  let cpd := compact_data_filename v in
  let cpx := compact_index_filename v in
  let* _ := on_volume (set_is_compacting true) in
  let* _ := (fun st =>
    let '(st1, r) := makeup_diff order cpd cpx (data_filename v) (index_filename v) st in
    match r with
    | Panic => (st1, Panic)
    | Ok _ => (let* _ := vm_fs (fs_rename cpd (data_filename v)) in
               vm_fs (fs_rename cpx (index_filename v))) st1
    | Err _ => (let* _ := vm_fs (fs_remove cpd) in vm_fs (fs_remove cpx)) st1
    end) in
  let* _ := on_volume (fun w => with_mapper None (with_data_file None w)) in
  let* _ := load crc None mtime false true in
  on_volume (set_is_compacting false).

Definition cleanup_compact (v : volume) (s : fs) : fs * outcome io_error unit :=
  match fs_remove (compact_data_filename v) s with
  | (s1, Ok _) => fs_remove (compact_index_filename v) s1
  | r => r
  end.

End WithCrc.
