(* ===== verification/VacuumFacts.v ===== *)
(** * Compaction keeps the live needles

    A data file that was only appended to is a super block followed by encoded
    needles.  [compact] visits them in order and copies exactly those the index
    points to. *)

From S2P Require Import Prelude Types Text Ttl Replica Errors Fid Files Fs Needle NeedleCodec NeedleMap NeedleMapFacts Volume VolumeFacts Vacuum.
#[local] Open Scope Z_scope.

Definition encodes (ns : list needle) : list byte := concat (map encode ns).

(** The position of the needle after [ns]. *)
Definition pos (ns : list needle) : Z := SUPER_BLOCK_SIZE + len (encodes ns).

Lemma encodes_app a b : encodes (a ++ b) = encodes a ++ encodes b.
Proof. unfold encodes. by rewrite map_app, concat_app. Qed.

Lemma encodes_cons n ns : encodes (n :: ns) = encode n ++ encodes ns.
Proof. reflexivity. Qed.

Lemma encodes_snoc ns n : encodes (ns ++ [n]) = encodes ns ++ encode n.
Proof. rewrite encodes_app. unfold encodes at 2. cbn [map concat]. by rewrite app_nil_r. Qed.

Lemma pos_snoc ns n : pos (ns ++ [n]) = pos ns + len (encode n).
Proof. unfold pos. rewrite encodes_snoc, len_app. lia. Qed.

Lemma pos_ge ns : SUPER_BLOCK_SIZE <= pos ns.
Proof. unfold pos. pose proof (len_nonneg (encodes ns)). lia. Qed.

Lemma len_encode_pos n : 0 < len (encode n).
Proof.
  pose proof (encode_nonempty n) as H.
  destruct (encode n) as [|b l]; [done|]. rewrite len_cons. pose proof (len_nonneg l). lia.
Qed.

Lemma pos_aligned ns : Forall needle_wf ns -> pos ns mod 8 = 0.
Proof.
  induction ns as [|n ns IH] using rev_ind; intros H; [done|].
  apply Forall_app in H as [H1 H2]. rewrite Forall_singleton in H2. rewrite pos_snoc, len_encode by done.
  pose proof (Size.actual_size_aligned (len (body n)) (len_body_bound n H2)).
  specialize (IH H1). Z.div_mod_to_equations; lia.
Qed.

(** Two prefixes of a log that end at the same position are equal. *)
Lemma pos_inj a b x y c d : a ++ x :: c = b ++ y :: d -> pos a = pos b -> a = b /\ x = y.
Proof.
  revert b. induction a as [|n a IH]; intros [|m b] E Hp.
  - by injection E.
  - exfalso. unfold pos in Hp. rewrite encodes_cons, len_app in Hp.
    pose proof (len_nonneg (encodes b)). pose proof (len_encode_pos m).
    change (len (encodes [])) with 0 in Hp. lia.
  - exfalso. unfold pos in Hp. rewrite encodes_cons, len_app in Hp.
    pose proof (len_nonneg (encodes a)). pose proof (len_encode_pos n).
    change (len (encodes [])) with 0 in Hp. lia.
  - injection E as -> E. destruct (IH b E) as [-> ->]; [|done].
    unfold pos in *. rewrite !encodes_cons, !len_app in Hp. lia.
Qed.

(** ** Reading one entry of the log *)

Definition header_of (n : needle) : needle :=
  set_header n.(n_cookie) n.(n_id) (len (body n)) needle_default.

Section Scan.
Context (crc : list byte -> Z).

(** A needle of a log: its checksum fits its data.  An empty body is scanned
    as if the checksum were a data length, so it has to be zero. *)
Definition loggable (n : needle) : Prop :=
  storable crc n /\ (len n.(n_data) = 0 -> n.(n_checksum) = 0).

(** What the scan makes of the needle. *)
Definition scanned (n : needle) : needle :=
  if len n.(n_data) =? 0 then set_checksum (crc []) (set_data 0 [] 0 (header_of n))
  else decode n needle_default.

Definition rest_of (n : needle) : Z := len (encode n) - NEEDLE_ENTRY_SIZE.

Lemma rest_of_eq n : needle_wf n -> rest_of n = body_len (header_of n).
Proof.
  intros Hwf. pose proof (len_body_bound n Hwf) as Hb. unfold rest_of. rewrite len_encode by done.
  rewrite Size.actual_size_eq by done. pose proof (Size.padding_len_bounds (len (body n))).
  unfold body_len, header_of, Size.valid, NEEDLE_ENTRY_SIZE, NEEDLE_ID_SIZE, OFFSET_SIZE, SIZE_SIZE,
    NEEDLE_CHECKSUM_SIZE in *. cbn [n_size set_header]. int_solve.
Qed.

Lemma read_header_at n p q :
  needle_wf n ->
  read_needle_header (p ++ encode n ++ q) VERSION2 (len p) = Ok (header_of n, rest_of n).
Proof.
  intros Hwf. pose proof (len_body_bound n Hwf) as Hb. rewrite rest_of_eq by done.
  unfold read_needle_header. change (VERSION2 =? VERSION2) with true. cbv iota.
  set (hd := put_u32 (n_cookie n) ++ put_u64 (n_id n) ++ put_u32 (len (body n))).
  assert (Hhd : len hd = NEEDLE_ENTRY_SIZE) by (unfold hd; autorewrite with len; reflexivity).
  assert (encode n = hd ++ body n ++ put_u32 (n_checksum n) ++ zeros (Size.padding_len (len (body n)))) as ->
    by (unfold hd, encode; by rewrite <- !app_assoc).
  rewrite <- (app_assoc hd), <- Hhd, read_exact_at_app. cbn [map_err obind].
  rewrite <- (app_nil_r hd). unfold hd. rewrite <- !app_assoc.
  rewrite parse_needle_header_spec by (try apply Hwf; done). done.
Qed.

Lemma read_header_eof f off :
  len f < off + NEEDLE_ENTRY_SIZE -> read_needle_header f VERSION2 off = Err (NIo UnexpectedEof).
Proof.
  intros H. unfold read_needle_header, read_exact_at. simpl.
  destruct (Z.leb_spec (off + NEEDLE_ENTRY_SIZE) (len f)); [lia|]. done.
Qed.

Lemma read_empty_body cs pad rest f m :
  cs = 0 -> 1 <= pad ->
  m.(n_flags) = 0 -> m.(n_data) = [] ->
  read_needle_data (put_u32 cs ++ zeros pad) m = (set_data 0 [] 0 m, Ok tt)
  /\ read_exact_at (f ++ (put_u32 cs ++ zeros pad) ++ rest) (len f) (4 + pad)
     = Ok (put_u32 cs ++ zeros pad).
Proof.
  intros -> Hpad Hf Hd. split.
  - assert (zeros pad = Byte.x00 :: zeros (pad - 1)) as ->.
    { unfold zeros. replace (Z.to_nat pad) with (S (Z.to_nat (pad - 1))) by lia. done. }
    set (z := zeros (pad - 1)). unfold read_needle_data, mbind', read_head.
    pose proof (len_nonneg z).
    rewrite (proj2 (Z.ltb_lt _ _)) by (autorewrite with len; lia).
    unfold mbind', mget, mmodify, mlift.
    rewrite (get_be_at 4 _ [] 0 (Byte.x00 :: z)) by (simpl; done || lia).
    rewrite (slice_at _ (put_u32 0) [] (Byte.x00 :: z)) by (autorewrite with len; done || reflexivity).
    cbn [unwrap].
    rewrite (get_be_at 1 _ (put_u32 0) 0 z) by (autorewrite with len; simpl; done || lia).
    unfold read_name, read_mime, read_last_modified, read_ttl, read_pairs, mbind', mget, mret.
    unfold has_name, has_mime, has_last_modified_date, has_ttl, has_pairs.
    cbn [n_flags set_data has_flag]. rewrite !andb_false_r. done.
  - assert (len (put_u32 0 ++ zeros pad) = 4 + pad) as <-
      by (autorewrite with len; rewrite len_zeros by lia; lia).
    apply read_exact_at_app.
Qed.

Lemma read_body_at n p q :
  loggable n ->
  exists r, read_needle_body crc (p ++ encode n ++ q) (len p + NEEDLE_ENTRY_SIZE) (rest_of n)
              VERSION2 (header_of n) = (scanned n, Ok r).
Proof.
  intros [[Hwf Hc] H0]. exists tt. rewrite rest_of_eq by done.
  set (hd := put_u32 (n_cookie n) ++ put_u64 (n_id n) ++ put_u32 (len (body n))).
  assert (Hhd : len hd = NEEDLE_ENTRY_SIZE) by (unfold hd; autorewrite with len; reflexivity).
  assert (p ++ encode n ++ q = (p ++ hd) ++ body n ++ put_u32 (n_checksum n)
          ++ zeros (Size.padding_len (len (body n))) ++ q) as ->
    by (unfold hd, encode; by rewrite <- !app_assoc).
  assert (len p + NEEDLE_ENTRY_SIZE = len (p ++ hd)) as -> by (rewrite len_app; lia).
  unfold scanned. destruct (Z.eqb_spec (len (n_data n)) 0) as [E|E].
  - assert (Hb : body n = []) by (unfold body; by rewrite (proj2 (Z.eqb_eq _ _))).
    unfold header_of. rewrite Hb, (H0 E). change (len []) with 0.
    assert (Hp : Size.padding_len 0 = 4) by reflexivity. rewrite Hp.
    assert (body_len (set_header (n_cookie n) (n_id n) 0 needle_default) = 4 + 4) as -> by reflexivity.
    destruct (read_empty_body 0 4 q (p ++ hd) (set_header (n_cookie n) (n_id n) 0 needle_default))
      as [H1 H2]; [done..|].
    unfold read_needle_body. change (4 + 4 =? 0) with false. change (VERSION2 =? VERSION2) with true.
    cbv iota. unfold mbind', mlift. rewrite app_nil_l.
    rewrite <- (app_assoc (put_u32 0)) in H2. rewrite H2. cbn [map_err]. rewrite H1. done.
  - assert (body_len (header_of n) = body_len (with_sizes (len (body n)) n)) as -> by reflexivity.
    pose proof (read_needle_body_lemma crc n (p ++ hd) q (header_of n) Hwf E) as Hr.
    rewrite Hr. unfold decode. by rewrite Hc.
Qed.

(** ** A needle read back encodes as it was *)

Lemma decode_fields n m :
  len n.(n_data) <> 0 ->
  (decode n m).(n_cookie) = n.(n_cookie) /\ (decode n m).(n_id) = n.(n_id)
  /\ (decode n m).(n_data) = n.(n_data) /\ (decode n m).(n_flags) = n.(n_flags)
  /\ (decode n m).(n_checksum) = n.(n_checksum) /\ (decode n m).(n_size) = len (body n).
Proof.
  intros E. unfold decode, decode_body. rewrite (proj2 (Z.eqb_neq _ _)) by done.
  destruct (has_name n), (has_mime n), (has_last_modified_date n), (has_ttl n), (has_pairs n);
    repeat split.
Qed.

Lemma decode_options n m :
  len n.(n_data) <> 0 ->
  (decode n m).(n_name) = (if has_name n then n.(n_name) else m.(n_name))
  /\ (decode n m).(n_mime) = (if has_mime n then n.(n_mime) else m.(n_mime))
  /\ (decode n m).(n_last_modified)
     = (if has_last_modified_date n then n.(n_last_modified) else m.(n_last_modified))
  /\ (decode n m).(n_ttl) = (if has_ttl n then n.(n_ttl) else m.(n_ttl))
  /\ (decode n m).(n_pairs) = (if has_pairs n then n.(n_pairs) else m.(n_pairs)).
Proof.
  intros E. unfold decode, decode_body. rewrite (proj2 (Z.eqb_neq _ _)) by done.
  destruct (has_name n), (has_mime n), (has_last_modified_date n), (has_ttl n), (has_pairs n);
    repeat split.
Qed.

Lemma encode_decode n m : len n.(n_data) <> 0 -> encode (decode n m) = encode n.
Proof.
  intros E. destruct (decode_fields n m E) as (H1 & H2 & H3 & H4 & H5 & _).
  destruct (decode_options n m E) as (G1 & G2 & G3 & G4 & G5).
  assert (Hb : body (decode n m) = body n).
  { unfold body, enc_name, enc_mime, enc_last_modified, enc_ttl, enc_pairs.
    unfold has_name, has_mime, has_last_modified_date, has_ttl, has_pairs in *.
    rewrite H3, H4, G1, G2, G3, G4, G5. rewrite (proj2 (Z.eqb_neq _ _)) by done.
    repeat match goal with |- context [has_flag (n_flags n) ?x] => destruct (has_flag (n_flags n) x) end;
      reflexivity. }
  unfold encode. by rewrite H1, H2, H5, Hb.
Qed.

Lemma decode_wf n : needle_wf n -> len n.(n_data) <> 0 -> needle_wf (decode n needle_default).
Proof.
  intros [] E. destruct (decode_fields n needle_default E) as (H1 & H2 & H3 & H4 & H5 & _).
  destruct (decode_options n needle_default E) as (G1 & G2 & G3 & G4 & G5).
  split; rewrite ?H1, ?H2, ?H3, ?H4, ?H5, ?G1, ?G2, ?G3, ?G4, ?G5; try done.
  - destruct (has_name n); done.
  - destruct (has_mime n); done.
  - destruct (has_pairs n); done.
  - destruct (has_last_modified_date n); [done|]. vm_compute. split; congruence.
  - destruct (has_ttl n); [done|]. unfold Ttl.wf. vm_compute. split; congruence.
Qed.
End Scan.

(** ** The copy *)

(** The index entries of needles laid out from position [off]. *)
Fixpoint entries_from (off : Z) (ns : list needle) : list (Z * needle_value) :=
  match ns with
  | [] => []
  | n :: r => (n.(n_id), NeedleValue (Offset.from_u64 off) (len (body n)))
              :: entries_from (off + len (encode n)) r
  end.

Lemma entries_from_snoc off ns n :
  entries_from off (ns ++ [n])
  = entries_from off ns
    ++ [(n.(n_id), NeedleValue (Offset.from_u64 (off + len (encodes ns))) (len (body n)))].
Proof.
  revert off. induction ns as [|m ns IH]; intros off; simpl.
  - change (len (encodes [])) with 0. by rewrite Z.add_0_r.
  - rewrite IH, encodes_cons, len_app. by rewrite Z.add_assoc.
Qed.

Lemma entries_from_In off ns k nv :
  (k, nv) ∈ entries_from off ns <->
  exists a n b, ns = a ++ n :: b /\ n.(n_id) = k
    /\ nv = NeedleValue (Offset.from_u64 (off + len (encodes a))) (len (body n)).
Proof.
  revert off. induction ns as [|m ns IH]; intros off; simpl.
  - rewrite elem_of_nil. split; [done|]. intros (a & n & b & E & _). by destruct a.
  - rewrite elem_of_cons, IH. split.
    + intros [[= -> ->]|(a & n & b & -> & <- & ->)].
      * exists [], m, ns. change (len (encodes [])) with 0. by rewrite Z.add_0_r.
      * exists (m :: a), n, b. rewrite encodes_cons, len_app, Z.add_assoc. done.
    + intros (a & n & b & E & <- & ->). destruct a as [|x a]; simplify_eq/=.
      * left. change (len (encodes [])) with 0. by rewrite Z.add_0_r.
      * right. exists a, n, b. rewrite encodes_cons, len_app, Z.add_assoc. done.
Qed.

Section Copy.
Context (crc : list byte -> Z) (v : volume) (now : Z) (d cpd cpx : string) (sb' : super_block).
Context (f : file) (ns : list needle) (ix : gmap Z needle_value).
Context (Hget : forall k, get_index v k = Ok (ix !! k)) (Hver : version v = CURRENT_VERSION).
Context (Hd1 : cpd <> d) (Hd2 : cpx <> d) (Hd3 : cpd <> cpx).
Context (Hlog : Forall (loggable crc) ns) (Hbound : pos ns < 2 ^ 32).
Context (Hf : exists sbb, len sbb = SUPER_BLOCK_SIZE /\ f = sbb ++ encodes ns).
(* Every index entry points to a needle of the log. *)
Context (Hix : forall k nv, ix !! k = Some nv -> exists a n b,
  ns = a ++ n :: b /\ n.(n_id) = k /\ nv = NeedleValue (Offset.from_u64 (pos a)) (len (body n))).

(** The needle at [off] is copied. *)
Definition survives (off : Z) (n : needle) : bool :=
  negb (vacuum_expired now v.(v_super_block) (scanned crc n))
  && match ix !! n.(n_id) with
     | Some nv => (Offset.actual_offset nv.(nv_offset) =? off) && (0 <? nv.(nv_size))
     | None => false
     end.

Fixpoint survivors (off : Z) (l : list needle) : list needle :=
  match l with
  | [] => []
  | n :: r => (if survives off n then [n] else []) ++ survivors (off + len (encode n)) r
  end.

Record copy_inv (kept : list needle) (st : copy_state * fs) : Prop := {
  ci_pos : st.1.2 = pos kept;
  ci_file : fs_bytes st.2 d = Some f;
  ci_cpd : fs_bytes st.2 cpd = Some (SuperBlock.as_bytes sb' ++ encodes kept);
  ci_step : in_step st.1.1 st.2 cpx (entries_from SUPER_BLOCK_SIZE kept);
  ci_kept : Forall (fun n => loggable crc n /\ len n.(n_data) <> 0) kept;
}.

Lemma loggable_prefix a n b : ns = a ++ n :: b -> loggable crc n /\ Forall needle_wf a.
Proof.
  intros ->. apply Forall_app in Hlog as [H1 [H2 _]%Forall_cons]. split; [done|].
  eapply Forall_impl; [exact H1|]. by intros x [[? ?] ?].
Qed.

Lemma pos_prefix a n b : ns = a ++ n :: b -> pos a + len (encode n) <= pos ns.
Proof.
  intros ->. unfold pos. rewrite encodes_app, encodes_cons, !len_app.
  pose proof (len_nonneg (encodes b)). lia.
Qed.

(** A surviving needle has data. *)
Lemma survives_data a n b : ns = a ++ n :: b -> survives (pos a) n = true -> len n.(n_data) <> 0.
Proof.
  intros E [_ H]%andb_prop. destruct (ix !! n_id n) as [nv|] eqn:Ei; [|done].
  apply andb_prop in H as [H1 H2]. apply Z.eqb_eq in H1. apply Z.ltb_lt in H2.
  destruct (Hix _ _ Ei) as (a' & n' & b' & E' & _ & ->). cbn [nv_offset nv_size] in *.
  destruct (loggable_prefix a' n' b' E') as [_ Hwf'].
  pose proof (pos_prefix _ _ _ E'). pose proof (len_encode_pos n'). pose proof (pos_ge a').
  unfold SUPER_BLOCK_SIZE in *.
  rewrite Offset.actual_from in H1 by (lia || by apply pos_aligned).
  destruct (pos_inj a' a n' n b' b) as [-> ->]; [congruence|done|].
  intros E0. unfold body in H2. rewrite (proj2 (Z.eqb_eq _ _)) in H2 by done.
  change (len (@nil byte)) with 0 in H2. lia.
Qed.

Lemma scanned_id n : (scanned crc n).(n_id) = n.(n_id).
Proof.
  unfold scanned. destruct (Z.eqb_spec (len (n_data n)) 0) as [E|E]; [done|].
  by apply decode_fields.
Qed.

Lemma append_needle_at_aligned w : len w < 2 ^ 32 -> len w mod 8 = 0 -> append_needle_at w = len w.
Proof. intros _ H. unfold append_needle_at, NEEDLE_PADDING_SIZE. by rewrite H. Qed.

Lemma copy_needle_step kept n st :
  copy_inv kept st -> loggable crc n -> len n.(n_data) <> 0 -> pos kept + len (encode n) < 2 ^ 32 ->
  exists st' r,
    (let* s := mget in
     let* _ := on_nm (mapper_set None n.(n_id)
                        (NeedleValue (Offset.from_u64 s.1.2) (len (body n)))) in
     let* dst := read_file cpd in
     let* n' := append_copy cpd (decode n needle_default) (append_needle_at dst) (version v) dst in
     add_new_offset (disk_size n')) st = (st', Ok r)
    /\ copy_inv (kept ++ [n]) st'.
Proof.
  intros [Hp Hdf Hcpd Hs Hk] Hn Hd0 Hb. destruct st as [[nm off] s]. cbn [fst snd] in *. subst off.
  pose proof Hn as [[Hwf Hc] _]. pose proof (len_encode_pos n) as Hpos. pose proof (pos_ge kept) as Hge.
  pose proof (len_body_bound n Hwf) as Hbd. unfold SUPER_BLOCK_SIZE in Hge.
  assert (Hal : pos kept mod 8 = 0).
  { apply pos_aligned. eapply Forall_impl; [exact Hk|]. by intros x [[[? ?] ?] ?]. }
  set (nv := NeedleValue (Offset.from_u64 (pos kept)) (len (body n))).
  assert (Hnv : entry_wf (n_id n, nv)).
  { split; [apply Hwf|]. pose proof (Offset.from_u64_range (pos kept)).
    split; cbn [nv nv_offset nv_size fst snd]; [int_solve|by apply Size.valid_i32]. }
  assert (Ht : is_tombstone nv = false).
  { unfold is_tombstone. cbn [nv nv_offset nv_size]. rewrite Size.valid_not_deleted by done.
    rewrite (proj2 (Z.eqb_neq _ _)); [done|]. apply Offset.from_nonzero. lia. }
  destruct (mapper_set_in_step (n_id n) nv nm s cpx _ Hs Hnv Ht) as (nm' & s' & E & Hs' & Es').
  set (w := SuperBlock.as_bytes sb' ++ encodes kept).
  assert (Hw : len w = pos kept) by (unfold w; by rewrite len_app, SuperBlock.len_as_bytes).
  assert (Hcpd' : fs_bytes s' cpd = Some w) by (rewrite Es', fs_bytes_put_ne by done; done).
  pose proof (decode_wf n Hwf Hd0) as Hdw. pose proof (encode_decode n needle_default Hd0) as Hde.
  assert (Hlen : Size.actual_size (len (body (decode n needle_default))) = len (encode n))
    by (rewrite <- len_encode by done; by rewrite Hde).
  exists ((nm', pos kept + len (encode n)), fs_put cpd (w ++ encode n) s'), tt. split.
  - unfold mbind' at 1. unfold mget, on_nm, mbind'. cbn [fst snd]. fold nv. rewrite E.
    unfold read_file, mbind', mget, mlift. cbn [fst snd].
    rewrite (proj1 (fs_get_bytes _ _ _) Hcpd'). cbn [map_err]. rewrite Hver.
    rewrite append_needle_at_aligned by (rewrite Hw; lia || done).
    unfold append_copy, mbind'. rewrite append_ok by (done || lia).
    rewrite zeros_nonpos, Hde by lia.
    unfold mmodify, mlift, mret, add_new_offset. cbn [fst snd map_err].
    unfold disk_size. cbn [n_size with_sizes]. rewrite Hlen. unfold mmodify. cbn [fst snd app].
    rewrite u64_id by int_solve. done.
  - split; cbn [fst snd].
    + by rewrite pos_snoc.
    + rewrite fs_bytes_put_ne by done. rewrite Es', fs_bytes_put_ne by done. done.
    + rewrite fs_bytes_put_eq. unfold w. by rewrite encodes_snoc, <- app_assoc.
    + rewrite entries_from_snoc. fold (pos kept). destruct Hs'. split; try done.
      by rewrite fs_bytes_put_ne.
    + apply Forall_app. split; [done|]. by apply Forall_singleton.
Qed.

(** One visit. *)
Lemma copy_visit_spec a n b kept st :
  ns = a ++ n :: b -> copy_inv kept st -> pos kept <= pos a ->
  exists st', copy_visit v now cpd (scanned crc n) (pos a) st = (st', Ok tt)
              /\ copy_inv (kept ++ if survives (pos a) n then [n] else []) st'.
Proof.
  intros E Hinv Hle. destruct (loggable_prefix a n b E) as [Hn _].
  pose proof (pos_prefix a n b E) as Hpp. pose proof (survives_data a n b E) as Hsd.
  unfold copy_visit, survives in *.
  destruct (vacuum_expired now (v_super_block v) (scanned crc n)).
  { exists st. by rewrite app_nil_r. }
  unfold mbind' at 1, mlift. rewrite scanned_id, Hget. cbn [negb andb] in *.
  destruct (ix !! n_id n) as [nv|]; [|exists st; by rewrite app_nil_r].
  destruct (_ && _); [|exists st; by rewrite app_nil_r].
  specialize (Hsd eq_refl).
  destruct (copy_needle_step kept n st Hinv Hn Hsd) as (st' & [] & Es & Hi); [lia|].
  exists st'. split; [|done]. etrans; [|exact Es]. unfold scanned.
  rewrite (proj2 (Z.eqb_neq _ _)) by done.
  by destruct (decode_fields n needle_default Hsd) as (_ & _ & _ & _ & _ & ->).
Qed.

Lemma log_split a n b : ns = a ++ n :: b -> exists p, f = p ++ encode n ++ encodes b /\ len p = pos a.
Proof.
  intros ->. destruct Hf as (sbb & Hl & ->). exists (sbb ++ encodes a).
  rewrite encodes_app, encodes_cons, <- app_assoc, len_app, Hl. done.
Qed.

Lemma survivors_pos off l : len (encodes (survivors off l)) <= len (encodes l).
Proof.
  revert off. induction l as [|n l IH]; intros off; simpl; [done|].
  rewrite encodes_app, encodes_cons, !len_app. specialize (IH (off + len (encode n))).
  pose proof (len_nonneg (encode n)).
  destruct (survives off n); [rewrite (encodes_cons n []), len_app|];
    change (len (encodes [])) with 0; lia.
Qed.

Section Loop.
Context (vol : volume) (Hvol : forall s, fs_bytes s d = Some f -> data_file vol s = Ok (d, f)).
Context (Hvv : version vol = CURRENT_VERSION).

Lemma scan_body_spec a n b st :
  ns = a ++ n :: b -> fs_bytes st.2 d = Some f ->
  scan_body crc (X := copy_state) true vol (pos a) (header_of n) (rest_of n) st
  = (st, Ok (scanned crc n)).
Proof.
  intros E Hs. destruct (log_split a n b E) as (p & Hfp & Hlp).
  destruct (loggable_prefix a n b E) as [Hn _]. pose proof (pos_prefix a n b E).
  pose proof (pos_ge a). pose proof (len_encode_pos n). unfold SUPER_BLOCK_SIZE in *.
  unfold scan_body, mbind', mget, mlift. rewrite (Hvol _ Hs), Hvv. cbn [snd]. change CURRENT_VERSION with VERSION2.
  rewrite u64_id by (change NEEDLE_ENTRY_SIZE with 16; int_solve).
  destruct (read_body_at crc n p (encodes b) Hn) as [r Hr].
  rewrite <- Hfp, Hlp in Hr. by rewrite Hr.
Qed.

Lemma scan_next_spec a n b k st :
  ns = a ++ n :: b -> fs_bytes st.2 d = Some f ->
  scan_next (X := copy_state) vol (pos a) k st = k (header_of n) (rest_of n) st.
Proof.
  intros E Hs. destruct (log_split a n b E) as (p & Hfp & Hlp).
  destruct (loggable_prefix a n b E) as [[[Hwf _] _] _].
  unfold scan_next, mbind', mget, mlift. rewrite (Hvol _ Hs), Hvv. cbn [snd]. change CURRENT_VERSION with VERSION2.
  pose proof (read_header_at n p (encodes b) Hwf) as Hr. rewrite <- Hfp, Hlp in Hr. by rewrite Hr.
Qed.

Lemma scan_next_end k st :
  fs_bytes st.2 d = Some f -> scan_next (X := copy_state) vol (pos ns) k st = (st, Ok tt).
Proof.
  intros Hs. destruct Hf as (sbb & Hl & Hff).
  unfold scan_next, mbind', mget, mlift. rewrite (Hvol _ Hs), Hvv. cbn [snd]. change CURRENT_VERSION with VERSION2.
  rewrite read_header_eof; [done|]. rewrite Hff, len_app, Hl. fold (pos ns).
  change NEEDLE_ENTRY_SIZE with 16. lia.
Qed.

Lemma scan_loop_spec fuel b : forall a n kept st,
  ns = a ++ n :: b -> (length b < fuel)%nat -> copy_inv kept st -> pos kept <= pos a ->
  exists st', scan_loop crc true (copy_visit v now cpd) fuel vol (pos a) (header_of n) (rest_of n) st
              = (st', Ok tt)
              /\ copy_inv (kept ++ survivors (pos a) (n :: b)) st'.
Proof.
  revert b. induction fuel as [|fuel IH]; intros b a n kept st E Hfuel Hinv Hle; [lia|].
  pose proof (pos_prefix a n b E). pose proof (pos_ge a). pose proof (len_encode_pos n).
  unfold SUPER_BLOCK_SIZE in *.
  cbn [scan_loop]. unfold mbind'. rewrite (scan_body_spec a n b) by (done || apply Hinv).
  destruct (copy_visit_spec a n b kept st E Hinv Hle) as (st1 & -> & Hinv1).
  assert (u64 (pos a + u32 (NEEDLE_ENTRY_SIZE + rest_of n)) = pos (a ++ [n])) as ->.
  { rewrite pos_snoc. unfold rest_of.
    replace (NEEDLE_ENTRY_SIZE + (len (encode n) - NEEDLE_ENTRY_SIZE)) with (len (encode n)) by lia.
    int_solve. }
  cbv zeta. cbn [survivors]. set (kept1 := kept ++ if survives (pos a) n then [n] else []) in *.
  assert (Hle1 : pos kept1 <= pos (a ++ [n])).
  { unfold kept1. rewrite pos_snoc. destruct (survives (pos a) n); rewrite ?pos_snoc, ?app_nil_r; lia. }
  rewrite app_assoc. fold kept1. rewrite <- pos_snoc. destruct b as [|n2 b].
  - exists st1. rewrite <- E, scan_next_end, app_nil_r by apply Hinv1. done.
  - assert (E2 : ns = (a ++ [n]) ++ n2 :: b) by (rewrite <- app_assoc; done).
    rewrite (scan_next_spec (a ++ [n]) n2 b) by (done || apply Hinv1).
    apply IH; try done. simpl in Hfuel. lia.
Qed.
End Loop.

(** ** What the copy keeps *)

Lemma survivors_app off a b :
  survivors off (a ++ b) = survivors off a ++ survivors (off + len (encodes a)) b.
Proof.
  revert off. induction a as [|n a IH]; intros off; simpl.
  - change (len (encodes [])) with 0. by rewrite Z.add_0_r.
  - rewrite IH, encodes_cons, len_app, <- app_assoc, Z.add_assoc. done.
Qed.

Lemma survivors_In off l m :
  m ∈ survivors off l -> exists off', off <= off' /\ survives off' m = true /\ m ∈ l.
Proof.
  revert off. induction l as [|n l IH]; intros off; simpl; [by rewrite elem_of_nil|].
  rewrite elem_of_app. intros [H|H].
  - destruct (survives off n) eqn:E; [|by apply elem_of_nil in H].
    apply list_elem_of_singleton in H as ->. exists off. split; [lia|]. split; [done|left].
  - destruct (IH _ H) as (off' & H1 & H2 & H3). pose proof (len_encode_pos n).
    exists off'. split; [lia|]. split; [done|by right].
Qed.

Lemma survives_pos off off' n m :
  n.(n_id) = m.(n_id) -> survives off n = true -> survives off' m = true -> off = off'.
Proof.
  unfold survives. intros E [_ H1]%andb_prop [_ H2]%andb_prop. rewrite E in H1.
  destruct (ix !! n_id m) as [nv|]; [|done].
  apply andb_prop in H1 as [H1 _]. apply andb_prop in H2 as [H2 _].
  apply Z.eqb_eq in H1, H2. congruence.
Qed.

Lemma survivors_NoDup off l : NoDup (map n_id (survivors off l)).
Proof.
  revert off. induction l as [|n l IH]; intros off; simpl; [constructor|].
  destruct (survives off n) eqn:E; [|apply IH].
  cbn [app map]. apply NoDup_cons. split; [|apply IH].
  intros (m & Hid & Hm)%list_elem_of_fmap.
  destruct (survivors_In _ _ _ Hm) as (off' & Ho & Hs & _). pose proof (len_encode_pos n).
  pose proof (survives_pos off off' n m Hid E Hs). lia.
Qed.

Definition compacted : list needle := survivors SUPER_BLOCK_SIZE ns.

Lemma compacted_intro a n b : ns = a ++ n :: b -> survives (pos a) n = true -> n ∈ compacted.
Proof.
  intros E Hs. unfold compacted. rewrite E, survivors_app. cbn [survivors]. fold (pos a). rewrite Hs.
  rewrite !elem_of_app. right. left. by apply list_elem_of_singleton.
Qed.

Lemma survivors_elim pre l m :
  m ∈ survivors (pos pre) l ->
  exists a b, pre ++ l = a ++ m :: b /\ survives (pos a) m = true.
Proof.
  revert pre. induction l as [|n l IH]; intros pre; simpl; [by rewrite elem_of_nil|].
  rewrite elem_of_app. intros [H|H].
  - destruct (survives (pos pre) n) eqn:E; [|by apply elem_of_nil in H].
    apply list_elem_of_singleton in H as ->. by exists pre, l.
  - rewrite <- pos_snoc in H. destruct (IH _ H) as (a & b & E & Hs).
    exists a, b. by rewrite <- app_assoc in E.
Qed.

Lemma compacted_elim m : m ∈ compacted -> exists a b, ns = a ++ m :: b /\ survives (pos a) m = true.
Proof. apply (survivors_elim []). Qed.

Lemma entries_from_keys off l : map fst (entries_from off l) = map n_id l.
Proof. revert off. induction l as [|n l IH]; intros off; simpl; [done|]. by rewrite IH. Qed.

Lemma compacted_wf : Forall (loggable crc) compacted.
Proof.
  apply Forall_forall. intros n Hn. apply survivors_In in Hn as (_ & _ & _ & Hn).
  by eapply Forall_forall in Hlog.
Qed.

Lemma compacted_bound : pos compacted <= pos ns.
Proof. unfold pos, compacted. pose proof (survivors_pos SUPER_BLOCK_SIZE ns). lia. Qed.
End Copy.

(** Replaying distinct live entries gives back the entries. *)
Lemma replay_NoDup es k nv :
  NoDup (map fst es) -> Forall (fun e => is_tombstone e.2 = false) es ->
  (replay es !! k = Some nv <-> (k, nv) ∈ es).
Proof.
  induction es as [|[j w] es IH] using rev_ind; intros Hn Ht.
  - rewrite elem_of_nil. unfold replay. simpl. by rewrite lookup_empty.
  - rewrite map_app in Hn. apply NoDup_app in Hn as (Hn1 & Hn2 & _).
    apply Forall_app in Ht as [Ht1 Ht2]. rewrite Forall_singleton in Ht2. cbn [snd] in Ht2.
    rewrite replay_snoc. unfold apply_entry. cbn [fst snd]. rewrite Ht2.
    rewrite elem_of_app, list_elem_of_singleton, <- IH by done.
    destruct (decide (j = k)) as [->|Hne].
    + rewrite lookup_insert_eq. split; [intros [= ->]; by right|].
      intros [H|[= ->]]; [|done]. apply IH in H; [|done..].
      exfalso. apply (Hn2 k); [|by left].
      apply list_elem_of_fmap. by exists (k, nv).
    + rewrite lookup_insert_ne by done. split; [by left|]. intros [H|[= -> ->]]; done.
Qed.

(** ** [compact] *)

Lemma load_without_index_spec crc mtime dir coll id s f sb q :
  let v0 := Volume id dir coll None None super_block_default false false false 0 0 0 in
  fs_bytes s (data_filename v0) = Some f -> f = SuperBlock.as_bytes sb ++ q -> SuperBlock.wf sb ->
  exists vol, load_volume_without_index crc mtime dir coll id s = (s, Ok vol)
    /\ vol.(v_data_file) = Some (data_filename v0) /\ vol.(v_super_block) = sb.
Proof.
  intros v0 Hs -> Hwf. unfold load_volume_without_index. fold v0.
  set (d := data_filename v0) in *.
  assert (exists ro, s !! d = Some (FNode (SuperBlock.as_bytes sb ++ q) ro)) as [ro Hd].
  { unfold fs_bytes in Hs. destruct (s !! d) as [[b ro]|]; [|done]. simplify_eq/=. by exists ro. }
  exists (with_super_block sb (with_data_file (Some d)
    (if ro then set_no_write_or_delete true v0 else Volume.set_last_modified mtime v0))).
  split; [|done].
  unfold load, get_volume, mbind', mget, mret, mlift, mmodify. cbn [fst snd v_data_file v0].
  fold v0. fold d. rewrite Hd. cbn [fst snd]. rewrite Hd. cbn [unwrap f_readonly f_bytes].
  rewrite len_app, SuperBlock.len_as_bytes. pose proof (len_nonneg q).
  rewrite (proj2 (Z.leb_le _ _)) by (unfold SUPER_BLOCK_SIZE; lia).
  pose proof (read_exact_at_app [] (SuperBlock.as_bytes sb) q) as Hrd.
  rewrite SuperBlock.len_as_bytes in Hrd. rewrite app_nil_l in Hrd. change (len (@nil byte)) with 0 in Hrd.
  unfold on_volume, mmodify, read_super_block, data_file, fs_get.
  destruct ro; cbn [fst snd v_data_file with_data_file]; rewrite Hd;
    cbn [f_bytes map_err obind fst snd]; rewrite Hrd; cbn [map_err obind];
    rewrite SuperBlock.parse_as_bytes by done; done.
Qed.

Section Compact.
Context (crc : list byte -> Z).

(** A volume whose data file is a super block and a log of needles, the index
    pointing into the log. *)
Record vol_log (v : volume) (s : fs) (f : file) (nm : needle_mapper memory_map)
    (ix : gmap Z needle_value) (A : gmap Z needle) (sb : super_block) (ns : list needle) : Prop := {
  vl_at : vol_at crc v.(v_id) (data_filename v) (index_filename v) v s f nm ix A;
  vl_file : f = SuperBlock.as_bytes sb ++ encodes ns;
  vl_sb : SuperBlock.wf sb /\ sb.(sb_version) = CURRENT_VERSION;
  vl_log : Forall (loggable crc) ns;
  vl_ptr : forall k n, A !! k = Some n -> exists a b, ns = a ++ n :: b
             /\ ix !! k = Some (NeedleValue (Offset.from_u64 (pos a)) (len (body n)));
}.

(** The map a compaction keeps: needles with data that are not expired. *)
Definition keep (now : Z) (sb : super_block) (n : needle) : bool :=
  negb (vacuum_expired now sb (scanned crc n)) && negb (len n.(n_data) =? 0).

Definition kept_map (now : Z) (sb : super_block) (A : gmap Z needle) : gmap Z needle :=
  filter (fun kn => keep now sb kn.2 = true) A.

Lemma vol_log_ptr v s f nm ix A sb ns :
  vol_log v s f nm ix A sb ns ->
  forall k nv, ix !! k = Some nv -> exists a n b,
    ns = a ++ n :: b /\ n.(n_id) = k /\ nv = NeedleValue (Offset.from_u64 (pos a)) (len (body n))
    /\ A !! k = Some n.
Proof.
  intros [Ha Hf Hs Hl Hp] k nv Hk. destruct (A !! k) as [n|] eqn:EA.
  - destruct (Hp k n EA) as (a & b & E & Hk'). destruct Ha as [].
    destruct (at_stored k n EA) as (nv' & _ & _ & Hid & _).
    exists a, n, b. split; [done|]. split; [done|]. split; [congruence|done].
  - destruct Ha. rewrite at_dom in Hk by done. done.
Qed.

Lemma compact_names v :
  compact_data_filename v <> data_filename v /\ compact_index_filename v <> data_filename v
  /\ compact_data_filename v <> compact_index_filename v
  /\ compact_data_filename v <> index_filename v /\ compact_index_filename v <> index_filename v.
Proof.
  unfold compact_data_filename, compact_index_filename, data_filename, index_filename.
  generalize (filename v). intros x.
  assert (forall a b : string, (x ++ a)%string = (x ++ b)%string -> a = b) as Hinj.
  { induction x as [|c x IH]; intros a b E; [done|]. apply IH. by injection E. }
  repeat split; intros E%Hinj; discriminate E.
Qed.

Lemma begin_compact_spec v s f nm ix A sb ns :
  vol_log v s f nm ix A sb ns ->
  exists z r, begin_compact (v, s) = ((set_is_compacting true (set_last_compact z r v), s), Ok tt).
Proof.
  intros [[] _ _ _ _]. destruct at_index_file as [g Hg].
  exists (len g), (sb_compact_revision (v_super_block v)).
  unfold begin_compact, mbind', mget, mlift, volume_index_file_size, index_file_size. cbn [fst snd].
  rewrite at_mapper, at_index, (proj1 (fs_get_bytes _ _ _) Hg). done.
Qed.

(** Up to the first needle, [copy_data_and_generate_index_file] has created both
    files and written the new super block. *)
Lemma copy_start fuel mtime now v s f sb q :
  let d := data_filename v in
  let cpd := compact_data_filename v in
  let cpx := compact_index_filename v in
  fs_bytes s d = Some f -> f = SuperBlock.as_bytes sb ++ q ->
  SuperBlock.wf sb -> sb.(sb_version) = CURRENT_VERSION ->
  exists vol st,
    copy_data_and_generate_index_file crc fuel mtime now v cpd cpx s
    = match read_needle_header f VERSION2 SUPER_BLOCK_SIZE with
      | Ok nr => let '((_, s'), r) := scan_loop crc true (copy_visit v now cpd) fuel vol
                                        SUPER_BLOCK_SIZE nr.1 nr.2 st in (s', r)
      | Err e => (st.2, Err (VNeedle e))
      | Panic => (st.2, Panic)
      end
    /\ copy_inv crc d cpd cpx (SuperBlock.add_compact_revision 1 sb) f [] st
    /\ (forall x, fs_bytes x d = Some f -> data_file vol x = Ok (d, f))
    /\ version vol = CURRENT_VERSION.
Proof.
  intros d cpd cpx Hd Hf Hsb Hsv. destruct (compact_names v) as (N1 & N2 & N3 & _).
  set (s0 := fs_create cpx (fs_create cpd s)).
  assert (Hd0 : fs_bytes s0 d = Some f) by (unfold s0, fs_create; by rewrite !fs_bytes_put_ne by done).
  assert (Hc0 : fs_bytes s0 cpd = Some []).
  { unfold s0, fs_create. rewrite fs_bytes_put_ne by done. apply fs_bytes_put_eq. }
  destruct (load_index_empty (v_id v) s0 cpx) as (nm0 & E0 & Hi0 & Hr0 & _); [apply fs_bytes_put_eq|].
  destruct (load_without_index_spec crc mtime (v_dir v) (v_collection v) (v_id v) s0 f sb
    q Hd0 Hf Hsb) as (vol & El & Hvd & Hvs).
  assert (Hvol : forall x, fs_bytes x d = Some f -> data_file vol x = Ok (d, f)).
  { intros x Hx. unfold data_file. rewrite Hvd. change (data_filename _) with d.
    by rewrite (proj1 (fs_get_bytes _ _ _) Hx). }
  assert (Hvv : version vol = CURRENT_VERSION) by (unfold version; congruence).
  set (sb' := SuperBlock.add_compact_revision 1 sb). set (s1 := fs_put cpd (SuperBlock.as_bytes sb') s0).
  exists vol, ((nm0, SUPER_BLOCK_SIZE), s1). split; [|split; [|done]].
  - unfold copy_data_and_generate_index_file. fold s0. rewrite E0. unfold scan_volume_file.
    cbn [fst snd]. rewrite El.
    unfold copy_visit_super_block, read_file, write_file, mmodify, mbind', mget, mlift.
    cbn [fst snd]. rewrite Hvs, (proj1 (fs_get_bytes _ _ _) Hc0). cbn [map_err fst snd].
    rewrite pwrite_append by done. rewrite app_nil_l. change (zeros (0 - len [])) with (@nil byte).
    rewrite app_nil_l. fold sb'. fold s1. cbn [fst snd].
    rewrite Hvol by (unfold s1; by rewrite fs_bytes_put_ne). rewrite Hvv. cbn [fst snd].
    change CURRENT_VERSION with VERSION2.
    destruct (read_needle_header f VERSION2 SUPER_BLOCK_SIZE) as [nr|e|]; cbn [map_err]; done.
  - split; cbn [fst snd]; [reflexivity| | | |constructor]; unfold s1.
    + by rewrite fs_bytes_put_ne.
    + rewrite fs_bytes_put_eq. by rewrite app_nil_r.
    + split; [done| |constructor|done]. rewrite fs_bytes_put_ne by done. apply fs_bytes_put_eq.
Qed.

Lemma copy_data_spec fuel mtime now v s f nm ix A sb ns n0 ns0 :
  vol_log v s f nm ix A sb ns -> ns = n0 :: ns0 -> (length ns0 < fuel)%nat -> pos ns < 2 ^ 32 ->
  exists s' w,
    copy_data_and_generate_index_file crc fuel mtime now v
      (compact_data_filename v) (compact_index_filename v) s = (s', Ok tt)
    /\ w = compacted crc v now ns ix
    /\ fs_bytes s' (compact_data_filename v)
       = Some (SuperBlock.as_bytes (SuperBlock.add_compact_revision 1 sb) ++ encodes w)
    /\ fs_bytes s' (compact_index_filename v) = Some (entries_bytes (entries_from SUPER_BLOCK_SIZE w))
    /\ Forall entry_wf (entries_from SUPER_BLOCK_SIZE w)
    /\ Forall (fun n => loggable crc n /\ len n.(n_data) <> 0) w
    /\ fs_bytes s' (data_filename v) = Some f.
Proof.
  intros Hv Ens Hfuel Hb. destruct (compact_names v) as (N1 & N2 & N3 & _).
  pose proof Hv as [Ha Hf [Hsb Hsv] Hl Hp].
  assert (Hn0 : loggable crc n0) by (rewrite Ens in Hl; by inversion Hl).
  destruct (copy_start fuel mtime now v s f sb (encodes ns) (at_file _ _ _ _ _ _ _ _ _ _ Ha)
    Hf Hsb Hsv) as (vol & st & E & Hinv & Hvol & Hvv).
  pose proof (read_header_at n0 (SuperBlock.as_bytes sb) (encodes ns0) (proj1 (proj1 Hn0))) as Hr.
  rewrite <- encodes_cons, <- Ens, <- Hf, SuperBlock.len_as_bytes in Hr. rewrite Hr in E.
  cbn [fst snd] in E.
  assert (Hget : forall k, get_index v k = Ok (ix !! k)) by (intros k; by eapply get_index_ok).
  assert (Hff : exists sbb, len sbb = SUPER_BLOCK_SIZE /\ f = sbb ++ encodes ns)
    by (by exists (SuperBlock.as_bytes sb)).
  assert (Hix : forall k nv, ix !! k = Some nv -> exists a n b,
    ns = a ++ n :: b /\ n.(n_id) = k /\ nv = NeedleValue (Offset.from_u64 (pos a)) (len (body n))).
  { intros k nv Hk. destruct (vol_log_ptr _ _ _ _ _ _ _ _ Hv k nv Hk) as (a & n & b & ? & ? & ? & _).
    by exists a, n, b. }
  destruct (scan_loop_spec crc v now _ _ _ _ f ns ix Hget (at_version _ _ _ _ _ _ _ _ _ _ Ha)
    N1 N2 N3 Hl Hb Hff Hix vol Hvol Hvv fuel ns0 [] n0 [] st Ens Hfuel Hinv)
    as ([[nm' off'] s'] & Es & [_ H2 H3 [_ H5 H6 _] H7]); [reflexivity|].
  cbn [fst snd app] in *. change (pos []) with SUPER_BLOCK_SIZE in *. rewrite <- Ens in *.
  exists s', (compacted crc v now ns ix). rewrite E, Es. done.
Qed.

Lemma body_nonempty n : len n.(n_data) <> 0 -> 0 < len (body n).
Proof.
  intros E. unfold body. rewrite (proj2 (Z.eqb_neq _ _)) by done. rewrite len_app, len_put_u32.
  match goal with |- 0 < 4 + len ?l => pose proof (len_nonneg l) end. lia.
Qed.

(** The needles of the compacted log are those of the map that are kept. *)
Lemma compacted_map now v s f nm ix A sb ns :
  vol_log v s f nm ix A sb ns -> pos ns < 2 ^ 32 ->
  Forall (fun n => loggable crc n /\ len n.(n_data) <> 0) (compacted crc v now ns ix) ->
  forall k n, kept_map now v.(v_super_block) A !! k = Some n
              <-> n ∈ compacted crc v now ns ix /\ n.(n_id) = k.
Proof.
  intros Hv Hb Hk k n. unfold kept_map. rewrite map_lookup_filter_Some. cbn [snd]. unfold keep.
  assert (Hpos : forall a m b, ns = a ++ m :: b ->
    Offset.actual_offset (Offset.from_u64 (pos a)) = pos a).
  { intros a m b E. apply Offset.actual_from.
    - pose proof (pos_ge a). unfold SUPER_BLOCK_SIZE in *. split; [lia|].
      rewrite E in Hb. unfold pos in *. rewrite encodes_app, len_app in Hb.
      pose proof (len_nonneg (encodes (m :: b))). lia.
    - apply pos_aligned. pose proof (vl_log _ _ _ _ _ _ _ _ Hv) as Hl. rewrite E in Hl.
      apply Forall_app in Hl as [Hl _]. eapply Forall_impl; [exact Hl|]. by intros x [[? ?] ?]. }
  split.
  - intros [HA [Hx Hd%negb_true_iff%Z.eqb_neq]%andb_prop].
    destruct (vl_ptr _ _ _ _ _ _ _ _ Hv k n HA) as (a & b & E & Hi).
    destruct (at_stored _ _ _ _ _ _ _ _ _ _ (vl_at _ _ _ _ _ _ _ _ Hv) k n HA) as (_ & _ & _ & Hid & _).
    split; [|done]. apply (compacted_intro crc v now ns ix a n b E). unfold survives. rewrite Hx, Hid, Hi.
    cbn [nv_offset nv_size]. rewrite (Hpos a n b E), Z.eqb_refl. cbn [andb].
    apply Z.ltb_lt. by apply body_nonempty.
  - intros [Hn <-]. pose proof Hk as Hk'. eapply Forall_forall in Hk' as [_ Hd]; [|exact Hn].
    destruct (compacted_elim crc v now ns ix n Hn) as (a & b & E & Hs).
    unfold survives in Hs. apply andb_prop in Hs as [Hx Hs].
    destruct (ix !! n_id n) as [nv|] eqn:Ei; [|done]. apply andb_prop in Hs as [Hs _].
    destruct (vol_log_ptr _ _ _ _ _ _ _ _ Hv _ _ Ei) as (a' & n' & b' & E' & _ & -> & HA).
    cbn [nv_offset] in Hs. apply Z.eqb_eq in Hs. rewrite (Hpos _ _ _ E') in Hs.
    destruct (pos_inj a' a n' n b' b) as [-> ->]; [congruence|done|].
    rewrite Hx, (proj2 (Z.eqb_neq _ _)) by done. done.
Qed.

Lemma entries_live w :
  Forall (fun n => loggable crc n /\ len n.(n_data) <> 0) w -> pos w < 2 ^ 32 ->
  Forall (fun e => is_tombstone e.2 = false) (entries_from SUPER_BLOCK_SIZE w).
Proof.
  intros Hw Hb. apply Forall_forall. intros [k nv] (a & n & b & E & _ & ->)%entries_from_In.
  cbn [snd]. fold (pos a). subst w. apply Forall_app in Hw as [_ [[[[Hwf _] _] _] _]%Forall_cons].
  unfold is_tombstone. cbn [nv_offset nv_size].
  rewrite Size.valid_not_deleted by (by apply len_body_bound).
  rewrite (proj2 (Z.eqb_neq _ _)); [done|]. apply Offset.from_nonzero.
  pose proof (pos_ge a). unfold SUPER_BLOCK_SIZE in *. split; [lia|].
  unfold pos in Hb |- *. rewrite encodes_app, len_app in Hb.
  pose proof (len_nonneg (encodes (n :: b))). lia.
Qed.

(** The compacted files represent the kept map. *)
Lemma compacted_represents now v s f nm ix A sb ns sb' :
  vol_log v s f nm ix A sb ns -> pos ns < 2 ^ 32 ->
  let w := compacted crc v now ns ix in
  Forall (fun n => loggable crc n /\ len n.(n_data) <> 0) w ->
  forall k, match kept_map now v.(v_super_block) A !! k with
            | Some n => exists nv, replay (entries_from SUPER_BLOCK_SIZE w) !! k = Some nv
                          /\ stored crc (SuperBlock.as_bytes sb' ++ encodes w) k n nv
            | None => replay (entries_from SUPER_BLOCK_SIZE w) !! k = None
            end.
Proof.
  intros Hv Hb w Hw k. pose proof (compacted_bound crc v now ns ix) as Hcb. fold w in Hcb.
  assert (Hrep : forall j nv, replay (entries_from SUPER_BLOCK_SIZE w) !! j = Some nv
                              <-> (j, nv) ∈ entries_from SUPER_BLOCK_SIZE w).
  { intros j nv. apply replay_NoDup; [|apply entries_live; [done|lia]].
    rewrite entries_from_keys. apply survivors_NoDup. }
  pose proof (compacted_map now v s f nm ix A sb ns Hv Hb Hw) as Hm. fold w in Hm.
  destruct (kept_map now (v_super_block v) A !! k) as [n|] eqn:EA.
  - apply Hm in EA as [Hn Hid]. apply list_elem_of_split in Hn as (a & b & Ew).
    exists (NeedleValue (Offset.from_u64 (pos a)) (len (body n))). split.
    + apply Hrep, entries_from_In. by exists a, n, b.
    + rewrite Ew in Hw, Hcb. apply Forall_app in Hw as [Ha [[[Hst _] _] _]%Forall_cons].
      split; [done|]. split; [done|]. exists (SuperBlock.as_bytes sb' ++ encodes a), (encodes b).
      rewrite Ew, encodes_app, encodes_cons, len_app, SuperBlock.len_as_bytes. fold (pos a).
      rewrite <- app_assoc. split; [done|]. pose proof (pos_ge a). unfold SUPER_BLOCK_SIZE in *.
      unfold pos in Hcb. rewrite encodes_app, len_app in Hcb. fold (pos a) in Hcb.
      pose proof (len_nonneg (encodes (n :: b))). split; [split; [lia|]|split; [|done]].
      * unfold pos in *. lia.
      * apply pos_aligned. eapply Forall_impl; [exact Ha|]. by intros x [[[? ?] ?] ?].
  - destruct (replay _ !! k) as [nv|] eqn:Er; [|done]. exfalso.
    apply Hrep, entries_from_In in Er as (a & n & b & Ew & Hid & _).
    assert (kept_map now (v_super_block v) A !! k = Some n) as E; [|congruence].
    apply Hm. split; [|done]. rewrite Ew, elem_of_app, elem_of_cons. auto.
Qed.

Lemma compact_spec fuel mtime now v s f nm ix A sb ns :
  vol_log v s f nm ix A sb ns -> ns <> [] -> (length ns <= fuel)%nat -> pos ns < 2 ^ 32 ->
  exists v' s' f' es,
    compact crc fuel mtime now (v, s) = ((v', s'), Ok tt)
    /\ identity v' = identity v /\ v'.(v_is_compacting) = false
    /\ fs_bytes s' (data_filename v) = Some f
    /\ fs_bytes s' (compact_data_filename v) = Some f' /\ len f' <= len f
    /\ fs_bytes s' (compact_index_filename v) = Some (entries_bytes es) /\ Forall entry_wf es
    /\ forall k, match kept_map now v.(v_super_block) A !! k with
                 | Some n => exists nv, replay es !! k = Some nv /\ stored crc f' k n nv
                 | None => replay es !! k = None
                 end.
Proof.
  intros Hv Hne Hfuel Hb. destruct ns as [|n0 ns0]; [done|].
  destruct (begin_compact_spec _ _ _ _ _ _ _ _ Hv) as (z & r & Eb).
  set (v1 := set_is_compacting true (set_last_compact z r v)) in *.
  assert (Hv1 : vol_log v1 s f nm ix A sb (n0 :: ns0)) by (destruct Hv as [[] ? ? ? ?]; split; done).
  destruct (copy_data_spec fuel mtime now v1 s f nm ix A sb _ n0 ns0 Hv1 eq_refl)
    as (s' & w & E & -> & H1 & H2 & H3 & H4 & H5); [simpl in Hfuel; lia|done|].
  set (w := compacted crc v1 now (n0 :: ns0) ix) in *.
  eexists (set_is_compacting false v1), s', _, _.
  split; [|split; [done|split; [done|split; [exact H5|split; [exact H1|split; [|split; [exact H2|split; [exact H3|]]]]]]]].
  - unfold compact, mbind'. rewrite Eb. unfold get_volume, mbind', mget, mret. cbn [fst snd].
    rewrite E. done.
  - rewrite (vl_file _ _ _ _ _ _ _ _ Hv), !len_app, !SuperBlock.len_as_bytes.
    pose proof (compacted_bound crc v1 now (n0 :: ns0) ix). unfold pos in *. fold w in H. lia.
  - by apply (compacted_represents now v1 s f nm ix A sb (n0 :: ns0)).
Qed.

(** ** Fault-free operations keep the log *)

Definition log_op (o : op) : Prop :=
  match o with
  | OpWrite None None n | OpDelete None None n => loggable crc n
  | OpRead _ m => m.(n_data) = []
  | _ => False
  end.

(** The needles an operation appends. *)
Definition op_log (o : op) (A : gmap Z needle) : list needle :=
  match o with
  | OpWrite _ _ n => [n]
  | OpDelete _ _ n => match A !! n.(n_id) with Some _ => [n] | None => [] end
  | OpRead _ _ => []
  end.

Fixpoint log_of (vid : Z) (os : list op) (A : gmap Z needle) : list needle :=
  match os with
  | [] => []
  | o :: os' => op_log o A ++ log_of vid os' (spec_exec vid o A).1
  end.

Lemma identity_names v v' :
  identity v' = identity v ->
  v'.(v_id) = v.(v_id) /\ v'.(v_super_block) = v.(v_super_block)
  /\ data_filename v' = data_filename v /\ index_filename v' = index_filename v.
Proof. intros [= E1 E2 E3 E4]. unfold data_filename, index_filename, filename. by rewrite E1, E2, E3, E4. Qed.

Lemma appended_log sb ns n :
  Forall (loggable crc) ns -> pos ns < 2 ^ 32 ->
  let f := SuperBlock.as_bytes sb ++ encodes ns in
  append_needle_at f = pos ns /\ appended f n = SuperBlock.as_bytes sb ++ encodes (ns ++ [n]).
Proof.
  intros Hl Hb f.
  assert (Hlen : len f = pos ns) by (unfold f; by rewrite len_app, SuperBlock.len_as_bytes).
  assert (Hal : append_needle_at f = len f).
  { apply append_needle_at_aligned; rewrite Hlen; [done|]. apply pos_aligned.
    eapply Forall_impl; [exact Hl|]. by intros x [[? ?] ?]. }
  split; [congruence|]. unfold appended. rewrite Hal, zeros_nonpos by lia.
  unfold f. by rewrite encodes_snoc, <- app_assoc.
Qed.

(** The index after an operation, and what is appended to the index file. *)
Definition op_index (o : op) (ns : list needle) (ix : gmap Z needle_value) : gmap Z needle_value * list (Z * needle_value) :=
  match o with
  | OpWrite _ _ n =>
      let nv := NeedleValue (Offset.from_u64 (pos ns)) (len (body n)) in
      (<[n.(n_id) := nv]> ix, [(n.(n_id), nv)])
  | OpDelete _ _ n =>
      match ix !! n.(n_id) with
      | Some nv => (delete n.(n_id) ix, [(n.(n_id), nv)])
      | None => (ix, [])
      end
  | OpRead _ _ => (ix, [])
  end.

Lemma entries_bytes_one k v : entries_bytes [(k, v)] = as_bytes v k.
Proof. unfold entries_bytes. cbn [map concat fst snd]. apply app_nil_r. Qed.

Lemma exec_log o v s f nm ix A sb ns :
  vol_log v s f nm ix A sb ns -> log_op o -> pos ns + op_cost o + 8 < 2 ^ 32 ->
  exists v' s' f' nm' ix',
    exec crc o (v, s) = ((v', s'), (spec_exec v.(v_id) o A).2)
    /\ identity v' = identity v
    /\ vol_log v' s' f' nm' ix' (spec_exec v.(v_id) o A).1 sb (ns ++ op_log o A)
    /\ ix' = (op_index o ns ix).1
    /\ forall h, fs_bytes s (index_filename v) = Some h ->
         fs_bytes s' (index_filename v) = Some (h ++ entries_bytes (op_index o ns ix).2).
Proof.
  intros [Ha Hf Hsb Hl Hp] Ho Hb.
  assert (Hlen : len f = pos ns) by (rewrite Hf; by rewrite len_app, SuperBlock.len_as_bytes).
  pose proof (op_cost_nonneg o). destruct o as [[|] [|] n|[|] [|] n|now m]; try done; simpl in Ho |- *.
  - destruct (write_sim crc _ _ _ _ _ _ _ _ _ None None n Ha (proj1 Ho)) as
      (v' & s' & f' & nm' & ix' & E & H1 & _ & Hid & Hx); [lia|].
    destruct (Hx eq_refl) as (-> & -> & Hi). clear Hx. destruct (identity_names v v' Hid) as (I1 & I2 & I3 & I4).
    destruct (appended_log sb ns n Hl) as [Hat Happ]; [lia|]. rewrite <- Hf in Hat, Happ. rewrite Hat in *.
    exists v', s', (appended f n), nm', (<[n_id n := NeedleValue (Offset.from_u64 (pos ns)) (len (body n))]> ix).
    split; [done|]. split; [done|]. split.
    + split; [by rewrite I1, I3, I4|done|done| |].
      * apply Forall_app. split; [done|]. by apply Forall_singleton.
      * intros k m. cbn [spec_write fst]. destruct (decide (n_id n = k)) as [<-|Hne].
        -- rewrite !lookup_insert_eq. intros [= <-]. by exists ns, [].
        -- rewrite !lookup_insert_ne by done. intros Hk. destruct (Hp k m Hk) as (a & b & -> & Hi').
           exists a, (b ++ [n]). by rewrite <- app_assoc.
    + split; [done|]. intros h Hh. cbn [op_index snd]. rewrite entries_bytes_one. by apply Hi.
  - destruct (delete_sim crc _ _ _ _ _ _ _ _ _ None None n Ha (proj1 (proj1 Ho))) as
      (v' & s' & f' & nm' & ix' & E & H1 & _ & Hid & Hx); [lia|].
    specialize (Hx eq_refl). destruct (identity_names v v' Hid) as (I1 & I2 & I3 & I4).
    exists v', s', f', nm', ix'. split; [done|]. split; [done|]. unfold spec_delete in *.
    destruct (A !! n_id n) as [n0|] eqn:EA; destruct Hx as (-> & -> & Hi).
    + destruct (appended_log sb ns n Hl) as [_ Happ]; [lia|]. rewrite <- Hf in Happ. split.
      * split; [by rewrite I1, I3, I4|done|done| |].
        -- apply Forall_app. split; [done|]. by apply Forall_singleton.
        -- cbn [fst]. intros k m [Hne Hk]%lookup_delete_Some. rewrite lookup_delete_ne by done.
           destruct (Hp k m Hk) as (a & b & -> & Hi'). exists a, (b ++ [n]). by rewrite <- app_assoc.
      * destruct (Hp _ _ EA) as (a & b & _ & Ek). cbn [op_index]. rewrite Ek in *. split; [done|].
        intros h Hh. cbn [snd]. rewrite entries_bytes_one. by apply Hi.
    + rewrite app_nil_r. split; [split; [by rewrite I1, I3, I4|done..]|].
      rewrite (at_dom _ _ _ _ _ _ _ _ _ _ Ha _ EA). split; [done|]. intros h Hh. cbn. by rewrite app_nil_r, Hi.
  - exists v, s, f, nm, ix. rewrite app_nil_r, (read_sim crc _ _ _ _ _ _ _ _ _ now m Ha Ho).
    do 4 (split; [done|]). intros h Hh. change (entries_bytes []) with (@nil byte). by rewrite app_nil_r.
Qed.

Lemma exec_all_log os : forall v s f nm ix A sb ns,
  vol_log v s f nm ix A sb ns -> Forall log_op os -> pos ns + total_cost os + 8 < 2 ^ 32 ->
  exists v' s' f' nm' ix',
    exec_all crc os (v, s) = ((v', s'), (spec_exec_all v.(v_id) os A).2)
    /\ identity v' = identity v
    /\ vol_log v' s' f' nm' ix' (spec_exec_all v.(v_id) os A).1 sb (ns ++ log_of v.(v_id) os A)
    /\ pos (ns ++ log_of v.(v_id) os A) <= pos ns + total_cost os.
Proof.
  induction os as [|o os IH]; intros v s f nm ix A sb ns Hv Hok Hb; simpl in *.
  - exists v, s, f, nm, ix. rewrite app_nil_r. split; [done|]. split; [done|]. split; [done|lia].
  - inversion Hok as [|? ? H1 H2]; subst. pose proof (total_cost_nonneg os).
    destruct (exec_log o v s f nm ix A sb ns Hv H1) as (v1 & s1 & f1 & nm1 & ix1 & E1 & Hid1 & Hv1 & _); [lia|].
    destruct (identity_names _ _ Hid1) as (I1 & _).
    assert (Hc : pos (ns ++ op_log o A) <= pos ns + op_cost o).
    { unfold pos. rewrite encodes_app, len_app. pose proof (op_cost_nonneg o).
      destruct o as [? ? n|? ? n|]; simpl; [| destruct (A !! n_id n)|];
        rewrite ?(encodes_cons n []), ?len_app; change (len (encodes [])) with 0;
        try pose proof (len_nonneg (encode n)); simpl in *; lia. }
    destruct (IH v1 s1 f1 nm1 ix1 _ sb _ Hv1 H2) as (v2 & s2 & f2 & nm2 & ix2 & E2 & Hid2 & Hv2 & Hp2); [lia|].
    rewrite I1 in *. exists v2, s2, f2, nm2, ix2. rewrite E1, E2.
    destruct (spec_exec (v_id v) o A) as [A1 r]. cbn [fst snd] in *.
    destruct (spec_exec_all (v_id v) os A1) as [A2 rs]. rewrite app_assoc.
    split; [done|]. split; [congruence|]. split; [done|lia].
Qed.

Lemma vol_log_new mtime dir collection id rp t s :
  let sb := SuperBlock CURRENT_VERSION rp t 0 in
  let v0 := Volume id dir collection None None sb false false false 0 0 0 in
  s !! data_filename v0 = None -> SuperBlock.wf sb ->
  exists v s' f nm ix,
    volume_new crc None mtime dir collection id rp t s = (s', Ok v)
    /\ identity v = identity v0 /\ vol_log v s' f nm ix ∅ sb [].
Proof.
  intros sb v0 Hd Hwf.
  destruct (volume_new_spec crc mtime dir collection id rp t s Hd) as (v & s' & E & Hid & (f & nm & ix & Ha & _) & Hf & _).
  cbn [fst snd] in Ha. destruct (identity_names _ _ Hid) as (I1 & I2 & I3 & I4).
  exists v, s', f, nm, ix. split; [done|]. split; [done|]. split.
  - by rewrite I1, I3, I4.
  - pose proof (at_file _ _ _ _ _ _ _ _ _ _ Ha) as Hf'. rewrite Hf in Hf'.
    injection Hf' as <-. change (encodes []) with (@nil byte). by rewrite app_nil_r.
  - done.
  - constructor.
  - intros k n. by rewrite lookup_empty.
Qed.
End Compact.

(** ** The properties of the component *)

(** Compacting a volume that holds no needle fails: the scan treats the end
    of the file after the super block as an error.  The volume is left marked as
    compacting, so it can no longer be destroyed. *)
Theorem compact_empty_fails : forall crc fuel mtime now v s f nm ix A sb,
  vol_log crc v s f nm ix A sb [] ->
  exists v' s',
    compact crc fuel mtime now (v, s) = ((v', s'), Err (VNeedle (NIo UnexpectedEof)))
    /\ v'.(v_is_compacting) = true
    /\ destroy v' s' = (s', Err (VCompacting v.(v_id))).
Proof.
  intros crc fuel mtime now v s f nm ix A sb Hv.
  destruct (begin_compact_spec crc _ _ _ _ _ _ _ _ Hv) as (z & r & Eb).
  set (v1 := set_is_compacting true (set_last_compact z r v)) in *.
  destruct Hv as [[] Hf [Hsb Hsv] _ _].
  destruct (copy_start crc fuel mtime now v1 s f sb (encodes []) at_file Hf Hsb Hsv)
    as (vol & st & E & _).
  assert (len f = SUPER_BLOCK_SIZE) as Hl by (rewrite Hf; reflexivity).
  rewrite read_header_eof in E by (rewrite Hl; reflexivity).
  exists v1, st.2. split; [|done].
  unfold compact, mbind'. rewrite Eb. unfold get_volume, mbind', mget, mret. cbn [fst snd].
  rewrite E. done.
Qed.

(** C2: vacuuming keeps what is live.  On a new volume, after any fault-free
    sequence of writes, deletes and reads of needles that fit the format and below
    4 GiB in all: if anything was stored, [compact] succeeds and the compacted data
    and index files represent the volume's map, less the needles without data and
    those its TTL test drops; the volume's own data file is untouched and the
    compacted one is not larger.  If nothing was stored, [compact] fails at the end
    of the file and leaves the volume marked as compacting.  [fuel] at least the
    number of stored records suffices for the scan. *)
Theorem compact_keeps_live : forall crc mtime mtime' now dir collection id rp t s os fuel,
  let sb := SuperBlock CURRENT_VERSION rp t 0 in
  let v0 := Volume id dir collection None None sb false false false 0 0 0 in
  s !! data_filename v0 = None -> SuperBlock.wf sb ->
  Forall (log_op crc) os -> total_cost os < 2 ^ 32 - 16 ->
  (length (log_of id os ∅) <= fuel)%nat ->
  exists v1 s1 st2 rs v3 s3,
    volume_new crc None mtime dir collection id rp t s = (s1, Ok v1)
    /\ exec_all crc os (v1, s1) = (st2, rs)
    /\ match log_of id os ∅ with
       | [] => compact crc fuel mtime' now st2 = ((v3, s3), Err (VNeedle (NIo UnexpectedEof)))
               /\ v3.(v_is_compacting) = true
       | _ => compact crc fuel mtime' now st2 = ((v3, s3), Ok tt)
              /\ v3.(v_is_compacting) = false
              /\ exists f f' es,
                fs_bytes st2.2 (data_filename v0) = Some f /\ fs_bytes s3 (data_filename v0) = Some f
                /\ fs_bytes s3 (compact_data_filename v0) = Some f' /\ len f' <= len f
                /\ fs_bytes s3 (compact_index_filename v0) = Some (entries_bytes es)
                /\ forall k, match kept_map crc now sb (spec_exec_all id os ∅).1 !! k with
                             | Some n => exists nv, replay es !! k = Some nv /\ stored crc f' k n nv
                             | None => replay es !! k = None
                             end
       end.
Proof.
  intros crc mtime mtime' now dir collection id rp t s os fuel sb v0 Hd Hwf Hos Hc Hfuel.
  destruct (vol_log_new crc mtime dir collection id rp t s Hd Hwf)
    as (v1 & s1 & f1 & nm1 & ix1 & E1 & Hid1 & Hv1).
  destruct (exec_all_log crc os v1 s1 f1 nm1 ix1 ∅ sb [] Hv1 Hos)
    as (v2 & s2 & f2 & nm2 & ix2 & E2 & Hid2 & Hv2 & Hp2).
  { change (pos []) with 8. lia. }
  change (pos []) with 8 in Hp2. cbn [app] in *.
  assert (Hid : identity v2 = identity v0) by (etrans; [exact Hid2|exact Hid1]).
  destruct (identity_names _ _ Hid1) as (I1 & J1 & _). change (v_id v0) with id in I1. rewrite I1 in *.
  destruct (decide (log_of id os ∅ = [])) as [Hne|Hne].
  { assert (He : exists A, vol_log crc v2 s2 f2 nm2 ix2 A sb []) by (eexists; rewrite <- Hne; exact Hv2).
    destruct He as [A He]. rewrite Hne.
    destruct (compact_empty_fails crc fuel mtime' now v2 s2 f2 nm2 ix2 A sb He) as (v3 & s3 & E3 & Hc3 & _).
    by exists v1, s1, (v2, s2), (spec_exec_all id os ∅).2, v3, s3. }
  destruct (compact_spec crc fuel mtime' now v2 s2 f2 nm2 ix2 _ sb _ Hv2 Hne Hfuel)
    as (v3 & s3 & f3 & es & E3 & Hid3 & Hc3 & H1 & H2 & H3 & H4 & _ & H5); [lia|].
  destruct (identity_names _ _ Hid) as (_ & J2 & N1 & _).
  assert (filename v2 = filename v0) as Nf
    by (unfold filename; injection Hid as -> -> -> _; done).
  exists v1, s1, (v2, s2), (spec_exec_all id os ∅).2, v3, s3. split; [done|]. split; [done|].
  destruct (log_of id os ∅); [done|]. split; [done|]. split; [done|]. exists f2, f3, es.
  unfold compact_data_filename, compact_index_filename in *. rewrite Nf, N1, J2 in *.
  repeat split; try done.
  pose proof (at_file _ _ _ _ _ _ _ _ _ _ (vl_at _ _ _ _ _ _ _ _ _ Hv2)) as Hf. by rewrite N1 in Hf.
Qed.

(** A checksum that is zero on no data, as CRC-32 is. *)
Definition zero_crc (l : list byte) : Z := u32 (fold_left (fun a b => a + b2z b) l 0).
Definition live_needle (id : Z) : needle :=
  Needle 305419896 id 0 0 hello 6 0 [Byte.x61] 0 [Byte.x62; Byte.x63] 0 [] 0
    Ttl.default (zero_crc hello) [].

Lemma live_needle_loggable id : in_u64 id -> loggable zero_crc (live_needle id).
Proof.
  intros H. split; [split; [|reflexivity]|intros E; discriminate E].
  split; try exact H; unfold Ttl.wf; vm_compute; split; congruence || reflexivity.
Qed.

Lemma ask_loggable id : in_u64 id -> loggable zero_crc (ask id).
Proof. intros H. split; [split; [by apply ask_wf|reflexivity]|done]. Qed.

Lemma compact_keeps_live_witness : exists v1 s1 st2 rs v3 s3 f' es,
  volume_new zero_crc None 5 "/d" "c" 3 Replica.default Ttl.default ∅ = (s1, Ok v1)
  /\ exec_all zero_crc [OpWrite None None (live_needle 42); OpWrite None None (live_needle 43);
                        OpDelete None None (ask 43)] (v1, s1) = (st2, rs)
  /\ compact zero_crc 3 5 1000 st2 = ((v3, s3), Ok tt)
  /\ fs_bytes s3 "/d/c_3.cpd" = Some f'
  /\ fs_bytes s3 "/d/c_3.cpx" = Some (entries_bytes es)
  /\ (exists nv, replay es !! 42 = Some nv /\ stored zero_crc f' 42 (live_needle 42) nv)
  /\ replay es !! 43 = None.
Proof.
  destruct (compact_keeps_live zero_crc 5 5 1000 "/d" "c" 3 Replica.default Ttl.default ∅
    [OpWrite None None (live_needle 42); OpWrite None None (live_needle 43);
     OpDelete None None (ask 43)] 3%nat)
    as (v1 & s1 & st2 & rs & v3 & s3 & H1 & H2 & H3 & _ & f & f' & es & _ & _ & H4 & _ & H5 & H6).
  - reflexivity.
  - split; unfold Ttl.wf, Replica.digits_ok; vm_compute; repeat split; congruence.
  - repeat (apply Forall_cons_2 || apply Forall_nil_2);
      first [apply live_needle_loggable | apply ask_loggable]; vm_compute; split; congruence.
  - vm_compute. reflexivity.
  - vm_compute. lia.
  - exists v1, s1, st2, rs, v3, s3, f', es.
    split; [exact H1|]. split; [exact H2|]. split; [exact H3|]. split; [exact H4|].
    split; [exact H5|]. split; [exact (H6 42)|exact (H6 43)].
Defined.

Lemma compact_empty_fails_witness : exists v s v' s',
  volume_new zero_crc None 5 "/d" "c" 3 Replica.default Ttl.default ∅ = (s, Ok v)
  /\ compact zero_crc 3 5 1000 (v, s) = ((v', s'), Err (VNeedle (NIo UnexpectedEof)))
  /\ destroy v' s' = (s', Err (VCompacting 3)).
Proof.
  destruct (vol_log_new zero_crc 5 "/d" "c" 3 Replica.default Ttl.default ∅)
    as (v & s & f & nm & ix & E & Hid & Hv); [reflexivity| |].
  { split; unfold Ttl.wf, Replica.digits_ok; vm_compute; repeat split; congruence. }
  destruct (compact_empty_fails zero_crc 3 5 1000 v s f nm ix ∅ _ Hv) as (v' & s' & H1 & _ & H2).
  exists v, s, v', s'. split; [exact E|]. split; [exact H1|].
  destruct (identity_names _ _ Hid) as [Hi _]. rewrite Hi in H2. exact H2.
Defined.

(** Committing a compaction renames the compacted files into place and
    loads the volume again, which empties the renamed index: the data survives,
    but every needle is reported as not found. *)
Theorem commit_compact_forgets : forall crc order mtime v s f g sb q x,
  readonly v = false -> SuperBlock.wf sb ->
  fs_bytes s (data_filename v) = Some f -> fs_bytes s (index_filename v) = Some g ->
  len g mod NEEDLE_INDEX_SIZE = 0 -> len g <= v.(v_last_compact_index_offset) ->
  s !! compact_data_filename v = Some (FNode (SuperBlock.as_bytes sb ++ q) false) ->
  s !! compact_index_filename v = Some x ->
  exists v' s',
    commit_compact crc order mtime (v, s) = ((v', s'), Ok tt)
    /\ v'.(v_super_block) = sb
    /\ fs_bytes s' (data_filename v) = Some (SuperBlock.as_bytes sb ++ q)
    /\ forall now m, read_needle crc now m v' s' = Err (VNeedle (NNotFound m.(n_id))).
Proof.
  intros crc order mtime v s f g sb q x Hr Hsb Hd Hg Hmod Hle Hcd Hcx.
  destruct (compact_names v) as (N1 & N2 & N3 & N4 & N5). pose proof (filename_suffixes v) as N6.
  set (v1 := set_is_compacting true v).
  set (v2 := with_mapper None (with_data_file None v1)).
  set (s1 := <[index_filename v := x]> (delete (compact_index_filename v)
               (<[data_filename v := FNode (SuperBlock.as_bytes sb ++ q) false]>
                  (delete (compact_data_filename v) s)))).
  assert (Hd1 : s1 !! data_filename v2 = Some (FNode (SuperBlock.as_bytes sb ++ q) false)).
  { change (data_filename v2) with (data_filename v). unfold s1.
    rewrite lookup_insert_ne, lookup_delete_ne, lookup_insert_eq by done. done. }
  destruct (load_existing crc mtime false v2 s1 sb q eq_refl Hr Hsb Hd1) as (nm & E & _ & [_ Hget]).
  eexists _, _. split; [|split; [|split]].
  - unfold commit_compact, mbind', get_volume, mbind', mget, mret, on_volume, mmodify. cbn [fst snd].
    fold v1. unfold makeup_diff at 1, mbind', read_file, mbind', mget, mlift. cbn [fst snd].
    rewrite (proj1 (fs_get_bytes _ _ _) Hg), (proj1 (fs_get_bytes _ _ _) Hd). cbn [map_err].
    unfold get_volume, mbind', mget, mret, verify_index_file_integrity. cbn [fst snd]. rewrite Hmod.
    change (negb (0 =? 0)) with false. cbv iota.
    change (v_last_compact_index_offset v1) with (v_last_compact_index_offset v).
    rewrite (proj2 (Z.leb_le _ _) Hle), orb_true_r.
    unfold vm_fs, mbind', fs_rename at 1. cbn [fst snd]. rewrite Hcd. cbn [map_err fst snd].
    unfold fs_rename at 1. rewrite lookup_insert_ne, lookup_delete_ne, Hcx by done. cbn [map_err fst snd].
    fold s1. fold v2. rewrite E. reflexivity.
  - reflexivity.
  - cbn [fst snd]. unfold fs_create. rewrite fs_bytes_put_ne by done.
    unfold fs_bytes. change (data_filename v2) with (data_filename v) in Hd1. by rewrite Hd1.
  - intros now m. unfold read_needle, get_index, needle_mapper_of.
    match goal with |- context [v_needle_mapper ?w] => change (v_needle_mapper w) with (Some nm) end.
    cbn [obind]. by rewrite Hget.
Qed.

Lemma commit_compact_forgets_witness : exists v' s',
  commit_compact zero_crc map_to_list 5
    (Volume 3 "/d" "" (Some "/d/3.dat"%string) None super_block_default false false false 0 16 0,
     {[ "/d/3.dat"%string := FNode (SuperBlock.as_bytes super_block_default ++ encode (live_needle 42)) false;
        "/d/3.idx"%string := FNode (entries_bytes [(42, NeedleValue 1 18)]) false;
        "/d/3.cpd"%string := FNode (SuperBlock.as_bytes super_block_default ++ encode (live_needle 42)) false;
        "/d/3.cpx"%string := FNode (entries_bytes [(42, NeedleValue 1 18)]) false ]})
  = ((v', s'), Ok tt)
  /\ read_needle zero_crc 100 (ask 42) v' s' = Err (VNeedle (NNotFound 42)).
Proof.
  destruct (commit_compact_forgets zero_crc map_to_list 5
    (Volume 3 "/d" "" (Some "/d/3.dat"%string) None super_block_default false false false 0 16 0)
    {[ "/d/3.dat"%string := FNode (SuperBlock.as_bytes super_block_default ++ encode (live_needle 42)) false;
       "/d/3.idx"%string := FNode (entries_bytes [(42, NeedleValue 1 18)]) false;
       "/d/3.cpd"%string := FNode (SuperBlock.as_bytes super_block_default ++ encode (live_needle 42)) false;
       "/d/3.cpx"%string := FNode (entries_bytes [(42, NeedleValue 1 18)]) false ]}
    (SuperBlock.as_bytes super_block_default ++ encode (live_needle 42))
    (entries_bytes [(42, NeedleValue 1 18)]) super_block_default (encode (live_needle 42))
    (FNode (entries_bytes [(42, NeedleValue 1 18)]) false)) as (v' & s' & H1 & _ & _ & H2).
  - reflexivity.
  - split; unfold Ttl.wf, Replica.digits_ok; vm_compute; repeat split; congruence.
  - reflexivity.
  - reflexivity.
  - reflexivity.
  - vm_compute. congruence.
  - reflexivity.
  - reflexivity.
  - exists v', s'. split; [exact H1|]. apply (H2 100 (ask 42)).
Defined.
