(* ===== verification/ShardBits.v ===== *)
(** * Shard bit sets ([storage/erasure_coding/volume_info.rs])

    A [ShardBits] is an [Arc<AtomicU32>]: its clones share one cell.  The cells
    live in a heap; a [ShardBits] value is the address of its cell. *)

From S2P Require Import Prelude Types.
#[local] Open Scope Z_scope.

Definition DATA_SHARDS_COUNT : Z := 10.
Definition PARITY_SHARDS_COUNT : Z := 4.
Definition TOTAL_SHARDS_COUNT : Z := DATA_SHARDS_COUNT + PARITY_SHARDS_COUNT.

Record heap := Heap { h_next : Z; h_cells : gmap Z Z }.

Definition shard_bits : Type := Z.

(** No operation fails. *)
Definition HM (A : Type) : Type := heap -> heap * A.
Definition hret {A} (a : A) : HM A := fun h => (h, a).
Definition hbind {A B} (m : HM A) (k : A -> HM B) : HM B :=
  fun h => let '(h', a) := m h in k a h'.

Notation "'let$' x ':=' c 'in' k" := (hbind c (fun x => k))
  (at level 10, x binder, c at level 100, k at level 200) : helyim_scope.

Module ShardBits.

(** [ShardBits::new] *)
Definition new (value : Z) : HM shard_bits :=
  fun h => (Heap (h.(h_next) + 1) (<[h.(h_next) := value]> h.(h_cells)), h.(h_next)).

Definition value (b : shard_bits) (h : heap) : Z := default 0 (h.(h_cells) !! b).
Definition load (b : shard_bits) : HM Z := fun h => (h, value b h).
Definition store (b : shard_bits) (v : Z) : HM unit :=
  fun h => (Heap h.(h_next) (<[b := v]> h.(h_cells)), tt).

(** [1 << id] on [u32]: the shift amount is taken modulo 32. *)
Definition bit (id : Z) : Z := u32 (Z.shiftl 1 (id mod 32)).

Definition add_shard_id (b : shard_bits) (id : Z) : HM shard_bits :=
  let$ v := load b in new (Z.lor v (bit id)).

Definition remove_shard_id (b : shard_bits) (id : Z) : HM shard_bits :=
  let$ v := load b in new (Z.ldiff v (bit id)).

Definition has_shard_id (b : shard_bits) (id : Z) (h : heap) : bool :=
  0 <? Z.land (value b h) (bit id).

Definition shard_ids (b : shard_bits) (h : heap) : list Z :=
  filter (fun id => has_shard_id b id h = true) (seqZ 0 TOTAL_SHARDS_COUNT).

(** [shard_id_count]: each turn clears the lowest bit of the cell itself.  A
    [u32] has 32 bits, so 33 turns reach zero. *)
Fixpoint count_loop (fuel : nat) (b : shard_bits) (count : Z) : HM Z :=
  match fuel with
  | O => hret count
  | S fuel' =>
      let$ v := load b in
      if v =? 0 then hret count
      else
        let$ _ := store b (Z.land v (v - 1)) in
        count_loop fuel' b (u64 (count + 1))
  end.
Definition shard_id_count (b : shard_bits) : HM Z := count_loop 33 b 0.

Definition minus (b other : shard_bits) : HM shard_bits :=
  let$ v := load b in let$ w := load other in new (Z.ldiff v w).

Definition plus (b other : shard_bits) : HM shard_bits :=
  let$ v := load b in let$ w := load other in new (Z.lor v w).

End ShardBits.

Record ec_volume_info := EcVolumeInfo {
  ev_volume_id : Z;
  ev_collection : string;
  ev_shard_bits : shard_bits;
}.

(** [EcVolumeInfo::minus] *)
Definition ec_minus (a b : ec_volume_info) : HM ec_volume_info :=
  let$ s := ShardBits.minus a.(ev_shard_bits) b.(ev_shard_bits) in
  hret (EcVolumeInfo a.(ev_volume_id) a.(ev_collection) s).

(** ** Counting bits *)

(** The number of bits set. *)
Fixpoint popcount (p : positive) : Z :=
  match p with xH => 1 | xO q => popcount q | xI q => 1 + popcount q end.
Definition pop (v : Z) : Z := match v with Zpos p => popcount p | _ => 0 end.

Lemma pop_double v : 0 <= v -> pop (2 * v) = pop v.
Proof. intros. destruct v; [done|done|lia]. Qed.

Lemma clear_lowest p :
  0 <= Z.land (Zpos p) (Zpos p - 1) /\ pop (Z.land (Zpos p) (Zpos p - 1)) = popcount p - 1.
Proof.
  induction p as [p IH|p IH|].
  - assert (Z.land (Zpos (xI p)) (Zpos (xI p) - 1) = 2 * Zpos p) as ->.
    { replace (Zpos (xI p) - 1) with (2 * Zpos p) by lia. replace (Zpos (xI p)) with (2 * Zpos p + 1) by lia.
      apply Z.bits_inj'. intros n Hn. rewrite Z.land_spec.
      destruct (Z.eq_dec n 0) as [->|Hne].
      - rewrite Z.testbit_odd_0, Z.testbit_even_0. done.
      - replace n with (Z.succ (n - 1)) by lia.
        rewrite Z.testbit_odd_succ, Z.testbit_even_succ by lia. by rewrite andb_diag. }
    rewrite pop_double by lia. cbn [pop popcount]. lia.
  - destruct IH as [IH1 IH2].
    assert (Z.land (Zpos (xO p)) (Zpos (xO p) - 1) = 2 * Z.land (Zpos p) (Zpos p - 1)) as ->.
    { replace (Zpos (xO p) - 1) with (2 * (Zpos p - 1) + 1) by lia.
      replace (Zpos (xO p)) with (2 * Zpos p) by lia.
      apply Z.bits_inj'. intros n Hn. rewrite Z.land_spec.
      destruct (Z.eq_dec n 0) as [->|Hne].
      - rewrite Z.testbit_odd_0, !Z.testbit_even_0. done.
      - replace n with (Z.succ (n - 1)) by lia.
        rewrite Z.testbit_odd_succ, !Z.testbit_even_succ, Z.land_spec by lia. done. }
    rewrite pop_double by lia. cbn [pop popcount]. lia.
  - done.
Qed.

Lemma pop_pos p : 1 <= popcount p.
Proof. induction p; cbn [popcount]; lia. Qed.

Lemma pop_bound (n : nat) v : 0 <= v < 2 ^ Z.of_nat n -> 0 <= pop v <= Z.of_nat n.
Proof.
  revert v. induction n as [|n IH]; intros v Hv; [replace v with 0 by (simpl in Hv; lia); simpl; lia|].
  rewrite Nat2Z.inj_succ, Z.pow_succ_r in Hv by lia.
  destruct v as [|p|p]; [simpl; lia| |lia]. destruct p as [q|q|]; cbn [pop popcount]; [| |lia];
    specialize (IH (Zpos q)); cbn [pop] in IH; lia.
Qed.

(** The bits from [m] on, and those below [n], counted one by one. *)
Definition bits_from (m n v : Z) : Z := len (filter (fun i => Z.testbit v i = true) (seqZ m n)).
Definition bits_below (n v : Z) : Z := bits_from 0 n v.

Lemma bits_from_shift n v b : bits_from 1 n (2 * v + Z.b2z b) = bits_below n v.
Proof.
  unfold bits_below, bits_from. change (seqZ 1 n) with (seqZ (1 + 0) n). rewrite <- (fmap_add_seqZ 1 0 n).
  assert (Forall (fun i => 0 <= i) (seqZ 0 n)) as H.
  { apply Forall_forall. intros i Hi%elem_of_seqZ. lia. }
  induction H as [|i l Hi H IH]; [done|]. cbn [fmap list_fmap]. rewrite !filter_cons.
  replace (1 + i) with (Z.succ i) by lia. rewrite Z.testbit_succ_r by done.
  case_decide; rewrite ?len_cons; [lia|exact IH].
Qed.

Lemma bits_below_step n v b :
  0 <= n -> bits_below (Z.succ n) (2 * v + Z.b2z b) = Z.b2z b + bits_below n v.
Proof.
  intros Hn. rewrite <- (bits_from_shift n v b). unfold bits_below, bits_from.
  rewrite (seqZ_cons 0 (Z.succ n)) by lia. rewrite filter_cons, Z.pred_succ, Z.testbit_0_r.
  destruct b; [by rewrite decide_True, len_cons by done|by rewrite decide_False by done].
Qed.

Lemma pop_bits (n : nat) v : 0 <= v < 2 ^ Z.of_nat n -> pop v = bits_below (Z.of_nat n) v.
Proof.
  revert v. induction n as [|n IH]; intros v Hv.
  { replace v with 0 by (simpl in Hv; lia). done. }
  rewrite Nat2Z.inj_succ in *. rewrite Z.pow_succ_r in Hv by lia.
  assert (exists q b, v = 2 * q + Z.b2z b /\ 0 <= q < 2 ^ Z.of_nat n /\ pop v = Z.b2z b + pop q)
    as (q & b & -> & Hq & ->).
  { destruct v as [|p|p]; [exists 0, false; simpl in *; lia|destruct p as [q|q|]|lia].
    - exists (Zpos q), true. cbn [pop popcount]. simpl Z.b2z. lia.
    - exists (Zpos q), false. cbn [pop popcount]. simpl Z.b2z. lia.
    - exists 0, true. simpl Z.b2z. cbn [pop popcount]. lia. }
  rewrite bits_below_step, IH by lia. done.
Qed.

(** ** The heap *)

Lemma value_new v h b : ShardBits.value b (ShardBits.new v h).1
  = if decide (b = h.(h_next)) then v else ShardBits.value b h.
Proof.
  unfold ShardBits.value, ShardBits.new. cbn [fst h_cells]. case_decide as E.
  - subst. by rewrite lookup_insert_eq.
  - by rewrite lookup_insert_ne.
Qed.

Lemma value_store b v h c : ShardBits.value c (ShardBits.store b v h).1
  = if decide (b = c) then v else ShardBits.value c h.
Proof.
  unfold ShardBits.value, ShardBits.store. cbn [fst h_cells]. rewrite lookup_insert. by case_decide.
Qed.

(** The count is right and the cell is zero afterwards; other cells keep their
    value. *)
Lemma count_loop_spec fuel : forall b count h,
  0 <= ShardBits.value b h -> pop (ShardBits.value b h) < Z.of_nat fuel -> 0 <= count ->
  count + pop (ShardBits.value b h) < 2 ^ 64 ->
  exists h', ShardBits.count_loop fuel b count h = (h', count + pop (ShardBits.value b h))
             /\ ShardBits.value b h' = 0 /\ h'.(h_next) = h.(h_next)
             /\ forall c, c <> b -> ShardBits.value c h' = ShardBits.value c h.
Proof.
  induction fuel as [|fuel IH]; intros b count h Hv Hf Hc Hb.
  { destruct (ShardBits.value b h) as [|p|p]; cbn [pop] in Hf; [|pose proof (pop_pos p)|]; lia. }
  cbn [ShardBits.count_loop]. unfold hbind at 1, ShardBits.load.
  destruct (Z.eqb_spec (ShardBits.value b h) 0) as [E|E].
  { exists h. unfold hret. rewrite E. cbn [pop]. rewrite Z.add_0_r. done. }
  destruct (ShardBits.value b h) as [|p|p] eqn:Ev; [done| |lia].
  pose proof (pop_pos p) as Hpp. destruct (clear_lowest p) as [Hp0 Hp]. cbn [pop] in *.
  set (w := Z.land (Zpos p) (Zpos p - 1)) in *. unfold hbind.
  set (h1 := (ShardBits.store b w h).1).
  assert (Hw : ShardBits.value b h1 = w) by (unfold h1; rewrite value_store; by rewrite decide_True).
  destruct (IH b (u64 (count + 1)) h1) as (h' & E' & H0 & H1 & H2).
  - by rewrite Hw.
  - rewrite Hw. lia.
  - int_solve.
  - rewrite Hw. rewrite u64_id by int_solve. lia.
  - exists h'. change (ShardBits.store b w h) with (h1, tt). cbv iota beta. rewrite E', Hw.
    split; [f_equal; rewrite u64_id by int_solve; lia|]. split; [done|]. split; [done|].
    intros c Hcb. rewrite H2 by done. unfold h1. rewrite value_store. by rewrite decide_False.
Qed.

Lemma shard_id_count_lemma b h :
  in_u32 (ShardBits.value b h) ->
  exists h', ShardBits.shard_id_count b h = (h', pop (ShardBits.value b h))
             /\ ShardBits.value b h' = 0 /\ h'.(h_next) = h.(h_next)
             /\ forall c, c <> b -> ShardBits.value c h' = ShardBits.value c h.
Proof.
  intros Hv. destruct (pop_bound 32 (ShardBits.value b h)) as [H1 H2]; [exact Hv|].
  destruct (count_loop_spec 33 b 0 h) as (h' & E & Hr); [apply Hv|lia|done|lia|].
  exists h'. by rewrite Z.add_0_l in E.
Qed.

Lemma has_shard_id_spec b id h :
  0 <= id < 32 -> ShardBits.has_shard_id b id h = Z.testbit (ShardBits.value b h) id.
Proof.
  intros Hid. unfold ShardBits.has_shard_id, ShardBits.bit. rewrite (Z.mod_small id) by lia.
  assert (0 <= Z.shiftl 1 id < 2 ^ 32).
  { rewrite Z.shiftl_1_l. split; [lia|]. apply Z.pow_lt_mono_r; lia. }
  rewrite u32_id by exact H. set (v := ShardBits.value b h).
  assert (Z.land v (Z.shiftl 1 id) = if Z.testbit v id then Z.shiftl 1 id else 0) as ->.
  { apply Z.bits_inj'. intros n Hn. rewrite Z.land_spec, Z.shiftl_1_l, Z.pow2_bits_eqb by lia.
    destruct (Z.eqb_spec id n) as [->|Hne].
    - rewrite andb_true_r. destruct (Z.testbit v n); [|by rewrite Z.bits_0].
      by rewrite Z.pow2_bits_true.
    - rewrite andb_false_r. destruct (Z.testbit v id); [|by rewrite Z.bits_0].
      by rewrite Z.pow2_bits_false. }
  destruct (Z.testbit v id); [|done]. apply Z.ltb_lt. rewrite Z.shiftl_1_l. lia.
Qed.

(** ** The properties of the component *)

(** A shard is listed exactly when its bit is set; adding and removing a
    shard set and clear its bit and no other, in a new cell; the difference and
    the union of two sets are those of their bits. *)
Theorem shard_set_ops : forall b c id i h,
  0 <= id < TOTAL_SHARDS_COUNT -> 0 <= i < TOTAL_SHARDS_COUNT ->
  (i ∈ ShardBits.shard_ids b h <-> Z.testbit (ShardBits.value b h) i = true)
  /\ (let '(h', d) := ShardBits.add_shard_id b id h in
      ShardBits.has_shard_id d i h' = (i =? id) || ShardBits.has_shard_id b i h)
  /\ (let '(h', d) := ShardBits.remove_shard_id b id h in
      ShardBits.has_shard_id d i h' = negb (i =? id) && ShardBits.has_shard_id b i h)
  /\ (let '(h', d) := ShardBits.minus b c h in
      ShardBits.has_shard_id d i h' = ShardBits.has_shard_id b i h && negb (ShardBits.has_shard_id c i h))
  /\ (let '(h', d) := ShardBits.plus b c h in
      ShardBits.has_shard_id d i h' = ShardBits.has_shard_id b i h || ShardBits.has_shard_id c i h).
Proof.
  intros b c id i h Hid Hi. unfold TOTAL_SHARDS_COUNT, DATA_SHARDS_COUNT, PARITY_SHARDS_COUNT in *.
  assert (Hnew : forall v, ShardBits.value (h_next h) (ShardBits.new v h).1 = v).
  { intros v. rewrite value_new. by rewrite decide_True. }
  assert (Hbit : Z.testbit (ShardBits.bit id) i = (i =? id)).
  { unfold ShardBits.bit. rewrite (Z.mod_small id) by lia.
    rewrite u32_id.
    - rewrite Z.shiftl_1_l, Z.pow2_bits_eqb by lia. apply Z.eqb_sym.
    - rewrite Z.shiftl_1_l. split; [lia|]. apply Z.pow_lt_mono_r; lia. }
  split; [|split; [|split; [|split]]].
  - unfold ShardBits.shard_ids. rewrite list_elem_of_filter, elem_of_seqZ.
    rewrite has_shard_id_spec by lia.
    unfold TOTAL_SHARDS_COUNT, DATA_SHARDS_COUNT, PARITY_SHARDS_COUNT. intuition lia.
  - change (ShardBits.has_shard_id (h_next h) i
      (ShardBits.new (Z.lor (ShardBits.value b h) (ShardBits.bit id)) h).1
      = (i =? id) || ShardBits.has_shard_id b i h).
    rewrite !has_shard_id_spec by lia. rewrite Hnew, Z.lor_spec, Hbit. apply orb_comm.
  - change (ShardBits.has_shard_id (h_next h) i
      (ShardBits.new (Z.ldiff (ShardBits.value b h) (ShardBits.bit id)) h).1
      = negb (i =? id) && ShardBits.has_shard_id b i h).
    rewrite !has_shard_id_spec by lia. rewrite Hnew, Z.ldiff_spec, Hbit. apply andb_comm.
  - change (ShardBits.has_shard_id (h_next h) i
      (ShardBits.new (Z.ldiff (ShardBits.value b h) (ShardBits.value c h)) h).1
      = ShardBits.has_shard_id b i h && negb (ShardBits.has_shard_id c i h)).
    rewrite !has_shard_id_spec by lia. by rewrite Hnew, Z.ldiff_spec.
  - change (ShardBits.has_shard_id (h_next h) i
      (ShardBits.new (Z.lor (ShardBits.value b h) (ShardBits.value c h)) h).1
      = ShardBits.has_shard_id b i h || ShardBits.has_shard_id c i h).
    rewrite !has_shard_id_spec by lia. by rewrite Hnew, Z.lor_spec.
Qed.

Lemma shard_set_ops_witness :
  4 ∈ ShardBits.shard_ids 0 (Heap 1 {[ 0 := 20 ]})
  /\ (let '(h', d) := ShardBits.add_shard_id 0 3 (Heap 1 {[ 0 := 20 ]}) in
      ShardBits.has_shard_id d 4 h' = (4 =? 3) || ShardBits.has_shard_id 0 4 (Heap 1 {[ 0 := 20 ]})).
Proof.
  destruct (shard_set_ops 0 0 3 4 (Heap 1 {[ 0 := 20 ]})) as (H1 & H2 & _);
    [split; vm_compute; congruence..|].
  split; [apply H1; reflexivity|exact H2].
Defined.

(** Counting the shards of a set is right once: it answers the number of
    set bits, but clears the bits of the cell it shares with every clone, so a
    second count answers zero and no shard is listed any more. *)
Theorem shard_count_destroys : forall b h,
  in_u32 (ShardBits.value b h) ->
  exists h', ShardBits.shard_id_count b h = (h', bits_below 32 (ShardBits.value b h))
             /\ ShardBits.shard_id_count b h' = (h', 0)
             /\ ShardBits.shard_ids b h' = [].
Proof.
  intros b h Hv. destruct (shard_id_count_lemma b h Hv) as (h' & E & H0 & _).
  exists h'. rewrite <- (pop_bits 32) by exact Hv. split; [done|]. split.
  - unfold ShardBits.shard_id_count. cbn [ShardBits.count_loop]. unfold hbind, ShardBits.load.
    by rewrite H0.
  - unfold ShardBits.shard_ids, ShardBits.has_shard_id. rewrite H0.
    generalize (seqZ 0 TOTAL_SHARDS_COUNT). intros l. induction l as [|x l IH]; [done|].
    rewrite filter_cons, decide_False by done. exact IH.
Qed.

Lemma shard_count_destroys_witness : exists h',
  ShardBits.shard_id_count 0 (Heap 1 {[ 0 := 20 ]}) = (h', 2)
  /\ ShardBits.shard_id_count 0 h' = (h', 0) /\ ShardBits.shard_ids 0 h' = [].
Proof.
  destruct (shard_count_destroys 0 (Heap 1 {[ 0 := 20 ]})) as (h' & H1 & H2 & H3).
  - vm_compute. split; congruence.
  - exists h'. split; [|split; [exact H2|exact H3]]. rewrite H1. vm_compute. reflexivity.
Defined.
