(* ===== verification/EcCodec.v ===== *)
(** * Erasure coding of a volume
      ([storage/erasure_coding/encoder.rs], [decoder.rs])

    A data file is cut into rows of ten blocks, large ones first and small
    ones for the rest; block [i] of each row goes to shard [i], and four parity
    shards are computed from the ten.  Files are their contents; offsets are
    below [2^63], so the [u64] and [i64] arithmetic on them does not wrap. *)

From S2P Require Import Prelude Types Errors ShardBits.
From Stdlib Require Import Strings.Byte.
#[local] Open Scope list_scope.
#[local] Open Scope Z_scope.

Definition ERASURE_CODING_LARGE_BLOCK_SIZE : Z := 1024 * 1024 * 1024.
Definition ERASURE_CODING_SMALL_BLOCK_SIZE : Z := 1024 * 1024.
Definition ENCODE_BUF_SIZE : Z := 256 * 1024.

(** [EcShardError] *)
Inductive ec_error :=
| EcString
| EcIo (e : io_error)
| EcReedSolomon
| EcUnderflow (found required : Z).

(** ** Tables of bytes *)

Definition byte_at (data : list byte) (x : Z) : byte :=
  if x <? 0 then Byte.x00 else default Byte.x00 (data !! Z.to_nat x).

(** The bytes [f 0], ..., [f (n-1)]. *)
Definition tab (f : Z -> byte) (n : Z) : list byte := map f (seqZ 0 n).

(** [n] bytes of a file from [off], with zeros past its end. *)
Definition read_pad (data : list byte) (off n : Z) : list byte :=
  tab (fun p => byte_at data (off + p)) n.

(** ** Reed-Solomon

    The [reed_solomon_erasure] crate codes byte by byte: the parity of a column
    of ten bytes is four bytes. *)
Class ReedSolomon := {
  rs_parity : list byte -> list byte;
  rs_parity_len : forall col, length (rs_parity col) = Z.to_nat PARITY_SHARDS_COUNT;
}.

(** Its inverse, on columns with missing bytes. *)
Class ReedSolomonInverse := {
  rs_reconstruct : list (option byte) -> option (list byte);
}.

(** ** Encoding *)

Section encode.
Context {RS : ReedSolomon}.

Definition column (rows : list (list byte)) (j : Z) : list byte := map (fun r => byte_at r j) rows.

(** The four parity rows of ten data rows of [n] bytes. *)
Definition parity_rows (rows : list (list byte)) (n : Z) : list (list byte) :=
  map (fun k => tab (fun j => byte_at (rs_parity (column rows j)) k) n) (seqZ 0 PARITY_SHARDS_COUNT).

Definition encode_data_one_batch (data : list byte) (start_offset block_size buf_size : Z)
    (outputs : list (list byte)) : list (list byte) :=
  let rows := map (fun i => read_pad data (start_offset + block_size * i) buf_size)
                (seqZ 0 DATA_SHARDS_COUNT) in
  zip_with app outputs (rows ++ parity_rows rows buf_size).

Definition encode_data (data : list byte) (start_offset block_size buf_size : Z)
    (outputs : list (list byte)) : outcome ec_error (list (list byte)) :=
  if buf_size =? 0 then Panic
  else if negb (block_size mod buf_size =? 0) then Err EcString
  else Ok (fold_left (fun o i => encode_data_one_batch data (start_offset + i * buf_size) block_size buf_size o)
             (seqZ 0 (block_size / buf_size)) outputs).

(** [while remaining > limit { encode_data(...) }] with blocks of [block_size];
    every turn takes a whole row off [remaining], so a turn per byte is
    enough. *)
Fixpoint encode_rows (fuel : nat) (data : list byte) (limit block_size buf_size processed remaining : Z)
    (outputs : list (list byte)) : outcome ec_error (list (list byte) * Z * Z) :=
  if remaining <=? limit then Ok (outputs, processed, remaining)
  else
    match fuel with
    | O => Panic
    | S fuel' =>
        let? o := encode_data data processed block_size buf_size outputs in
        encode_rows fuel' data limit block_size buf_size (processed + block_size * DATA_SHARDS_COUNT)
          (remaining - block_size * DATA_SHARDS_COUNT) o
    end.

Definition encode_data_file (data : list byte) (buf_size large_block_size small_block_size : Z)
  : outcome ec_error (list (list byte)) :=
  let remaining := len data in
  let outputs := replicate (Z.to_nat TOTAL_SHARDS_COUNT) [] in
  let fuel := Z.to_nat remaining in
  let? '(o, processed, remaining) :=
    encode_rows fuel data (large_block_size * DATA_SHARDS_COUNT) large_block_size buf_size 0 remaining outputs in
  let? '(o, _, _) := encode_rows fuel data 0 small_block_size buf_size processed remaining o in
  Ok o.

(** [write_ec_files] *)
Definition write_ec_files (data : list byte) : outcome ec_error (list (list byte)) :=
  encode_data_file data ENCODE_BUF_SIZE ERASURE_CODING_LARGE_BLOCK_SIZE ERASURE_CODING_SMALL_BLOCK_SIZE.

End encode.

(** ** Decoding *)

(** [read_exact] of [n] bytes at the cursor of a file whose rest is [rest]. *)
Definition read_exact (rest : list byte) (n : Z) : option (list byte * list byte) :=
  if n <=? len rest then Some (take (Z.to_nat n) rest, drop (Z.to_nat n) rest) else None.

(** One pass over the ten shards: [n size] bytes of each, appended to [out].  An
    error comes with what had been written before it. *)
Fixpoint decode_row (n : Z -> Z) (shards : list (list byte)) (out : list byte) (size : Z)
  : outcome (ec_error * list byte) (list (list byte) * list byte * Z) :=
  match shards with
  | [] => Ok ([], out, size)
  | s :: shards' =>
      match read_exact s (n size) with
      | None => Err (EcIo UnexpectedEof, out)
      | Some (blk, rest) =>
          let? '(rests, out, size') := decode_row n shards' (out ++ blk) (size - n size) in
          Ok (rest :: rests, out, size')
      end
  end.

(** A loop over rows while [more size]. *)
Fixpoint decode_rows (fuel : nat) (more : Z -> bool) (n : Z -> Z) (shards : list (list byte))
    (out : list byte) (size : Z) : outcome (ec_error * list byte) (list (list byte) * list byte * Z) :=
  if negb (more size) then Ok (shards, out, size)
  else
    match fuel with
    | O => Panic
    | S fuel' =>
        let? '(shards, out, size) := decode_row n shards out size in
        decode_rows fuel' more n shards out size
    end.

(** [write_data_file], with the block sizes as arguments: the ten data shards
    and the size of the data file. *)
Definition decode_data_file (large_block_size small_block_size : Z) (shards : list (list byte)) (data_filesize : Z)
  : outcome (ec_error * list byte) (list byte) :=
  let fuel := Z.to_nat data_filesize in
  let? '(shards, out, size) :=
    decode_rows fuel (fun s => DATA_SHARDS_COUNT * large_block_size <=? s) (fun _ => large_block_size)
      shards [] data_filesize in
  let? '(_, out, _) :=
    decode_rows fuel (fun s => 0 <? s) (fun s => Z.min s small_block_size) shards out size in
  Ok out.

Definition write_data_file (shards : list (list byte)) (data_filesize : Z) : outcome (ec_error * list byte) (list byte) :=
  decode_data_file ERASURE_CODING_LARGE_BLOCK_SIZE ERASURE_CODING_SMALL_BLOCK_SIZE
    (take (Z.to_nat DATA_SHARDS_COUNT) shards) data_filesize.

(** ** Rebuilding missing shards ([rebuild_ec_files_inner]) *)

Section rebuild.
Context {RI : ReedSolomonInverse}.

(** [reconstruct] on rows of [n] bytes, [None] for the missing ones; fewer
    than ten rows are an error. *)
Definition reconstruct_rows (rows : list (option (list byte))) (n : Z) : option (list (list byte)) :=
  if len (omap id rows) <? DATA_SHARDS_COUNT then None
  else
  match mapM (fun j => rs_reconstruct (map (fun r => match r with Some r => Some (byte_at r j) | None => None end) rows))
          (seqZ 0 n) with
  | None => None
  | Some cols => Some (map (fun k => map (fun c => byte_at c k) cols) (seqZ 0 (len rows)))
  end.

(** Reading a block of every present shard at [start]: [None] when one is at
    its end, otherwise the blocks and the size that all reads had. *)
Fixpoint read_blocks (inputs : list (option (list byte))) (start size : Z)
  : outcome ec_error (option (list (option (list byte)) * Z)) :=
  match inputs with
  | [] => Ok (Some ([], size))
  | None :: inputs' =>
      let? r := read_blocks inputs' start size in
      Ok (match r with Some (bs, size) => Some (None :: bs, size) | None => None end)
  | Some f :: inputs' =>
      let blk := take (Z.to_nat ERASURE_CODING_SMALL_BLOCK_SIZE) (drop (Z.to_nat start) f) in
      if len blk =? 0 then Ok None
      else
        let size := if size =? 0 then len blk else size in
        if negb (size =? len blk) then Err EcString
        else
          let? r := read_blocks inputs' start size in
          Ok (match r with Some (bs, size) => Some (Some blk :: bs, size) | None => None end)
  end.

Definition append_missing (inputs : list (option (list byte))) (rows outputs : list (list byte)) : list (list byte) :=
  zip_with (fun '(i, r) o => match i with Some _ => o | None => o ++ r end) (zip inputs rows) outputs.

(** An error comes with what had been written before it. *)
Fixpoint rebuild_loop (fuel : nat) (inputs : list (option (list byte))) (start size : Z) (outputs : list (list byte))
  : outcome (ec_error * list (list byte)) (list (list byte)) :=
  match fuel with
  | O => Panic
  | S fuel' =>
      let? r := map_err (fun e => (e, outputs)) (read_blocks inputs start size) in
      match r with
      | None => Ok outputs
      | Some (blocks, size) =>
          match reconstruct_rows blocks size with
          | None => Err (EcReedSolomon, outputs)
          | Some rows => rebuild_loop fuel' inputs (start + size) size (append_missing inputs rows outputs)
          end
      end
  end.

(** The shards on disk, [None] for a missing one; the result has the rebuilt
    ones.  A turn reads at least a byte. *)
Definition rebuild_ec_files (inputs : list (option (list byte)))
  : outcome (ec_error * list (list byte)) (list (list byte)) :=
  let longest := fold_right (fun i m => match i with Some f => Z.max (len f) m | None => m end) 0 inputs in
  rebuild_loop (S (Z.to_nat longest)) inputs 0 0 (replicate (length inputs) []).

End rebuild.
