(* ===== verification/EcCodecFacts.v ===== *)
(** * Erasure coding keeps the data

    Where every byte of the data file ends up, and that decoding returns the
    file. *)

From S2P Require Import Prelude Types Errors ShardBits EcCodec.
From Stdlib Require Import Strings.Byte.
#[local] Open Scope list_scope.
#[local] Open Scope Z_scope.

(** ** Tables *)

Lemma tab_len f n : 0 <= n -> len (tab f n) = n.
Proof. intros. unfold tab, len. rewrite length_map, length_seqZ. lia. Qed.

Lemma tab_ext f g n : (forall p, 0 <= p < n -> f p = g p) -> tab f n = tab g n.
Proof.
  intros H. apply map_ext_in. intros p Hp%list_elem_of_In%elem_of_seqZ. apply H. lia.
Qed.

Lemma tab_app f m n : 0 <= m -> 0 <= n -> tab f (m + n) = tab f m ++ tab (fun p => f (m + p)) n.
Proof.
  intros Hm Hn. unfold tab. rewrite seqZ_app by lia. rewrite map_app. f_equal.
  replace (seqZ (0 + m) n) with (Z.add m <$> seqZ 0 n) by (rewrite fmap_add_seqZ; f_equal; lia).
  change (f <$> (Z.add m <$> seqZ 0 n) = (fun p => f (m + p)) <$> seqZ 0 n).
  by rewrite <- list_fmap_compose.
Qed.

Lemma tab_nil f n : n <= 0 -> tab f n = [].
Proof. intros. unfold tab. by rewrite seqZ_nil by lia. Qed.

Lemma tab_lookup f n i : 0 <= i < n -> tab f n !! Z.to_nat i = Some (f i).
Proof.
  intros Hi. unfold tab. rewrite list_lookup_fmap, lookup_seqZ_lt by lia. cbn. f_equal. f_equal. lia.
Qed.

Lemma byte_at_tab f n i : 0 <= i < n -> byte_at (tab f n) i = f i.
Proof.
  intros Hi. unfold byte_at. destruct (Z.ltb_spec i 0); [lia|]. by rewrite tab_lookup.
Qed.

Lemma tab_data data : tab (byte_at data) (len data) = data.
Proof.
  apply list_eq. intros i. destruct (decide (i < length data)%nat) as [Hi|Hi].
  - rewrite <- (Nat2Z.id i), tab_lookup by (unfold len; lia). unfold byte_at.
    destruct (Z.ltb_spec (Z.of_nat i) 0); [lia|]. rewrite Nat2Z.id.
    destruct (lookup_lt_is_Some_2 data i Hi) as [b ->]. done.
  - rewrite !lookup_ge_None_2; [done|lia|]. pose proof (tab_len (byte_at data) (len data)) as H.
    unfold len in *. lia.
Qed.

Lemma byte_at_past data x : len data <= x -> byte_at data x = Byte.x00.
Proof.
  unfold byte_at, len. intros H. destruct (Z.ltb_spec x 0); [done|]. by rewrite lookup_ge_None_2 by lia.
Qed.

Lemma take_drop_tab f m n : 0 <= n -> 0 <= m ->
  take (Z.to_nat n) (tab f (n + m)) = tab f n /\ drop (Z.to_nat n) (tab f (n + m)) = tab (fun p => f (n + p)) m.
Proof.
  intros Hn Hm. rewrite tab_app by done.
  assert (H : Z.to_nat n = length (tab f n)) by (pose proof (tab_len f n Hn); unfold len in *; lia).
  rewrite H at 1. rewrite take_app_length, H, drop_app_length. done.
Qed.

Lemma slice_tab f m a n : 0 <= a -> 0 <= n -> a + n <= m ->
  slice (tab f m) a (a + n) = Some (tab (fun p => f (a + p)) n).
Proof.
  intros Ha Hn Hm. replace m with (a + (n + (m - a - n))) by lia.
  rewrite tab_app, (tab_app _ n) by lia. apply slice_app_mid; rewrite ?tab_len; lia.
Qed.

(** ** Encoding a row *)

(** Ten tables and what parity makes of them. *)
Definition data_rows (f : Z -> Z -> byte) (n : Z) : list (list byte) :=
  map (fun i => tab (f i) n) (seqZ 0 DATA_SHARDS_COUNT).

Section rows.
Context {RS : ReedSolomon}.

Definition parity_of (f : Z -> Z -> byte) (k p : Z) : byte :=
  byte_at (rs_parity (map (fun i => f i p) (seqZ 0 DATA_SHARDS_COUNT))) k.

(** The fourteen shards of [n] bytes each. *)
Definition coded (f : Z -> Z -> byte) (n : Z) : list (list byte) :=
  data_rows f n ++ map (fun k => tab (parity_of f k) n) (seqZ 0 PARITY_SHARDS_COUNT).

Lemma zip_app_map {A} (f g : A -> list byte) l : zip_with app (map f l) (map g l) = map (fun x => f x ++ g x) l.
Proof. induction l as [|x l IH]; [done|]. cbn. by rewrite IH. Qed.

Lemma coded_app f m n : 0 <= m -> 0 <= n ->
  coded f (m + n) = zip_with app (coded f m) (coded (fun i p => f i (m + p)) n).
Proof.
  intros Hm Hn. unfold coded, data_rows.
  rewrite zip_with_app by by rewrite !length_map. rewrite !zip_app_map. f_equal.
  - apply map_ext. intros i. by apply tab_app.
  - apply map_ext. intros k. rewrite tab_app by done. done.
Qed.

Lemma coded_ext f g n : (forall i p, 0 <= i < DATA_SHARDS_COUNT -> 0 <= p < n -> f i p = g i p) ->
  coded f n = coded g n.
Proof.
  intros H. unfold coded, data_rows. f_equal.
  - apply map_ext_in. intros i Hi%list_elem_of_In%elem_of_seqZ. apply tab_ext. intros p Hp. apply H; lia.
  - apply map_ext_in. intros k Hk. apply tab_ext. intros p Hp. unfold parity_of. f_equal. f_equal.
    apply map_ext_in. intros i Hi%list_elem_of_In%elem_of_seqZ. apply H; lia.
Qed.

Lemma coded_length f n : length (coded f n) = Z.to_nat TOTAL_SHARDS_COUNT.
Proof. unfold coded, data_rows. rewrite length_app, !length_map, !length_seqZ. done. Qed.

Lemma coded_nil f : coded f 0 = replicate (Z.to_nat TOTAL_SHARDS_COUNT) [].
Proof. done. Qed.

Lemma one_batch_coded data start block buf f m : 0 <= m -> 0 <= buf ->
  (forall i p, 0 <= i < DATA_SHARDS_COUNT -> 0 <= p < buf -> f i (m + p) = byte_at data (start + block * i + p)) ->
  encode_data_one_batch data start block buf (coded f m) = coded f (m + buf).
Proof.
  intros Hm Hb Hf. rewrite coded_app by done. unfold encode_data_one_batch. f_equal.
  rewrite (coded_ext _ (fun i p => byte_at data (start + block * i + p))) by done.
  unfold coded, data_rows, parity_rows, read_pad. f_equal.
  apply map_ext_in. intros k Hk. apply tab_ext. intros p Hp. unfold parity_of, column. f_equal. f_equal.
  rewrite map_map. apply map_ext_in. intros i Hi. by rewrite byte_at_tab.
Qed.

Lemma batches_coded data start block buf f m (n : nat) : 0 <= m -> 0 <= buf ->
  (forall i p, 0 <= i < DATA_SHARDS_COUNT -> 0 <= p < Z.of_nat n * buf ->
     f i (m + p) = byte_at data (start + block * i + p)) ->
  fold_left (fun o i => encode_data_one_batch data (start + i * buf) block buf o) (seqZ 0 (Z.of_nat n)) (coded f m)
  = coded f (m + Z.of_nat n * buf).
Proof.
  intros Hm Hb. induction n as [|n IH]; intros Hf.
  - rewrite seqZ_nil by lia. cbn. f_equal. lia.
  - rewrite seqZ_S, fold_left_app, IH by (try lia; intros; apply Hf; lia). cbn [fold_left].
    rewrite one_batch_coded; [f_equal; lia|nia|done|].
    intros i p Hi Hp. replace (m + Z.of_nat n * buf + p) with (m + (Z.of_nat n * buf + p)) by lia.
    rewrite Hf by (lia || nia). f_equal. lia.
Qed.

Lemma encode_data_coded data start block buf f m : 0 <= m -> 0 < buf -> 0 <= block -> block mod buf = 0 ->
  (forall i p, 0 <= i < DATA_SHARDS_COUNT -> 0 <= p < block -> f i (m + p) = byte_at data (start + block * i + p)) ->
  encode_data data start block buf (coded f m) = Ok (coded f (m + block)).
Proof.
  intros Hm Hb Hk Hd Hf. unfold encode_data. destruct (Z.eqb_spec buf 0); [lia|]. rewrite Hd. cbn [Z.eqb negb].
  assert (Hq : block = block / buf * buf) by (pose proof (Z.div_mod block buf); lia).
  assert (0 <= block / buf) by (apply Z.div_pos; lia).
  f_equal. rewrite <- (Z2Nat.id (block / buf)) by done.
  rewrite batches_coded; [|done|lia|]; rewrite Z2Nat.id by done; [f_equal; lia|].
  intros i p Hi Hp. apply Hf; lia.
Qed.

(** Rows of one block size: shard [i] gets, row after row, block [i]. *)
Lemma encode_rows_coded data limit block buf f (n : nat) : 0 < buf -> 0 < block -> block mod buf = 0 ->
  forall fuel m processed remaining, 0 <= m -> (n <= fuel)%nat ->
  (forall j : nat, (j < n)%nat -> limit < remaining - Z.of_nat j * (block * DATA_SHARDS_COUNT)) ->
  remaining - Z.of_nat n * (block * DATA_SHARDS_COUNT) <= limit ->
  (forall i r p, 0 <= i < DATA_SHARDS_COUNT -> 0 <= r < Z.of_nat n -> 0 <= p < block ->
     f i (m + r * block + p)
     = byte_at data (processed + r * (block * DATA_SHARDS_COUNT) + block * i + p)) ->
  encode_rows fuel data limit block buf processed remaining (coded f m)
  = Ok (coded f (m + Z.of_nat n * block), processed + Z.of_nat n * (block * DATA_SHARDS_COUNT),
        remaining - Z.of_nat n * (block * DATA_SHARDS_COUNT)).
Proof.
  intros Hb Hk Hd. induction n as [|n IH]; intros fuel m processed remaining Hm Hfu Hlim Hend Hf.
  - rewrite !Z.mul_0_l, !Z.add_0_r, !Z.sub_0_r in *. destruct fuel; cbn [encode_rows];
      by rewrite (proj2 (Z.leb_le _ _) Hend).
  - destruct fuel as [|fuel]; [lia|]. cbn [encode_rows].
    pose proof (Hlim O ltac:(lia)) as H0. rewrite Z.mul_0_l, Z.sub_0_r in H0.
    rewrite (proj2 (Z.leb_gt _ _)) by lia. rewrite (encode_data_coded _ _ _ _ f); try lia.
    2:{ intros i p Hi Hp. specialize (Hf i 0 p Hi ltac:(lia) Hp).
        rewrite !Z.mul_0_l, !Z.add_0_r in Hf. exact Hf. }
    cbn [obind]. rewrite IH; try lia.
    + f_equal. f_equal; [f_equal; [f_equal|]|]; lia.
    + intros j Hj. specialize (Hlim (S j) ltac:(lia)). lia.
    + intros i r p Hi Hr Hp. specialize (Hf i (r + 1) p Hi ltac:(lia) Hp).
      replace (m + block + r * block + p) with (m + (r + 1) * block + p) by lia. rewrite Hf. f_equal. lia.
Qed.

End rows.

(** ** Where the bytes go *)

Section layout.
Context (large small : Z).

(** Large rows, then small rows, of a file of [n] bytes. *)
Definition large_rows (n : Z) : Z := Z.max 0 ((n - 1) / (large * DATA_SHARDS_COUNT)).
Definition small_rows (n : Z) : Z :=
  (n - large_rows n * (large * DATA_SHARDS_COUNT) + small * DATA_SHARDS_COUNT - 1) / (small * DATA_SHARDS_COUNT).
Definition shard_size (n : Z) : Z := large_rows n * large + small_rows n * small.

(** The position in the data file of byte [p] of shard [i]. *)
Definition source_pos (rows i p : Z) : Z :=
  if p <? rows * large then p / large * (large * DATA_SHARDS_COUNT) + large * i + p mod large
  else let q := p - rows * large in
       rows * (large * DATA_SHARDS_COUNT) + q / small * (small * DATA_SHARDS_COUNT) + small * i + q mod small.

Definition shard_byte (data : list byte) (i p : Z) : byte :=
  byte_at data (source_pos (large_rows (len data)) i p).

Lemma source_large rows i r p : 0 <= r < rows -> 0 <= p < large ->
  source_pos rows i (r * large + p) = r * (large * DATA_SHARDS_COUNT) + large * i + p.
Proof.
  intros Hr Hp. unfold source_pos. rewrite (proj2 (Z.ltb_lt _ _)) by nia.
  assert ((r * large + p) / large = r) as -> by (symmetry; apply (Z.div_unique _ _ _ p); lia).
  assert ((r * large + p) mod large = p) as -> by (symmetry; apply (Z.mod_unique _ _ r); lia). done.
Qed.

Lemma source_small rows i r p : 0 <= rows -> 0 < large -> 0 <= r -> 0 <= p < small ->
  source_pos rows i (rows * large + (r * small + p))
  = rows * (large * DATA_SHARDS_COUNT) + r * (small * DATA_SHARDS_COUNT) + small * i + p.
Proof.
  intros H0 Hl Hr Hp. unfold source_pos. rewrite (proj2 (Z.ltb_ge _ _)) by nia. cbv zeta.
  replace (rows * large + (r * small + p) - rows * large) with (r * small + p) by lia.
  assert ((r * small + p) / small = r) as -> by (symmetry; apply (Z.div_unique _ _ _ p); lia).
  assert ((r * small + p) mod small = p) as -> by (symmetry; apply (Z.mod_unique _ _ r); lia). done.
Qed.

Context (Hlarge : 0 < large) (Hsmall : 0 < small).

Lemma large_rows_spec n : 0 <= n -> 0 <= large_rows n /\ large_rows n <= n
  /\ (forall j, 0 <= j < large_rows n -> large * DATA_SHARDS_COUNT < n - j * (large * DATA_SHARDS_COUNT))
  /\ n - large_rows n * (large * DATA_SHARDS_COUNT) <= large * DATA_SHARDS_COUNT
  /\ (0 < n -> 0 < n - large_rows n * (large * DATA_SHARDS_COUNT)).
Proof.
  intros Hn. unfold large_rows, DATA_SHARDS_COUNT. set (w := large * 10). assert (0 < w) by lia.
  pose proof (Z.div_mod (n - 1) w ltac:(lia)) as E. pose proof (Z.mod_pos_bound (n - 1) w ltac:(lia)) as B.
  set (q := (n - 1) / w) in *. destruct (Z.max_spec 0 q) as [[Hq ->]|[Hq ->]].
  - repeat split; try nia.
  - repeat split; try lia.
Qed.

Lemma small_rows_spec n : 0 <= n -> let m := n - large_rows n * (large * DATA_SHARDS_COUNT) in
  0 <= small_rows n /\ small_rows n <= n
  /\ (forall j, 0 <= j < small_rows n -> 0 < m - j * (small * DATA_SHARDS_COUNT))
  /\ m - small_rows n * (small * DATA_SHARDS_COUNT) <= 0.
Proof.
  intros Hn m. destruct (large_rows_spec n Hn) as (L1 & L2 & L3 & L4 & L5). fold m in L4, L5.
  unfold small_rows. fold m. unfold DATA_SHARDS_COUNT in *. set (w := small * 10). assert (0 < w) by lia.
  assert (0 <= m) by (destruct (Z.eq_dec n 0); [unfold m; assert (large_rows n = 0) by lia; nia|lia]).
  pose proof (Z.div_mod (m + w - 1) w ltac:(lia)) as E. pose proof (Z.mod_pos_bound (m + w - 1) w ltac:(lia)) as B.
  set (q := (m + w - 1) / w) in *. assert (0 <= q) by (apply Z.div_pos; lia).
  assert (m <= n) by (unfold m; nia). repeat split; try nia.
Qed.

Context {RS : ReedSolomon}.

Lemma encode_layout data buf : 0 < buf -> large mod buf = 0 -> small mod buf = 0 ->
  encode_data_file data buf large small = Ok (coded (shard_byte data) (shard_size (len data))).
Proof.
  intros Hb Hl Hs. unfold encode_data_file. set (n := len data). pose proof (len_nonneg data) as Hn. fold n in Hn.
  destruct (large_rows_spec n Hn) as (L1 & L2 & L3 & L4 & L5).
  destruct (small_rows_spec n Hn) as (S1 & S2 & S3 & S4).
  unfold shard_size. rewrite <- (coded_nil (shard_byte data)).
  rewrite (encode_rows_coded data _ large buf (shard_byte data) (Z.to_nat (large_rows n)));
    rewrite ?(Z2Nat.id (large_rows n)) by done; try lia.
  - cbn [obind]. rewrite (encode_rows_coded data _ small buf (shard_byte data) (Z.to_nat (small_rows n)));
      rewrite ?(Z2Nat.id (small_rows n)) by done; try lia.
    + cbn [obind]. f_equal.
    + intros j Hj. apply S3. lia.
    + intros i r p Hi Hr Hp. unfold shard_byte. fold n.
      replace (0 + large_rows n * large + r * small + p) with (large_rows n * large + (r * small + p)) by lia.
      rewrite source_small by lia. f_equal; lia.
  - intros j Hj. apply L3. lia.
  - intros i r p Hi Hr Hp. unfold shard_byte. fold n.
    replace (0 + r * large + p) with (r * large + p) by lia. rewrite source_large by lia. f_equal; lia.
Qed.

End layout.

(** ** Decoding *)

(** The data shards from byte [T0] on. *)
Definition shards_from (g : Z -> Z -> byte) (i0 k T0 T : Z) : list (list byte) :=
  map (fun i => tab (fun p => g i (T0 + p)) T) (seqZ i0 k).

Lemma shards_from_cons g i0 k T0 T : 0 < k ->
  shards_from g i0 k T0 T = tab (fun p => g i0 (T0 + p)) T :: shards_from g (i0 + 1) (k - 1) T0 T.
Proof. intros. unfold shards_from. rewrite seqZ_cons by lia. cbn. by rewrite <- Z.add_1_r, <- Z.sub_1_r. Qed.

Lemma read_exact_tab f n m : 0 <= n -> 0 <= m ->
  read_exact (tab f (n + m)) n = Some (tab f n, tab (fun p => f (n + p)) m).
Proof.
  intros. unfold read_exact. rewrite tab_len, (proj2 (Z.leb_le _ _)) by lia.
  by destruct (take_drop_tab f m n) as [-> ->].
Qed.

(** A row of at most [block] bytes of each shard gives the next bytes of the
    data; when it was full the shards have advanced by [block]. *)
Lemma decode_row_spec block g T0 T : 0 < block -> 0 <= T -> forall (k : nat) i0 h out size, 0 <= size ->
  (forall i p, i0 <= i < i0 + Z.of_nat k -> 0 <= p < block -> g i (T0 + p) = h (block * (i - i0) + p)) ->
  exists rests, decode_row (fun s => Z.min s block) (shards_from g i0 (Z.of_nat k) T0 (block + T)) out size
    = Ok (rests, out ++ tab h (Z.min size (Z.of_nat k * block)), Z.max 0 (size - Z.of_nat k * block))
    /\ (Z.of_nat k * block <= size -> rests = shards_from g i0 (Z.of_nat k) (T0 + block) T).
Proof.
  intros Hb HT. induction k as [|k IH]; intros i0 h out size Hs Hg.
  - unfold shards_from. rewrite !seqZ_nil by lia. cbn [map decode_row]. exists [].
    rewrite tab_nil, app_nil_r by lia. split; [|done]. repeat f_equal. lia.
  - rewrite shards_from_cons by lia. cbn [decode_row]. set (m := Z.min size block).
    assert (Hre := read_exact_tab (fun p => g i0 (T0 + p)) m (block + T - m) ltac:(lia) ltac:(lia)).
    replace (m + (block + T - m)) with (block + T) in Hre by lia. rewrite Hre.
    replace (Z.of_nat (S k) - 1) with (Z.of_nat k) by lia.
    destruct (IH (i0 + 1) (fun x => h (block + x)) (out ++ tab (fun p => g i0 (T0 + p)) m) (size - m))
      as (rests & E & Hr); [lia| |].
    { intros i p Hi Hp. rewrite Hg by lia. f_equal. lia. }
    rewrite E. cbn [obind]. eexists. split; [f_equal; f_equal; [f_equal|lia]|].
    + rewrite <- app_assoc. f_equal.
      assert (tab (fun p => g i0 (T0 + p)) m = tab h m) as ->.
      { apply tab_ext. intros p Hp. rewrite Hg by lia. f_equal. lia. }
      destruct (Z.le_gt_cases block size).
      * replace m with block by lia. rewrite <- tab_app by lia. f_equal. lia.
      * rewrite (tab_nil _ (Z.min (size - m) _)), app_nil_r by lia. f_equal. lia.
    + intros Hfull. replace m with block in * by lia. rewrite Hr by lia.
      rewrite (shards_from_cons g i0) by lia. replace (Z.of_nat (S k) - 1) with (Z.of_nat k) by lia.
      f_equal. replace (block + T - block) with T by lia. apply tab_ext. intros p Hp. f_equal. lia.
Qed.

Lemma decode_row_const block shards : forall out size, len shards * block <= size -> 0 < block ->
  decode_row (fun _ => block) shards out size = decode_row (fun s => Z.min s block) shards out size.
Proof.
  induction shards as [|s shards IH]; intros out size Hs Hb; [done|]. cbn [decode_row].
  rewrite len_cons in Hs. pose proof (len_nonneg shards). replace (Z.min size block) with block by nia.
  destruct (read_exact s block) as [[blk rest]|]; [|done]. rewrite IH by nia. done.
Qed.

Abbreviation D := DATA_SHARDS_COUNT.

(** [R] full rows. *)
Lemma decode_rows_full block g more n h T (R : nat) : 0 < block -> 0 <= T ->
  (forall s, D * block <= s -> more s = true) ->
  (forall sh out s, len sh = D -> D * block <= s -> decode_row n sh out s = decode_row (fun s => Z.min s block) sh out s) ->
  forall fuel T0 out size,
  (forall i r p, 0 <= i < D -> 0 <= r < Z.of_nat R -> 0 <= p < block ->
     g i (T0 + r * block + p) = h (r * (block * D) + block * i + p)) ->
  Z.of_nat R * (block * D) <= size ->
  decode_rows (R + fuel) more n (shards_from g 0 D T0 (Z.of_nat R * block + T)) out size
  = decode_rows fuel more n (shards_from g 0 D (T0 + Z.of_nat R * block) T)
      (out ++ tab h (Z.of_nat R * (block * D))) (size - Z.of_nat R * (block * D)).
Proof.
  intros Hb HT Hmore Hn. revert h. induction R as [|R IH]; intros h fuel T0 out size Hg Hs.
  - cbn [plus]. rewrite !Z.mul_0_l, Z.add_0_l, Z.add_0_r, Z.sub_0_r, tab_nil, app_nil_r by lia. done.
  - cbn [plus decode_rows]. unfold D in *. rewrite Hmore by nia. cbn [negb].
    rewrite Hn; [|unfold len, shards_from; rewrite length_map, length_seqZ; done|nia].
    replace (Z.of_nat (S R) * block + T) with (block + (Z.of_nat R * block + T)) by lia.
    destruct (decode_row_spec block g T0 (Z.of_nat R * block + T) Hb ltac:(nia) 10 0 h out size) as (rests & E & Hr).
    { nia. }
    { intros i p Hi Hp. specialize (Hg i 0 p ltac:(unfold DATA_SHARDS_COUNT; lia) ltac:(lia) Hp).
      rewrite Z.mul_0_l, Z.add_0_r, Z.add_0_l in Hg. rewrite Hg. f_equal. lia. }
    change (Z.of_nat 10) with 10 in *. unfold DATA_SHARDS_COUNT in *.
    rewrite E. cbn [obind]. rewrite Hr by nia.
    replace (Z.max 0 (size - 10 * block)) with (size - 10 * block) by nia.
    rewrite (IH (fun x => h (block * 10 + x))); [|..].
    + f_equal; [f_equal; lia| |lia]. rewrite <- app_assoc. f_equal.
      replace (Z.min size (10 * block)) with (block * 10) by nia.
      rewrite <- tab_app by nia. f_equal. lia.
    + intros i r p Hi Hr' Hp. specialize (Hg i (r + 1) p Hi ltac:(lia) Hp).
      replace (T0 + block + r * block + p) with (T0 + (r + 1) * block + p) by lia. rewrite Hg. f_equal. lia.
    + nia.
Qed.

Section roundtrip.
Context (large small : Z) (Hlarge : 0 < large) (Hsmall : 0 < small) {RS : ReedSolomon}.

Lemma take_coded f n : take (Z.to_nat D) (coded f n) = shards_from f 0 D 0 n.
Proof.
  unfold coded, data_rows, shards_from.
  assert (E : Z.to_nat D = length (map (fun i => tab (f i) n) (seqZ 0 D))) by (rewrite length_map, length_seqZ; done).
  rewrite E, take_app_length. apply map_ext. intros i. apply tab_ext. intros p Hp. f_equal; lia.
Qed.

(** The small rows: full ones, then perhaps one that ends early.  What the shards
    hold after these rows is not read. *)
Lemma decode_small_rows g h T0 rows T m out fuel :
  0 <= T -> 0 <= m -> (Z.to_nat m <= fuel)%nat ->
  (forall j, 0 <= j < rows -> 0 < m - j * (small * D)) -> m - rows * (small * D) <= 0 -> 0 <= rows ->
  (forall i r p, 0 <= i < D -> 0 <= r < rows -> 0 <= p < small ->
     g i (T0 + r * small + p) = h (r * (small * D) + small * i + p)) ->
  exists rests, decode_rows fuel (fun s => 0 <? s) (fun s => Z.min s small)
    (shards_from g 0 D T0 (rows * small + T)) out m = Ok (rests, out ++ tab h m, 0).
Proof.
  unfold DATA_SHARDS_COUNT. intros HT Hm Hfu H1 H2 H3 Hg.
  set (R := m / (small * 10)). pose proof (Z.div_mod m (small * 10) ltac:(lia)) as Ed.
  pose proof (Z.mod_pos_bound m (small * 10) ltac:(lia)) as Eb. fold R in Ed.
  assert (HR : 0 <= R) by (apply Z.div_pos; lia).
  assert (HRr : R <= rows) by nia.
  replace fuel with (Z.to_nat R + (fuel - Z.to_nat R))%nat by nia.
  replace (rows * small + T) with (Z.of_nat (Z.to_nat R) * small + ((rows - R) * small + T)) by lia.
  rewrite (decode_rows_full small g _ _ h); unfold DATA_SHARDS_COUNT; rewrite ?Z2Nat.id by done; try lia; try nia.
  2:{ done. }
  2:{ intros i r p Hi Hr Hp. apply Hg; lia. }
  destruct (Z.eq_dec (m mod (small * 10)) 0) as [E0|E0].
  - replace (m - R * (small * 10)) with 0 by lia. replace (R * (small * 10)) with m by lia.
    eexists. destruct (fuel - Z.to_nat R)%nat; reflexivity.
  - assert (rows = R + 1) as -> by (specialize (H1 (rows - 1)); nia).
    destruct (fuel - Z.to_nat R)%nat as [|fuel'] eqn:Ef; [nia|]. cbn [decode_rows].
    rewrite (proj2 (Z.ltb_lt _ _)) by lia. cbn [negb].
    replace ((R + 1 - R) * small + T) with (small + T) by lia.
    destruct (decode_row_spec small g (T0 + R * small) T Hsmall HT 10 0 (fun x => h (R * (small * 10) + x))
                (out ++ tab h (R * (small * 10))) (m - R * (small * 10))) as (rests & E & _); [lia| |].
    { intros i p Hi Hp. rewrite Hg by lia. f_equal; lia. }
    change (Z.of_nat 10) with 10 in E. rewrite E. cbn [obind].
    replace (Z.max 0 (m - R * (small * 10) - 10 * small)) with 0 by lia.
    replace (Z.min (m - R * (small * 10)) (10 * small)) with (m - R * (small * 10)) by lia.
    rewrite <- app_assoc, <- tab_app by nia. replace (R * (small * 10) + (m - R * (small * 10))) with m by lia.
    exists rests. by destruct fuel'.
Qed.

(** Decoding what was encoded, unless the file ends exactly with a large row. *)
Lemma decode_encoded data : len data mod (large * D) <> 0 \/ data = [] ->
  decode_data_file large small (shards_from (shard_byte large small data) 0 D 0 (shard_size large small (len data)))
    (len data) = Ok data.
Proof.
  intros Hmod. unfold decode_data_file. set (n := len data) in *. pose proof (len_nonneg data) as Hn. fold n in Hn.
  destruct (large_rows_spec large Hlarge n Hn) as (L1 & L2 & L3 & L4 & L5).
  destruct (small_rows_spec large small Hlarge Hsmall n Hn) as (S1 & S2 & S3 & S4).
  set (R := large_rows large n) in *. set (m := n - R * (large * D)) in *.
  assert (Hm : 0 <= m) by (destruct (Z.eq_dec n 0); [unfold m; assert (R = 0) by lia; nia|lia]).
  assert (Hend : m < D * large).
  { destruct (Z.eq_dec m (large * D)) as [E|]; [|lia]. destruct Hmod as [Hmod|Hnil].
    - destruct Hmod. apply Z.mod_divide; [unfold DATA_SHARDS_COUNT; lia|]. exists (R + 1). lia.
    - unfold n in *. rewrite Hnil, len_nil in *. unfold DATA_SHARDS_COUNT in *. nia. }
  replace (Z.to_nat n) with (Z.to_nat R + (Z.to_nat n - Z.to_nat R))%nat at 1 by lia.
  unfold shard_size. fold R.
  replace (R * large) with (Z.of_nat (Z.to_nat R) * large) by lia.
  rewrite (decode_rows_full large _ _ _ (byte_at data)); rewrite ?Z2Nat.id by done; try lia; try nia.
  2:{ intros sh out s Hl Hs. apply decode_row_const; [|done]. rewrite Hl. done. }
  2:{ intros i r p Hi Hr Hp. rewrite Z.add_0_l. unfold shard_byte. fold n R. by rewrite source_large. }
  fold m. assert (Hstop : forall fuel sh out, decode_rows fuel (fun s => D * large <=? s) (fun _ => large) sh out m
                          = Ok (sh, out, m)).
  { intros fuel sh out. destruct fuel; cbn [decode_rows]; by rewrite (proj2 (Z.leb_gt _ _)). }
  rewrite Hstop. cbn [obind app].
  destruct (decode_small_rows (shard_byte large small data) (fun x => byte_at data (R * (large * D) + x))
              (0 + R * large) (small_rows large small n) 0 m (tab (byte_at data) (R * (large * D))) (Z.to_nat n))
    as (rests & E); try done.
  - unfold m. unfold DATA_SHARDS_COUNT. nia.
  - intros i r p Hi Hr Hp. unfold shard_byte. fold n R.
    replace (0 + R * large + r * small + p) with (R * large + (r * small + p)) by lia.
    rewrite source_small by lia. f_equal; lia.
  - rewrite Z.add_0_r in E. rewrite E. cbn [obind]. f_equal. rewrite <- tab_app by (unfold DATA_SHARDS_COUNT; nia).
    replace (R * (large * D) + m) with n by (unfold m; lia). apply tab_data.
Qed.

(** A file shorter than a large row, restored up to a shorter length. *)
Lemma decode_prefix data n : 0 <= n <= len data -> n < large * D -> len data <= large * D ->
  decode_data_file large small (shards_from (shard_byte large small data) 0 D 0 (shard_size large small (len data))) n
  = Ok (take (Z.to_nat n) data).
Proof.
  intros Hn Hl Hd. unfold decode_data_file.
  assert (E0 : large_rows large (len data) = 0).
  { unfold large_rows, DATA_SHARDS_COUNT in *. assert ((len data - 1) / (large * 10) < 1) by (apply Z.div_lt_upper_bound; lia). lia. }
  assert (E1 : decode_rows (Z.to_nat n) (fun s => D * large <=? s) (fun _ => large)
    (shards_from (shard_byte large small data) 0 D 0 (shard_size large small (len data))) [] n
    = Ok (shards_from (shard_byte large small data) 0 D 0 (shard_size large small (len data)), [], n)).
  { destruct (Z.to_nat n); cbn [decode_rows]; by rewrite (proj2 (Z.leb_gt _ _)) by lia. }
  rewrite E1. cbn [obind]. clear E1. unfold shard_size. rewrite E0.
  set (rows := (n + small * D - 1) / (small * D)).
  assert (Hrows : 0 <= rows /\ (forall j, 0 <= j < rows -> 0 < n - j * (small * D)) /\ n - rows * (small * D) <= 0
                  /\ rows <= small_rows large small (len data)).
  { unfold rows, small_rows. rewrite E0. unfold DATA_SHARDS_COUNT in *. set (w := small * 10). assert (0 < w) by lia.
    pose proof (Z.div_mod (n + w - 1) w ltac:(lia)) as Ed. pose proof (Z.mod_pos_bound (n + w - 1) w ltac:(lia)) as Eb.
    assert (0 <= (n + w - 1) / w) by (apply Z.div_pos; lia).
    repeat split; [done|intros j Hj; nia|nia|]. apply Z.div_le_mono; lia. }
  destruct Hrows as (R1 & R2 & R3 & R4).
  destruct (decode_small_rows (shard_byte large small data) (byte_at data) 0 rows
    ((small_rows large small (len data) - rows) * small) n [] (Z.to_nat n)) as (rests & E); try done; try nia.
  - intros i r p Hi Hr Hp. unfold shard_byte. rewrite E0.
    replace (0 + r * small + p) with (0 * large + (r * small + p)) by lia. rewrite source_small by lia. f_equal; lia.
  - replace (0 * large + small_rows large small (len data) * small)
      with (rows * small + (small_rows large small (len data) - rows) * small) by lia.
    rewrite E. cbn [obind app]. f_equal. rewrite <- (tab_data data) at 2.
    replace (len data) with (n + (len data - n)) by lia. symmetry. apply take_drop_tab; lia.
Qed.

End roundtrip.

(** ** The properties of the codec *)

Lemma write_ec_files_ok {RS : ReedSolomon} data : write_ec_files data
  = Ok (coded (shard_byte ERASURE_CODING_LARGE_BLOCK_SIZE ERASURE_CODING_SMALL_BLOCK_SIZE data)
          (shard_size ERASURE_CODING_LARGE_BLOCK_SIZE ERASURE_CODING_SMALL_BLOCK_SIZE (len data))).
Proof. unfold write_ec_files. by rewrite encode_layout by (vm_compute; reflexivity). Qed.

Lemma write_ec_files_lens {RS : ReedSolomon} data shards : write_ec_files data = Ok shards ->
  Forall (fun s => len s = shard_size ERASURE_CODING_LARGE_BLOCK_SIZE ERASURE_CODING_SMALL_BLOCK_SIZE (len data)) shards.
Proof.
  rewrite write_ec_files_ok. intros [= <-].
  set (lg := ERASURE_CODING_LARGE_BLOCK_SIZE) in *. set (sm := ERASURE_CODING_SMALL_BLOCK_SIZE).
  assert (Hlg : 0 < lg) by (vm_compute; reflexivity). assert (Hsm : 0 < sm) by (vm_compute; reflexivity).
  destruct (large_rows_spec lg Hlg (len data) (len_nonneg data)) as (L1 & _).
  destruct (small_rows_spec lg sm Hlg Hsm (len data) (len_nonneg data)) as (S1 & _).
  unfold coded, data_rows. apply Forall_app. split; apply Forall_forall; intros s Hs;
    apply list_elem_of_fmap in Hs as (i & -> & _); apply tab_len; unfold shard_size; nia.
Qed.

(** C29: a data file of any size but a positive multiple of ten large blocks
    survives erasure coding: [write_ec_files] produces fourteen shards of the
    same size, and [write_data_file] restores the file from the ten data
    shards. *)
Theorem ec_files_roundtrip : forall (RS : ReedSolomon) data,
  len data mod (ERASURE_CODING_LARGE_BLOCK_SIZE * DATA_SHARDS_COUNT) <> 0 \/ data = [] ->
  exists shards, write_ec_files data = Ok shards
    /\ length shards = Z.to_nat TOTAL_SHARDS_COUNT
    /\ Forall (fun s => len s = shard_size ERASURE_CODING_LARGE_BLOCK_SIZE ERASURE_CODING_SMALL_BLOCK_SIZE (len data)) shards
    /\ write_data_file shards (len data) = Ok data.
Proof.
  intros RS data Hmod. eexists. split; [apply write_ec_files_ok|]. split; [apply coded_length|].
  split; [apply write_ec_files_lens, write_ec_files_ok|].
  unfold write_data_file. rewrite take_coded. apply decode_encoded; [vm_compute; reflexivity..|done].
Qed.

(** A code whose parity is zero, for examples. *)
#[local] Instance zero_parity : ReedSolomon.
Proof.
  refine {| rs_parity := fun _ => replicate (Z.to_nat PARITY_SHARDS_COUNT) Byte.x00 |}.
  intros col. apply length_replicate.
Defined.

Definition tiny : list byte := [Byte.x01; Byte.x02; Byte.x03].

Lemma ec_files_roundtrip_witness : exists shards, write_ec_files tiny = Ok shards
  /\ write_data_file shards (len tiny) = Ok tiny.
Proof.
  destruct (ec_files_roundtrip zero_parity tiny) as (shards & H1 & _ & _ & H2).
  - left. vm_compute. discriminate.
  - exists shards. split; [exact H1|exact H2].
Defined.

(** One large row, read back from shards cut into small ones. *)
Lemma decode_boundary large small data : 0 < small < large -> large mod small = 0 -> len data = large * D ->
  exists restored, decode_data_file large small
      (shards_from (shard_byte large small data) 0 D 0 (shard_size large small (len data))) (len data) = Ok restored
    /\ byte_at restored small = byte_at data (small * D).
Proof.
  intros Hs Hd Hlen. rewrite Hlen. unfold DATA_SHARDS_COUNT in *.
  assert (HL : large_rows large (large * 10) = 0).
  { unfold large_rows, DATA_SHARDS_COUNT. rewrite Z.div_small by lia. done. }
  assert (HS : shard_size large small (large * 10) = large).
  { unfold shard_size, small_rows. rewrite HL. unfold DATA_SHARDS_COUNT.
    pose proof (Z.div_mod large small ltac:(lia)) as E. rewrite Hd in E.
    assert ((large * 10 - 0 * (large * 10) + small * 10 - 1) / (small * 10) = large / small) as ->.
    { symmetry. apply (Z.div_unique _ _ _ (small * 10 - 1)); lia. }
    lia. }
  rewrite HS. set (g := shard_byte large small data). unfold decode_data_file.
  assert (Hf : exists f, Z.to_nat (large * 10) = S f) by (exists (Nat.pred (Z.to_nat (large * 10))); lia).
  destruct Hf as [f Ef]. rewrite Ef. cbn [decode_rows]. unfold DATA_SHARDS_COUNT.
  rewrite (proj2 (Z.leb_le (10 * large) (large * 10))) by lia. cbn [negb].
  rewrite decode_row_const; [|unfold shards_from, len; rewrite length_map, length_seqZ; lia|lia].
  set (h := fun x => g (x / large) (x mod large)).
  destruct (decode_row_spec large g 0 0 ltac:(lia) ltac:(lia) 10 0 h [] (large * 10)) as (rests & E & _); [lia| |].
  { intros i p Hi Hp. unfold h. f_equal.
    - symmetry. symmetry. apply (Z.div_unique _ _ _ p); lia.
    - symmetry. symmetry. apply (Z.mod_unique _ _ i); lia. }
  change (Z.of_nat 10) with 10 in E. rewrite Z.add_0_r in E. rewrite E. cbn [obind app].
  replace (Z.max 0 (large * 10 - 10 * large)) with 0 by lia.
  replace (Z.min (large * 10) (10 * large)) with (large * 10) by lia.
  assert (Hstop : decode_rows f (fun s => 10 * large <=? s) (fun _ => large) rests (tab h (large * 10)) 0
                  = Ok (rests, tab h (large * 10), 0)).
  { destruct f; cbn [decode_rows]; by rewrite (proj2 (Z.leb_gt _ _)) by lia. }
  rewrite Hstop. cbn. eexists. split; [reflexivity|]. rewrite byte_at_tab by lia. unfold h, g, shard_byte.
  rewrite Z.div_small, Z.mod_small, Hlen by lia. rewrite HL.
  assert (Hp := source_small large small 0 0 1 0 ltac:(lia) ltac:(lia) ltac:(lia) ltac:(lia)).
  replace (0 * large + (1 * small + 0)) with small in Hp by lia. rewrite Hp.
  unfold DATA_SHARDS_COUNT. f_equal. lia.
Qed.

(** A data file of exactly ten large blocks does not survive: the encoder
    cuts it into small rows, the decoder reads large ones, so byte [small] of
    the restored file is byte [10 * small] of the original. *)
Theorem ec_boundary_scrambled : forall (RS : ReedSolomon) data,
  len data = ERASURE_CODING_LARGE_BLOCK_SIZE * DATA_SHARDS_COUNT ->
  exists shards restored, write_ec_files data = Ok shards
    /\ write_data_file shards (len data) = Ok restored
    /\ byte_at restored ERASURE_CODING_SMALL_BLOCK_SIZE
       = byte_at data (ERASURE_CODING_SMALL_BLOCK_SIZE * DATA_SHARDS_COUNT).
Proof.
  intros RS data Hlen. rewrite write_ec_files_ok. unfold write_data_file. eexists. rewrite take_coded.
  destruct (decode_boundary ERASURE_CODING_LARGE_BLOCK_SIZE ERASURE_CODING_SMALL_BLOCK_SIZE data) as (r & H1 & H2);
    [vm_compute; split; reflexivity|vm_compute; reflexivity|done|].
  exists r. split; [reflexivity|]. split; [exact H1|exact H2].
Qed.

Definition boundary_file : list byte :=
  replicate (Z.to_nat (ERASURE_CODING_LARGE_BLOCK_SIZE * DATA_SHARDS_COUNT)) Byte.x00.

Lemma boundary_file_len : len boundary_file = ERASURE_CODING_LARGE_BLOCK_SIZE * DATA_SHARDS_COUNT.
Proof. unfold boundary_file. rewrite len_replicate. apply Z2Nat.id. vm_compute. discriminate. Qed.

Lemma ec_boundary_scrambled_witness : exists shards restored,
  write_ec_files boundary_file = Ok shards /\ write_data_file shards (len boundary_file) = Ok restored
  /\ byte_at restored ERASURE_CODING_SMALL_BLOCK_SIZE
     = byte_at boundary_file (ERASURE_CODING_SMALL_BLOCK_SIZE * DATA_SHARDS_COUNT).
Proof. exact (ec_boundary_scrambled zero_parity boundary_file boundary_file_len). Defined.
