(* ===== verification/EcRebuild.v ===== *)
(** * Rebuilding lost shards ([rebuild_ec_files_inner] of
      [storage/erasure_coding/encoder.rs])

    With at least ten of the fourteen shards on disk, the loop restores the
    others exactly, for any code that recovers a column from the bytes left of it. *)

From S2P Require Import Prelude Types Text Ttl Replica Errors Files ShardBits EcCodec EcCodecFacts.
#[local] Open Scope list_scope.
#[local] Open Scope Z_scope.

(** A column of which only the shards in [present] are left. *)
Definition masked {A} (present : Z -> bool) (word : list A) : list (option A) :=
  imap (fun i b => if present (Z.of_nat i) then Some b else None) word.

(** What [reed_solomon_erasure] documents of every choice of at least ten
    present shards: a coded column is reconstructed from what is left of it. *)
Definition recovers_from {RS : ReedSolomon} {RI : ReedSolomonInverse} (present : Z -> bool) : Prop :=
  forall d, length d = Z.to_nat DATA_SHARDS_COUNT ->
    rs_reconstruct (masked present (d ++ rs_parity d)) = Some (d ++ rs_parity d).

(** A list given position by position, with its positions. *)
Lemma imap_seqZ {A B} (g : Z -> A -> B) (s : Z -> A) l k :
  imap (fun i x => g (k + Z.of_nat i) x) (map s (seqZ k l)) = map (fun i => g i (s i)) (seqZ k l).
Proof.
  destruct (Z.leb_spec 0 l) as [Hl|Hl]; [|by rewrite seqZ_nil by lia].
  revert k. pattern l. apply natlike_ind; [intros k; by rewrite seqZ_nil by lia| |done].
  intros m Hm IH k. rewrite seqZ_cons by lia. cbn [map imap]. rewrite Z.add_0_r. f_equal.
  rewrite Z.pred_succ, <- (IH (Z.succ k)). apply imap_ext. intros i x _. cbn. f_equal. lia.
Qed.

Section rebuild.
Context {RS : ReedSolomon} {RI : ReedSolomonInverse}.
(** Byte [p] of shard [i], and the coded column at [p]. *)
Context (f : Z -> Z -> byte) (n : Z) (present : Z -> bool).
Context (Hrec : recovers_from present).
Definition col_at (p : Z) : list byte :=
  let d := map (fun i => f i p) (seqZ 0 DATA_SHARDS_COUNT) in d ++ rs_parity d.
Definition shard_at (i p : Z) : byte := byte_at (col_at p) i.

Definition ids : list Z := seqZ 0 TOTAL_SHARDS_COUNT.
Definition kept {A} (g : Z -> A) : list (option A) := map (fun i => if present i then Some (g i) else None) ids.

Lemma col_len p : length (col_at p) = Z.to_nat TOTAL_SHARDS_COUNT.
Proof. unfold col_at. rewrite length_app, rs_parity_len, length_map, length_seqZ. done. Qed.

Lemma map_byte_at (l : list byte) k : length l = Z.to_nat k -> map (byte_at l) (seqZ 0 k) = l.
Proof.
  intros Hl. destruct (Z.leb_spec 0 k) as [Hk|Hk].
  - change (tab (byte_at l) k = l). replace k with (len l) by (unfold len; lia). apply tab_data.
  - rewrite seqZ_nil by lia. destruct l; [done|]. cbn in Hl. lia.
Qed.

(** The shards of the encoder are these columns, row by row. *)
Lemma coded_rows m : coded f m = map (fun i => tab (shard_at i) m) ids.
Proof.
  unfold coded, data_rows, ids.
  replace TOTAL_SHARDS_COUNT with (DATA_SHARDS_COUNT + PARITY_SHARDS_COUNT) by done.
  rewrite seqZ_app, map_app by done. f_equal.
Qed.

Lemma kept_count {A B} (g : Z -> A) (h : Z -> B) : len (omap id (kept g)) = len (omap id (kept h)).
Proof.
  unfold kept, len. f_equal. generalize ids. intros l. induction l as [|i l IH]; [done|]. cbn.
  destruct (present i); cbn; [by rewrite IH|done].
Qed.

Context (Hten : DATA_SHARDS_COUNT <= len (omap id (kept (fun i => i)))).

Lemma kept_masked {A} (g : Z -> A) : masked present (map g ids) = kept g.
Proof. exact (imap_seqZ (fun i x => if present i then Some x else None) g TOTAL_SHARDS_COUNT 0). Qed.

Lemma recover_column p : rs_reconstruct (kept (fun i => shard_at i p)) = Some (col_at p).
Proof.
  rewrite <- kept_masked. pose proof (map_byte_at (col_at p) TOTAL_SHARDS_COUNT (col_len p)) as E.
  change (map (fun i => shard_at i p) ids = col_at p) in E. rewrite E.
  apply Hrec. by rewrite length_map, length_seqZ.
Qed.

Lemma mapM_some {A B} (g : A -> option B) (h : A -> B) l : (forall x, x ∈ l -> g x = Some (h x)) -> mapM g l = Some (map h l).
Proof.
  induction l as [|x l IH]; intros H; [done|]. cbn. rewrite H by by left. cbn.
  rewrite IH by (intros y Hy; apply H; by right). done.
Qed.

(** A block of rows. *)
Lemma reconstruct_kept start B : 0 <= B ->
  reconstruct_rows (kept (fun i => tab (fun p => shard_at i (start + p)) B)) B
  = Some (map (fun i => tab (fun p => shard_at i (start + p)) B) ids).
Proof.
  intros HB. unfold reconstruct_rows. rewrite (kept_count _ (fun i => i)).
  rewrite (proj2 (Z.ltb_ge _ _)) by done.
  rewrite (mapM_some _ (fun j => col_at (start + j))).
  - f_equal. replace (len (kept _)) with TOTAL_SHARDS_COUNT.
    2:{ unfold kept, len. rewrite length_map. unfold ids. rewrite length_seqZ. done. }
    fold ids. apply map_ext. intros i. rewrite map_map. done.
  - intros j Hj%elem_of_seqZ.
    rewrite <- recover_column. f_equal. unfold kept. rewrite map_map. apply map_ext. intros i.
    destruct (present i); [|done]. by rewrite byte_at_tab by lia.
Qed.

(** ** The loop *)

Let B := ERASURE_CODING_SMALL_BLOCK_SIZE.

Lemma block_of i start m : 0 <= start -> 0 <= m -> start + B + m = n ->
  take (Z.to_nat B) (drop (Z.to_nat start) (tab (shard_at i) n)) = tab (fun p => shard_at i (start + p)) B.
Proof.
  intros H1 H2 <-. destruct (take_drop_tab (shard_at i) (B + m) start) as [_ Hd]; [done|unfold B, ERASURE_CODING_SMALL_BLOCK_SIZE; lia|].
  rewrite <- Z.add_assoc, Hd.
  destruct (take_drop_tab (fun p => shard_at i (start + p)) m B) as [Ht _]; [unfold B, ERASURE_CODING_SMALL_BLOCK_SIZE; lia|done|].
  done.
Qed.

Lemma read_blocks_kept l start size : 0 <= start -> start + B <= n -> size = 0 \/ size = B ->
  exists size', read_blocks (map (fun i => if present i then Some (tab (shard_at i) n) else None) l) start size
  = Ok (Some (map (fun i => if present i then Some (tab (fun p => shard_at i (start + p)) B) else None) l, size'))
  /\ (size' = size \/ size' = B) /\ (size = B \/ existsb present l = true -> size' = B).
Proof.
  intros H1 H2. revert size. induction l as [|i l IH]; intros size Hs; cbn [map read_blocks existsb].
  { exists size. split; [done|]. split; [by left|]. intros [?|?]; done. }
  destruct (present i); cbn [orb].
  - change ERASURE_CODING_SMALL_BLOCK_SIZE with B. rewrite (block_of i start (n - start - B)) by lia. rewrite tab_len by (unfold B, ERASURE_CODING_SMALL_BLOCK_SIZE; lia).
    replace (B =? 0) with false by done.
    replace (if size =? 0 then B else size) with B by (destruct Hs as [->| ->]; done).
    rewrite Z.eqb_refl. cbn [negb]. destruct (IH B) as (s' & E & Hs1 & Hs2); [by right|].
    rewrite E. cbn [obind]. exists s'. split; [done|]. rewrite Hs2 by by left. split; [by right|done].
  - destruct (IH size Hs) as (s' & E & Hs1 & Hs2). rewrite E. cbn [obind]. by exists s'.
Qed.

Lemma existsb_kept : existsb present ids = true.
Proof.
  unfold kept in Hten. revert Hten. generalize ids. intros l. induction l as [|i l IH]; cbn; [done|].
  destruct (present i); [done|]. exact IH.
Qed.

Lemma read_blocks_end l size : existsb present l = true ->
  read_blocks (map (fun i => if present i then Some (tab (shard_at i) n) else None) l) n size = Ok None.
Proof.
  induction l as [|i l IH]; cbn [map existsb read_blocks]; [done|]. destruct (present i); cbn [orb].
  - intros _. rewrite drop_ge; [by rewrite take_nil|]. destruct (Z.leb_spec 0 n).
    + pose proof (tab_len (shard_at i) n). unfold len in *. lia.
    + rewrite tab_nil by lia. cbn. lia.
  - intros H. by rewrite IH.
Qed.

(** The missing shards up to [m], nothing for the others. *)
Definition rebuilt (m : Z) : list (list byte) := map (fun i => if present i then [] else tab (shard_at i) m) ids.

Lemma append_rebuilt m k : 0 <= m -> 0 <= k ->
  append_missing (kept (fun i => tab (shard_at i) n)) (map (fun i => tab (fun p => shard_at i (m + p)) k) ids) (rebuilt m)
  = rebuilt (m + k).
Proof.
  intros Hm Hk. unfold append_missing, kept, rebuilt. generalize ids. intros l.
  induction l as [|i l IH]; [done|]. cbn. rewrite IH. f_equal. destruct (present i); [done|].
  by rewrite tab_app.
Qed.

Lemma rebuild_loop_spec (r : nat) : forall fuel start size, (r < fuel)%nat -> 0 <= start ->
  start + Z.of_nat r * B = n -> size = 0 \/ size = B ->
  rebuild_loop fuel (kept (fun i => tab (shard_at i) n)) start size (rebuilt start) = Ok (rebuilt n).
Proof.
  assert (HB : 0 < B) by done. induction r as [|r IH]; intros fuel start size Hf H0 Hn Hs; (destruct fuel as [|fuel]; [lia|]); cbn [rebuild_loop].
  - assert (start = n) as -> by lia. unfold kept at 1. rewrite read_blocks_end by apply existsb_kept. done.
  - unfold kept at 1. destruct (read_blocks_kept ids start size) as (s' & E & _ & Hs'); [done|nia|done|].
    rewrite E. cbn [map_err obind]. rewrite Hs' by (right; apply existsb_kept).
    pose proof (reconstruct_kept start B ltac:(lia)) as Hr. unfold kept at 1 in Hr. rewrite Hr.
    rewrite append_rebuilt by lia. apply IH; [lia|lia|nia|by right].
Qed.

Lemma rebuild_kept (r : nat) : Z.of_nat r * B = n ->
  rebuild_ec_files (kept (fun i => tab (shard_at i) n)) = Ok (rebuilt n).
Proof.
  intros Hn. assert (HB : 0 < B) by done. unfold rebuild_ec_files.
  replace (replicate (length (kept (fun i => tab (shard_at i) n))) []) with (rebuilt 0).
  2:{ unfold rebuilt, kept. rewrite length_map. generalize ids. intros l. induction l as [|i l IH]; [done|].
      cbn. rewrite IH. by destruct (present i). }
  apply rebuild_loop_spec with (r := r); [|done|lia|by left].
  assert (Hlong : n <= fold_right (fun (i : option (list byte)) m => match i with Some x => Z.max (len x) m | None => m end) 0
    (kept (fun i => tab (shard_at i) n))).
  { unfold kept. pose proof existsb_kept as He. revert He. generalize ids. intros l. induction l as [|i l IH]; [done|].
    cbn [existsb map fold_right]. destruct (present i); [|exact IH]. intros _. rewrite tab_len by nia. lia. }
  nia.
Qed.

End rebuild.

Lemma shard_size_blocks (data : list byte) :
  exists r : nat, Z.of_nat r * ERASURE_CODING_SMALL_BLOCK_SIZE
    = shard_size ERASURE_CODING_LARGE_BLOCK_SIZE ERASURE_CODING_SMALL_BLOCK_SIZE (len data).
Proof.
  pose proof (len_nonneg data) as Hn. unfold shard_size.
  destruct (large_rows_spec ERASURE_CODING_LARGE_BLOCK_SIZE ltac:(done) (len data) Hn) as (H1 & _).
  destruct (small_rows_spec ERASURE_CODING_LARGE_BLOCK_SIZE ERASURE_CODING_SMALL_BLOCK_SIZE ltac:(done) ltac:(done) (len data) Hn)
    as (H2 & _).
  set (a := large_rows _ _) in *. set (b := small_rows _ _ _) in *.
  exists (Z.to_nat (a * 1024 + b)). rewrite Z2Nat.id by lia.
  change ERASURE_CODING_LARGE_BLOCK_SIZE with (1024 * ERASURE_CODING_SMALL_BLOCK_SIZE). ring.
Qed.

(** Whenever at least ten of the fourteen shards of a data file are left,
    rebuilding succeeds and restores every lost shard byte for byte; the shards
    that are there are not written. *)
Theorem rebuild_restores : forall (RS : ReedSolomon) (RI : ReedSolomonInverse) data shards present,
  recovers_from present -> write_ec_files data = Ok shards ->
  DATA_SHARDS_COUNT <= len (omap id (masked present shards)) ->
  rebuild_ec_files (masked present shards)
  = Ok (imap (fun i s => if present (Z.of_nat i) then [] else s) shards).
Proof.
  intros RS RI data shards present Hrec Hw. rewrite write_ec_files_ok in Hw. injection Hw as <-.
  set (f := shard_byte _ _ data). set (n := shard_size _ _ (len data)). rewrite coded_rows, kept_masked.
  intros Hten. destruct (shard_size_blocks data) as [r Hr]. fold n in Hr.
  pose proof (imap_seqZ (fun i (x : list byte) => if present i then [] else x) (fun i => tab (shard_at f i) n)
    TOTAL_SHARDS_COUNT 0) as Hi.
  etrans; [refine (rebuild_kept f n present Hrec _ r Hr)|f_equal; exact (eq_sym Hi)].
  rewrite (kept_count _ _ (fun i => tab (shard_at f i) n)). exact Hten.
Qed.

(** ** Example: a code that mirrors the first four data shards *)

#[local] Instance mirror : ReedSolomon.
Proof.
  refine {| rs_parity := fun col => take 4 (col ++ replicate 4 Byte.x00) |}.
  intros col. rewrite length_take, length_app, length_replicate. change (Z.to_nat PARITY_SHARDS_COUNT) with 4%nat. lia.
Defined.

#[local] Instance mirror_inverse : ReedSolomonInverse :=
  {| rs_reconstruct := fun cols =>
       let data := imap (fun i (o : option byte) => match o with Some b => Some b | None => mjoin (cols !! (i + 10)%nat) end)
                     (take 10 cols) in
       match mapM id data with Some d => Some (d ++ rs_parity d) | None => None end |}.

Definition first_four_lost (i : Z) : bool := 4 <=? i.

Lemma mirror_recovers : recovers_from first_four_lost.
Proof. intros d Hd. do 10 (destruct d as [|? d]; [discriminate Hd|]). destruct d; [reflexivity|discriminate Hd]. Qed.

Lemma rebuild_restores_witness : exists shards, write_ec_files tiny = Ok shards
  /\ rebuild_ec_files (masked first_four_lost shards)
     = Ok (imap (fun i s => if first_four_lost (Z.of_nat i) then [] else s) shards).
Proof.
  assert (exists shards, write_ec_files tiny = Ok shards /\ length shards = Z.to_nat TOTAL_SHARDS_COUNT) as (shards & H1 & H2).
  { eexists. split; [apply write_ec_files_ok|apply coded_length]. }
  exists shards. split; [exact H1|].
  apply (rebuild_restores mirror mirror_inverse tiny shards first_four_lost mirror_recovers H1). clear H1.
  do 14 (destruct shards as [|? shards]; [discriminate H2|]). destruct shards; [|discriminate H2]. vm_compute. discriminate.
Defined.
