(* ===== verification/EcLocate.v ===== *)
(** * Locating a needle in the shards ([storage/erasure_coding/locate.rs])

    A range of the data file is a list of intervals, each inside one block of
    one shard. *)

From S2P Require Import Prelude Types Errors ShardBits EcCodec EcCodecFacts.
From Stdlib Require Import Strings.Byte.
#[local] Open Scope list_scope.
#[local] Open Scope Z_scope.

Record interval := Interval {
  block_index : Z;
  inner_block_offset : Z;
  iv_size : Z;
  is_large_block : bool;
  large_block_rows : Z;
}.

Module Locate.

Definition shard_id (iv : interval) : Z := u8 (iv.(block_index) mod DATA_SHARDS_COUNT).

Definition offset (large_block_size small_block_size : Z) (iv : interval) : Z :=
  let row_index := iv.(block_index) / DATA_SHARDS_COUNT in
  if iv.(is_large_block) then iv.(inner_block_offset) + row_index * large_block_size
  else iv.(inner_block_offset) + (iv.(large_block_rows) * large_block_size + row_index * small_block_size).

Definition locate_offset_within_blocks (block_len offset : Z) : Z * Z :=
  (offset / block_len, offset mod block_len).

Definition locate_offset (large_block_len small_block_len data_size offset : Z) : Z * bool * Z :=
  let large_row_size := large_block_len * DATA_SHARDS_COUNT in
  let large_block_rows := data_size / (large_block_len * DATA_SHARDS_COUNT) in
  if offset <? large_block_rows * large_row_size then
    let '(block_idx, inner) := locate_offset_within_blocks large_block_len offset in (block_idx, true, inner)
  else
    let offset := offset - large_block_rows * large_row_size in
    let '(block_idx, inner) := locate_offset_within_blocks small_block_len offset in (block_idx, false, inner).

(** The [while size > 0] loop; every turn but the last takes the rest of a
    block, at least a byte, so a turn per byte is enough. *)
Fixpoint locate_loop (fuel : nat) (large_block_len small_block_len rows block_index inner size : Z) (is_large : bool)
  : option (list interval) :=
  if size <=? 0 then Some []
  else
    match fuel with
    | O => None
    | S fuel' =>
        let block_remaining := (if is_large then large_block_len else small_block_len) - inner in
        if size <=? block_remaining then Some [Interval block_index inner size is_large rows]
        else
          let next := block_index + 1 in
          let wrap := is_large && (next =? rows * DATA_SHARDS_COUNT) in
          match locate_loop fuel' large_block_len small_block_len rows (if wrap then 0 else next) 0
                  (size - block_remaining) (if wrap then false else is_large) with
          | Some ivs => Some (Interval block_index inner block_remaining is_large rows :: ivs)
          | None => None
          end
    end.

Definition locate_data (large_block_len small_block_len data_size offset size : Z) : option (list interval) :=
  let '(block_index, is_large, inner) := locate_offset large_block_len small_block_len data_size offset in
  let rows := (data_size + small_block_len * DATA_SHARDS_COUNT) / (large_block_len * DATA_SHARDS_COUNT) in
  locate_loop (Z.to_nat size) large_block_len small_block_len rows block_index inner size is_large.

End Locate.

(** Reading the intervals from the shard files, [None] past the end of one. *)
Definition read_interval (large small : Z) (shards : list (list byte)) (iv : interval) : option (list byte) :=
  match shards !! Z.to_nat (Locate.shard_id iv) with
  | None => None
  | Some s => slice s (Locate.offset large small iv) (Locate.offset large small iv + iv.(iv_size))
  end.

Fixpoint read_intervals (large small : Z) (shards : list (list byte)) (ivs : list interval) : option (list byte) :=
  match ivs with
  | [] => Some []
  | iv :: ivs' =>
      match read_interval large small shards iv, read_intervals large small shards ivs' with
      | Some a, Some b => Some (a ++ b)
      | _, _ => None
      end
  end.

(** ** Located reads return the data *)

Section reads.
Context (large small : Z) (Hsmall : 0 < small) (Hlarge : 0 < large).
Context (data : list byte) (rows srows : Z) (Hrows : 0 <= rows) (Hsrows : 0 <= srows).

(** Ten shards that hold [rows] large rows and [srows] small rows. *)
Definition holds (shards : list (list byte)) : Prop :=
  forall i, 0 <= i < D -> shards !! Z.to_nat i
    = Some (tab (fun p => byte_at data (source_pos large small rows i p)) (rows * large + srows * small)).

Context (shards : list (list byte)) (Hholds : holds shards).

Lemma block_divmod b : 0 <= b -> 0 <= b mod D < D /\ 0 <= b / D /\ b = b / D * D + b mod D.
Proof.
  intros Hb. pose proof (Z.mod_pos_bound b D). pose proof (Z.div_mod b D).
  assert (0 <= b / D) by (apply Z.div_pos; unfold DATA_SHARDS_COUNT; lia).
  unfold DATA_SHARDS_COUNT in *. lia.
Qed.

Lemma read_shard i a n : 0 <= i < D -> 0 <= a -> 0 <= n -> a + n <= rows * large + srows * small ->
  forall iv, Locate.shard_id iv = i -> Locate.offset large small iv = a -> iv_size iv = n ->
  read_interval large small shards iv
  = Some (tab (fun p => byte_at data (source_pos large small rows i (a + p))) n).
Proof.
  intros Hi Ha Hn Hl iv Es Eo En. unfold read_interval. rewrite Es, Hholds by done. rewrite Eo, En.
  by rewrite slice_tab.
Qed.

Lemma shard_id_eq b x y z w : 0 <= b -> Locate.shard_id (Interval b x y z w) = b mod D.
Proof.
  intros Hb. unfold Locate.shard_id. cbn. apply u8_id. destruct (block_divmod b Hb) as (H & _).
  unfold in_u8, DATA_SHARDS_COUNT in *. lia.
Qed.

(** An interval in a large block. *)
Lemma read_large b inner size : 0 <= b < rows * D -> 0 <= inner -> 0 <= size -> inner + size <= large ->
  read_interval large small shards (Interval b inner size true rows)
  = Some (tab (fun p => byte_at data (b * large + inner + p)) size).
Proof.
  intros Hb Hi Hs Hl. destruct (block_divmod b ltac:(lia)) as (Hm & Hd & Eb).
  assert (b / D < rows) by (unfold DATA_SHARDS_COUNT in *; nia).
  rewrite (read_shard (b mod D) (inner + b / D * large) size); try done; try nia; [|by apply shard_id_eq; lia].
  f_equal. apply tab_ext. intros p Hp. f_equal.
  replace (inner + b / D * large + p) with (b / D * large + (inner + p)) by lia.
  rewrite source_large by lia. rewrite Eb at 3. lia.
Qed.

(** An interval in a small block. *)
Lemma read_small b inner size : 0 <= b < srows * D -> 0 <= inner -> 0 <= size -> inner + size <= small ->
  read_interval large small shards (Interval b inner size false rows)
  = Some (tab (fun p => byte_at data (rows * (large * D) + b * small + inner + p)) size).
Proof.
  intros Hb Hi Hs Hl. destruct (block_divmod b ltac:(lia)) as (Hm & Hd & Eb).
  assert (b / D < srows) by (unfold DATA_SHARDS_COUNT in *; nia).
  rewrite (read_shard (b mod D) (inner + (rows * large + b / D * small)) size); try done; try nia; [|by apply shard_id_eq; lia].
  f_equal. apply tab_ext. intros p Hp. f_equal.
  replace (inner + (rows * large + b / D * small) + p) with (rows * large + (b / D * small + (inner + p))) by lia.
  rewrite source_small by lia. rewrite Eb at 3. lia.
Qed.

Lemma concat_reads h m n : 0 <= m -> 0 <= n -> tab h m ++ tab (fun p => h (m + p)) n = tab h (m + n).
Proof. intros. by rewrite tab_app. Qed.

(** The loop in the small blocks. *)
Lemma loop_small fuel : forall b inner size, 0 <= b -> 0 <= inner < small -> 0 <= size -> (Z.to_nat size <= fuel)%nat ->
  b * small + inner + size <= srows * (small * D) ->
  exists ivs, Locate.locate_loop fuel large small rows b inner size false = Some ivs
    /\ read_intervals large small shards ivs
       = Some (tab (fun p => byte_at data (rows * (large * D) + b * small + inner + p)) size).
Proof.
  induction fuel as [|fuel IH]; intros b inner size Hb Hi Hs Hf Hend; cbn [Locate.locate_loop].
  { assert (size = 0) as -> by lia. exists []. by rewrite tab_nil by lia. }
  destruct (Z.leb_spec size 0); [exists []; by rewrite tab_nil by lia|].
  assert (Hbr : 0 <= b < srows * D) by (unfold DATA_SHARDS_COUNT in *; nia).
  destruct (Z.leb_spec size (small - inner)).
  - eexists. split; [reflexivity|]. cbn [read_intervals]. rewrite read_small by lia. by rewrite app_nil_r.
  - cbn [andb]. destruct (IH (b + 1) 0 (size - (small - inner))) as (ivs & -> & Hr); try lia.
    eexists. split; [reflexivity|]. cbn [read_intervals]. rewrite read_small by lia. rewrite Hr. f_equal.
    rewrite (tab_ext _ (fun p => byte_at data (rows * (large * D) + b * small + inner + (small - inner + p))) (size - _)).
    2:{ intros p Hp. f_equal. lia. }
    rewrite (concat_reads (fun p => byte_at data (rows * (large * D) + b * small + inner + p))) by lia.
    f_equal. lia.
Qed.

(** The loop from a large block. *)
Lemma loop_large fuel : forall b inner size, 0 <= b < rows * D -> 0 <= inner < large -> 0 <= size ->
  (Z.to_nat size <= fuel)%nat ->
  b * large + inner + size <= rows * (large * D) + srows * (small * D) ->
  exists ivs, Locate.locate_loop fuel large small rows b inner size true = Some ivs
    /\ read_intervals large small shards ivs = Some (tab (fun p => byte_at data (b * large + inner + p)) size).
Proof.
  induction fuel as [|fuel IH]; intros b inner size Hb Hi Hs Hf Hend; cbn [Locate.locate_loop].
  { assert (size = 0) as -> by lia. exists []. by rewrite tab_nil by lia. }
  destruct (Z.leb_spec size 0); [exists []; by rewrite tab_nil by lia|].
  destruct (Z.leb_spec size (large - inner)).
  - eexists. split; [reflexivity|]. cbn [read_intervals]. rewrite read_large by lia. by rewrite app_nil_r.
  - cbn [andb]. set (m := large - inner) in *.
    assert (Hnext : exists ivs, Locate.locate_loop fuel large small rows
        (if b + 1 =? rows * D then 0 else b + 1) 0 (size - m) (if b + 1 =? rows * D then false else true) = Some ivs
      /\ read_intervals large small shards ivs
         = Some (tab (fun p => byte_at data (b * large + inner + (m + p))) (size - m))).
    { destruct (Z.eqb_spec (b + 1) (rows * D)) as [E|E].
      - destruct (loop_small fuel 0 0 (size - m)) as (ivs & Hl & Hr); try lia.
        exists ivs. split; [done|]. rewrite Hr. f_equal. apply tab_ext. intros p Hp. f_equal. nia.
      - destruct (IH (b + 1) 0 (size - m)) as (ivs & Hl & Hr); try lia.
        exists ivs. split; [done|]. rewrite Hr. f_equal. apply tab_ext. intros p Hp. f_equal. lia. }
    destruct Hnext as (ivs & -> & Hr). eexists. split; [reflexivity|]. cbn [read_intervals].
    rewrite read_large by lia. rewrite Hr. f_equal.
    rewrite (concat_reads (fun p => byte_at data (b * large + inner + p))) by lia. f_equal. lia.
Qed.

End reads.

Lemma locate_reads {RS : ReedSolomon} large small data shards offset size buf :
  0 < small -> 0 < large -> 0 < buf -> large mod buf = 0 -> small mod buf = 0 ->
  encode_data_file data buf large small = Ok shards ->
  (small_rows large small (len data) + 1) * small < large ->
  0 <= offset -> 0 <= size -> offset + size <= len data ->
  exists ivs, Locate.locate_data large small (shard_size large small (len data) * D) offset size = Some ivs
    /\ read_intervals large small shards ivs = slice data offset (offset + size).
Proof.
  intros Hs Hl Hb Hm1 Hm2 He Hroom Ho Hz Hend. rewrite encode_layout in He by done. injection He as <-.
  set (n := len data) in *. pose proof (len_nonneg data) as Hn. fold n in Hn.
  destruct (large_rows_spec large Hl n Hn) as (L1 & _ & _ & L4 & _).
  destruct (small_rows_spec large small Hl Hs n Hn) as (S1 & _ & _ & S4).
  set (r := large_rows large n) in *. set (q := small_rows large small n) in *.
  assert (Hsl : slice data offset (offset + size) = Some (tab (fun p => byte_at data (offset + p)) size)).
  { rewrite <- (tab_data data) at 1. apply slice_tab; lia. }
  assert (Hh : holds large small data r q (coded (shard_byte large small data) (r * large + q * small))).
  { intros i Hi. unfold coded, data_rows. rewrite lookup_app_l by (rewrite length_map, length_seqZ; lia).
    rewrite list_lookup_fmap, lookup_seqZ_lt by lia. cbn. rewrite Z2Nat.id by lia. done. }
  unfold Locate.locate_data, Locate.locate_offset, Locate.locate_offset_within_blocks, shard_size. fold r q.
  unfold DATA_SHARDS_COUNT in *.
  assert (Hr1 : (r * large + q * small) * 10 / (large * 10) = r).
  { symmetry. apply (Z.div_unique _ _ _ (q * small * 10)); [|lia]. left. nia. }
  assert (Hr2 : ((r * large + q * small) * 10 + small * 10) / (large * 10) = r).
  { symmetry. apply (Z.div_unique _ _ _ ((q + 1) * small * 10)); [|lia]. left. nia. }
  rewrite Hr1, Hr2, Hsl. destruct (Z.ltb_spec offset (r * (large * 10))) as [Hlo|Hlo].
  - pose proof (Z.div_mod offset large ltac:(lia)) as Ed. pose proof (Z.mod_pos_bound offset large Hl) as Em.
    assert (0 <= offset / large) by (apply Z.div_pos; lia).
    destruct (loop_large large small Hs Hl data r q L1 S1 _ Hh (Z.to_nat size) (offset / large) (offset mod large) size)
      as (ivs & E & Hr); unfold DATA_SHARDS_COUNT; try lia; try nia.
    exists ivs. split; [done|]. rewrite Hr. f_equal. apply tab_ext. intros p Hp. f_equal. lia.
  - set (o := offset - r * (large * 10)).
    pose proof (Z.div_mod o small ltac:(lia)) as Ed. pose proof (Z.mod_pos_bound o small Hs) as Em.
    assert (0 <= o / small) by (apply Z.div_pos; lia).
    destruct (loop_small large small Hs Hl data r q L1 _ Hh (Z.to_nat size) (o / small) (o mod small) size)
      as (ivs & E & Hr); unfold DATA_SHARDS_COUNT; try lia; try nia.
    exists ivs. split; [done|]. rewrite Hr. f_equal. apply tab_ext. intros p Hp. f_equal.
    unfold DATA_SHARDS_COUNT. lia.
Qed.

(** C30: as long as the small rows of a volume stay two rows short of a large
    block, every range of the data file can be read back from the data shards:
    [locate_data], given ten times the shard size as [locate_ec_shard_needle]
    does, returns intervals whose bytes, read one after the other, are exactly
    the range. *)
Theorem located_reads : forall (RS : ReedSolomon) data shards offset size,
  write_ec_files data = Ok shards ->
  (small_rows ERASURE_CODING_LARGE_BLOCK_SIZE ERASURE_CODING_SMALL_BLOCK_SIZE (len data) + 1)
    * ERASURE_CODING_SMALL_BLOCK_SIZE < ERASURE_CODING_LARGE_BLOCK_SIZE ->
  0 <= offset -> 0 <= size -> offset + size <= len data ->
  exists ivs,
    Locate.locate_data ERASURE_CODING_LARGE_BLOCK_SIZE ERASURE_CODING_SMALL_BLOCK_SIZE
      (shard_size ERASURE_CODING_LARGE_BLOCK_SIZE ERASURE_CODING_SMALL_BLOCK_SIZE (len data) * DATA_SHARDS_COUNT)
      offset size = Some ivs
    /\ read_intervals ERASURE_CODING_LARGE_BLOCK_SIZE ERASURE_CODING_SMALL_BLOCK_SIZE shards ivs
       = slice data offset (offset + size).
Proof.
  intros RS data shards offset size He Hroom Ho Hs Hend.
  apply (locate_reads ERASURE_CODING_LARGE_BLOCK_SIZE ERASURE_CODING_SMALL_BLOCK_SIZE data shards offset size
           ENCODE_BUF_SIZE); [vm_compute; reflexivity..|exact He|exact Hroom|exact Ho|exact Hs|exact Hend].
Qed.

Lemma located_reads_witness : exists shards ivs,
  write_ec_files (RS := zero_parity) tiny = Ok shards
  /\ Locate.locate_data ERASURE_CODING_LARGE_BLOCK_SIZE ERASURE_CODING_SMALL_BLOCK_SIZE
       (shard_size ERASURE_CODING_LARGE_BLOCK_SIZE ERASURE_CODING_SMALL_BLOCK_SIZE (len tiny) * DATA_SHARDS_COUNT)
       1 2 = Some ivs
  /\ read_intervals ERASURE_CODING_LARGE_BLOCK_SIZE ERASURE_CODING_SMALL_BLOCK_SIZE shards ivs
     = Some [Byte.x02; Byte.x03].
Proof.
  assert (He : exists shards, write_ec_files (RS := zero_parity) tiny = Ok shards).
  { eexists. exact (write_ec_files_ok (RS := zero_parity) tiny). }
  destruct He as [shards He]. exists shards.
  destruct (located_reads zero_parity tiny shards 1 2 He) as (ivs & H1 & H2);
    [vm_compute; reflexivity|lia|lia|vm_compute; discriminate|].
  exists ivs. split; [exact He|]. split; [exact H1|]. rewrite H2. reflexivity.
Defined.

(** In a volume whose small rows come within a row of a large block, the
    very first bytes are looked for past the end of the shards: [locate_data]
    counts one large row too many. *)
Theorem located_past_the_end : let shard := 1023 * ERASURE_CODING_SMALL_BLOCK_SIZE in
  exists iv, Locate.locate_data ERASURE_CODING_LARGE_BLOCK_SIZE ERASURE_CODING_SMALL_BLOCK_SIZE
      (shard * DATA_SHARDS_COUNT) 0 8 = Some [iv]
    /\ iv.(iv_size) = 8
    /\ Locate.offset ERASURE_CODING_LARGE_BLOCK_SIZE ERASURE_CODING_SMALL_BLOCK_SIZE iv
       = ERASURE_CODING_LARGE_BLOCK_SIZE
    /\ shard < Locate.offset ERASURE_CODING_LARGE_BLOCK_SIZE ERASURE_CODING_SMALL_BLOCK_SIZE iv.
Proof. eexists. vm_compute. repeat split; reflexivity. Qed.
