(* ===== verification/EcIndex.v ===== *)
(** * The sorted index of an erasure-coded volume
      ([storage/erasure_coding/mod.rs], [encoder.rs], [decoder.rs], [volume.rs],
       [SortedIndexMap] of [needle_value_map.rs])

    The [.ecx] file has the entries of the [.idx] file in ascending order of
    keys; the [.ecj] file lists deleted keys. *)

From S2P Require Import Prelude Types Text Ttl Replica Errors Files Fs Needle NeedleCodec NeedleMap NeedleMapFacts Volume.
From stdpp Require Import sorting.
From Stdlib Require Import Strings.Byte.
#[local] Open Scope list_scope.
#[local] Open Scope Z_scope.

(** ** Sorting the index *)

(** [SortedIndexMap::load_from_index], on the bytes of the index file. *)
Definition load_index_entry (key offset size : Z) : M index_map NeedleError unit :=
  fun m => if (offset =? 0) || Size.is_deleted size
           then ((nvm_delete m key).1, Ok tt)
           else ((nvm_set m key (NeedleValue offset size)).1, Ok tt).

Definition load_from_index (idx : file) : index_map * outcome VolumeError unit :=
  walk_index_file idx load_index_entry [].

Definition key_le (a b : Z * needle_value) : Prop := a.1 <= b.1.
#[export] Instance key_le_dec : RelDecision key_le.
Proof. intros a b. unfold key_le. apply _. Defined.

(** [sort_by] on the keys, as [ascending_visit] does. *)
Definition sort_entries (m : index_map) : index_map := merge_sort key_le m.

(** [write_sorted_file_from_index]: the bytes of the [.ecx] file. *)
Definition write_sorted_file_from_index (idx : file) : outcome VolumeError file :=
  match load_from_index idx with
  | (m, Ok _) => Ok (entries_bytes (sort_entries m))
  | (_, Err e) => Err e
  | (_, Panic) => Panic
  end.

(** ** Searching *)

(** The binary search: the index of the entry and its value.  The distance of
    the bounds shrinks in every turn. *)
Fixpoint search_loop (fuel : nat) (ecx : file) (needle_id low high : Z) : outcome NeedleError (Z * needle_value) :=
  if negb (low <? high) then Err (NNotFound needle_id)
  else
    match fuel with
    | O => Panic
    | S fuel' =>
        let middle := (low + high) / 2 in
        let? buf := map_err NIo (read_exact_at ecx (middle * NEEDLE_ENTRY_SIZE) NEEDLE_ENTRY_SIZE) in
        let? '(key, offset, size) := read_index_entry buf in
        if key =? needle_id then Ok (middle, NeedleValue offset size)
        else if key <? needle_id then search_loop fuel' ecx needle_id (middle + 1) high
        else search_loop fuel' ecx needle_id low middle
    end.

(** [mark_needle_deleted]: the buffer already has four zero bytes when the
    tombstone is put after them. *)
Definition mark_needle_deleted (ecx : file) (offset : Z) : file :=
  pwrite ecx (offset + NEEDLE_ID_SIZE + OFFSET_SIZE) (zeros SIZE_SIZE ++ put_i32 TOMBSTONE_FILE_SIZE).

(** [search_needle_from_sorted_index] *)
Definition search_needle_from_sorted_index (ecx : file) (ecx_filesize needle_id : Z)
    (process_needle : option (file -> Z -> file)) : file * outcome NeedleError needle_value :=
  let high := ecx_filesize / NEEDLE_ENTRY_SIZE in
  match search_loop (Z.to_nat high) ecx needle_id 0 high with
  | Ok (middle, v) =>
      (match process_needle with
       | Some f => f ecx (middle * NEEDLE_HEADER_SIZE)
       | None => ecx
       end, Ok v)
  | Err e => (ecx, Err e)
  | Panic => (ecx, Panic)
  end.

(** [rebuild_ecx_file]: the keys of the [.ecj] file are marked in the [.ecx]
    file; keys that are not there are skipped.  An incomplete key ends the
    loop. *)
Fixpoint replay_ecj (n : nat) (ecj ecx : file) (filesize : Z) : file * outcome NeedleError unit :=
  match n with
  | O => (ecx, Ok tt)
  | S n' =>
      match read_exact_at ecj 0 NEEDLE_ID_SIZE with
      | Ok buf =>
          match search_needle_from_sorted_index ecx filesize (be_val buf) (Some mark_needle_deleted) with
          | (ecx, Ok _) => replay_ecj n' (drop 8 ecj) ecx filesize
          | (ecx, Err (NNotFound _)) => replay_ecj n' (drop 8 ecj) ecx filesize
          | (ecx, Err e) => (ecx, Err e)
          | (ecx, Panic) => (ecx, Panic)
          end
      | _ => (ecx, Ok tt)
      end
  end.

Definition rebuild_ecx_file (base : string) (s : fs) : fs * outcome NeedleError unit :=
  match fs_get s (base ++ ".ecj")%string with
  | Ok ecj =>
      match fs_get s (base ++ ".ecx")%string with
      | Ok ecx =>
          match replay_ecj (length ecj) ecj ecx (len ecx) with
          | (ecx, Ok _) =>
              let '(s, r) := fs_remove (base ++ ".ecj")%string (fs_put (base ++ ".ecx")%string ecx s) in
              (s, map_err NIo r)
          | (ecx, r) => (fs_put (base ++ ".ecx")%string ecx s, r)
          end
      | Err e => (s, Err (NIo e))
      | Panic => (s, Panic)
      end
  | _ => (s, Ok tt)
  end.

(** ** Back to a plain volume ([decoder.rs]) *)

(** [EcVolume::rebuild_ecx_file], the copy in [volume.rs] that nothing calls: a
    key that is not in the index is an error. *)
Fixpoint replay_ecj_strict (n : nat) (ecj ecx : file) (filesize : Z) : file * outcome NeedleError unit :=
  match n with
  | O => (ecx, Ok tt)
  | S n' =>
      match read_exact_at ecj 0 NEEDLE_ID_SIZE with
      | Ok buf =>
          match search_needle_from_sorted_index ecx filesize (be_val buf) (Some mark_needle_deleted) with
          | (ecx, Ok _) => replay_ecj_strict n' (drop 8 ecj) ecx filesize
          | (ecx, Err e) => (ecx, Err e)
          | (ecx, Panic) => (ecx, Panic)
          end
      | _ => (ecx, Ok tt)
      end
  end.

Definition ec_volume_rebuild_ecx_file (base : string) (s : fs) : fs * outcome NeedleError unit :=
  match fs_get s (base ++ ".ecj")%string with
  | Ok ecj =>
      match fs_get s (base ++ ".ecx")%string with
      | Ok ecx =>
          match replay_ecj_strict (length ecj) ecj ecx (len ecx) with
          | (ecx, Ok _) =>
              let '(s, r) := fs_remove (base ++ ".ecj")%string (fs_put (base ++ ".ecx")%string ecx s) in
              (s, map_err NIo r)
          | (ecx, r) => (fs_put (base ++ ".ecx")%string ecx s, r)
          end
      | Err e => (s, Err (NIo e))
      | Panic => (s, Panic)
      end
  | _ => (s, Ok tt)
  end.

(** [iterate_ecj_file], as the keys it visits; an incomplete key ends it. *)
Fixpoint ecj_keys (n : nat) (ecj : file) : list Z :=
  match n with
  | O => []
  | S n' => match read_exact_at ecj 0 NEEDLE_ID_SIZE with
            | Ok buf => be_val buf :: ecj_keys n' (drop 8 ecj)
            | _ => []
            end
  end.

(** [write_index_file_from_ec_index]: the entries of the [.ecx] file and a
    tombstone for every key of the [.ecj] file. *)
Definition write_index_file_from_ec_index (ecx : file) (ecj : option file) : file :=
  match ecj with
  | None => ecx
  | Some j => ecx ++ concat (map (as_bytes nv_deleted) (ecj_keys (length j) j))
  end.

(** [iterate_ecx_file] with the visitor of [find_data_filesize]. *)
Fixpoint ecx_stop (n : nat) (ecx : file) (data_filesize : Z) : outcome VolumeError Z :=
  match n with
  | O => Ok data_filesize
  | S n' =>
      match read_exact_at ecx 0 NEEDLE_ENTRY_SIZE with
      | Ok buf =>
          let? '(_, offset, size) := read_index_entry buf in
          let stop := if Size.is_deleted size then data_filesize
                      else let e := u64 (Offset.actual_offset offset + Size.actual_size size) in
                           if data_filesize <? e then e else data_filesize in
          ecx_stop n' (drop 16 ecx) stop
      | _ => Ok data_filesize
      end
  end.

(** [read_ec_volume_version] *)
Definition read_ec_volume_version (ec00 : file) : outcome VolumeError Z :=
  let? buf := map_err VIo (read_exact_at ec00 0 SUPER_BLOCK_SIZE) in
  let? sb := SuperBlock.parse buf in
  Ok sb.(sb_version).

Definition find_data_filesize (ec00 ecx : file) : outcome VolumeError Z :=
  let? _ := read_ec_volume_version ec00 in
  ecx_stop (length ecx) ecx 0.

(** ** The loaded map *)

Lemma load_entry_step k v (m : index_map) am :
  NoDup (index_keys m) -> (forall j, index_get m j = am !! j) ->
  exists m', load_index_entry k v.(nv_offset) v.(nv_size) m = (m', Ok tt)
             /\ NoDup (index_keys m') /\ forall j, index_get m' j = apply_entry am (k, v) !! j.
Proof.
  intros Hn Hg. unfold load_index_entry, apply_entry, is_tombstone. cbn [fst snd].
  destruct v as [o z]. cbn [nv_offset nv_size].
  destruct ((o =? 0) || Size.is_deleted z); eexists; (split; [done|]).
  - split; [exact (nvm_wf_delete (T := index_map) m k Hn)|]. intros j.
    pose proof (nvm_get_delete (T := index_map) m k j Hn) as E. cbn in E. cbn. rewrite E, lookup_delete, Hg. done.
  - split; [exact (nvm_wf_set (T := index_map) m k (NeedleValue o z) Hn)|]. intros j.
    pose proof (nvm_get_set (T := index_map) m k (NeedleValue o z) j Hn) as E. cbn in E. cbn.
    rewrite E, lookup_insert, Hg. done.
Qed.

Lemma run_load_entries es (m : index_map) am :
  NoDup (index_keys m) -> (forall j, index_get m j = am !! j) ->
  exists m', run_entries es load_index_entry m = (m', Ok tt)
             /\ NoDup (index_keys m') /\ forall j, index_get m' j = foldl apply_entry am es !! j.
Proof.
  revert m am. induction es as [|[k v] es IH]; intros m am Hn Hg; [by exists m|].
  destruct (load_entry_step k v m am Hn Hg) as (m1 & E1 & Hn1 & Hg1).
  destruct (IH m1 _ Hn1 Hg1) as (m2 & E2 & Hn2 & Hg2).
  exists m2. split; [|done]. cbn [run_entries]. unfold mbind'. rewrite E1. done.
Qed.

Lemma load_from_index_spec es :
  Forall entry_wf es ->
  exists m, load_from_index (entries_bytes es) = (m, Ok tt)
            /\ NoDup (index_keys m) /\ forall j, index_get m j = replay es !! j.
Proof.
  intros Hwf. unfold load_from_index. rewrite walk_index_file_entries by done.
  apply run_load_entries; [constructor|]. intros j. by rewrite lookup_empty.
Qed.

Lemma index_get_Some m k v : NoDup (index_keys m) -> (index_get m k = Some v <-> (k, v) ∈ m).
Proof.
  induction m as [|[j w] m IH]; cbn [index_get index_keys map fst].
  - intros _. split; [done|]. intros H. by apply not_elem_of_nil in H.
  - intros [H1 H2]%NoDup_cons. rewrite elem_of_cons. destruct (Z.eqb_spec j k) as [->|Hne].
    + split; [intros [= ->]; by left|]. intros [[= ->]|Hin]; [done|].
      exfalso. apply H1. change (map fst m) with (fst <$> m). apply list_elem_of_fmap. by exists (k, v).
    + rewrite IH by done. split; [by right|]. intros [[= -> ->]|?]; done.
Qed.

(** Every value of a replayed log is one of its entries. *)
Lemma replay_wf_from es am k v :
  Forall entry_wf es -> (forall k v, am !! k = Some v -> entry_wf (k, v)) ->
  foldl apply_entry am es !! k = Some v -> entry_wf (k, v).
Proof.
  revert am. induction es as [|e es IH]; intros am Hwf Ham; cbn [foldl]; [by apply Ham|].
  inversion Hwf; subst. apply IH; [done|]. intros j w. unfold apply_entry.
  destruct (is_tombstone e.2).
  - rewrite lookup_delete. case_decide; [done|]. apply Ham.
  - rewrite lookup_insert. case_decide; [|apply Ham]. intros [= <-]. subst. by destruct e.
Qed.

(** ** Binary search *)

Lemma read_entry_at es (i : nat) k v :
  es !! i = Some (k, v) ->
  read_exact_at (entries_bytes es) (Z.of_nat i * NEEDLE_ENTRY_SIZE) NEEDLE_ENTRY_SIZE = Ok (as_bytes v k).
Proof.
  intros Hi. rewrite <- (take_drop_middle es i (k, v) Hi).
  assert (E : entries_bytes (take i es ++ (k, v) :: drop (S i) es)
              = entries_bytes (take i es) ++ as_bytes v k ++ entries_bytes (drop (S i) es)).
  { unfold entries_bytes. rewrite map_app, concat_app. done. }
  rewrite E. pose proof (read_exact_at_app (entries_bytes (take i es)) (as_bytes v k)
    (entries_bytes (drop (S i) es))) as R.
  rewrite len_entry, len_entries_bytes in R. apply lookup_lt_Some in Hi.
  replace (16 * len (take i es)) with (Z.of_nat i * NEEDLE_ENTRY_SIZE) in R; [exact R|].
  unfold len. rewrite length_take, Nat.min_l by lia.
  change NEEDLE_ENTRY_SIZE with 16. lia.
Qed.

(** Entries in strictly ascending order of keys. *)
Definition ascending (es : list (Z * needle_value)) : Prop :=
  forall (i j : nat) a b, es !! i = Some a -> es !! j = Some b -> (i < j)%nat -> a.1 < b.1.

Section search.
Context (es : list (Z * needle_value)) (Hwf : Forall entry_wf es).

(** One turn of the loop reads the entry in the middle. *)
Lemma search_loop_step fuel k low high :
  0 <= low -> low < high -> high <= len es ->
  exists (i : nat) j v,
    Z.of_nat i = (low + high) / 2 /\ low <= Z.of_nat i < high /\ es !! i = Some (j, v)
    /\ search_loop (S fuel) (entries_bytes es) k low high
       = if j =? k then Ok (Z.of_nat i, v)
         else if j <? k then search_loop fuel (entries_bytes es) k (Z.of_nat i + 1) high
         else search_loop fuel (entries_bytes es) k low (Z.of_nat i).
Proof.
  intros Hl Hlh Hh. assert (Hm : low <= (low + high) / 2 < high)
    by (Z.div_mod_to_equations; lia).
  destruct (lookup_lt_is_Some_2 es (Z.to_nat ((low + high) / 2))) as [[j v] Hi];
    [unfold len in Hh; lia|].
  exists (Z.to_nat ((low + high) / 2)), j, v. rewrite !Z2Nat.id by lia.
  do 3 (split; [done|]). cbn [search_loop]. rewrite (proj2 (Z.ltb_lt low high)) by lia. cbn [negb].
  apply read_entry_at in Hi as R. rewrite Z2Nat.id in R by lia. rewrite R. cbn [map_err obind].
  rewrite read_index_entry_as_bytes by exact (Forall_lookup_1 _ _ _ _ Hwf Hi). cbn [obind].
  by destruct v.
Qed.

Lemma search_loop_absent fuel k low high :
  (forall e, e ∈ es -> e.1 <> k) -> 0 <= low -> high <= len es -> high - low <= Z.of_nat fuel ->
  search_loop fuel (entries_bytes es) k low high = Err (NNotFound k).
Proof.
  intros Hk. revert low high. induction fuel as [|fuel IH]; intros low high Hl Hh Hf.
  - cbn [search_loop]. by rewrite (proj2 (Z.ltb_ge low high)) by lia.
  - destruct (Z.lt_ge_cases low high).
    + destruct (search_loop_step fuel k low high) as (i & j & v & _ & Hi & E & ->); [lia..|].
      apply list_elem_of_lookup_2 in E. specialize (Hk _ E). cbn [fst] in Hk.
      rewrite (proj2 (Z.eqb_neq j k)) by done. destruct (j <? k); apply IH; lia.
    + cbn [search_loop]. by rewrite (proj2 (Z.ltb_ge low high)) by lia.
Qed.

Lemma search_loop_found fuel k v (p : nat) low high :
  ascending es -> es !! p = Some (k, v) -> 0 <= low <= Z.of_nat p -> Z.of_nat p < high ->
  high <= len es -> high - low <= Z.of_nat fuel ->
  search_loop fuel (entries_bytes es) k low high = Ok (Z.of_nat p, v).
Proof.
  intros Hs Hp. revert low high. induction fuel as [|fuel IH]; intros low high Hl Hh Hlen Hf; [lia|].
  destruct (search_loop_step fuel k low high) as (i & j & w & _ & Hi & E & ->); [lia..|].
  destruct (Nat.lt_trichotomy i p) as [Hip|[->|Hip]].
  - pose proof (Hs i p _ _ E Hp Hip) as Hlt. cbn [fst] in Hlt.
    rewrite (proj2 (Z.eqb_neq j k)), (proj2 (Z.ltb_lt j k)) by lia. apply IH; lia.
  - rewrite Hp in E. injection E as -> ->. by rewrite Z.eqb_refl.
  - pose proof (Hs p i _ _ Hp E Hip) as Hlt. cbn [fst] in Hlt.
    rewrite (proj2 (Z.eqb_neq j k)), (proj2 (Z.ltb_ge j k)) by lia. apply IH; lia.
Qed.

Lemma high_entries : len (entries_bytes es) / NEEDLE_ENTRY_SIZE = len es.
Proof. rewrite len_entries_bytes. change NEEDLE_ENTRY_SIZE with 16. Z.div_mod_to_equations; lia. Qed.

Lemma search_absent k f :
  (forall e, e ∈ es -> e.1 <> k) ->
  search_needle_from_sorted_index (entries_bytes es) (len (entries_bytes es)) k f
  = (entries_bytes es, Err (NNotFound k)).
Proof.
  intros Hk. unfold search_needle_from_sorted_index. rewrite high_entries.
  pose proof (len_nonneg es). rewrite search_loop_absent; [done|done|lia..].
Qed.

Lemma search_found k v (p : nat) f :
  ascending es -> es !! p = Some (k, v) ->
  search_needle_from_sorted_index (entries_bytes es) (len (entries_bytes es)) k f
  = (match f with Some g => g (entries_bytes es) (Z.of_nat p * NEEDLE_HEADER_SIZE) | None => entries_bytes es end,
     Ok v).
Proof.
  intros Hs Hp. unfold search_needle_from_sorted_index. rewrite high_entries.
  pose proof (len_nonneg es). apply lookup_lt_Some in Hp as Hlt. unfold len in *.
  by rewrite (search_loop_found _ k v p) by (unfold len; try done; lia).
Qed.
End search.

(** ** The sorted file *)

#[export] Instance key_le_trans : Transitive key_le.
Proof. intros a b c. unfold key_le. lia. Qed.

#[export] Instance key_le_total : Total key_le.
Proof. intros a b. unfold key_le. lia. Qed.

Lemma strongly_sorted_lookup (es : list (Z * needle_value)) (i j : nat) a b :
  StronglySorted key_le es -> es !! i = Some a -> es !! j = Some b -> (i < j)%nat -> key_le a b.
Proof.
  intros HS Hi Hj Hij. rewrite <- (take_drop_middle es i a Hi) in HS.
  apply StronglySorted_app_1_r, StronglySorted_cons in HS as [HS _].
  rewrite Forall_forall in HS. apply HS, list_elem_of_lookup. exists (j - S i)%nat.
  rewrite lookup_drop. by replace (S i + (j - S i))%nat with j by lia.
Qed.

Lemma sort_entries_ascending m : NoDup (index_keys m) -> ascending (sort_entries m).
Proof.
  intros Hn i j a b Hi Hj Hij.
  assert (HP : sort_entries m ≡ₚ m) by apply merge_sort_Permutation.
  assert (HS : StronglySorted key_le (sort_entries m)) by apply (StronglySorted_merge_sort key_le).
  assert (Hn' : NoDup (fst <$> sort_entries m)) by (by rewrite HP).
  assert (a.1 <= b.1) as Hle by exact (strongly_sorted_lookup _ i j a b HS Hi Hj Hij).
  assert (a.1 <> b.1); [|lia]. intros E.
  assert (i = j); [|lia].
  apply (NoDup_lookup (fst <$> sort_entries m) i j a.1); [done|..]; rewrite list_lookup_fmap;
    rewrite ?Hi, ?Hj; cbn; congruence.
Qed.

(** The sorted file holds the replayed log. *)
Lemma sorted_file_spec es :
  Forall entry_wf es ->
  exists sm, write_sorted_file_from_index (entries_bytes es) = Ok (entries_bytes sm)
             /\ ascending sm /\ Forall entry_wf sm
             /\ forall k v, (k, v) ∈ sm <-> replay es !! k = Some v.
Proof.
  intros Hwf. destruct (load_from_index_spec es Hwf) as (m & E & Hn & Hg).
  assert (HP : sort_entries m ≡ₚ m) by apply merge_sort_Permutation.
  assert (Hin : forall k v, (k, v) ∈ sort_entries m <-> replay es !! k = Some v).
  { intros k v. rewrite HP, <- index_get_Some, Hg by done. done. }
  exists (sort_entries m). split; [unfold write_sorted_file_from_index; by rewrite E|].
  split; [by apply sort_entries_ascending|]. split; [|done].
  apply Forall_forall. intros [k v] H%Hin. apply (replay_wf_from es ∅ k v Hwf); [|done].
  intros ? ?. by rewrite lookup_empty.
Qed.

Lemma search_sorted es sm k f :
  ascending sm -> Forall entry_wf sm -> (forall k v, (k, v) ∈ sm <-> replay es !! k = Some v) ->
  (search_needle_from_sorted_index (entries_bytes sm) (len (entries_bytes sm)) k f).2
  = match replay es !! k with Some v => Ok v | None => Err (NNotFound k) end.
Proof.
  intros Ha Hw Hin. destruct (replay es !! k) as [v|] eqn:E.
  - apply Hin in E. apply list_elem_of_lookup in E as [p Hp]. by rewrite (search_found sm Hw k v p).
  - rewrite search_absent; [done|done|]. intros [j v] Hj Hk. cbn in Hk. subst j. apply Hin in Hj. congruence.
Qed.

(** C31: the sorted index of an erasure-coded volume is exact: generated from
    an index file of any whole 16-byte entries, as any history of writes and
    deletions leaves it, it is searched with
    the value the history leaves for a key, and with "not found" for every
    other key. *)
Theorem ecx_search_exact : forall es,
  Forall entry_wf es ->
  exists ecx, write_sorted_file_from_index (entries_bytes es) = Ok ecx
    /\ forall k, search_needle_from_sorted_index ecx (len ecx) k None
                 = (ecx, match replay es !! k with Some v => Ok v | None => Err (NNotFound k) end).
Proof.
  intros es Hwf. destruct (sorted_file_spec es Hwf) as (sm & E & Ha & Hw & Hin).
  exists (entries_bytes sm). split; [done|]. intros k.
  pose proof (search_sorted es sm k None Ha Hw Hin) as R.
  unfold search_needle_from_sorted_index in *.
  destruct (search_loop _ _ _ _ _) as [[mid v]| |]; cbn [snd] in *; by rewrite R.
Qed.

Definition sample_log : list (Z * needle_value) :=
  [(7, NeedleValue 1 10); (3, NeedleValue 4 20); (9, NeedleValue 9 5); (3, nv_deleted); (5, NeedleValue 12 1)].

Lemma sample_log_wf : Forall entry_wf sample_log.
Proof. unfold sample_log. repeat constructor; cbn; unfold in_u64, in_u32, in_i32, nv_deleted; cbn; lia. Qed.

Lemma ecx_search_exact_witness :
  exists ecx, write_sorted_file_from_index (entries_bytes sample_log) = Ok ecx
    /\ forall k, search_needle_from_sorted_index ecx (len ecx) k None
                 = (ecx, match replay sample_log !! k with Some v => Ok v | None => Err (NNotFound k) end).
Proof. apply (ecx_search_exact sample_log). apply sample_log_wf. Defined.

(** ** Deleting from the sorted file *)

Lemma be_bytes_app n m z : be_bytes (n + m) z = be_bytes n (z / 256 ^ Z.of_nat m) ++ be_bytes m z.
Proof.
  revert z. induction m as [|m IH]; intros z.
  - rewrite Nat.add_0_r, app_nil_r. cbn. by rewrite Z.div_1_r.
  - rewrite Nat.add_succ_r. cbn [be_bytes]. rewrite IH, <- app_assoc. do 2 f_equal.
    rewrite Z.div_div by lia. f_equal. rewrite Nat2Z.inj_succ, Z.pow_succ_r by lia. lia.
Qed.

Lemma pwrite_over p m s buf :
  len buf = len m -> buf <> [] -> pwrite (p ++ m ++ s) (len p) buf = p ++ buf ++ s.
Proof.
  intros Hl Hn. unfold pwrite. destruct buf as [|b0 buf']; [done|]. set (buf := b0 :: buf') in *.
  rewrite zeros_nonpos, app_nil_r by (rewrite !len_app; pose proof (len_nonneg m); pose proof (len_nonneg s); lia).
  unfold len in *. rewrite Nat2Z.id. rewrite take_app_length. do 2 f_equal.
  replace (Z.to_nat _) with (length (p ++ m)) by (rewrite length_app; lia).
  by rewrite app_assoc, drop_app_length.
Qed.

(** The key a deletion leaves in the entry after the deleted one. *)
Definition scrambled (k : Z) : Z := (2 ^ 32 - 1) * 2 ^ 32 + k mod 2 ^ 32.

Lemma put_scrambled k : put_u64 (scrambled k) = put_i32 TOMBSTONE_FILE_SIZE ++ be_bytes 4 k.
Proof.
  unfold put_u64, scrambled. rewrite (be_bytes_app 4 4). change (256 ^ Z.of_nat 4) with (2 ^ 32). f_equal.
  - rewrite Z.div_add_l by lia. rewrite Z.div_small by (apply Z.mod_pos_bound; lia). reflexivity.
  - rewrite <- (be_bytes_val (be_bytes 4 k)), be_bytes_length, be_val_bytes_mod.
    rewrite <- (be_bytes_val (be_bytes 4 (_ + _))), be_bytes_length, be_val_bytes_mod. f_equal.
    change (256 ^ Z.of_nat 4) with (2 ^ 32).
    rewrite Z.add_comm, Z.mod_add, Z.mod_mod by lia. done.
Qed.

Lemma put_u64_split k : put_u64 k = be_bytes 4 (k / 2 ^ 32) ++ be_bytes 4 k.
Proof. exact (be_bytes_app 4 4 k). Qed.

Lemma mark_scrambles pre k v k2 v2 post :
  mark_needle_deleted (entries_bytes (pre ++ (k, v) :: (k2, v2) :: post)) (len pre * NEEDLE_HEADER_SIZE)
  = entries_bytes (pre ++ (k, NeedleValue v.(nv_offset) 0) :: (scrambled k2, v2) :: post).
Proof.
  assert (E : forall s k' rest, entries_bytes (pre ++ (k, NeedleValue v.(nv_offset) s) :: (k', v2) :: rest)
    = (entries_bytes pre ++ put_u64 k ++ put_u32 v.(nv_offset)) ++ (put_i32 s ++ be_bytes 4 (k' / 2 ^ 32))
      ++ be_bytes 4 k' ++ put_u32 v2.(nv_offset) ++ put_i32 v2.(nv_size) ++ entries_bytes rest).
  { intros. unfold entries_bytes. rewrite map_app, concat_app. cbn [map concat fst snd].
    unfold as_bytes. cbn [nv_offset nv_size]. rewrite (put_u64_split k'). by rewrite !app_assoc. }
  destruct v as [o s]. cbn [nv_offset] in *. rewrite !E. unfold mark_needle_deleted.
  assert (L : len pre * NEEDLE_HEADER_SIZE + NEEDLE_ID_SIZE + OFFSET_SIZE
              = len (entries_bytes pre ++ put_u64 k ++ put_u32 o)).
  { rewrite !len_app, len_entries_bytes. unfold put_u64, put_u32, len. rewrite !be_bytes_length.
    unfold NEEDLE_HEADER_SIZE, NEEDLE_ID_SIZE, OFFSET_SIZE. lia. }
  rewrite L, pwrite_over by done. f_equal.
  pose proof (put_scrambled k2) as P. rewrite put_u64_split in P.
  apply app_inj_2 in P as [P1 P2]; [|done].
  rewrite P1, P2. reflexivity.
Qed.

Lemma scrambled_wf k v : entry_wf (k, v) -> entry_wf (scrambled k, v).
Proof.
  intros [Hk Hv]. split; [|done]. cbn in *. unfold in_u64, scrambled in *.
  pose proof (Z.mod_pos_bound k (2 ^ 32)). lia.
Qed.

Lemma ascending_keys pre k v post e :
  ascending (pre ++ (k, v) :: post) -> e ∈ pre \/ e ∈ post -> e.1 <> k.
Proof.
  intros Ha [[i Hi]%list_elem_of_lookup|[i Hi]%list_elem_of_lookup].
  - pose proof (Ha i (length pre) e (k, v)) as H. apply lookup_lt_Some in Hi as Hlt.
    rewrite lookup_app_l, Hi, list_lookup_middle in H by done. specialize (H eq_refl eq_refl Hlt).
    cbn in H. lia.
  - pose proof (Ha (length pre) (length pre + S i)%nat (k, v) e) as H.
    rewrite list_lookup_middle, lookup_app_r in H by lia.
    replace (length pre + S i - length pre)%nat with (S i) in H by lia.
    specialize (H eq_refl Hi ltac:(lia)). cbn in H. lia.
Qed.

(** Deleting a needle of an erasure-coded volume damages its index.  The
    tombstone is written four bytes too far: the deleted entry is left with
    size 0, which is not a deletion mark, and the first half of the key of the
    entry after it is overwritten, so that the needle after the deleted one is
    no longer found. *)
Theorem ecx_delete_scrambles : forall pre k v k2 v2 post,
  Forall entry_wf (pre ++ (k, v) :: (k2, v2) :: post) ->
  ascending (pre ++ (k, v) :: (k2, v2) :: post) ->
  k2 < (2 ^ 32 - 1) * 2 ^ 32 ->
  let ecx := entries_bytes (pre ++ (k, v) :: (k2, v2) :: post) in
  let ecx' := entries_bytes (pre ++ (k, NeedleValue v.(nv_offset) 0) :: (scrambled k2, v2) :: post) in
  search_needle_from_sorted_index ecx (len ecx) k2 None = (ecx, Ok v2)
  /\ search_needle_from_sorted_index ecx (len ecx) k (Some mark_needle_deleted) = (ecx', Ok v)
  /\ search_needle_from_sorted_index ecx' (len ecx') k2 None = (ecx', Err (NNotFound k2)).
Proof.
  intros pre k v k2 v2 post Hw Ha Hk2 ecx ecx'. subst ecx ecx'.
  assert (E1 : (pre ++ (k, v) :: (k2, v2) :: post) !! length pre = Some (k, v)) by (by apply list_lookup_middle).
  assert (E2 : (pre ++ (k, v) :: (k2, v2) :: post) !! S (length pre) = Some (k2, v2))
    by (rewrite lookup_app_r, Nat.sub_succ_l, Nat.sub_diag by lia; done).
  split; [by rewrite (search_found _ Hw k2 v2 _ None Ha E2)|].
  split. { rewrite (search_found _ Hw k v _ (Some mark_needle_deleted) Ha E1).
           change (Z.of_nat (length pre)) with (len pre). by rewrite mark_scrambles. }
  apply search_absent.
  - apply Forall_app in Hw as [Hp Hw]. inversion Hw as [|? ? H1 Hw']; subst. inversion Hw' as [|? ? H2 H3]; subst.
    apply Forall_app. split; [done|]. constructor; [|constructor; [by apply scrambled_wf|done]].
    destruct H1 as [Hk [Ho _]]. split; [done|]. split; [done|]. cbn. unfold in_i32. lia.
  - assert (Ha' : ascending ((pre ++ [(k, v)]) ++ (k2, v2) :: post)) by (by rewrite <- app_assoc).
    intros e He. rewrite elem_of_app, !elem_of_cons in He. destruct He as [He|[->|[->|He]]].
    + apply (ascending_keys _ _ _ _ _ Ha'). left. apply elem_of_app. by left.
    + cbn. apply (ascending_keys _ _ _ _ (k, v) Ha'). left. apply elem_of_app. right. by left.
    + cbn. unfold scrambled. pose proof (Z.mod_pos_bound k2 (2 ^ 32)). lia.
    + apply (ascending_keys _ _ _ _ _ Ha'). by right.
Qed.

Lemma ascending_pair a b : a.1 < b.1 -> ascending [a; b].
Proof.
  intros H i j x y Hi Hj Hij. apply lookup_lt_Some in Hj as L. cbn in L.
  destruct i as [|[|i]], j as [|[|j]]; cbn in *; try lia; simplify_eq; done.
Qed.

Lemma ecx_delete_scrambles_witness :
  let ecx := entries_bytes [(3, NeedleValue 4 20); (5, NeedleValue 12 1)] in
  let ecx' := entries_bytes [(3, NeedleValue 4 0); (18446744069414584325, NeedleValue 12 1)] in
  search_needle_from_sorted_index ecx (len ecx) 5 None = (ecx, Ok (NeedleValue 12 1))
  /\ search_needle_from_sorted_index ecx (len ecx) 3 (Some mark_needle_deleted) = (ecx', Ok (NeedleValue 4 20))
  /\ search_needle_from_sorted_index ecx' (len ecx') 5 None = (ecx', Err (NNotFound 5)).
Proof.
  apply (ecx_delete_scrambles [] 3 (NeedleValue 4 20) 5 (NeedleValue 12 1) []).
  - repeat constructor; cbn; unfold in_u64, in_u32, in_i32; cbn; lia.
  - apply ascending_pair. cbn. lia.
  - lia.
Defined.

(** ** The index of a decoded volume *)

Lemma ecj_keys_bytes ks n :
  Forall in_u64 ks -> (length ks <= n)%nat -> ecj_keys n (concat (map put_u64 ks)) = ks.
Proof.
  revert n. induction ks as [|k ks IH]; intros n Hk Hn; cbn [map concat].
  - by destruct n.
  - destruct n as [|n]; [cbn in Hn; lia|]. inversion Hk; subst. cbn [ecj_keys].
    pose proof (read_exact_at_app [] (put_u64 k) (concat (map put_u64 ks))) as R.
    change (len (put_u64 k)) with NEEDLE_ID_SIZE in R. rewrite app_nil_l in R. change (len []) with 0 in R.
    rewrite R. change 8%nat with (length (put_u64 k)). rewrite drop_app_length.
    rewrite IH by (try done; cbn in Hn; lia). unfold put_u64. rewrite be_val_bytes; [done|].
    unfold in_u64 in *. change (256 ^ Z.of_nat 8) with (2 ^ 64). lia.
Qed.

Lemma foldl_tombstones ks am j :
  foldl apply_entry am (map (fun k => (k, nv_deleted)) ks) !! j
  = if decide (j ∈ ks) then None else am !! j.
Proof.
  revert am. induction ks as [|k ks IH]; intros am; cbn [map foldl].
  - rewrite decide_False; [done|]. apply not_elem_of_nil.
  - rewrite IH. unfold apply_entry. change (is_tombstone (k, nv_deleted).2) with true. cbn [fst].
    rewrite lookup_delete. repeat case_decide; try done; rewrite elem_of_cons in *; naive_solver.
Qed.

(** Replaying the entries of a sorted file gives back its map. *)
Lemma replay_ascending sm m :
  ascending sm -> (forall k v, (k, v) ∈ sm <-> m !! k = Some v) ->
  (forall e, e ∈ sm -> is_tombstone e.2 = false) -> replay sm = m.
Proof.
  intros Ha Hin Ht.
  assert (R : forall l, ascending l -> (forall e, e ∈ l -> is_tombstone e.2 = false) ->
              forall k v, replay l !! k = Some v <-> (k, v) ∈ l).
  { induction l as [|[k v] l IH] using rev_ind; intros Hl Htl j w.
    - cbn. rewrite lookup_empty. split; [done|]. intros H. by apply not_elem_of_nil in H.
    - rewrite replay_snoc. unfold apply_entry. rewrite (Htl (k, v)) by (apply elem_of_app; right; by left).
      cbn [fst snd]. rewrite lookup_insert, elem_of_app, list_elem_of_singleton.
      assert (Hl' : ascending l).
      { intros i i' a b Hi Hi'. apply Hl; by apply lookup_app_l_Some. }
      specialize (IH Hl' (fun e He => Htl e ltac:(apply elem_of_app; by left)) j w).
      case_decide as D; [subst|rewrite IH; naive_solver].
      split; [intros [= ->]; by right|]. intros [Hj|[= ->]]; [|done].
      exfalso. apply (ascending_keys l j v [] (j, w) Hl); [by left|done]. }
  apply map_eq. intros k. apply option_eq. intros v. rewrite R, Hin by done. done.
Qed.

Lemma replay_no_tombstone es k v : replay es !! k = Some v -> is_tombstone v = false.
Proof.
  revert k v. induction es as [|[j w] es IH] using rev_ind; intros k v; [unfold replay; cbn [foldl]; by rewrite lookup_empty|].
  rewrite replay_snoc. unfold apply_entry. cbn [fst snd]. destruct (is_tombstone w) eqn:E.
  - rewrite lookup_delete. case_decide; [done|]. apply IH.
  - rewrite lookup_insert. case_decide; [congruence|]. apply IH.
Qed.

Lemma tombstone_bytes ks :
  concat (map (as_bytes nv_deleted) ks) = entries_bytes (map (fun k => (k, nv_deleted)) ks).
Proof. unfold entries_bytes. by rewrite map_map. Qed.

Lemma entries_bytes_app a b : entries_bytes (a ++ b) = entries_bytes a ++ entries_bytes b.
Proof. unfold entries_bytes. by rewrite map_app, concat_app. Qed.

(** The index survives encoding and decoding: the index file rebuilt from
    the sorted index and the journal of deleted keys is loaded as the map the
    original index file described, less the keys of the journal. *)
Theorem ec_index_roundtrip : forall es ks,
  Forall entry_wf es -> Forall in_u64 ks ->
  exists ecx m,
    write_sorted_file_from_index (entries_bytes es) = Ok ecx
    /\ load_from_index (write_index_file_from_ec_index ecx (Some (concat (map put_u64 ks)))) = (m, Ok tt)
    /\ forall k, index_get m k = if decide (k ∈ ks) then None else replay es !! k.
Proof.
  intros es ks Hwf Hks. destruct (sorted_file_spec es Hwf) as (sm & E & Ha & Hw & Hin).
  assert (Hlen : (length ks <= length (concat (map put_u64 ks)))%nat).
  { clear. induction ks as [|k ks IH]; cbn [map concat]; [done|]. rewrite length_app.
    change (length (put_u64 k)) with 8%nat. cbn [length]. lia. }
  unfold write_index_file_from_ec_index. rewrite ecj_keys_bytes by done.
  destruct (load_from_index_spec (sm ++ map (fun k => (k, nv_deleted)) ks)) as (m & Em & _ & Hm).
  { apply Forall_app. split; [done|]. apply Forall_map. eapply Forall_impl; [exact Hks|].
    intros k Hk. split; [done|]. split; cbn; unfold in_u32, in_i32; lia. }
  exists (entries_bytes sm), m. split; [done|].
  rewrite tombstone_bytes, <- entries_bytes_app. split; [done|]. intros k. rewrite Hm.
  unfold replay. rewrite foldl_app, foldl_tombstones. case_decide; [done|].
  change (foldl apply_entry ∅ sm) with (replay sm).
  rewrite (replay_ascending sm (replay es) Ha Hin); [done|]. intros [j v] He. cbn.
  apply (replay_no_tombstone es j). by apply Hin.
Qed.

Lemma ec_index_roundtrip_witness :
  exists ecx m,
    write_sorted_file_from_index (entries_bytes sample_log) = Ok ecx
    /\ load_from_index (write_index_file_from_ec_index ecx (Some (concat (map put_u64 [9; 3])))) = (m, Ok tt)
    /\ forall k, index_get m k = if decide (k ∈ [9; 3]) then None else replay sample_log !! k.
Proof.
  apply (ec_index_roundtrip sample_log [9; 3]); [apply sample_log_wf|].
  repeat constructor; unfold in_u64; lia.
Defined.

(** The search ends on any file it was given the size of, whatever the entries. *)
Lemma search_loop_total fuel ecx k : forall low high, 0 <= low -> high * NEEDLE_ENTRY_SIZE <= len ecx ->
  high - low <= Z.of_nat fuel ->
  (exists i v, search_loop fuel ecx k low high = Ok (i, v) /\ low <= i < high) \/ search_loop fuel ecx k low high = Err (NNotFound k).
Proof.
  induction fuel as [|fuel IH]; intros low high Hl Hh Hf; cbn [search_loop].
  { right. by rewrite (proj2 (Z.ltb_ge low high)) by lia. }
  destruct (Z.ltb_spec low high) as [Hlt|]; cbn [negb]; [|by right].
  assert (Hm : low <= (low + high) / 2 < high) by (split; [apply Z.div_le_lower_bound|apply Z.div_lt_upper_bound]; lia).
  set (mid := (low + high) / 2) in *. change NEEDLE_ENTRY_SIZE with 16 in *.
  unfold read_exact_at. change (16 =? 0) with false. cbn match.
  rewrite (proj2 (Z.leb_le (mid * 16 + 16) _)) by lia. cbn [map_err obind].
  set (buf := take (Z.to_nat 16) _). assert (Hb : len buf = 16).
  { unfold buf, len in *. rewrite length_take, length_drop. lia. }
  unfold read_index_entry, slice. rewrite Hb. cbn.
  destruct (_ =? k); [left; by eexists _, _|]. destruct (_ <? k).
  - destruct (IH (mid + 1) high) as [(i & v & E & Hi)|E]; [lia..| |by right]. left. exists i, v. split; [done|lia].
  - destruct (IH low mid) as [(i & v & E & Hi)|E]; [lia..| |by right]. left. exists i, v. split; [done|lia].
Qed.

(** Applying a journal never fails. *)
Lemma replay_ecj_total n : forall ecj ecx filesize, 0 <= filesize <= len ecx ->
  exists ecx', replay_ecj n ecj ecx filesize = (ecx', Ok tt).
Proof.
  induction n as [|n IH]; intros ecj ecx filesize Hf; cbn [replay_ecj]; [by exists ecx|].
  destruct (read_exact_at ecj 0 NEEDLE_ID_SIZE) as [buf|e|]; [|by exists ecx..].
  unfold search_needle_from_sorted_index. pose proof (Z.mul_div_le filesize NEEDLE_ENTRY_SIZE ltac:(done)) as Hd.
  assert (0 <= filesize / NEEDLE_ENTRY_SIZE) by (apply Z.div_pos; [lia|done]).
  destruct (search_loop_total (Z.to_nat (filesize / NEEDLE_ENTRY_SIZE)) ecx (be_val buf) 0 (filesize / NEEDLE_ENTRY_SIZE))
    as [(i & v & -> & Hi)| ->]; [lia..| |by apply IH].
  apply IH. split; [lia|]. unfold mark_needle_deleted, pwrite.
  change NEEDLE_ENTRY_SIZE with 16 in *. change NEEDLE_HEADER_SIZE with 16. change NEEDLE_ID_SIZE with 8. change OFFSET_SIZE with 4.
  assert (Hb : exists b rest, zeros SIZE_SIZE ++ put_i32 TOMBSTONE_FILE_SIZE = b :: rest /\ len (b :: rest) = 8) by (by eexists _, _).
  destruct Hb as (b & rest & -> & Hb).
  rewrite !len_app, Hb. unfold len in *. rewrite length_take, length_drop, length_app. lia.
Qed.

Lemma replay_ecj_agrees n : forall ecj ecx filesize ecx',
  replay_ecj_strict n ecj ecx filesize = (ecx', Ok tt) -> replay_ecj n ecj ecx filesize = (ecx', Ok tt).
Proof.
  induction n as [|n IH]; intros ecj ecx filesize ecx' H; cbn [replay_ecj replay_ecj_strict] in *; [done|].
  destruct (read_exact_at ecj 0 NEEDLE_ID_SIZE); [|done..].
  destruct (search_needle_from_sorted_index _ _ _ _) as [ecx1 [x|e|]]; [by apply IH|done..].
Qed.

(** The two copies of [rebuild_ecx_file] do the same whenever the unused one
    succeeds. *)
Theorem rebuild_ecx_copies_agree : forall base s s',
  ec_volume_rebuild_ecx_file base s = (s', Ok tt) -> rebuild_ecx_file base s = (s', Ok tt).
Proof.
  intros base s s'. unfold ec_volume_rebuild_ecx_file, rebuild_ecx_file.
  destruct (fs_get s (base ++ ".ecj")%string) as [ecj| |]; [|done..].
  destruct (fs_get s (base ++ ".ecx")%string) as [ecx| |]; [|done..].
  destruct (replay_ecj_strict _ _ _ _) as [ecx' [[]|e|]] eqn:E; [|done..]. by rewrite (replay_ecj_agrees _ _ _ _ _ E).
Qed.
