(* ===== verification/EcVolume.v ===== *)
(** * Erasure-coded volumes of a volume server
      ([storage/erasure_coding/volume.rs], [shard.rs], [store.rs])

    The shards of a volume that are on this server, its sorted index, and
    reading a needle from local shards, from shards of other servers, or by
    reconstruction. *)

From stdpp Require Import sorting.
From S2P Require Import Prelude Messages Types Text Ttl Replica Errors Files Fs Needle NeedleCodec NeedleMap NeedleMapFacts ShardBits EcCodec EcCodecFacts EcLocate Volume EcIndex.
From Stdlib Require Import Strings.Byte.
#[local] Open Scope list_scope.
#[local] Open Scope Z_scope.

(** ** Data *)

Inductive EcVolumeError :=
| EvIo (e : io_error)
| EvParseInt (e : parse_int_error)
| EvErasureCoding
| EvVolume (e : VolumeError)
| EvEcShard (e : ec_error)
| EvNeedle (e : NeedleError)
| EvShardNotFound (vid shard : Z)
| EvTokioTaskJoin
| EvTonic.

(** [EcVolumeShard]; the size is taken when the file is opened. *)
Record ec_shard := EcShard {
  es_shard_id : Z;
  es_volume_id : Z;
  es_collection : string;
  es_dir : string;
  ecd_file : file;
  ecd_filesize : Z;
}.

(** [EcVolume]; times are in milliseconds. *)
Record ec_volume := EcVolume {
  ev_volume_id : Z;
  ev_dir : string;
  ev_collection : string;
  ecx_file : file;
  ecx_filesize : Z;
  ev_shards : list ec_shard;
  shard_locations : gmap Z (list string);
  shard_locations_refresh_time : Z;
  ev_version : Z;
  ecj_file : file;
}.

Definition with_shards (l : list ec_shard) (v : ec_volume) : ec_volume :=
  EcVolume v.(ev_volume_id) v.(ev_dir) v.(ev_collection) v.(ecx_file) v.(ecx_filesize) l
    v.(shard_locations) v.(shard_locations_refresh_time) v.(ev_version) v.(ecj_file).
Definition with_index_files (ecx ecj : file) (v : ec_volume) : ec_volume :=
  EcVolume v.(ev_volume_id) v.(ev_dir) v.(ev_collection) ecx v.(ecx_filesize) v.(ev_shards)
    v.(shard_locations) v.(shard_locations_refresh_time) v.(ev_version) ecj.
Definition with_locations (m : gmap Z (list string)) (v : ec_volume) : ec_volume :=
  EcVolume v.(ev_volume_id) v.(ev_dir) v.(ev_collection) v.(ecx_file) v.(ecx_filesize) v.(ev_shards)
    m v.(shard_locations_refresh_time) v.(ev_version) v.(ecj_file).
Definition with_refresh_time (t : Z) (v : ec_volume) : ec_volume :=
  EcVolume v.(ev_volume_id) v.(ev_dir) v.(ev_collection) v.(ecx_file) v.(ecx_filesize) v.(ev_shards)
    v.(shard_locations) t v.(ev_version) v.(ecj_file).

(** ** The local shards *)

Definition shard_le (a b : ec_shard) : Prop :=
  a.(es_volume_id) < b.(es_volume_id)
  \/ a.(es_volume_id) = b.(es_volume_id) /\ a.(es_shard_id) <= b.(es_shard_id).
#[export] Instance shard_le_dec : RelDecision shard_le.
Proof. intros a b. unfold shard_le. apply _. Defined.

Definition add_ec_shard (shard : ec_shard) (v : ec_volume) : ec_volume * bool :=
  if existsb (fun item => shard.(es_shard_id) =? item.(es_shard_id)) v.(ev_shards) then (v, false)
  else (with_shards (merge_sort shard_le (v.(ev_shards) ++ [shard])) v, true).

(** The last shard with the id. *)
Fixpoint last_index (shard_id : Z) (l : list ec_shard) (i : nat) (idx : option nat) : option nat :=
  match l with
  | [] => idx
  | s :: l' => last_index shard_id l' (S i) (if s.(es_shard_id) =? shard_id then Some i else idx)
  end.

Definition delete_ec_shard (shard_id : Z) (v : ec_volume) : ec_volume * option ec_shard :=
  match last_index shard_id v.(ev_shards) 0 None with
  | Some idx => (with_shards (delete idx v.(ev_shards)) v, v.(ev_shards) !! idx)
  | None => (v, None)
  end.

Definition find_ec_shard (shard_id : Z) (v : ec_volume) : option ec_shard :=
  List.find (fun s => s.(es_shard_id) =? shard_id) v.(ev_shards).

Definition ec_shard_len (v : ec_volume) : Z := len v.(ev_shards).

(** [add_shard_id] of [volume.rs] *)
Definition add_shard_id (ec_index_bits shard_id : Z) : Z := Z.lor ec_index_bits (ShardBits.bit shard_id).

(** [get_volume_ec_shard_info]: a message is opened when the volume id changes;
    the last message collects the bits. *)
Fixpoint shard_info_loop (l : list ec_shard) (pre_volume_id : Z) (infos : list ec_message)
  : list ec_message :=
  match l with
  | [] => infos
  | s :: l' =>
      let infos := if s.(es_volume_id) =? pre_volume_id then infos
                   else infos ++ [EcMessage s.(es_volume_id) s.(es_collection) 0] in
      let infos := match last infos with
                   | Some m => removelast infos
                               ++ [EcMessage m.(em_id) m.(em_collection) (add_shard_id m.(em_ec_index_bits) s.(es_shard_id))]
                   | None => infos
                   end in
      shard_info_loop l' s.(es_volume_id) infos
  end.

Definition get_volume_ec_shard_info (v : ec_volume) : list ec_message :=
  shard_info_loop v.(ev_shards) (2 ^ 32 - 1) [].

(** ** The index *)

Definition find_needle_from_ecx (needle_id : Z) (v : ec_volume) : outcome NeedleError needle_value :=
  (search_needle_from_sorted_index v.(ecx_file) v.(ecx_filesize) needle_id None).2.

(** Eight zero bytes stand before the key in the buffer that goes to the
    [.ecj] file. *)
Definition delete_needle_from_ecx (needle_id : Z) (v : ec_volume) : ec_volume * outcome EcVolumeError unit :=
  match search_needle_from_sorted_index v.(ecx_file) v.(ecx_filesize) needle_id (Some mark_needle_deleted) with
  | (ecx, Ok _) =>
      (with_index_files ecx (pwrite v.(ecj_file) (len v.(ecj_file)) (zeros NEEDLE_ID_SIZE ++ put_u64 needle_id)) v, Ok tt)
  | (ecx, Err e) => (with_index_files ecx v.(ecj_file) v, Err (EvNeedle e))
  | (ecx, Panic) => (with_index_files ecx v.(ecj_file) v, Panic)
  end.

Definition locate_ec_shard_needle (needle_id : Z) (v : ec_volume)
  : outcome EcVolumeError (needle_value * list interval) :=
  let? nv := map_err EvNeedle (find_needle_from_ecx needle_id v) in
  let? shard := unwrap (v.(ev_shards) !! 0%nat) in
  let? ivs := unwrap (Locate.locate_data ERASURE_CODING_LARGE_BLOCK_SIZE ERASURE_CODING_SMALL_BLOCK_SIZE
                        (shard.(ecd_filesize) * DATA_SHARDS_COUNT)
                        (Offset.actual_offset nv.(nv_offset)) (Size.actual_size nv.(nv_size))) in
  Ok (nv, ivs).

(** ** Reading ([store.rs]) *)

(** The master's [lookup_ec_volume] and the stream of [volume_ec_shard_read] of
    another volume server up to its first error. *)
Class EcCluster := {
  lookup_ec_volume : Z -> outcome EcVolumeError (list (Z * list string));
  volume_ec_shard_read : string -> Z -> Z -> Z -> Z -> Z -> outcome EcVolumeError (list (list byte * bool));
}.

Section read.
Context {CL : EcCluster} {RI : ReedSolomonInverse}.

Definition EM := M ec_volume EcVolumeError.

(** The locations of a lookup are pushed onto an entry that was just removed. *)
Definition push_location (shard_id : Z) (url : string) (m : gmap Z (list string)) : gmap Z (list string) :=
  match m !! shard_id with
  | Some entry => <[shard_id := entry ++ [url]]> m
  | None => m
  end.

Definition store_locations (m : gmap Z (list string)) (location : Z * list string) : gmap Z (list string) :=
  let shard_id := u8 location.1 in
  fold_left (fun m url => push_location shard_id url m) location.2 (delete shard_id m).

Definition cached_lookup_ec_shard_locations (now : Z) : EM unit :=
  let* v := mget in
  let shard_count := Z.of_nat (size v.(shard_locations)) in
  let fresh secs := now <? v.(shard_locations_refresh_time) + secs * 1000 in
  if ((shard_count <? DATA_SHARDS_COUNT) && fresh 11)
     || ((shard_count =? TOTAL_SHARDS_COUNT) && fresh (37 * 60))
     || ((DATA_SHARDS_COUNT <=? shard_count) && fresh (7 * 60))
  then mret tt
  else
    let* response := mlift (lookup_ec_volume v.(ev_volume_id)) in
    if len response <? DATA_SHARDS_COUNT then mthrow (EvEcShard (EcUnderflow (len response) DATA_SHARDS_COUNT))
    else
      let* _ := mmodify (fun v => with_locations (fold_left store_locations response v.(shard_locations)) v) in
      mmodify (with_refresh_time now).

(** [do_read_remote_ec_shard_interval]: the chunks are copied into the buffer
    one after the other; a chunk that does not fit panics. *)
Fixpoint copy_chunks (chunks : list (list byte * bool)) (buf : list byte) (bytes_read : Z) (is_deleted : bool)
  : outcome EcVolumeError (list byte * Z * bool) :=
  match chunks with
  | [] => Ok (buf, bytes_read, is_deleted)
  | (data, del) :: chunks' =>
      if bytes_read + len data <=? len buf
      then copy_chunks chunks' (pwrite buf bytes_read data) (bytes_read + len data) (is_deleted || del)
      else Panic
  end.

Fixpoint read_remote_loop (src_nodes : list string) (needle_id vid shard_id : Z) (buf : list byte) (offset : Z)
  : outcome EcVolumeError (list byte * Z * bool) :=
  match src_nodes with
  | [] => Ok (buf, 0, false)
  | node :: src_nodes' =>
      match (let? chunks := volume_ec_shard_read node vid shard_id offset (len buf) needle_id in
             copy_chunks chunks buf 0 false) with
      | Ok r => Ok r
      | Err _ => read_remote_loop src_nodes' needle_id vid shard_id buf offset
      | Panic => Panic
      end
  end.

Definition read_remote_ec_shard_interval (src_nodes : list string) (needle_id vid shard_id : Z)
    (buf : list byte) (offset : Z) : outcome EcVolumeError (list byte * Z * bool) :=
  match src_nodes with
  | [] => Err (EvShardNotFound vid shard_id)
  | _ => read_remote_loop src_nodes needle_id vid shard_id buf offset
  end.

(** [recover_one_remote_ec_shard_interval]: every other shard with a location
    is read; reads of the full length go to the decoder, failed ones drop the
    locations.  The tasks work on different shards, so their order does not
    matter. *)
Definition recover_read (needle_id vid to_recover n offset : Z)
    (acc : gmap Z (list string) * list (option (list byte)) * bool * bool) (entry : Z * list string)
  : outcome EcVolumeError (gmap Z (list string) * list (option (list byte)) * bool * bool) :=
  let '(locs, bufs, deleted, joined) := acc in
  let '(shard_id, locations) := entry in
  if (shard_id =? to_recover) || (len locations =? 0) then Ok acc
  else
    match read_remote_ec_shard_interval locations needle_id vid shard_id (zeros n) offset with
    | Ok (data, read, is_deleted) =>
        if read =? n then
          if shard_id <? len bufs
          then Ok (locs, <[Z.to_nat shard_id := Some data]> bufs, deleted || is_deleted, joined)
          else Ok (locs, bufs, deleted, false)
        else Ok acc
    | Err _ => Ok (delete shard_id locs, bufs, deleted, joined)
    | Panic => Panic
    end.

Fixpoint recover_reads (needle_id vid to_recover n offset : Z) (entries : list (Z * list string))
    (acc : gmap Z (list string) * list (option (list byte)) * bool * bool)
  : outcome EcVolumeError (gmap Z (list string) * list (option (list byte)) * bool * bool) :=
  match entries with
  | [] => Ok acc
  | e :: entries' =>
      let? acc := recover_read needle_id vid to_recover n offset acc e in
      recover_reads needle_id vid to_recover n offset entries' acc
  end.

Definition recover_one_remote_ec_shard_interval (needle_id shard_id_to_recover n offset : Z)
  : EM (list byte * bool) :=
  let* v := mget in
  let* r := mlift (recover_reads needle_id v.(ev_volume_id) shard_id_to_recover n offset
                     (map_to_list v.(shard_locations))
                     (v.(shard_locations), replicate (Z.to_nat TOTAL_SHARDS_COUNT) None, false, true)) in
  let '(locs, bufs, is_deleted, joined) := r in
  let* _ := mmodify (with_locations locs) in
  if negb joined then mthrow EvTokioTaskJoin
  else
    match reconstruct_rows bufs n with
    | None => mthrow EvErasureCoding
    | Some rows => mret (default (zeros n) (rows !! Z.to_nat shard_id_to_recover), is_deleted)
    end.

(** After a failed remote read the locations are to be removed while the guard
    of their lookup is still held: the removal waits for itself, and like a
    panic this gives no result. *)
Definition read_one_ec_shard_interval (needle_id : Z) (iv : interval) : EM (list byte * bool) :=
  let actual_offset := Locate.offset ERASURE_CODING_LARGE_BLOCK_SIZE ERASURE_CODING_SMALL_BLOCK_SIZE iv in
  let shard_id := Locate.shard_id iv in
  let n := iv.(iv_size) in
  let* v := mget in
  match find_ec_shard shard_id v with
  | Some shard =>
      let* data := mlift (map_err EvIo (read_exact_at shard.(ecd_file) actual_offset n)) in
      mret (data, false)
  | None =>
      match v.(shard_locations) !! shard_id with
      | Some locations =>
          match read_remote_ec_shard_interval locations needle_id v.(ev_volume_id) shard_id (zeros n) actual_offset with
          | Ok (data, _, is_deleted) => mret (data, is_deleted)
          | Err _ | Panic => mpanic
          end
      | None => recover_one_remote_ec_shard_interval needle_id shard_id n actual_offset
      end
  end.

Fixpoint read_intervals_loop (needle_id : Z) (ivs : list interval) (data : list byte) (is_deleted : bool)
  : EM (list byte * bool) :=
  match ivs with
  | [] => mret (data, is_deleted)
  | iv :: ivs' =>
      let* r := read_one_ec_shard_interval needle_id iv in
      read_intervals_loop needle_id ivs' (data ++ r.1) (is_deleted || r.2)
  end.

Definition read_ec_shard_intervals (now needle_id : Z) (ivs : list interval) : EM (list byte * bool) :=
  let* _ := cached_lookup_ec_shard_locations now in
  read_intervals_loop needle_id ivs [] false.

(** [read_ec_shard_needle] once a location has the volume: the needle and the
    number of bytes read. *)
Definition read_ec_shard_needle (crc : list byte -> Z) (now vid : Z) (nd : needle) : EM (needle * Z) :=
  let* v := mget in
  let* r := mlift (locate_ec_shard_needle nd.(n_id) v) in
  let '(index, intervals) := r in
  if Size.is_deleted index.(nv_size) then mthrow (EvNeedle (NDeleted vid nd.(n_id)))
  else
    let* b := read_ec_shard_intervals now nd.(n_id) intervals in
    if b.2 then mthrow (EvNeedle (NDeleted vid nd.(n_id)))
    else
      let '(nd', r) := read_bytes crc b.1 index.(nv_offset) index.(nv_size) v.(ev_version) nd in
      let* _ := mlift (map_err EvNeedle r) in
      mret (nd', len b.1).

End read.

(** ** Reads of local shards *)

Section facts.
Context {CL : EcCluster} {RI : ReedSolomonInverse}.

(** No locations are known. *)
Definition unlocated (v : ec_volume) : Prop := v.(shard_locations) = ∅.

Lemma store_locations_empty l : store_locations ∅ l = ∅.
Proof.
  unfold store_locations. rewrite delete_empty. induction l.2 as [|u us IH]; [done|].
  cbn [fold_left]. unfold push_location at 2. by rewrite lookup_empty.
Qed.

Lemma store_all_empty r : fold_left store_locations r ∅ = ∅.
Proof. induction r as [|l r IH]; [done|]. cbn [fold_left]. by rewrite store_locations_empty. Qed.

Lemma reconstruct_none n : reconstruct_rows (replicate (Z.to_nat TOTAL_SHARDS_COUNT) None) n = None.
Proof. reflexivity. Qed.

(** An interval of a shard that is not here cannot be read. *)
Lemma read_one_missing key iv v :
  unlocated v -> find_ec_shard (Locate.shard_id iv) v = None ->
  read_one_ec_shard_interval key iv v = (v, Err EvErasureCoding).
Proof.
  intros Hu Hf. unfold read_one_ec_shard_interval, mbind', mget, mlift. rewrite Hf, Hu, lookup_empty.
  unfold recover_one_remote_ec_shard_interval, mbind', mget, mlift, mmodify, mthrow.
  rewrite Hu, map_to_list_empty. cbn [recover_reads negb]. rewrite reconstruct_none.
  destruct v; unfold unlocated in Hu; cbn in *; by subst.
Qed.

Lemma read_one_local key iv v s :
  find_ec_shard (Locate.shard_id iv) v = Some s ->
  read_one_ec_shard_interval key iv v
  = (v, map_err EvIo (match read_exact_at s.(ecd_file)
           (Locate.offset ERASURE_CODING_LARGE_BLOCK_SIZE ERASURE_CODING_SMALL_BLOCK_SIZE iv) iv.(iv_size) with
         | Ok d => Ok (d, false) | Err e => Err e | Panic => Panic end)).
Proof.
  intros Hf. unfold read_one_ec_shard_interval, mbind', mget, mlift. rewrite Hf.
  by destruct (read_exact_at _ _ _).
Qed.

Lemma read_exact_at_no_panic f off n : read_exact_at f off n <> Panic.
Proof. unfold read_exact_at. by repeat case_match. Qed.

Lemma read_loop_missing key v ivs iv data del :
  unlocated v -> iv ∈ ivs -> find_ec_shard (Locate.shard_id iv) v = None ->
  exists e, read_intervals_loop key ivs data del v = (v, Err e).
Proof.
  intros Hu Hin Hf. revert data del. induction ivs as [|iv' ivs IH]; intros data del;
    [by apply not_elem_of_nil in Hin|].
  cbn [read_intervals_loop]. unfold mbind'. destruct (find_ec_shard (Locate.shard_id iv') v) as [s|] eqn:E.
  - rewrite (read_one_local key iv' v s E).
    pose proof (read_exact_at_no_panic (ecd_file s)
      (Locate.offset ERASURE_CODING_LARGE_BLOCK_SIZE ERASURE_CODING_SMALL_BLOCK_SIZE iv') (iv_size iv')) as Hp.
    destruct (read_exact_at _ _ _); cbn [map_err]; [|by eexists|done].
    apply IH. apply elem_of_cons in Hin as [->|?]; [congruence|done].
  - rewrite read_one_missing by done. by eexists.
Qed.
End facts.

(** A lookup leaves the locations empty. *)
Lemma cached_lookup_keeps {CL : EcCluster} now v :
  unlocated v ->
  exists w r, cached_lookup_ec_shard_locations now v = (w, r) /\ unlocated w
              /\ ev_shards w = ev_shards v.
Proof.
  intros Hu. destruct (cached_lookup_ec_shard_locations now v) as [w r] eqn:E. exists w, r.
  split; [done|]. revert E.
  unfold cached_lookup_ec_shard_locations, mbind', mget, mlift, mmodify, mret, mthrow.
  destruct (_ || _); [by intros [= <- <-]|].
  destruct (lookup_ec_volume (ev_volume_id v)) as [resp|e|]; [|by intros [= <- <-]..].
  destruct (len resp <? DATA_SHARDS_COUNT); [by intros [= <- <-]|].
  rewrite Hu, store_all_empty. by intros [= <- <-].
Qed.

Lemma read_needle_missing {CL : EcCluster} {RI : ReedSolomonInverse} crc now vid nd v v' r nv ivs iv :
  unlocated v -> locate_ec_shard_needle nd.(n_id) v = Ok (nv, ivs) -> iv ∈ ivs ->
  find_ec_shard (Locate.shard_id iv) v = None ->
  read_ec_shard_needle crc now vid nd v = (v', r) -> (forall x, r <> Ok x) /\ unlocated v'.
Proof.
  intros Hu Hl Hin Hf. unfold read_ec_shard_needle, mbind', mget, mlift, mthrow. rewrite Hl.
  destruct (Size.is_deleted (nv_size nv)); [by intros [= <- <-]|].
  unfold read_ec_shard_intervals, mbind'.
  destruct (cached_lookup_keeps now v Hu) as (w & c & -> & Hw & Hs).
  destruct c as [[]|e|]; [|by intros [= <- <-]..].
  assert (Hf' : find_ec_shard (Locate.shard_id iv) w = None) by (unfold find_ec_shard in *; by rewrite Hs).
  destruct (read_loop_missing (n_id nd) w ivs iv [] false Hw Hin Hf') as (e & ->). by intros [= <- <-].
Qed.

(** An erasure-coded volume is not readable with a shard missing on its
    server.  The locations other servers report are never stored, so the
    decoder is given no shard at all; whatever the master and the other servers
    answer, a needle with an interval in a shard that is not local is not read,
    and the volume still knows no locations for the next attempt. *)
Theorem ec_missing_shard_unreadable :
  forall (CL : EcCluster) (RI : ReedSolomonInverse) crc now vid nd v v' r nv ivs iv,
  shard_locations v = ∅ ->
  locate_ec_shard_needle nd.(n_id) v = Ok (nv, ivs) -> iv ∈ ivs ->
  find_ec_shard (Locate.shard_id iv) v = None ->
  read_ec_shard_needle crc now vid nd v = (v', r) ->
  (forall x, r <> Ok x) /\ shard_locations v' = ∅.
Proof. intros CL RI crc now vid nd v v' r nv ivs iv. exact (read_needle_missing crc now vid nd v v' r nv ivs iv). Qed.

(** A cluster in which every shard is on the server [a], which returns
    zeros. *)
#[local] Instance helpful_cluster : EcCluster := {
  lookup_ec_volume _ := Ok (map (fun i => (i, ["a"%string])) (seqZ 0 TOTAL_SHARDS_COUNT));
  volume_ec_shard_read _ _ _ _ n _ := Ok [(zeros n, false)];
}.

#[local] Instance trusting_decoder : ReedSolomonInverse := {
  rs_reconstruct col := Some (map (default Byte.x00) col);
}.

(** A volume that has shard 13 only, and a needle in shard 0. *)
Definition lonely_volume : ec_volume :=
  EcVolume 1 "" "" (as_bytes (NeedleValue 1 5) 7) 16 [EcShard 13 1 "" "" [] 1048576] ∅ 0 2 [].

Definition needle_7 : needle := set_header 0 7 0 needle_default.

Lemma ec_missing_shard_unreadable_witness :
  (forall x, (read_ec_shard_needle (fun _ => 0) 20000 1 needle_7 lonely_volume).2 <> Ok x)
  /\ shard_locations (read_ec_shard_needle (fun _ => 0) 20000 1 needle_7 lonely_volume).1 = ∅.
Proof.
  eapply (ec_missing_shard_unreadable helpful_cluster trusting_decoder (fun _ => 0) 20000 1 needle_7 lonely_volume).
  - reflexivity.
  - vm_compute. reflexivity.
  - apply list_elem_of_singleton. reflexivity.
  - vm_compute. reflexivity.
  - apply surjective_pairing.
Defined.

(** ** A needle read from local shards *)

Lemma read_exact_of_slice f a n b : slice f a (a + n) = Some b -> read_exact_at f a n = Ok b.
Proof.
  unfold slice, read_exact_at. destruct (Z.leb_spec 0 a); [|done]. destruct (Z.leb_spec a (a + n)); [|done].
  destruct (Z.leb_spec (a + n) (len f)); [|done]. cbn. replace (a + n - a) with n by lia.
  intros [= <-]. destruct (Z.eqb_spec n 0) as [->|]; [done|]. done.
Qed.

(** The shards on this server are those of the encoded volume, and all ten data
    shards are there. *)
Record mounted (shards : list (list byte)) (v : ec_volume) : Prop := {
  mounted_files : forall s, s ∈ v.(ev_shards) ->
    shards !! Z.to_nat s.(es_shard_id) = Some (s.(ecd_file) : list byte) /\ s.(ecd_filesize) = len s.(ecd_file);
  mounted_data : forall i, 0 <= i < DATA_SHARDS_COUNT -> find_ec_shard i v <> None;
}.

Lemma mounted_find shards v i :
  mounted shards v -> 0 <= i < DATA_SHARDS_COUNT ->
  exists s, find_ec_shard i v = Some s /\ s ∈ v.(ev_shards) /\ shards !! Z.to_nat i = Some (s.(ecd_file) : list byte).
Proof.
  intros [Hf Hd] Hi. specialize (Hd i Hi). destruct (find_ec_shard i v) as [s|] eqn:E; [|done].
  apply List.find_some in E as [Hin Hid%Z.eqb_eq]. apply list_elem_of_In in Hin. exists s.
  split; [done|]. split; [done|]. rewrite <- Hid. by apply Hf.
Qed.

Lemma shard_id_range iv : 0 <= Locate.shard_id iv < DATA_SHARDS_COUNT.
Proof.
  unfold Locate.shard_id. pose proof (Z.mod_pos_bound (block_index iv) DATA_SHARDS_COUNT ltac:(done)).
  rewrite u8_id; [done|]. unfold in_u8, DATA_SHARDS_COUNT in *. lia.
Qed.

Lemma read_loop_local {CL : EcCluster} {RI : ReedSolomonInverse} key shards v ivs b data :
  mounted shards v ->
  read_intervals ERASURE_CODING_LARGE_BLOCK_SIZE ERASURE_CODING_SMALL_BLOCK_SIZE shards ivs = Some b ->
  read_intervals_loop key ivs data false v = (v, Ok (data ++ b, false)).
Proof.
  intros Hm. revert b data. induction ivs as [|iv ivs IH]; intros b data; cbn [read_intervals read_intervals_loop].
  - intros [= <-]. by rewrite app_nil_r.
  - destruct (mounted_find shards v (Locate.shard_id iv) Hm (shard_id_range iv)) as (s & Hs & _ & Hf).
    unfold read_interval. rewrite Hf. destruct (slice _ _ _) as [a|] eqn:Ea; [|done].
    destruct (read_intervals _ _ _ ivs) as [b'|]; [|done]. intros [= <-].
    unfold mbind'. rewrite (read_one_local key iv v s Hs), (read_exact_of_slice _ _ _ _ Ea).
    cbn [map_err fst snd orb]. rewrite (IH b') by done. by rewrite <- app_assoc.
Qed.

Lemma cached_lookup_fresh {CL : EcCluster} now v :
  unlocated v -> now < shard_locations_refresh_time v + 11000 ->
  cached_lookup_ec_shard_locations now v = (v, Ok tt).
Proof.
  intros Hu Hn. unfold cached_lookup_ec_shard_locations, mbind', mget. rewrite Hu, map_size_empty.
  cbn [Z.of_nat]. change (0 <? DATA_SHARDS_COUNT) with true.
  rewrite (proj2 (Z.ltb_lt now _)) by lia. done.
Qed.

Definition room (data : list byte) : Prop :=
  (small_rows ERASURE_CODING_LARGE_BLOCK_SIZE ERASURE_CODING_SMALL_BLOCK_SIZE (len data) + 1)
    * ERASURE_CODING_SMALL_BLOCK_SIZE < ERASURE_CODING_LARGE_BLOCK_SIZE.

Lemma slice_bounds {A} (l : list A) a b r : slice l a b = Some r -> 0 <= a /\ a <= b /\ b <= len l.
Proof.
  unfold slice. destruct (Z.leb_spec 0 a), (Z.leb_spec a b), (Z.leb_spec b (len l)); done.
Qed.

(** Locating a needle of a mounted volume. *)
Lemma locate_mounted {RS : ReedSolomon} data es ecx shards v key nv b :
  write_ec_files data = Ok shards -> room data ->
  Forall entry_wf es -> write_sorted_file_from_index (entries_bytes es) = Ok ecx ->
  v.(ecx_file) = ecx -> v.(ecx_filesize) = len ecx -> mounted shards v ->
  replay es !! key = Some nv ->
  slice data (Offset.actual_offset nv.(nv_offset))
    (Offset.actual_offset nv.(nv_offset) + Size.actual_size nv.(nv_size)) = Some b ->
  exists ivs, locate_ec_shard_needle key v = Ok (nv, ivs)
    /\ read_intervals ERASURE_CODING_LARGE_BLOCK_SIZE ERASURE_CODING_SMALL_BLOCK_SIZE shards ivs = Some b.
Proof.
  intros Hw Hroom Hwf Hecx Ex El Hm Hk Hb. apply slice_bounds in Hb as Hbd.
  destruct (sorted_file_spec es Hwf) as (sm & E & Ha & Hw' & Hin). rewrite E in Hecx. injection Hecx as <-.
  destruct (mounted_find shards v 0 Hm ltac:(unfold DATA_SHARDS_COUNT; lia)) as (s0 & _ & Hin0 & _).
  destruct (ev_shards v) as [|s ss] eqn:Es; [by apply not_elem_of_nil in Hin0|].
  destruct (mounted_files shards v Hm s) as [Hf Hsz]; [rewrite Es; by left|].
  pose proof (write_ec_files_lens data shards Hw) as Hlens.
  assert (Hlen : ecd_filesize s
    = shard_size ERASURE_CODING_LARGE_BLOCK_SIZE ERASURE_CODING_SMALL_BLOCK_SIZE (len data)).
  { rewrite Hsz. exact (Forall_lookup_1 _ _ _ _ Hlens Hf). }
  destruct (locate_reads ERASURE_CODING_LARGE_BLOCK_SIZE ERASURE_CODING_SMALL_BLOCK_SIZE data shards
    (Offset.actual_offset nv.(nv_offset)) (Size.actual_size nv.(nv_size)) ENCODE_BUF_SIZE) as (ivs & L & R);
    [vm_compute; reflexivity..|exact Hw|exact Hroom|lia|lia|lia|].
  exists ivs. rewrite R, Hb. split; [|done]. unfold locate_ec_shard_needle, find_needle_from_ecx.
  rewrite Ex, El, (search_sorted es sm key None Ha Hw' Hin), Hk, Es. cbn [map_err obind lookup list_lookup unwrap].
  by rewrite Hlen, L.
Qed.

(** The locations are fresh, or the master still lists ten shards. *)
Definition ready {CL : EcCluster} (now : Z) (v : ec_volume) : Prop :=
  now < v.(shard_locations_refresh_time) + 11000
  \/ exists response, lookup_ec_volume v.(ev_volume_id) = Ok response /\ DATA_SHARDS_COUNT <= len response.

Lemma cached_lookup_ready {CL : EcCluster} now v : unlocated v -> ready now v ->
  exists w, cached_lookup_ec_shard_locations now v = (w, Ok tt) /\ ev_shards w = ev_shards v.
Proof.
  intros Hu [Hn|(response & Hr & Hl)]; [exists v; by rewrite cached_lookup_fresh|].
  unfold cached_lookup_ec_shard_locations, mbind', mget, mlift, mmodify, mret, mthrow.
  destruct (_ || _); [by exists v|]. rewrite Hr, (proj2 (Z.ltb_ge _ _)) by lia. by eexists.
Qed.

(** A needle survives the erasure coding of its volume: once the data file is cut
    into shards, the index is sorted, and the ten data shards are mounted on one
    server, reading it restores every stored field. *)
Lemma read_mounted_needle {RS : ReedSolomon} {CL : EcCluster} {RI : ReedSolomonInverse}
    crc data es ecx shards v now vid n nd nv :
  write_ec_files data = Ok shards -> room data ->
  Forall entry_wf es -> write_sorted_file_from_index (entries_bytes es) = Ok ecx ->
  v.(ecx_file) = ecx -> v.(ecx_filesize) = len ecx -> mounted shards v ->
  v.(ev_version) = VERSION2 -> v.(shard_locations) = ∅ -> ready now v ->
  needle_wf n -> n.(n_checksum) = crc n.(n_data) -> nd.(n_data) = [] ->
  replay es !! nd.(n_id) = Some nv -> nv.(nv_size) = len (body n) ->
  slice data (Offset.actual_offset nv.(nv_offset)) (Offset.actual_offset nv.(nv_offset) + len (encode n))
  = Some (encode n) ->
  (read_ec_shard_needle crc now vid nd v).2 = Ok (decode n nd, len (encode n)).
Proof.
  intros Hw Hroom Hwf Hecx Ex El Hm Hv Hu Hnow Hn Hc Hd Hk Hs Hb.
  rewrite len_encode, <- Hs in Hb by done.
  destruct (locate_mounted data es ecx shards v nd.(n_id) nv (encode n)) as (ivs & L & R); try done.
  unfold read_ec_shard_needle, mbind', mget, mlift. rewrite L.
  assert (Size.is_deleted (nv_size nv) = false) as ->.
  { rewrite Hs. unfold Size.is_deleted, TOMBSTONE_FILE_SIZE. pose proof (len_nonneg (body n)).
    destruct (Z.ltb_spec (len (body n)) 0), (Z.eqb_spec (len (body n)) (-1)); lia || done. }
  unfold read_ec_shard_intervals, mbind'. destruct (cached_lookup_ready now v Hu Hnow) as (w & -> & Hw').
  assert (Hmw : mounted shards w).
  { destruct Hm as [M1 M2]. split; [by rewrite Hw'|]. unfold find_ec_shard in *. by rewrite Hw'. }
  rewrite (read_loop_local nd.(n_id) shards w ivs (encode n) [] Hmw R). cbn [fst snd].
  rewrite app_nil_l, Hv, Hs, read_bytes_encode by done. done.
Qed.

(** A key the sorted index does not have is not found. *)
Lemma read_unknown_needle {CL : EcCluster} {RI : ReedSolomonInverse} crc es ecx v now vid nd :
  Forall entry_wf es -> write_sorted_file_from_index (entries_bytes es) = Ok ecx ->
  v.(ecx_file) = ecx -> v.(ecx_filesize) = len ecx -> replay es !! nd.(n_id) = None ->
  (read_ec_shard_needle crc now vid nd v).2 = Err (EvNeedle (NNotFound nd.(n_id))).
Proof.
  intros Hwf Hecx Ex El Hk. destruct (sorted_file_spec es Hwf) as (sm & E & Ha & Hw' & Hin).
  rewrite E in Hecx. injection Hecx as <-.
  unfold read_ec_shard_needle, mbind', mget, mlift, locate_ec_shard_needle, find_needle_from_ecx.
  by rewrite Ex, El, (search_sorted es sm _ None Ha Hw' Hin), Hk.
Qed.
