(* ===== verification/Store.v ===== *)
(** * The store of a volume server ([storage/store.rs], [storage/disk_location.rs],
      [util/chan.rs])

    A store keeps volumes in several directories and routes every request to
    the volume with the requested id.  Its state is the store and the file
    system its volumes live in. *)

From S2P Require Import Prelude Messages Types Text Ttl Replica Errors Fid Files Fs Needle NeedleCodec NeedleMap NeedleMapFacts Volume Vacuum ShardBits EcCodec EcVolume.
From Stdlib Require Import Ascii.
#[local] Open Scope string_scope.
#[local] Open Scope list_scope.
#[local] Open Scope Z_scope.

Definition MAX_TTL_VOLUME_REMOVAL_DELAY_MINUTES : Z := 10.

(** [errors::Error], the variants of the store and of its HTTP handlers;
    messages are dropped. *)
Inductive Error :=
| EVolume (e : VolumeError)
| EEcVolume (e : EcVolumeError)
| ENeedle (e : NeedleError)
| EIo
| EBincode
| ESerdeJson
| EBox
| EUtf8
| EMulter
| EChronoParse
| EInvalidHeaderValue
| EInvalidHeaderName
| EToStr
| ETonicStatus
| EAddrParse.

(** ** Disk locations *)

Record disk_location := DiskLocation {
  dl_directory : string;
  dl_max_volume_count : Z;
  dl_volumes : gmap Z volume;
  dl_ec_volumes : gmap Z ec_volume;
}.

Definition set_volumes (m : gmap Z volume) (l : disk_location) : disk_location :=
  DiskLocation l.(dl_directory) l.(dl_max_volume_count) m l.(dl_ec_volumes).
Definition set_ec_volumes (m : gmap Z ec_volume) (l : disk_location) : disk_location :=
  DiskLocation l.(dl_directory) l.(dl_max_volume_count) l.(dl_volumes) m.

Module Location.

Definition new (dir : string) (max_volume_count : Z) : disk_location :=
  DiskLocation dir max_volume_count ∅ ∅.

Definition add_volume (vid : Z) (v : volume) (l : disk_location) : disk_location :=
  set_volumes (<[vid := v]> l.(dl_volumes)) l.

Definition get_volume (vid : Z) (l : disk_location) : option volume := l.(dl_volumes) !! vid.

(** The volume leaves the map before its files are removed. *)
Definition delete_volume (vid : Z) (l : disk_location) (s : fs) : (disk_location * fs) * outcome VolumeError unit :=
  match l.(dl_volumes) !! vid with
  | Some v => let '(s', r) := destroy v s in ((set_volumes (delete vid l.(dl_volumes)) l, s'), r)
  | None => ((l, s), Ok tt)
  end.

(** The name up to the last '.', and what follows it ([Path::extension]): a name
    without a dot, or with its only dot in front, has no extension. *)
Definition extension (name : string) : option string :=
  match str_rfind "." name with
  | None => None
  | Some i => if i =? 0 then None else str_slice name (i + 1) (str_len name)
  end.

(** [parse_volume_id_from_path] on the name of a file; the name is cut four
    bytes short and split at its first underscore. *)
Definition parse_volume_id (name : string) : outcome VolumeError (Z * string) :=
  let? base := unwrap (str_slice name 0 (str_len name - 4)) in
  match str_find "_" base with
  | Some i =>
      let? collection := unwrap (str_slice base 0 i) in
      let? input := unwrap (str_slice base (i + 1) (str_len base)) in
      let? id := map_err VParseInt (parse_u32 input) in
      Ok (id, collection)
  | None =>
      let? id := map_err VParseInt (parse_u32 base) in
      Ok (id, "")
  end.

(** [load_existing_volumes]: [names] are the files of the directory in the order
    they are listed.  Every volume is opened by a task of its own; the volumes
    enter the map after the last one was started, so two files with the same id
    are both opened and the later one stays.  A name that does not parse ends
    the loading. *)
Fixpoint open_volumes (crc : list byte -> Z) (mtime : string -> Z) (l : disk_location) (names : list string) (s : fs)
  : fs * outcome VolumeError (list (Z * outcome VolumeError volume)) :=
  match names with
  | [] => (s, Ok [])
  | name :: names' =>
      if bool_decide (extension name = Some "dat") then
        match parse_volume_id name with
        | Ok (vid, collection) =>
            match l.(dl_volumes) !! vid with
            | Some _ => open_volumes crc mtime l names' s
            | None =>
                let '(s, r) := volume_new crc None (mtime name) l.(dl_directory) collection vid
                                 Replica.default Ttl.default s in
                let '(s, rs) := open_volumes crc mtime l names' s in
                (s, let? rs := rs in Ok ((vid, r) :: rs))
            end
        | Err e => (s, Err e)
        | Panic => (s, Panic)
        end
      else open_volumes crc mtime l names' s
  end.

Fixpoint insert_opened (vs : list (Z * outcome VolumeError volume)) (l : disk_location)
  : disk_location * outcome VolumeError unit :=
  match vs with
  | [] => (l, Ok tt)
  | (vid, Ok v) :: vs' => insert_opened vs' (add_volume vid v l)
  | (_, Err e) :: _ => (l, Err e)
  | (_, Panic) :: _ => (l, Panic)
  end.

Definition load_existing_volumes (crc : list byte -> Z) (mtime : string -> Z) (names : list string)
    (l : disk_location) (s : fs) : (disk_location * fs) * outcome VolumeError unit :=
  match open_volumes crc mtime l names s with
  | (s, Ok vs) => let '(l, r) := insert_opened vs l in ((l, s), r)
  | (s, Err e) => ((l, s), Err e)
  | (s, Panic) => ((l, s), Panic)
  end.

End Location.

(** ** The store *)

(** What a store tells its heartbeat task ([DeltaVolumeInfoSender]). *)
Inductive delta :=
| NewVolume (m : volume_message)
| DeletedVolume (m : volume_message)
| NewEcShard (m : ec_message)
| DeletedEcShard (m : ec_message).

Record store := Store {
  st_ip : string;
  st_port : Z;
  st_public_url : string;
  st_locations : list disk_location;
  st_data_center : string;
  st_rack : string;
  st_volume_size_limit : Z;
  st_deltas : list delta;
  st_current_master : string;
}.

Definition set_locations (ls : list disk_location) (s : store) : store :=
  Store s.(st_ip) s.(st_port) s.(st_public_url) ls s.(st_data_center) s.(st_rack)
    s.(st_volume_size_limit) s.(st_deltas) s.(st_current_master).
Definition send_delta (d : delta) (s : store) : store :=
  Store s.(st_ip) s.(st_port) s.(st_public_url) s.(st_locations) s.(st_data_center) s.(st_rack)
    s.(st_volume_size_limit) (s.(st_deltas) ++ [d]) s.(st_current_master).
Definition set_volume_size_limit (n : Z) (s : store) : store :=
  Store s.(st_ip) s.(st_port) s.(st_public_url) s.(st_locations) s.(st_data_center) s.(st_rack)
    n s.(st_deltas) s.(st_current_master).
Definition set_current_master (m : string) (s : store) : store :=
  Store s.(st_ip) s.(st_port) s.(st_public_url) s.(st_locations) s.(st_data_center) s.(st_rack)
    s.(st_volume_size_limit) s.(st_deltas) m.

Definition SM := M (store * fs) Error.

(** The first location that has the volume. *)
Fixpoint find_in (vid : Z) (ls : list disk_location) : option (nat * volume) :=
  match ls with
  | [] => None
  | l :: ls' =>
      match Location.get_volume vid l with
      | Some v => Some (O, v)
      | None => match find_in vid ls' with Some (i, v) => Some (S i, v) | None => None end
      end
  end.

Definition find_volume (vid : Z) (s : store) : option (nat * volume) := find_in vid s.(st_locations).
Definition has_volume (vid : Z) (s : store) : bool := bool_decide (is_Some (find_volume vid s)).

Definition put_volume (i : nat) (vid : Z) (v : volume) (s : store) : store :=
  set_locations (alter (Location.add_volume vid v) i s.(st_locations)) s.

(** Running an operation of the volume in place. *)
Definition on_volume_at {A} (i : nat) (vid : Z) (v : volume) (op : VM A) : M (store * fs) VolumeError A :=
  fun st => let '((v', s'), r) := op (v, st.2) in ((put_volume i vid v' st.1, s'), r).

Definition lift_volume {A} (m : M (store * fs) VolumeError A) : SM A :=
  fun st => let '(st', r) := m st in (st', map_err EVolume r).

Section requests.
Context (crc : list byte -> Z).

(** [delete_volume_needle]: a volume that is not here has nothing to delete. *)
Definition delete_volume_needle (flt iflt : fault) (vid : Z) (n : needle) : M (store * fs) VolumeError (needle * Z) :=
  let* st := mget in
  match find_volume vid st.1 with
  | Some (i, v) =>
      if v.(v_no_write_or_delete) then mthrow (VReadonly vid)
      else if u64 (content_size v + Size.actual_size 0) <=? MAX_POSSIBLE_VOLUME_SIZE
      then on_volume_at i vid v (delete_needle flt iflt n)
      else mthrow (VVolumeSizeLimit st.1.(st_volume_size_limit) (content_size v))
  | None => mret (n, 0)
  end.

Definition read_volume_needle (now vid : Z) (n : needle) : SM (needle * Z) :=
  let* st := mget in
  match find_volume vid st.1 with
  | Some (_, v) => mlift (map_err EVolume (read_needle crc now n v st.2))
  | None => mthrow (EVolume (VNotFound vid))
  end.

Definition write_volume_needle (flt iflt : fault) (vid : Z) (n : needle) : SM (needle * Z) :=
  let* st := mget in
  match find_volume vid st.1 with
  | Some (i, v) =>
      if readonly v then mthrow (EVolume (VReadonly vid))
      else lift_volume (on_volume_at i vid v (write_needle flt iflt n))
  | None => mthrow (EVolume (VNotFound vid))
  end.

Definition mark_volume_readonly (vid : Z) : M (store * fs) VolumeError unit :=
  let* st := mget in
  match find_volume vid st.1 with
  | Some (i, v) => on_volume_at i vid v (on_volume (set_no_write_or_delete true))
  | None => mthrow (VNotFound vid)
  end.

(** [Store::delete_volume]: a guard on the found volume is held while the
    locations are asked to delete it, so a location that has it never answers;
    a location that does not have it answers at once, and is taken for the one
    that deleted the volume. *)
Definition delete_volume (vid : Z) (st : store * fs) : option ((store * fs) * outcome Error unit) :=
  match find_volume vid st.1 with
  | None => Some (st, Ok tt)
  | Some (_, v) =>
      match st.1.(st_locations) with
      | [] => Some (st, Err (EVolume (VNotFound vid)))
      | l :: _ =>
          match Location.get_volume vid l with
          | Some _ => None
          | None =>
              Some ((send_delta (DeletedVolume
                       (short_message vid v.(v_collection) (Replica.into_u8 v.(v_super_block).(sb_replica_placement))
                          (version v) (Ttl.to_u32 v.(v_super_block).(sb_ttl)))) st.1, st.2), Ok tt)
          end
      end
  end.

(** [find_free_location]: the first location with the most free slots. *)
Fixpoint free_location (ls : list disk_location) (i : nat) (best : option nat) (max_free : Z) : option nat :=
  match ls with
  | [] => best
  | l :: ls' =>
      let free := i64 (l.(dl_max_volume_count) - Z.of_nat (size l.(dl_volumes))) in
      if max_free <? free then free_location ls' (S i) (Some i) free
      else free_location ls' (S i) best max_free
  end.

Definition find_free_location (s : store) : option nat := free_location s.(st_locations) 0 None 0.

(** [do_add_volume]; [mtime] is the modification time a new data file gets. *)
Definition do_add_volume (flt : fault) (mtime vid : Z) (collection : string) (rp : replica_placement) (t : ttl)
  : SM unit :=
  let* st := mget in
  match find_volume vid st.1 with
  | Some _ => mthrow EBox
  | None =>
      match find_free_location st.1 with
      | None => mthrow EBox
      | Some i =>
          let* l := mlift (unwrap (st.1.(st_locations) !! i)) in
          let* v := lift_volume (fun st =>
            let '(s', r) := volume_new crc flt mtime l.(dl_directory) collection vid rp t st.2 in
            ((st.1, s'), r)) in
          let* _ := mmodify (fun st => (put_volume i vid v st.1, st.2)) in
          mmodify (fun st => (send_delta (NewVolume
            (short_message vid collection (Replica.into_u8 rp) (version v) (Ttl.to_u32 t))) st.1, st.2))
      end
  end.

Definition add_volume (flt : fault) (mtime vid : Z) (collection replica_placement ttl : string) : SM unit :=
  let* rp := mlift (map_err (fun e => EVolume (of_replica_error e)) (Replica.new replica_placement)) in
  let* t := mlift (map_err (fun e => EVolume (of_parse_ttl_error e)) (Ttl.new ttl)) in
  do_add_volume flt mtime vid collection rp t.

(** ** Compaction *)

(** The quotient of the two counters, which the code computes as an [f64]. *)
Definition garbage_level (v : volume) : Z * Z :=
  if content_size v =? 0 then (0, 1) else (deleted_bytes_of v, content_size v).

Definition check_compact_volume (vid : Z) (s : store) : outcome Error (Z * Z) :=
  match find_volume vid s with
  | Some (_, v) => Ok (garbage_level v)
  | None => Err (EVolume (VNotFound vid))
  end.

Definition compact_volume (fuel : nat) (mtime now vid : Z) : SM unit :=
  let* st := mget in
  match find_volume vid st.1 with
  | Some (i, v) => lift_volume (on_volume_at i vid v (compact crc fuel mtime now))
  | None => mthrow (EVolume (VNotFound vid))
  end.

Definition commit_compact_volume (order : gmap Z needle_value -> list (Z * needle_value)) (mtime vid : Z) : SM unit :=
  let* st := mget in
  match find_volume vid st.1 with
  | Some (i, v) => lift_volume (on_volume_at i vid v (commit_compact crc order mtime))
  | None => mthrow (EVolume (VNotFound vid))
  end.

Definition commit_cleanup_volume (vid : Z) : SM unit :=
  let* st := mget in
  match find_volume vid st.1 with
  | Some (_, v) => fun st => let '(s', r) := cleanup_compact v st.2 in ((st.1, s'), map_err (fun e => EVolume (VIo e)) r)
  | None => mthrow (EVolume (VNotFound vid))
  end.

(** ** Heartbeats *)

Definition volume_report (s : fs) (vid : Z) (v : volume) : volume_message :=
  VolumeMessage vid v.(v_collection) (Replica.into_u8 v.(v_super_block).(sb_replica_placement)) (version v)
    (Ttl.into_u32 v.(v_super_block).(sb_ttl))
    (match data_file v s with Ok df => len df.2 | _ => 0 end)
    (file_count_of v) (deleted_count_of v) (deleted_bytes_of v) v.(v_no_write_or_delete).

(** The pass over the volumes of a location: the reports, the largest key, and
    the volumes to delete. *)
Fixpoint collect_volumes (now limit : Z) (s : fs) (vs : list (Z * volume)) (acc : list volume_message * Z * list Z)
  : list volume_message * Z * list Z :=
  match vs with
  | [] => acc
  | (vid, v) :: vs' =>
      let '(msgs, max_file_key, deleted) := acc in
      let max_file_key := if max_file_key <? max_file_key_of v then max_file_key_of v else max_file_key in
      collect_volumes now limit s vs'
        (if negb (expired now limit v) then (msgs ++ [volume_report s vid v], max_file_key, deleted)
         else if expired_long_enough now MAX_TTL_VOLUME_REMOVAL_DELAY_MINUTES v
         then (msgs, max_file_key, deleted ++ [vid])
         else (msgs, max_file_key, deleted))
  end.

Fixpoint delete_expired (vids : list Z) (l : disk_location) (s : fs) : disk_location * fs :=
  match vids with
  | [] => (l, s)
  | vid :: vids' => let '((l, s), _) := Location.delete_volume vid l s in delete_expired vids' l s
  end.

Fixpoint collect_locations (order : gmap Z volume -> list (Z * volume)) (now limit : Z) (ls : list disk_location)
    (s : fs) (msgs : list volume_message) (max_file_key max_volume_count : Z)
  : list disk_location * fs * list volume_message * Z * Z :=
  match ls with
  | [] => ([], s, msgs, max_file_key, max_volume_count)
  | l :: ls' =>
      let '(msgs, max_file_key, deleted) :=
        collect_volumes now limit s (order l.(dl_volumes)) (msgs, max_file_key, []) in
      let '(l, s) := delete_expired deleted l s in
      let '(ls', s, msgs, key, count) :=
        collect_locations order now limit ls' s msgs max_file_key (i64 (max_volume_count + l.(dl_max_volume_count))) in
      (l :: ls', s, msgs, key, count)
  end.

Definition collect_heartbeat (order : gmap Z volume -> list (Z * volume)) (now : Z) (st : store * fs)
  : (store * fs) * heartbeat :=
  let '(ls, s, msgs, key, count) :=
    collect_locations order now st.1.(st_volume_size_limit) st.1.(st_locations) st.2 [] 0 0 in
  ((set_locations ls st.1, s),
   Heartbeat st.1.(st_ip) st.1.(st_port) st.1.(st_public_url) (u32 count) key st.1.(st_data_center) st.1.(st_rack)
     msgs [] [] (match msgs with [] => true | _ => false end) [] [] [] true).

(** [collect_erasure_coding_heartbeat], of [erasure_coding/store.rs]: a message
    with the shards and nothing else. *)
Definition collect_erasure_coding_heartbeat (order : gmap Z ec_volume -> list (Z * ec_volume)) (s : store) : heartbeat :=
  let shards := flat_map (fun l => flat_map (fun e => get_volume_ec_shard_info e.2) (order l.(dl_ec_volumes)))
                  s.(st_locations) in
  Heartbeat "" 0 "" 0 0 "" "" [] [] [] false shards [] [] (match shards with [] => true | _ => false end).

End requests.
