(* ===== verification/StoreFacts.v ===== *)
(** * A store refines a family of maps

    The volumes of a store have files of their own, so the operations on one
    volume leave the others as they are: the store behaves as a map from volume
    ids to the maps its volumes refine. *)

From S2P Require Import Prelude Messages Types Text Ttl Replica Errors Fid Files Fs Needle NeedleCodec NeedleMap NeedleMapFacts Volume VolumeFacts Vacuum EcVolume Store.
From Stdlib Require Import Ascii.
#[local] Open Scope string_scope.
#[local] Open Scope list_scope.
#[local] Open Scope Z_scope.

(** ** File names determine the volume *)

Definition is_digit (c : ascii) : bool := match to_digit 10 c with Some _ => true | None => false end.

Lemma digits_suffix (a b x y : list ascii) c d :
  Forall (fun k => is_digit k = true) x -> Forall (fun k => is_digit k = true) y ->
  is_digit c = false -> is_digit d = false ->
  a ++ c :: x = b ++ d :: y -> x = y.
Proof.
  intros Hx Hy Hc Hd E.
  revert y Hy E. induction x as [|e x IH] using rev_ind; intros y Hy E.
  - destruct y as [|e' y _] using rev_ind; [done|].
    apply (f_equal last) in E. rewrite last_snoc in E.
    rewrite app_comm_cons, app_assoc, last_snoc in E. injection E as ->.
    apply Forall_app in Hy as [_ Hy]. inversion Hy. congruence.
  - apply Forall_app in Hx as [Hx He]. inversion He; subst.
    destruct y as [|e' y _] using rev_ind.
    + apply (f_equal last) in E. rewrite last_snoc in E.
      rewrite app_comm_cons, app_assoc, last_snoc in E. injection E as ->. congruence.
    + apply Forall_app in Hy as [Hy _]. rewrite !app_comm_cons, !app_assoc in E.
      apply app_inj_tail in E as [E ->]. by rewrite (IH Hx y Hy E).
Qed.

Lemma fmt_dec_is_digits z : 0 <= z -> Forall (fun k => is_digit k = true) (chars (fmt_dec z)).
Proof.
  intros Hz. unfold fmt_dec. rewrite chars_fmt_digits. apply Forall_map.
  eapply Forall_impl; [apply (digits_range 10 64 z); lia|]. intros d Hd. cbn beta in *.
  unfold is_digit. rewrite to_from_digit by lia. done.
Qed.

Lemma parse_fmt_dec z : in_u32 z -> parse_u32 (fmt_dec z) = Ok z.
Proof.
  intros Hz. unfold in_u32 in Hz. assert (N : digits_num 10 (digits 10 64 z) = z).
  { apply digits_value_ok; [lia|]. split; [lia|]. apply (Z.lt_le_trans _ (2 ^ 32)); [lia|]. vm_compute. discriminate. }
  unfold parse_u32, fmt_dec. rewrite from_str_radix_digits; rewrite ?N; try done; try lia.
  - apply digits_range; lia.
  - apply digits_nonempty. lia.
Qed.

Lemma fmt_dec_inj a b : in_u32 a -> in_u32 b -> fmt_dec a = fmt_dec b -> a = b.
Proof. intros Ha%parse_fmt_dec Hb%parse_fmt_dec E. rewrite E in Ha. congruence. Qed.

Lemma chars_inj s t : chars s = chars t -> s = t.
Proof.
  intros E. rewrite <- (String.string_of_list_ascii_of_string s), <- (String.string_of_list_ascii_of_string t).
  unfold chars in E. by rewrite E.
Qed.

Lemma ends_with_slash_spec d : ends_with_slash d = true -> exists p, chars d = p ++ ["/"%char].
Proof.
  unfold ends_with_slash. destruct (last (chars d)) as [c|] eqn:E; [|done]. intros Hc%Ascii.eqb_eq. subst c.
  apply last_Some in E as [p E]. by exists p.
Qed.

(** A file name is a prefix that ends in a character that is no digit, and the
    id. *)
Lemma filename_shape v : exists p c, chars (filename v) = p ++ c :: chars (fmt_dec v.(v_id)) /\ is_digit c = false.
Proof.
  unfold filename. set (dn := if ends_with_slash (v_dir v) then v_dir v else (v_dir v ++ "/")%string).
  assert (Hd : exists p, chars dn = p ++ ["/"%char]).
  { unfold dn. destruct (ends_with_slash (v_dir v)) eqn:E; [by apply ends_with_slash_spec|].
    exists (chars (v_dir v)). by rewrite chars_app. }
  destruct Hd as [p Hp]. case_bool_decide.
  - exists p, "/"%char. rewrite chars_app, Hp, <- app_assoc. done.
  - exists (p ++ "/"%char :: chars (v_collection v)), "_"%char.
    rewrite !chars_app, Hp, <- !app_assoc. done.
Qed.

(** Two volumes with different ids have different files, whatever their
    directories and collections. *)
Lemma filename_inj v w ext ext' :
  in_u32 v.(v_id) -> in_u32 w.(v_id) -> length (chars ext) = length (chars ext') ->
  (filename v ++ ext)%string = (filename w ++ ext')%string -> v.(v_id) = w.(v_id).
Proof.
  intros Hv Hw Hl E. destruct (filename_shape v) as (p & c & Ep & Hc), (filename_shape w) as (q & d & Eq & Hd).
  apply (f_equal chars) in E. rewrite !chars_app in E. apply app_inj_2 in E as [E _]; [|done].
  rewrite Ep, Eq in E. apply digits_suffix in E; try done; try (apply fmt_dec_is_digits; unfold in_u32 in *; lia).
  apply chars_inj in E. by apply fmt_dec_inj.
Qed.

(** ** What an operation leaves alone *)

(** The file system outside two names. *)
Definition same_outside (d i : string) (s s' : fs) : Prop :=
  forall n, n <> d -> n <> i -> s' !! n = s !! n.

Lemma same_outside_refl d i s : same_outside d i s s.
Proof. by intros n _ _. Qed.

Lemma same_outside_trans d i s1 s2 s3 : same_outside d i s1 s2 -> same_outside d i s2 s3 -> same_outside d i s1 s3.
Proof. intros H1 H2 n Hd Hi. by rewrite H2, H1. Qed.

Lemma same_outside_put_l d i f s : same_outside d i s (fs_put d f s).
Proof. intros n Hd _. by apply fs_put_lookup_ne. Qed.

Lemma same_outside_put_r d i f s : same_outside d i s (fs_put i f s).
Proof. intros n _ Hi. by apply fs_put_lookup_ne. Qed.

Create HintDb frame.
#[export] Hint Resolve same_outside_refl same_outside_put_l same_outside_put_r : frame.

(** Writing an entry to the index file. *)
Lemma append_to_index_frame flt k x (nm : needle_mapper memory_map) s i d :
  nm.(nm_index_file) = Some i ->
  exists s' r, append_to_index_file flt k x (nm, s) = ((nm, s'), r) /\ same_outside d i s s'.
Proof.
  intros Hi. unfold append_to_index_file, mbind', mget, mlift, mmodify. cbn [fst snd]. rewrite Hi.
  destruct (fs_get s i) as [f|e|]; cbn [map_err]; [|eauto with frame..].
  destruct (write_all_at flt f (len f) (as_bytes x k)) as [f' r]. cbn [fst snd]. eauto with frame.
Qed.

Lemma set_index_frame iflt k x v s nm i d :
  v.(v_needle_mapper) = Some nm -> nm.(nm_index_file) = Some i ->
  exists v' s' r, set_index iflt k x (v, s) = ((v', s'), r) /\ same_outside d i s s'
    /\ content_size v' = u64 (content_size v + Size.actual_size x.(nv_size))
    /\ v' = with_mapper v'.(v_needle_mapper) v.
Proof.
  intros Hm Hi. unfold set_index, with_nm, needle_mapper_of. cbn [fst snd]. rewrite Hm.
  unfold mapper_set, on_mapper, mmodify, mget, mbind', mret. cbn [fst snd].
  destruct (nvm_set _ k x) as [m' old].
  set (nm1 := set_metric _ _).
  destruct old as [o|]; cbn [fst snd];
  match goal with |- context [append_to_index_file iflt k x (?n, s)] =>
    destruct (append_to_index_frame iflt k x n s i d) as (s' & r & -> & Hf); [done|] end;
  destruct r; cbn [fst snd]; do 3 eexists; (split; [done|]); (split; [done|]);
  unfold content_size, metric_or; rewrite Hm; unfold nm1; cbn; unfold maybe_max_file_key;
  (split; [by destruct (_ <? _)|done]).
Qed.

Lemma delete_index_frame iflt k v s nm i d :
  v.(v_needle_mapper) = Some nm -> nm.(nm_index_file) = Some i ->
  exists v' s' r, delete_index iflt k (v, s) = ((v', s'), r) /\ same_outside d i s s'
    /\ content_size v' = content_size v /\ v' = with_mapper v'.(v_needle_mapper) v.
Proof.
  intros Hm Hi. unfold delete_index, with_nm, needle_mapper_of. cbn [fst snd]. rewrite Hm.
  unfold mapper_delete, on_mapper, mmodify, mget, mbind', mret. cbn [fst snd].
  destruct (nvm_delete _ k) as [m' [o|]]; cbn [fst snd].
  - match goal with |- context [append_to_index_file iflt k o (?n, s)] =>
      destruct (append_to_index_frame iflt k o n s i d) as (s' & r & -> & Hf); [done|] end.
    destruct r; cbn [fst snd]; do 3 eexists; (split; [done|]); (split; [done|]);
      unfold content_size, metric_or; rewrite Hm; done.
  - do 3 eexists. split; [done|]. split; [auto with frame|].
    unfold content_size, metric_or. rewrite Hm. done.
Qed.

(** The fields that no request changes. *)
Definition fixed (v : volume) : Z * string * string * super_block * bool * bool :=
  (identity v, v.(v_no_write_or_delete), v.(v_no_write_can_delete)).

Lemma fixed_mapper m v : fixed (with_mapper m v) = fixed v.
Proof. done. Qed.

Section step.
Context (crc : list byte -> Z).

Record quiet (d i : string) (bound : Z) (o : op) (st st' : volume * fs) : Prop := {
  quiet_files : same_outside d i st.2 st'.2;
  quiet_fixed : fixed st'.1 = fixed st.1;
  quiet_content : 0 <= content_size st'.1 <= bound + op_cost o;
}.

Lemma content_size_wrap a b bound : 0 <= a <= bound -> 0 <= b -> bound + b < 2 ^ 64 -> 0 <= u64 (a + b) <= bound + b.
Proof. intros Ha Hb Hl. rewrite u64_id by (unfold in_u64; lia). lia. Qed.

Lemma write_quiet vid d i v s f nm ix A flt iflt n bound :
  vol_at crc vid d i v s f nm ix A -> storable crc n -> len f + 8 < 2 ^ 32 ->
  0 <= content_size v <= bound -> bound < 2 ^ 32 ->
  exists st' r, write_needle flt iflt n (v, s) = (st', r) /\ quiet d i bound (OpWrite flt iflt n) (v, s) st'.
Proof.
  intros Hv [Hn Hc] Hf Hcs Hb. pose proof Hv as [].
  unfold write_needle, get_volume, mbind', mget, mret, mlift. cbn [fst snd]. rewrite at_writable. cbn [fst snd].
  cbn [fst snd]. rewrite (data_file_ok _ _ _ _ _ _ _ _ _ _ Hv), at_version.
  destruct (append_at_end flt n f Hn) as (z & -> & _ & _); [lia|].
  assert (Hq : forall s', same_outside d i s s' -> quiet d i bound (OpWrite flt iflt n) (v, s) (v, s')).
  { intros s' Hs. split; [done|done|]. cbn [fst]. pose proof (op_cost_nonneg (OpWrite flt iflt n)). lia. }
  unfold mmodify, mthrow. cbn [fst snd]. destruct flt as [[c e]|].
  - do 2 eexists. split; [done|]. apply Hq.
    eapply same_outside_trans; [apply same_outside_put_l|apply same_outside_put_l].
  - cbn [n_id with_sizes n_size]. change (n_id (with_sizes (len (body n)) n)) with (n_id n).
    destruct (set_index_frame iflt (n_id n) (NeedleValue (Offset.from_u64 (append_needle_at f)) (len (body n)))
      v (fs_put d (f ++ z) s) nm i d at_mapper at_index) as (v' & s' & r & E & Hs & Hcs' & Hv').
    change (n_size (with_sizes (len (body n)) n)) with (len (body n)).
    rewrite E. cbn [nv_size] in Hcs'. rewrite <- len_encode in Hcs' by done.
    assert (H1 : same_outside d i s s') by (eapply same_outside_trans; [apply same_outside_put_l|exact Hs]).
    assert (H2 : fixed v' = fixed v) by (rewrite Hv'; done).
    assert (H3 : 0 <= content_size v' <= bound + op_cost (OpWrite None iflt n)).
    { rewrite Hcs'. cbn [op_cost]. pose proof (len_nonneg (encode n)).
      pose proof (len_body_bound n Hn) as Hbb. pose proof (len_encode n Hn) as Hle.
      rewrite Size.actual_size_eq in Hle by done. unfold Size.valid in Hbb.
      pose proof (Size.padding_len_bounds (len (body n))).
      pose proof (content_size_wrap (content_size v) (len (encode n)) bound). lia. }
    destruct r as [old|e|]; [|do 2 eexists; split; [done|split; done]..].
    destruct (_ <? _); unfold on_volume, mmodify; do 2 eexists; (split; [done|]); split; done.
Qed.

Lemma delete_quiet vid d i v s f nm ix A flt iflt n bound :
  vol_at crc vid d i v s f nm ix A -> needle_wf n -> len f + 8 < 2 ^ 32 ->
  0 <= content_size v <= bound ->
  exists st' r, delete_needle flt iflt n (v, s) = (st', r) /\ quiet d i bound (OpDelete flt iflt n) (v, s) st'.
Proof.
  intros Hv Hn Hf Hcs. pose proof Hv as [].
  assert (Hq : forall v' s', same_outside d i s s' -> fixed v' = fixed v -> content_size v' = content_size v ->
    quiet d i bound (OpDelete flt iflt n) (v, s) (v', s')).
  { intros v' s' Hs Hx Hy. split; [done|done|]. cbn [fst]. rewrite Hy.
    pose proof (op_cost_nonneg (OpDelete flt iflt n)). lia. }
  unfold delete_needle, get_volume, mbind', mget, mret, mlift. cbn [fst snd]. rewrite at_writable. cbn [fst snd].
  rewrite (get_index_ok _ _ _ _ _ _ _ _ _ _ (n_id n) Hv).
  destruct (ix !! n_id n) as [nv|]; [|do 2 eexists; split; [done|apply Hq; auto with frame]].
  cbn [fst snd]. rewrite (data_file_ok _ _ _ _ _ _ _ _ _ _ Hv), at_version.
  destruct (append_at_end flt n f Hn) as (z & -> & _ & _); [lia|].
  unfold mmodify. cbn [fst snd]. destruct flt as [[c e]|]; cbn [map_err].
  - do 2 eexists. split; [done|]. apply Hq; auto with frame.
  - change (n_id (with_sizes (len (body n)) n)) with (n_id n).
    destruct (delete_index_frame iflt (n_id n) v (fs_put d (f ++ z) s) nm i d at_mapper at_index)
      as (v' & s' & r & E & Hs & Hcs' & Hv').
    rewrite E. assert (H1 : same_outside d i s s') by (eapply same_outside_trans; [apply same_outside_put_l|exact Hs]).
    destruct r; do 2 eexists; (split; [done|]); apply Hq; try done; by rewrite Hv'.
Qed.
End step.

(** ** The abstract store *)

Record avol := AVol { av_map : gmap Z needle; av_readonly : bool; av_bytes : Z }.

(** The volumes, and the free slots of the locations. *)
Record astore := AStore { as_volumes : gmap Z avol; as_free : list Z }.

Inductive sop :=
| SAdd (mtime vid : Z) (collection : string) (rp : replica_placement) (t : ttl)
| SWrite (flt iflt : fault) (vid : Z) (n : needle)
| SDelete (flt iflt : fault) (vid : Z) (n : needle)
| SRead (now vid : Z) (m : needle)
| SReadonly (vid : Z).

Definition sop_vid (o : sop) : Z :=
  match o with SAdd _ v _ _ _ | SWrite _ _ v _ | SDelete _ _ v _ | SRead _ v _ | SReadonly v => v end.

Definition sop_cost (o : sop) : Z :=
  match o with SWrite _ _ _ n | SDelete _ _ _ n => 8 + len (encode n) | _ => 0 end.

Definition some_result (r : outcome Error (needle * Z)) : outcome Error (option (needle * Z)) :=
  match r with Ok x => Ok (Some x) | Err e => Err e | Panic => Panic end.
Definition no_result (r : outcome Error unit) : outcome Error (option (needle * Z)) :=
  match r with Ok _ => Ok None | Err e => Err e | Panic => Panic end.

Section store.
Context (crc : list byte -> Z).

Definition sop_ok (o : sop) : Prop :=
  match o with
  | SAdd _ vid _ _ _ => in_u32 vid
  | SWrite _ _ _ n => storable crc n
  | SDelete _ _ _ n => needle_wf n
  | SRead _ _ m => m.(n_data) = []
  | SReadonly _ => True
  end.

Definition sexec (o : sop) (st : store * fs) : (store * fs) * outcome Error (option (needle * Z)) :=
  match o with
  | SAdd mtime vid c rp t => let '(st', r) := do_add_volume crc None mtime vid c rp t st in (st', no_result r)
  | SWrite flt iflt vid n => let '(st', r) := write_volume_needle flt iflt vid n st in (st', some_result r)
  | SDelete flt iflt vid n =>
      let '(st', r) := delete_volume_needle flt iflt vid n st in (st', some_result (map_err EVolume r))
  | SRead now vid m => let '(st', r) := read_volume_needle crc now vid m st in (st', some_result r)
  | SReadonly vid => let '(st', r) := mark_volume_readonly vid st in (st', no_result (map_err EVolume r))
  end.

(** The first of the largest positive numbers. *)
Fixpoint best_free (fs : list Z) (i : nat) (best : option nat) (max_free : Z) : option nat :=
  match fs with
  | [] => best
  | f :: fs' => if max_free <? f then best_free fs' (S i) (Some i) f else best_free fs' (S i) best max_free
  end.

Definition set_avol (vid : Z) (av : avol) (a : astore) : astore :=
  AStore (<[vid := av]> a.(as_volumes)) a.(as_free).

(** A write or a deletion on the map of a volume. *)
Definition on_avol (vid cost : Z) (f : gmap Z needle -> gmap Z needle * outcome VolumeError (needle * Z))
    (av : avol) (a : astore) : astore * outcome Error (option (needle * Z)) :=
  if av.(av_readonly) then (a, Err (EVolume (VReadonly vid)))
  else let '(A, r) := f av.(av_map) in
       (set_avol vid (AVol A false (av.(av_bytes) + cost)) a, some_result (map_err EVolume r)).

Definition spec_sop (o : sop) (a : astore) : astore * outcome Error (option (needle * Z)) :=
  match o, a.(as_volumes) !! sop_vid o with
  | SAdd _ vid _ _ _, None =>
      match best_free a.(as_free) 0 None 0 with
      | None => (a, Err EBox)
      | Some i => (AStore (<[vid := AVol ∅ false 8]> a.(as_volumes)) (alter (fun f => i64 (f - 1)) i a.(as_free)),
                   Ok None)
      end
  | SAdd _ _ _ _ _, Some _ => (a, Err EBox)
  | SWrite flt iflt vid n, Some av => on_avol vid (sop_cost o) (spec_write flt iflt n) av a
  | SDelete flt iflt vid n, Some av => on_avol vid (sop_cost o) (spec_delete flt iflt n) av a
  | SDelete _ _ _ n, None => (a, Ok (Some (n, 0)))
  | SRead now vid m, Some av => (a, some_result (map_err EVolume (spec_read vid now m av.(av_map))))
  | SReadonly vid, Some av => (set_avol vid (AVol av.(av_map) true av.(av_bytes)) a, Ok None)
  | (SWrite _ _ vid _ | SRead _ vid _ | SReadonly vid), None => (a, Err (EVolume (VNotFound vid)))
  end.

(** ** The relation *)

Record vol_ok (vid : Z) (v : volume) (s : fs) (av : avol) : Prop := {
  ok_id : in_u32 vid;
  ok_ro : v.(v_no_write_or_delete) = av.(av_readonly);
  ok_inv : vol_inv crc vid (data_filename v) (index_filename v) av.(av_bytes)
             (set_no_write_or_delete false v, s) av.(av_map);
  ok_content : 0 <= content_size v <= av.(av_bytes);
}.

Definition free_slots (l : disk_location) : Z :=
  i64 (l.(dl_max_volume_count) - Z.of_nat (size l.(dl_volumes))).

Record store_inv (st : store * fs) (a : astore) : Prop := {
  si_some : forall vid i v, find_volume vid st.1 = Some (i, v) ->
    exists av, a.(as_volumes) !! vid = Some av /\ vol_ok vid v st.2 av;
  si_none : forall vid, find_volume vid st.1 = None -> a.(as_volumes) !! vid = None;
  si_files : forall name, is_Some (st.2 !! name) ->
    exists vid i v, find_volume vid st.1 = Some (i, v) /\ (name = data_filename v \/ name = index_filename v);
  si_free : a.(as_free) = map free_slots st.1.(st_locations);
}.

Lemma vol_ok_id vid v s av : vol_ok vid v s av -> v.(v_id) = vid.
Proof. intros [_ _ (f & nm & ix & [] & _) _]. done. Qed.

(** Volumes with different ids share no file. *)
Lemma names_differ v w :
  in_u32 v.(v_id) -> in_u32 w.(v_id) -> v.(v_id) <> w.(v_id) ->
  data_filename v <> data_filename w /\ data_filename v <> index_filename w
  /\ index_filename v <> data_filename w /\ index_filename v <> index_filename w.
Proof.
  intros Hv Hw Hne. repeat split; intros E; apply Hne;
    eapply (filename_inj v w); try exact E; try done.
Qed.

Lemma vol_inv_frame vid d i bound v s s' A :
  s' !! d = s !! d -> s' !! i = s !! i -> vol_inv crc vid d i bound (v, s) A -> vol_inv crc vid d i bound (v, s') A.
Proof.
  intros Hd Hi (f & nm & ix & [] & Hb). exists f, nm, ix. split; [|done]. cbn [fst snd] in *.
  unfold fs_bytes in *. split; try done; unfold fs_bytes; rewrite ?Hd, ?Hi; done.
Qed.

Lemma vol_ok_frame vid v s av w s' :
  vol_ok vid v s av -> in_u32 w.(v_id) -> w.(v_id) <> vid ->
  same_outside (data_filename w) (index_filename w) s s' -> vol_ok vid v s' av.
Proof.
  intros Hok Hw Hne Hs. pose proof (vol_ok_id _ _ _ _ Hok) as Hid. destruct Hok as [H1 H2 H3 H4].
  destruct (names_differ v w) as (N1 & N2 & N3 & N4); [by rewrite Hid|done|congruence|].
  split; try done. eapply vol_inv_frame; [..|exact H3]; apply Hs; done.
Qed.

(** ** Looking up after an update *)

Lemma find_in_lookup vid ls i v :
  find_in vid ls = Some (i, v) -> exists l, ls !! i = Some l /\ l.(dl_volumes) !! vid = Some v.
Proof.
  revert i. induction ls as [|l ls IH]; intros i; cbn [find_in]; [done|]. unfold Location.get_volume.
  destruct (dl_volumes l !! vid) as [w|] eqn:E; [intros [= <- <-]; by exists l|].
  destruct (find_in vid ls) as [[j w]|]; [|done]. intros [= <- <-]. by apply IH.
Qed.

Lemma find_in_none vid ls l : find_in vid ls = None -> l ∈ ls -> l.(dl_volumes) !! vid = None.
Proof.
  induction ls as [|l' ls IH]; cbn [find_in]; [by intros _ ?%not_elem_of_nil|].
  unfold Location.get_volume. destruct (dl_volumes l' !! vid) eqn:E; [done|].
  destruct (find_in vid ls) as [[]|]; [done|]. intros _ [->|H]%elem_of_cons; [done|by apply IH].
Qed.

Lemma find_in_put_ne vid vid' v ls i :
  vid' <> vid -> find_in vid' (alter (Location.add_volume vid v) i ls) = find_in vid' ls.
Proof.
  intros Hne. revert i. induction ls as [|l ls IH]; intros [|i]; cbn [find_in alter list_alter]; try done.
  - unfold Location.get_volume. cbn. by rewrite lookup_insert_ne.
  - change (list_alter _ i ls) with (alter (Location.add_volume vid v) i ls). by rewrite IH.
Qed.

Lemma find_in_put_eq vid v w ls i :
  find_in vid ls = Some (i, w) -> find_in vid (alter (Location.add_volume vid v) i ls) = Some (i, v).
Proof.
  revert i. induction ls as [|l ls IH]; intros i; cbn [find_in]; [done|]. unfold Location.get_volume at 1.
  destruct (dl_volumes l !! vid) as [u|] eqn:E.
  - intros [= <- _]. cbn. unfold Location.get_volume. cbn. by rewrite lookup_insert_eq.
  - destruct (find_in vid ls) as [[j u]|]; [|done]. intros [= <- ->]. cbn.
    unfold Location.get_volume at 1. rewrite E.
    change (list_alter _ j ls) with (alter (Location.add_volume vid v) j ls). by rewrite (IH j).
Qed.

Lemma find_in_put_new vid v ls i :
  find_in vid ls = None -> (i < length ls)%nat ->
  find_in vid (alter (Location.add_volume vid v) i ls) = Some (i, v).
Proof.
  revert i. induction ls as [|l ls IH]; intros i; [cbn; lia|]. cbn [find_in]. unfold Location.get_volume at 1.
  destruct (dl_volumes l !! vid) as [u|] eqn:E; [done|].
  destruct (find_in vid ls) as [[]|]; [done|]. intros _ Hi. destruct i as [|i]; cbn.
  - unfold Location.get_volume. cbn. by rewrite lookup_insert_eq.
  - unfold Location.get_volume at 1. rewrite E.
    change (list_alter _ i ls) with (alter (Location.add_volume vid v) i ls). rewrite IH; [done|done|cbn in Hi; lia].
Qed.

Lemma free_put_known vid v i ls l w :
  ls !! i = Some l -> l.(dl_volumes) !! vid = Some w ->
  map free_slots (alter (Location.add_volume vid v) i ls) = map free_slots ls.
Proof.
  intros Hl Hw. apply list_eq. intros j. change (map free_slots) with (fmap (M := list) free_slots).
  rewrite !list_lookup_fmap. destruct (decide (i = j)) as [->|Hne].
  - rewrite list_lookup_alter_eq, Hl. cbn. unfold free_slots. cbn. do 4 f_equal.
    by rewrite map_size_insert, Hw.
  - by rewrite list_lookup_alter_ne.
Qed.

Lemma free_put_new vid v i ls l :
  ls !! i = Some l -> l.(dl_volumes) !! vid = None ->
  map free_slots (alter (Location.add_volume vid v) i ls) = alter (fun f => i64 (f - 1)) i (map free_slots ls).
Proof.
  intros Hl Hw. apply list_eq. intros j. change (map free_slots) with (fmap (M := list) free_slots).
  rewrite !list_lookup_fmap. destruct (decide (i = j)) as [->|Hne].
  - rewrite !list_lookup_alter_eq, list_lookup_fmap, Hl. cbn. unfold free_slots. cbn. f_equal.
    rewrite map_size_insert, Hw. int_solve.
  - by rewrite !list_lookup_alter_ne, list_lookup_fmap.
Qed.

Lemma best_free_locations ls i best m :
  best_free (map free_slots ls) i best m = free_location ls i best m.
Proof. revert i best m. induction ls as [|l ls IH]; intros; cbn; [done|]. by rewrite !IH. Qed.

Lemma free_location_bound ls i best m j :
  free_location ls i best m = Some j -> best = Some j \/ (i <= j < i + length ls)%nat.
Proof.
  revert i best m. induction ls as [|l ls IH]; intros i best m; cbn; [by left|].
  destruct (_ <? _); intros H; apply IH in H as [H|H]; cbn; try (right; lia).
  - injection H as ->. right. lia.
  - by left.
Qed.

(** ** Steps *)

Lemma fixed_names v v' : fixed v' = fixed v ->
  data_filename v' = data_filename v /\ index_filename v' = index_filename v
  /\ v'.(v_no_write_or_delete) = v.(v_no_write_or_delete).
Proof.
  unfold fixed, identity, data_filename, index_filename, filename.
  intros [= H1 H2 H3 H4 H5 H6]. by rewrite H1, H2, H3.
Qed.

Lemma store_update t s a vid i v v' s' av' :
  store_inv (t, s) a -> find_volume vid t = Some (i, v) -> vol_ok vid v' s' av' ->
  data_filename v' = data_filename v -> index_filename v' = index_filename v ->
  same_outside (data_filename v) (index_filename v) s s' ->
  store_inv (put_volume i vid v' t, s') (set_avol vid av' a).
Proof.
  intros [Hs Hn Hf Hfree] Hfind Hok Ed Ei Hout. unfold find_volume in *. cbn [fst snd] in *.
  assert (Hput : forall vid0, find_in vid0 (st_locations (put_volume i vid v' t))
    = if decide (vid0 = vid) then Some (i, v') else find_in vid0 (st_locations t)).
  { intros vid0. cbn. case_decide; [subst; by apply (find_in_put_eq _ _ v)|by apply find_in_put_ne]. }
  destruct (Hs vid i v Hfind) as (av & Hav & Hvok).
  pose proof (vol_ok_id _ _ _ _ Hvok) as Hid. pose proof (ok_id _ _ _ _ Hok) as Hu.
  split; cbn [fst snd].
  - intros vid0 j w. unfold find_volume. rewrite Hput. cbn [as_volumes set_avol]. case_decide; [subst vid0|].
    + intros [= <- <-]. exists av'. by rewrite lookup_insert_eq.
    + intros Hw. destruct (Hs vid0 j w Hw) as (aw & Haw & Hwok). exists aw. rewrite lookup_insert_ne by done.
      split; [done|]. apply (vol_ok_frame _ _ s _ v); [done|by rewrite Hid|congruence|done].
  - intros vid0. unfold find_volume. rewrite Hput. cbn [as_volumes set_avol]. case_decide; [done|].
    intros H0. rewrite lookup_insert_ne by done. by apply Hn.
  - intros name Hname. unfold find_volume.
    assert (Hself : name = data_filename v \/ name = index_filename v -> exists vid0 j w,
      find_in vid0 (st_locations (put_volume i vid v' t)) = Some (j, w)
      /\ (name = data_filename w \/ name = index_filename w)).
    { intros Hv. exists vid, i, v'. rewrite Hput, decide_True, Ed, Ei by done. done. }
    destruct (decide (name = data_filename v)); [auto|].
    destruct (decide (name = index_filename v)); [auto|].
    rewrite Hout in Hname by done. destruct (Hf name Hname) as (vid0 & j & w & Hw & Hnm).
    unfold find_volume in Hw. destruct (decide (vid0 = vid)) as [->|]; [rewrite Hfind in Hw; naive_solver|].
    exists vid0, j, w. rewrite Hput, decide_False by done. done.
  - destruct (find_in_lookup _ _ _ _ Hfind) as (l & Hl & Hlv). cbn [as_free set_avol]. rewrite Hfree.
    symmetry. exact (free_put_known vid v' i _ l v Hl Hlv).
Qed.

Lemma set_writable_id v : v.(v_no_write_or_delete) = false -> set_no_write_or_delete false v = v.
Proof. destruct v. cbn. by intros ->. Qed.

(** An operation on a writable volume. *)
Lemma volume_step vid v s av o :
  vol_ok vid v s av -> av.(av_readonly) = false -> op_ok crc o -> av.(av_bytes) + 8 < 2 ^ 32 ->
  exists v' s', exec crc o (v, s) = ((v', s'), (spec_exec vid o av.(av_map)).2)
    /\ vol_ok vid v' s' (AVol (spec_exec vid o av.(av_map)).1 false (av.(av_bytes) + op_cost o))
    /\ data_filename v' = data_filename v /\ index_filename v' = index_filename v
    /\ same_outside (data_filename v) (index_filename v) s s'.
Proof.
  intros [Hid Hro Hinv Hcs] Hw Ho Hb. rewrite Hw in Hro. rewrite set_writable_id in Hinv by done.
  assert (Hq : exists st' r, exec crc o (v, s) = (st', r)
    /\ quiet (data_filename v) (index_filename v) (av_bytes av) o (v, s) st').
  { destruct Hinv as (f & nm & ix & Hv & Hf). cbn [fst snd] in Hv. destruct o as [flt iflt n|flt iflt n|now m].
    - eapply (write_quiet crc); [exact Hv|exact Ho|lia|done|lia].
    - eapply (delete_quiet crc); [exact Hv|exact Ho|lia|done].
    - cbn. do 2 eexists. split; [done|]. split; [apply same_outside_refl|done|cbn; lia]. }
  destruct Hq as ([v' s'] & r & E & [Q1 Q2 Q3]). cbn [fst snd] in *.
  destruct (exec_sim crc _ _ _ o _ _ _ Hinv Ho Hb) as (st' & E' & Hinv'). rewrite E in E'.
  injection E' as <- ->. destruct (fixed_names _ _ Q2) as (N1 & N2 & N3).
  exists v', s'. split; [done|]. split; [|done]. rewrite Hro in N3.
  split; cbn [av_readonly av_map av_bytes]; try done.
  rewrite set_writable_id, N1, N2 by done. done.
Qed.

Lemma store_add t s a i l v s' vid :
  store_inv (t, s) a -> find_volume vid t = None -> t.(st_locations) !! i = Some l ->
  vol_ok vid v s' (AVol ∅ false 8) -> (forall n, n <> data_filename v -> n <> index_filename v -> s' !! n = s !! n) ->
  store_inv (put_volume i vid v t, s')
    (AStore (<[vid := AVol ∅ false 8]> a.(as_volumes)) (alter (fun f => i64 (f - 1)) i a.(as_free))).
Proof.
  intros [Hs Hn Hf Hfree] Hfind Hl Hok Hout. unfold find_volume in *. cbn [fst snd] in *.
  assert (Hput : forall vid0, find_in vid0 (st_locations (put_volume i vid v t))
    = if decide (vid0 = vid) then Some (i, v) else find_in vid0 (st_locations t)).
  { intros vid0. cbn. case_decide; [subst|by apply find_in_put_ne].
    apply find_in_put_new; [done|]. by apply lookup_lt_Some in Hl. }
  pose proof (vol_ok_id _ _ _ _ Hok) as Hid. pose proof (ok_id _ _ _ _ Hok) as Hu.
  split; cbn [fst snd as_volumes as_free].
  - intros vid0 j w. unfold find_volume. rewrite Hput. case_decide; [subst vid0|].
    + intros [= <- <-]. eexists. by rewrite lookup_insert_eq.
    + intros Hw. destruct (Hs vid0 j w Hw) as (aw & Haw & Hwok). exists aw. rewrite lookup_insert_ne by done.
      split; [done|]. apply (vol_ok_frame _ _ s _ v); [done|by rewrite Hid|congruence|done].
  - intros vid0. unfold find_volume. rewrite Hput. case_decide; [done|].
    intros H0. rewrite lookup_insert_ne by done. by apply Hn.
  - intros name Hname. unfold find_volume.
    destruct (decide (name = data_filename v)); [exists vid, i, v; rewrite Hput, decide_True by done; auto|].
    destruct (decide (name = index_filename v)); [exists vid, i, v; rewrite Hput, decide_True by done; auto|].
    rewrite Hout in Hname by done. destruct (Hf name Hname) as (vid0 & j & w & Hw & Hnm).
    exists vid0, j, w. rewrite Hput, decide_False; [done|]. intros ->. unfold find_volume in Hw. congruence.
  - rewrite Hfree. symmetry. apply (free_put_new vid v i _ l); [done|].
    apply (find_in_none vid _ l Hfind). by apply list_elem_of_lookup_2 in Hl.
Qed.

(** A new data file has a name no volume of the store uses. *)
Lemma new_name_free t s a v : store_inv (t, s) a -> find_volume v.(v_id) t = None -> in_u32 v.(v_id) ->
  s !! data_filename v = None.
Proof.
  intros Hinv Hfind Hu. destruct (s !! data_filename v) eqn:E; [|done]. exfalso.
  destruct (si_files _ _ Hinv (data_filename v)) as (vid & i & w & Hw & Hn); [by eexists|]. cbn [fst snd] in *.
  destruct (si_some _ _ Hinv vid i w Hw) as (av & _ & Hok). pose proof (vol_ok_id _ _ _ _ Hok) as Hid.
  pose proof (ok_id _ _ _ _ Hok) as Hwu. rewrite <- Hid in Hw, Hwu.
  destruct (decide (v_id v = v_id w)) as [En|En]; [congruence|].
  destruct (names_differ v w Hu Hwu En) as (N1 & N2 & _). destruct Hn; congruence.
Qed.

Lemma add_sim mtime vid c rp t st a :
  store_inv st a -> in_u32 vid ->
  exists st', sexec (SAdd mtime vid c rp t) st = (st', (spec_sop (SAdd mtime vid c rp t) a).2)
    /\ store_inv st' (spec_sop (SAdd mtime vid c rp t) a).1.
Proof.
  intros Hinv Hu. destruct st as [tt s]. unfold sexec, spec_sop. cbn [sop_vid].
  unfold do_add_volume, lift_volume, mbind', mget, mlift, mmodify, mthrow. cbn [fst snd].
  destruct (find_volume vid tt) as [[i v]|] eqn:Ef.
  - destruct (si_some _ _ Hinv vid i v Ef) as (av & -> & _). by eexists.
  - rewrite (si_none _ _ Hinv vid Ef). rewrite (si_free _ _ Hinv). cbn [fst snd].
    rewrite best_free_locations.
    unfold find_free_location. destruct (free_location (st_locations tt) 0 None 0) as [i|] eqn:El; [|by eexists].
    apply free_location_bound in El as [El|El]; [done|].
    destruct (lookup_lt_is_Some_2 (st_locations tt) i) as [l Hl]; [lia|]. rewrite Hl. cbn [unwrap fst snd].
    set (v0 := Volume vid (dl_directory l) c None None (SuperBlock CURRENT_VERSION rp t 0) false false false 0 0 0).
    pose proof (new_name_free _ _ _ v0 Hinv Ef Hu) as Hd.
    destruct (volume_new_spec crc mtime (dl_directory l) c vid rp t s Hd)
      as (v & s' & -> & Hid & Hvi & _ & Hcs & Hro & _ & Hout).
    cbn [map_err fst snd no_result]. eexists. split; [done|].
    assert (Hok : vol_ok vid v s' (AVol ∅ false 8)).
    { destruct (fixed_names v0 v) as (N1 & N2 & _);
        [unfold fixed; destruct Hvi as (f & nm & ix & [] & _); cbn [fst snd] in *;
         unfold readonly in *; apply orb_false_iff in at_writable as [-> ->]; rewrite Hid; done|].
      split; cbn [av_readonly av_bytes av_map]; [done|done| |lia].
      rewrite set_writable_id, N1, N2 by done. exact Hvi. }
    assert (Hn : data_filename v = data_filename v0 /\ index_filename v = index_filename v0).
    { unfold data_filename, index_filename, filename. unfold identity in Hid. injection Hid as -> -> -> _. done. }
    destruct Hn as [N1 N2].
    pose proof (store_add tt s a i l v s' vid Hinv Ef Hl Hok) as Hadd. rewrite N1, N2 in Hadd.
    specialize (Hadd Hout). destruct Hadd as [A1 A2 A3 A4]. split; [exact A1|exact A2|exact A3|].
    cbn [as_free fst] in A4 |- *. rewrite (si_free _ _ Hinv) in A4. exact A4.
Qed.

(** Requests to a volume that is there and writable. *)
Lemma on_volume_sim vid o t s a i v av (r : outcome VolumeError (needle * Z)) st' :
  store_inv (t, s) a -> find_volume vid t = Some (i, v) -> a.(as_volumes) !! vid = Some av ->
  vol_ok vid v s av -> av.(av_readonly) = false -> op_ok crc o -> av.(av_bytes) + 8 < 2 ^ 32 ->
  on_volume_at i vid v (exec crc o) (t, s) = (st', r) ->
  r = (spec_exec vid o av.(av_map)).2
  /\ store_inv st' (set_avol vid (AVol (spec_exec vid o av.(av_map)).1 false (av.(av_bytes) + op_cost o)) a).
Proof.
  intros Hinv Hf Hav Hok Hro Ho Hb. unfold on_volume_at. cbn [fst snd].
  destruct (volume_step vid v s av o Hok Hro Ho Hb) as (v' & s' & -> & Hok' & N1 & N2 & Hout).
  intros [= <- <-]. split; [done|]. by apply (store_update t s a vid i v).
Qed.

Lemma sexec_sim o st a :
  store_inv st a -> sop_ok o -> (forall av, a.(as_volumes) !! sop_vid o = Some av -> av.(av_bytes) + 8 < 2 ^ 32) ->
  exists st', sexec o st = (st', (spec_sop o a).2) /\ store_inv st' (spec_sop o a).1.
Proof.
  intros Hinv Ho Hb. destruct o as [mtime vid c rp t|flt iflt vid n|flt iflt vid n|now vid m|vid]; [by apply add_sim|..];
    destruct st as [t s]; unfold sexec, spec_sop; cbn [sop_vid] in *; cbn [sop_ok] in Ho;
    (destruct (find_volume vid t) as [[i v]|] eqn:Ef;
     [destruct (si_some _ _ Hinv vid i v Ef) as (av & Ea & Hok)
     |pose proof (si_none _ _ Hinv vid Ef) as Ea]); rewrite Ea;
    unfold write_volume_needle, delete_volume_needle, read_volume_needle, mark_volume_readonly, lift_volume,
      mbind', mget, mlift, mthrow, mret; cbn [fst snd]; rewrite Ef.
  2, 4, 6, 8: by eexists.
  - unfold on_avol. destruct (av_readonly av) eqn:Hro; pose proof (ok_ro _ _ _ _ Hok) as Hr; rewrite Hro in Hr.
    + unfold readonly. rewrite Hr. by eexists.
    + assert (readonly v = false) as -> by (destruct Hok as [_ _ (? & ? & ? & [] & _) _];
        unfold readonly in *; cbn in *; rewrite Hr; done).
      destruct (on_volume_at i vid v (write_needle flt iflt n) (t, s)) as [st' r] eqn:E.
      destruct (on_volume_sim vid (OpWrite flt iflt n) t s a i v av r st') as [-> Hst]; try done; [by apply Hb|].
      cbn [spec_exec op_cost sop_cost] in *. destruct (spec_write flt iflt n (av_map av)). by eexists.
  - unfold on_avol. destruct (av_readonly av) eqn:Hro; pose proof (ok_ro _ _ _ _ Hok) as Hr; rewrite Hro in Hr; rewrite Hr.
    + by eexists.
    + specialize (Hb av Ea). pose proof (ok_content _ _ _ _ Hok) as Hcs.
      rewrite (proj2 (Z.leb_le (u64 _) _)).
      2:{ change (Size.actual_size 0) with 24. rewrite u64_id by (unfold in_u64; lia).
          unfold MAX_POSSIBLE_VOLUME_SIZE. lia. }
      destruct (on_volume_at i vid v (delete_needle flt iflt n) (t, s)) as [st' r] eqn:E.
      destruct (on_volume_sim vid (OpDelete flt iflt n) t s a i v av r st') as [-> Hst]; try done.
      cbn [spec_exec op_cost sop_cost] in *. destruct (spec_delete flt iflt n (av_map av)). by eexists.
  - pose proof (ok_inv _ _ _ _ Hok) as Hvi. specialize (Hb av Ea).
    destruct (exec_sim crc _ _ _ (OpRead now m) _ _ _ Hvi Ho Hb) as (st' & E & _).
    cbn [exec spec_exec fst snd] in E. injection E as _ E.
    change (read_needle crc now m (set_no_write_or_delete false v) s) with (read_needle crc now m v s) in E.
    rewrite E. by eexists.
  - unfold on_volume_at, on_volume, mmodify. cbn [fst snd]. eexists. split; [done|].
    apply (store_update t s a vid i v); try done.
    destruct Hok as [H1 H2 H3 H4]. by split.
Qed.

(** ** Sequences of requests *)

Fixpoint sexec_all (os : list sop) (st : store * fs)
  : (store * fs) * list (outcome Error (option (needle * Z))) :=
  match os with
  | [] => (st, [])
  | o :: os' => let '(st1, r) := sexec o st in
                let '(st2, rs) := sexec_all os' st1 in (st2, r :: rs)
  end.

Fixpoint spec_sop_all (os : list sop) (a : astore) : astore * list (outcome Error (option (needle * Z))) :=
  match os with
  | [] => (a, [])
  | o :: os' => let '(a1, r) := spec_sop o a in
                let '(a2, rs) := spec_sop_all os' a1 in (a2, r :: rs)
  end.

(** The bytes a sequence can add to one volume. *)
Definition cost_of (vid : Z) (os : list sop) : Z :=
  fold_right (fun o c => (if sop_vid o =? vid then sop_cost o else 0) + c) 0 os.

Lemma sop_cost_nonneg o : 0 <= sop_cost o.
Proof. destruct o; cbn [sop_cost]; try pose proof (len_nonneg (encode n)); lia. Qed.

Lemma cost_of_nonneg vid os : 0 <= cost_of vid os.
Proof.
  induction os as [|o os IH]; [done|]. cbn [cost_of fold_right]. unfold cost_of in IH. pose proof (sop_cost_nonneg o). destruct (_ =? _); lia.
Qed.

(** A step charges its cost to its volume only. *)
Lemma spec_sop_bytes o a vid av' :
  (spec_sop o a).1.(as_volumes) !! vid = Some av' ->
  (exists av, a.(as_volumes) !! vid = Some av
     /\ av'.(av_bytes) <= av.(av_bytes) + (if sop_vid o =? vid then sop_cost o else 0))
  \/ av'.(av_bytes) = 8.
Proof.
  pose proof (sop_cost_nonneg o) as Hc.
  assert (Hsame : forall av, as_volumes a !! vid = Some av -> exists av0, as_volumes a !! vid = Some av0
    /\ av_bytes av <= av_bytes av0 + (if sop_vid o =? vid then sop_cost o else 0)).
  { intros av Hav. exists av. split; [done|]. destruct (_ =? _); lia. }
  assert (Hset : forall w av, as_volumes a !! sop_vid o = Some av -> av_bytes w <= av_bytes av + sop_cost o ->
    as_volumes (set_avol (sop_vid o) w a) !! vid = Some av' -> exists av0, as_volumes a !! vid = Some av0
      /\ av_bytes av' <= av_bytes av0 + (if sop_vid o =? vid then sop_cost o else 0)).
  { intros w av Hav Hw. cbn. rewrite lookup_insert. case_decide as D; [|apply Hsame].
    intros [= <-]. subst vid. rewrite Z.eqb_refl. eauto. }
  unfold spec_sop.
  destruct o as [mtime vid0 c rp t|flt iflt vid0 n|flt iflt vid0 n|now vid0 m|vid0]; cbn [sop_vid] in *;
    destruct (as_volumes a !! vid0) as [av|] eqn:E; cbn [fst]; try (intros H; left; exact (Hsame _ H)).
  - destruct (best_free _ _ _ _); [|intros H; left; exact (Hsame _ H)].
    cbn. rewrite lookup_insert. case_decide; [|intros H0; left; exact (Hsame _ H0)].
    intros [= <-]. by right.
  - unfold on_avol. destruct (av_readonly av); [intros H; left; exact (Hsame _ H)|].
    destruct (spec_write flt iflt n (av_map av)) as [A r]. intros H. left. by eapply Hset; [reflexivity| |exact H].
  - unfold on_avol. destruct (av_readonly av); [intros H; left; exact (Hsame _ H)|].
    destruct (spec_delete flt iflt n (av_map av)) as [A r]. intros H. left. by eapply Hset; [reflexivity| |exact H].
  - intros H. left. eapply Hset; [reflexivity| |exact H]. cbn in *. lia.
Qed.

Lemma sexec_all_sim os st a :
  store_inv st a -> Forall sop_ok os ->
  (forall vid av, a.(as_volumes) !! vid = Some av -> av.(av_bytes) + cost_of vid os < 2 ^ 32 - 8) ->
  (forall vid, 8 + cost_of vid os < 2 ^ 32 - 8) ->
  exists st', sexec_all os st = (st', (spec_sop_all os a).2) /\ store_inv st' (spec_sop_all os a).1.
Proof.
  revert st a. induction os as [|o os IH]; intros st a Hinv Hok Hb Hc; [by exists st|].
  inversion Hok; subst. destruct (sexec_sim o st a Hinv) as (st1 & E1 & Hinv1); [done| |].
  { intros av Hav. specialize (Hb _ _ Hav). cbn [cost_of fold_right] in Hb.
    pose proof (cost_of_nonneg (sop_vid o) os). unfold cost_of in *.
    pose proof (sop_cost_nonneg o). destruct (_ =? _); lia. }
  destruct (IH st1 (spec_sop o a).1) as (st2 & E2 & Hinv2); try done.
  - intros vid av' Hav'. apply spec_sop_bytes in Hav' as [(av & Hav & Hle)|H8].
    + specialize (Hb vid av Hav). cbn [cost_of fold_right] in Hb. unfold cost_of in *. lia.
    + specialize (Hc vid). cbn [cost_of fold_right] in Hc. unfold cost_of in *.
      pose proof (sop_cost_nonneg o). destruct (_ =? _); lia.
  - intros vid. specialize (Hc vid). cbn [cost_of fold_right] in Hc. unfold cost_of in *.
    pose proof (sop_cost_nonneg o). destruct (_ =? _); lia.
  - exists st2. cbn [sexec_all spec_sop_all]. rewrite E1, E2.
    destruct (spec_sop o a) as [a1 r1]. cbn [fst snd] in *. by destruct (spec_sop_all os a1).
Qed.
(** Empty directories hold no volume. *)
Lemma store_inv_new st : Forall (fun l => l.(dl_volumes) = ∅) st.(st_locations) ->
  store_inv (st, ∅) (AStore ∅ (map (fun l => i64 l.(dl_max_volume_count)) st.(st_locations))).
Proof.
  intros He. assert (Hf : forall vid, find_volume vid st = None).
  { intros vid. unfold find_volume. induction He as [|l ls Hl _ IH]; [done|]. cbn [find_in].
    unfold Location.get_volume. by rewrite Hl, lookup_empty, IH. }
  split; cbn [fst snd].
  - intros vid i v E. by rewrite Hf in E.
  - done.
  - intros name [x Hx]. by rewrite lookup_empty in Hx.
  - cbn [as_free]. clear -He. induction He as [|l ls Hl _ IH]; [done|]. cbn [map]. rewrite IH.
    unfold free_slots. rewrite Hl, map_size_empty, Z.sub_0_r. done.
Qed.

End store.

(** C3: a store that starts with empty directories answers every sequence of
    requests whose needles fit the format and that keeps each volume below 4 GiB as
    a map of maps does: new volumes take the location with the most
    free slots and are empty, writes, deletions and reads of a volume are those
    of a finite map from needle ids to needles and leave the other volumes
    alone, read-only volumes refuse changes, unknown volumes are not found;
    data and index writes may fail. *)
Theorem store_refines_maps : forall crc st os,
  Forall (fun l => l.(dl_volumes) = ∅) st.(st_locations) -> Forall (sop_ok crc) os ->
  (forall vid, 8 + cost_of vid os < 2 ^ 32 - 8) ->
  let a := AStore ∅ (map (fun l => i64 l.(dl_max_volume_count)) st.(st_locations)) in
  exists st', sexec_all crc os (st, ∅) = (st', (spec_sop_all os a).2) /\ store_inv crc st' (spec_sop_all os a).1.
Proof.
  intros crc st os He Hok Hc a. apply sexec_all_sim; [by apply store_inv_new|done| |done].
  intros vid av Hav. cbn [a as_volumes] in Hav. by rewrite lookup_empty in Hav.
Qed.

Definition two_dirs : store :=
  Store "127.0.0.1" 8080 "" [Location.new "/a" 1; Location.new "/b" 7] "" "" 0 [] "".

Lemma store_refines_maps_witness :
  let os := [SAdd 5 3 "" Replica.default Ttl.default; SWrite None None 3 sample_needle; SRead 100 3 (ask 42);
             SRead 100 4 (ask 42); SReadonly 3; SDelete None None 3 (ask 42)] in
  (sexec_all sum_crc os (two_dirs, ∅)).2
  = [Ok None; Ok (Some (with_sizes (len (body sample_needle)) sample_needle, 5));
     Ok (Some (decode sample_needle (ask 42), 5)); Err (EVolume (VNotFound 4)); Ok None; Err (EVolume (VReadonly 3))].
Proof.
  intros os. destruct (store_refines_maps sum_crc two_dirs os) as (st' & E & _).
  - repeat constructor.
  - repeat (apply Forall_cons_2 || apply Forall_nil_2);
      first [exact (conj sample_needle_wf eq_refl) | exact (ask_wf 42 ltac:(done)) | reflexivity | exact I | split; done].
  - intros vid. unfold cost_of, os. cbn [fold_right sop_vid sop_cost].
    assert (8 + len (encode (ask 42)) < 1000 /\ 8 + len (encode sample_needle) < 1000) as [H1 H2] by (vm_compute; split; reflexivity).
    repeat destruct (_ =? vid); lia.
  - rewrite E. vm_compute. reflexivity.
Defined.
