(* ===== verification/EcDisk.v ===== *)
(** * Shard files on disk
      ([storage/erasure_coding/shard.rs], [volume.rs], [disk_location.rs],
      [store.rs], the file level of [encoder.rs] and [decoder.rs],
      [proto/mod.rs], [util/file.rs])

    The coding functions of [EcCodec] and [EcIndex] work on contents; here they
    meet the directory.  A file the code opens for writing is writable: the mode
    is looked at only where the code does so ([check_file]). *)

From stdpp Require Import sorting.
From S2P Require Import Prelude Messages Types Text Ttl Replica Errors Fid Files Fs Needle ShardBits EcCodec Volume EcIndex EcVolume Store.
From Stdlib Require Import Strings.Byte Strings.Ascii.
#[local] Open Scope list_scope.
#[local] Open Scope Z_scope.

(** ** Names *)

Definition to_ext (ec_idx : Z) : string := (".ec" ++ fmt_dec_pad 2 ec_idx)%string.

Definition ec_shard_base_filename (collection : string) (vid : Z) : string :=
  if bool_decide (collection = "") then fmt_dec vid else (collection ++ "_" ++ fmt_dec vid)%string.

Definition ec_shard_filename (collection dir : string) (vid : Z) : string :=
  if bool_decide (collection = "") then (dir ++ "/" ++ fmt_dec vid)%string
  else (dir ++ "/" ++ collection ++ "_" ++ fmt_dec vid)%string.

Definition shard_path (base : string) (id : Z) : string := (base ++ to_ext id)%string.
Definition shard_ids : list Z := seqZ 0 TOTAL_SHARDS_COUNT.

(** ** The file that describes a volume ([proto/mod.rs]) *)

Record remote_file := RemoteFile {
  rf_backend_type : string;
  rf_backend_id : string;
  rf_key : string;
  rf_offset : Z;
  rf_file_size : Z;
  rf_modified_time : Z;
  rf_extension : string;
}.

Record volume_info := VolumeInfo {
  vi_files : list remote_file;
  vi_version : Z;
  vi_replication : string;
}.

(** [serde_json] on [VolumeInfo] *)
Class VolumeInfoJson := {
  vi_to_vec : volume_info -> list byte;
  vi_from_slice : list byte -> option volume_info;
}.

(** [check_file], without the modification time: readable, writable, size. *)
Definition check_file (name : string) (s : fs) : outcome io_error (option (bool * bool * Z)) :=
  match s !! name with
  | Some nd => Ok (Some (true, negb nd.(f_readonly), len nd.(f_bytes)))
  | None => Ok None
  end.

Definition file_exists (name : string) (s : fs) : outcome io_error bool := Ok (bool_decide (is_Some (s !! name))).

Section info.
Context {VI : VolumeInfoJson}.

Definition maybe_load_volume_info (name : string) (s : fs) : outcome VolumeError (option volume_info) :=
  let? c := map_err VIo (check_file name s) in
  match c with
  | Some (false, _, _) | None => Ok None
  | Some _ =>
      let? tier_data := map_err VIo (fs_get s name) in
      match vi_from_slice tier_data with
      | None => Err VSerdeJson
      | Some info => match info.(vi_files) with [] => Ok None | _ => Ok (Some info) end
      end
  end.

Definition save_volume_info (name : string) (info : volume_info) : M fs VolumeError unit :=
  let* s := mget in
  let* c := mlift (map_err VIo (check_file name s)) in
  match c with
  | Some (_, false, _) => mthrow VBox
  | Some _ | None => mmodify (fs_put name (vi_to_vec info))
  end.

End info.

(** ** Encoding and decoding files *)

Module Disk.

(** Writing the files of consecutive shards, and creating those of a list. *)
Fixpoint put_shards (base : string) (id : Z) (shards : list (list byte)) (s : fs) : fs :=
  match shards with
  | [] => s
  | f :: shards' => put_shards base (id + 1) shards' (fs_put (shard_path base id) f s)
  end.

Definition create_shards (base : string) (ids : list Z) (s : fs) : fs :=
  fold_left (fun s id => fs_create (shard_path base id) s) ids s.

(** [write_sorted_file_from_index] *)
Definition write_sorted_file_from_index (base ext : string) : M fs EcVolumeError unit :=
  let* s := mget in
  let* idx := mlift (map_err (fun e => EvVolume (VIo e)) (fs_get s (base ++ ".idx")%string)) in
  let* ecx := mlift (map_err EvVolume (EcIndex.write_sorted_file_from_index idx)) in
  mmodify (fs_put (base ++ ext)%string ecx).

(** [generate_ec_files] under [write_ec_files]: the shard files are created
    before the first block is encoded. *)
Definition write_ec_files {RS : ReedSolomon} (base : string) : M fs ec_error unit :=
  let* s := mget in
  let* data := mlift (map_err EcIo (fs_get s (base ++ ".dat")%string)) in
  let* _ := mmodify (create_shards base shard_ids) in
  let* shards := mlift (EcCodec.write_ec_files data) in
  mmodify (put_shards base 0 shards).

(** [generate_missing_ec_files] under [rebuild_ec_files]: the missing shards are
    created, then filled; the ids of the missing shards are the answer. *)
Definition missing (base : string) (s : fs) : list Z :=
  List.filter (fun id => negb (bool_decide (is_Some (fs_bytes s (shard_path base id))))) shard_ids.

Definition put_missing (base : string) (ids : list Z) (outputs : list (list byte)) (s : fs) : fs :=
  fold_left (fun s id => fs_put (shard_path base id) (default [] (outputs !! Z.to_nat id)) s) ids s.

Definition rebuild_ec_files {RI : ReedSolomonInverse} (base : string) : M fs ec_error (list Z) :=
  let* s := mget in
  let inputs := map (fun id => fs_bytes s (shard_path base id)) shard_ids in
  let shards := missing base s in
  let* _ := mmodify (create_shards base shards) in
  match EcCodec.rebuild_ec_files inputs with
  | Ok outputs => let* _ := mmodify (put_missing base shards outputs) in mret shards
  | Err (e, outputs) => let* _ := mmodify (put_missing base shards outputs) in mthrow e
  | Panic => mpanic
  end.

(** [errors::Error] of what the decoder reports *)
Definition decoder_error (e : VolumeError) : Error :=
  match e with VIo _ => EIo | e => EVolume e end.

Definition open_file (s : fs) (name : string) : outcome Error file := map_err (fun _ => EIo) (fs_get s name).

Definition find_data_filesize (base : string) (s : fs) : outcome Error Z :=
  let? ec00 := open_file s (base ++ ".ec00")%string in
  let? _ := map_err decoder_error (read_ec_volume_version ec00) in
  let? ecx := open_file s (base ++ ".ecx")%string in
  map_err decoder_error (ecx_stop (length ecx) ecx 0).

(** [write_data_file]: the data file is emptied before the shards are opened. *)
Fixpoint open_all (s : fs) (names : list string) : outcome Error (list file) :=
  match names with
  | [] => Ok []
  | n :: names' => let? f := open_file s n in let? fs := open_all s names' in Ok (f :: fs)
  end.

Definition write_data_file (base : string) (data_filesize : Z) : M fs Error unit :=
  let* _ := mmodify (fs_create (base ++ ".dat")%string) in
  let* s := mget in
  let* inputs := mlift (open_all s (map (shard_path base) (seqZ 0 DATA_SHARDS_COUNT))) in
  match EcCodec.write_data_file inputs data_filesize with
  | Ok data => mmodify (fs_put (base ++ ".dat")%string data)
  | Err (_, data) => let* _ := mmodify (fs_put (base ++ ".dat")%string data) in mthrow EIo
  | Panic => mpanic
  end.

Definition write_index_file_from_ec_index (base : string) : M fs Error unit :=
  let* s := mget in
  let* ecx := mlift (open_file s (base ++ ".ecx")%string) in
  mmodify (fs_put (base ++ ".idx")%string
             (EcIndex.write_index_file_from_ec_index ecx (fs_bytes s (base ++ ".ecj")%string))).

(** ** Shards and volumes *)

(** [EcVolumeShard::new], [filename] and [destroy] *)
Definition shard_new (dir collection : string) (vid id : Z) (s : fs) : outcome io_error ec_shard :=
  let? f := fs_get s (shard_path (ec_shard_filename collection dir vid) id) in
  Ok (EcShard id vid collection dir f (len f)).

Definition shard_filename (sh : ec_shard) : string :=
  ec_shard_filename sh.(es_collection) sh.(es_dir) sh.(es_volume_id).

Definition shard_destroy (sh : ec_shard) : M fs ec_error unit := fun s =>
  let '(s, r) := fs_remove (shard_path (shard_filename sh) sh.(es_shard_id)) s in (s, map_err EcIo r).

(** [EcVolume::new], [filename] and [destroy].  [now] is the time the locations
    count as refreshed; the journal is created when it is not there. *)
Definition volume_new {VI : VolumeInfoJson} (now : Z) (dir collection : string) (vid : Z)
  : M fs EcVolumeError ec_volume :=
  let base := ec_shard_filename collection dir vid in
  let vif := (base ++ ".vif")%string in
  let* s := mget in
  let* ecx := mlift (map_err EvIo (fs_get s (base ++ ".ecx")%string)) in
  let ecj := default [] (fs_bytes s (base ++ ".ecj")%string) in
  let* _ := mmodify (fs_put (base ++ ".ecj")%string ecj) in
  let* s := mget in
  let* info := mlift (map_err EvVolume (maybe_load_volume_info vif s)) in
  let volume version := EcVolume vid dir collection ecx (len ecx) [] ∅ now version ecj in
  match info with
  | Some info => mret (volume (u8 info.(vi_version)))
  | None =>
      let* _ := (fun s => let '(s, r) := save_volume_info vif (VolumeInfo [] VERSION2 "") s in (s, map_err EvVolume r)) in
      mret (volume VERSION2)
  end.

Definition volume_filename (v : ec_volume) : string :=
  ec_shard_filename v.(ev_collection) v.(ev_dir) v.(ev_volume_id).

Fixpoint destroy_shards (shards : list ec_shard) : M fs EcVolumeError unit :=
  match shards with
  | [] => mret tt
  | sh :: shards' =>
      let* _ := (fun s => let '(s, r) := shard_destroy sh s in (s, map_err EvEcShard r)) in
      destroy_shards shards'
  end.

Definition remove_file (name : string) : M fs EcVolumeError unit := fun s =>
  let '(s, r) := fs_remove name s in (s, map_err EvIo r).

Definition volume_destroy (v : ec_volume) : M fs EcVolumeError unit :=
  let base := volume_filename v in
  let* _ := destroy_shards v.(ev_shards) in
  let* _ := remove_file (base ++ ".ecx")%string in
  let* _ := remove_file (base ++ ".ecj")%string in
  remove_file (base ++ ".vif")%string.

(** An open file shows what is under its name for as long as the name is there:
    [view] brings the contents a volume carries up to date with the directory. *)
Definition view_shard (s : fs) (sh : ec_shard) : ec_shard :=
  EcShard sh.(es_shard_id) sh.(es_volume_id) sh.(es_collection) sh.(es_dir)
    (default sh.(ecd_file) (fs_bytes s (shard_path (shard_filename sh) sh.(es_shard_id)))) sh.(ecd_filesize).

Definition view (s : fs) (v : ec_volume) : ec_volume :=
  let base := volume_filename v in
  with_shards (map (view_shard s) v.(ev_shards))
    (with_index_files (default v.(ecx_file) (fs_bytes s (base ++ ".ecx")%string))
                      (default v.(ecj_file) (fs_bytes s (base ++ ".ecj")%string)) v).

End Disk.

(** ** Disk locations ([erasure_coding/disk_location.rs]) *)

Section location.
Context {VI : VolumeInfoJson}.

Definition LM := M (disk_location * fs) EcVolumeError.

Definition on_fs {A} (m : M fs EcVolumeError A) : LM A := fun st =>
  let '(s, r) := m st.2 in ((st.1, s), r).
Definition on_location (f : disk_location -> disk_location) : LM unit := mmodify (fun st => (f st.1, st.2)).

Definition put_ec (vid : Z) (v : ec_volume) (l : disk_location) : disk_location :=
  set_ec_volumes (<[vid := v]> l.(dl_ec_volumes)) l.

Definition destroy_ec_volume (vid : Z) : LM unit :=
  let* st := mget in
  match st.1.(dl_ec_volumes) !! vid with
  | Some v =>
      let* _ := on_location (fun l => set_ec_volumes (delete vid l.(dl_ec_volumes)) l) in
      on_fs (Disk.volume_destroy v)
  | None => mret tt
  end.

Definition find_ec_shard (vid shard_id : Z) (l : disk_location) : option ec_shard :=
  match l.(dl_ec_volumes) !! vid with
  | Some v => EcVolume.find_ec_shard shard_id v
  | None => None
  end.

(** The shard is opened first; the volume is opened when it is not there. *)
Definition load_ec_shard (now : Z) (collection : string) (vid shard_id : Z) : LM unit :=
  let* st := mget in
  let* shard := mlift (map_err EvIo (Disk.shard_new st.1.(dl_directory) collection vid shard_id st.2)) in
  let* v := match st.1.(dl_ec_volumes) !! vid with
            | Some v => mret v
            | None => on_fs (Disk.volume_new now st.1.(dl_directory) shard.(es_collection) vid)
            end in
  on_location (put_ec vid (add_ec_shard shard v).1).

(** [unload_ec_shard]: when the last shard leaves, the volume is removed while
    the guard of its lookup is held, and the call waits for itself: no result. *)
Definition unload_ec_shard (vid shard_id : Z) (l : disk_location) : option (disk_location * bool) :=
  match l.(dl_ec_volumes) !! vid with
  | Some v =>
      let '(v, removed) := delete_ec_shard shard_id v in
      match removed with
      | Some _ => if ec_shard_len v =? 0 then None else Some (put_ec vid v l, true)
      | None => Some (l, true)
      end
  | None => Some (l, false)
  end.

(** The id is what follows the two characters after the first dot. *)
Fixpoint load_ec_shards (now : Z) (shards : list string) (collection : string) (vid : Z) : LM unit :=
  match shards with
  | [] => mret tt
  | shard :: shards' =>
      let* _ := match str_find "." shard with
                | Some index =>
                    let* ext := mlift (unwrap (str_slice shard (index + 1) (str_len shard))) in
                    let* digits := mlift (unwrap (str_slice ext 2 (str_len ext))) in
                    let* shard_id := mlift (map_err EvParseInt (parse_u64 digits)) in
                    load_ec_shard now collection vid (u8 shard_id)
                | None => mret tt
                end in
      load_ec_shards now shards' collection vid
  end.

(** The regular expression [ec[0-9][0-9]], anywhere in the extension. *)
Definition ascii_digit (c : ascii) : bool := (48 <=? zchar c) && (zchar c <=? 57).

Fixpoint has_shard_ext (ext : string) : bool :=
  match ext with
  | String.EmptyString => false
  | String.String _ ext' =>
      (match ext with
       | String.String c1 (String.String c2 (String.String c3 (String.String c4 _))) =>
           Ascii.eqb c1 "e" && Ascii.eqb c2 "c" && ascii_digit c3 && ascii_digit c4
       | _ => false
       end) || has_shard_ext ext'
  end.

(** [entries.sort_by_key(file_name)]: by bytes *)
Definition name_le (a b : string) : Prop := String.leb a b = true.
#[export] Instance name_le_dec : RelDecision name_le.
Proof. intros a b. unfold name_le. apply _. Defined.

(** [load_all_shards] over the sorted names of the files in the directory: the
    shard files since the last change of volume are kept until the sorted index
    of the volume comes. *)
Fixpoint load_entries (now : Z) (names : list string) (same_volume_shards : list string) (pre_volume_id : Z) : LM unit :=
  match names with
  | [] => mret tt
  | filename :: names' =>
      match Location.extension filename with
      | None => load_entries now names' same_volume_shards pre_volume_id
      | Some ext =>
          let* base := mlift (unwrap (str_slice filename 0 (str_len filename - str_len ext - 1))) in
          match Parser.parse_collection_volume_id base with
          | Ok (vid, collection) =>
              if has_shard_ext ext then
                load_entries now names'
                  (if (pre_volume_id =? 0) || (vid =? pre_volume_id) then same_volume_shards ++ [filename] else [filename])
                  vid
              else if bool_decide (ext = "ecx") && (vid =? pre_volume_id) then
                let* _ := load_ec_shards now same_volume_shards collection vid in
                load_entries now names' same_volume_shards vid
              else load_entries now names' same_volume_shards pre_volume_id
          | Err _ => load_entries now names' same_volume_shards pre_volume_id
          | Panic => mpanic
          end
      end
  end.

Definition load_all_shards (now : Z) (names : list string) : LM unit :=
  load_entries now (merge_sort name_le names) [] 0.

End location.

(** ** The store ([erasure_coding/store.rs]) *)

(** The first location with the erasure-coded volume. *)
Fixpoint find_ec_in (vid : Z) (ls : list disk_location) (i : nat) : option (nat * ec_volume) :=
  match ls with
  | [] => None
  | l :: ls' => match l.(dl_ec_volumes) !! vid with Some v => Some (i, v) | None => find_ec_in vid ls' (S i) end
  end.
Definition find_ec_volume (vid : Z) (s : store) : option (nat * ec_volume) := find_ec_in vid s.(st_locations) 0.
Definition has_ec_volume (vid : Z) (s : store) : bool := bool_decide (is_Some (find_ec_volume vid s)).
Definition put_ec_volume (i : nat) (vid : Z) (v : ec_volume) (s : store) : store :=
  set_locations (alter (put_ec vid v) i s.(st_locations)) s.

Module EcStore.

Fixpoint find_shard_in (vid shard_id : Z) (ls : list disk_location) : option ec_shard :=
  match ls with
  | [] => None
  | l :: ls' =>
      match find_ec_shard vid shard_id l with
      | Some sh => Some sh
      | None => find_shard_in vid shard_id ls'
      end
  end.
Definition find_ec_shard (vid shard_id : Z) (s : store) : option ec_shard := find_shard_in vid shard_id s.(st_locations).

(** Running a method of every location in turn, or of the first locations. *)
Fixpoint destroy_all (vid : Z) (ls : list disk_location) (s : fs) : (list disk_location * fs) * outcome EcVolumeError unit :=
  match ls with
  | [] => (([], s), Ok tt)
  | l :: ls' =>
      match destroy_ec_volume vid (l, s) with
      | ((l, s), Ok _) => let '((ls', s), r) := destroy_all vid ls' s in ((l :: ls', s), r)
      | ((l, s), r) => ((l :: ls', s), r)
      end
  end.

Definition destroy_ec_volume (vid : Z) : M (store * fs) EcVolumeError unit := fun st =>
  let '((ls, s), r) := destroy_all vid st.1.(st_locations) st.2 in ((set_locations ls st.1, s), r).

(** [mount_ec_shards]: the first location that has the file; a missing file is
    looked for in the next location, any other error is returned. *)
Fixpoint mount_in {VI : VolumeInfoJson} (now : Z) (collection : string) (vid shard_id : Z) (ls : list disk_location) (s : fs)
  : (list disk_location * fs) * outcome EcVolumeError unit :=
  match ls with
  | [] => (([], s), Err (EvShardNotFound vid shard_id))
  | l :: ls' =>
      match load_ec_shard now collection vid shard_id (l, s) with
      | ((l, s), Ok _) => ((l :: ls', s), Ok tt)
      | ((l, s), Err (EvIo NotFoundIo)) =>
          let '((ls', s), r) := mount_in now collection vid shard_id ls' s in ((l :: ls', s), r)
      | ((l, s), r) => ((l :: ls', s), r)
      end
  end.

Definition mount_ec_shards {VI : VolumeInfoJson} (now : Z) (collection : string) (vid shard_id : Z)
  : M (store * fs) EcVolumeError unit := fun st =>
  let '((ls, s), r) := mount_in now collection vid shard_id st.1.(st_locations) st.2 in
  let store := set_locations ls st.1 in
  match r with
  | Ok _ => ((send_delta (NewEcShard (EcMessage vid collection (add_shard_id 0 shard_id))) store, s), Ok tt)
  | r => ((store, s), r)
  end.

(** [unmount_ec_shards]: every location that has the volume unloads the shard
    and is reported; the answer is the same error in every case. *)
Fixpoint unmount_in (m : ec_message) (vid shard_id : Z) (ls : list disk_location) (deltas : list delta)
  : option (list disk_location * list delta) :=
  match ls with
  | [] => Some ([], deltas)
  | l :: ls' =>
      match unload_ec_shard vid shard_id l with
      | None => None
      | Some (l, unloaded) =>
          match unmount_in m vid shard_id ls' (if unloaded then deltas ++ [DeletedEcShard m] else deltas) with
          | None => None
          | Some (ls', deltas) => Some (l :: ls', deltas)
          end
      end
  end.

Definition unmount_ec_shards (vid shard_id : Z) (s : store) : option (store * outcome EcVolumeError unit) :=
  match find_ec_shard vid shard_id s with
  | None => Some (s, Err (EvShardNotFound vid shard_id))
  | Some sh =>
      match unmount_in (EcMessage vid sh.(es_collection) (add_shard_id 0 shard_id)) vid shard_id s.(st_locations) [] with
      | None => None
      | Some (ls, deltas) =>
          Some (fold_left (fun s d => send_delta d s) deltas (set_locations ls s), Err (EvShardNotFound vid shard_id))
      end
  end.

(** [Store::new] *)
Record volume_options := VolumeOptions {
  op_ip : string;
  op_port : Z;
  op_public_url : option string;
  op_folders : list string;
}.

Definition public_url (o : volume_options) : string :=
  default (o.(op_ip) ++ ":" ++ fmt_dec o.(op_port))%string o.(op_public_url).

(** A folder is a path, or a path and its largest number of volumes after the
    last colon; seven volumes when it is not given. *)
Definition path_of (folder : string) : outcome Error string :=
  match str_rfind ":" folder with
  | Some idx => unwrap (str_slice folder 0 idx)
  | None => Ok folder
  end.

Definition max_volumes_of (folder : string) : outcome Error Z :=
  match str_rfind ":" folder with
  | Some idx =>
      let? n := unwrap (str_slice folder (idx + 1) (str_len folder)) in
      match parse_i64 n with Ok n => Ok n | _ => Panic end
  | None => Ok 7
  end.

Fixpoint load_folders {VI : VolumeInfoJson} (crc : list byte -> Z) (mtime : string -> Z) (now : Z)
    (listing : string -> fs -> list string) (folders : list (string * Z)) (s : fs) : fs * outcome Error (list disk_location) :=
  match folders with
  | [] => (s, Ok [])
  | (dir, max) :: folders' =>
      match Location.load_existing_volumes crc mtime (listing dir s) (Location.new dir max) s with
      | ((l, s), Ok _) =>
          match load_all_shards now (listing dir s) (l, s) with
          | ((l, s), Ok _) =>
              let '(s, r) := load_folders crc mtime now listing folders' s in
              (s, let? ls := r in Ok (l :: ls))
          | ((_, s), Err e) => (s, Err (EEcVolume e))
          | ((_, s), Panic) => (s, Panic)
          end
      | ((_, s), Err e) => (s, Err (EVolume e))
      | ((_, s), Panic) => (s, Panic)
      end
  end.

Fixpoint omapM {E A B} (f : A -> outcome E B) (l : list A) : outcome E (list B) :=
  match l with
  | [] => Ok []
  | a :: l' => let? b := f a in let? bs := omapM f l' in Ok (b :: bs)
  end.

Definition store_new {VI : VolumeInfoJson} (crc : list byte -> Z) (mtime : string -> Z) (now : Z)
    (listing : string -> fs -> list string) (o : volume_options) (s : fs) : fs * outcome Error store :=
  match (let? folders := omapM path_of o.(op_folders) in
         let? max_counts := omapM max_volumes_of o.(op_folders) in
         Ok (zip folders max_counts)) with
  | Ok folders =>
      let '(s, r) := load_folders crc mtime now listing folders s in
      (s, let? ls := r in Ok (Store o.(op_ip) o.(op_port) (public_url o) ls "" "" 0 [] ""))
  | Err e => (s, Err e)
  | Panic => (s, Panic)
  end.

End EcStore.
