(* ===== verification/EcDiskFacts.v ===== *)
(** * Shard files survive a restart

    The names of the files of a volume, the order a directory is read in, and
    what [load_all_shards] mounts. *)

From stdpp Require Import sorting.
From S2P Require Import Prelude Messages Types Text Ttl Replica Errors Fid Files Fs Needle ShardBits EcCodec Volume EcIndex EcVolume Store StoreFacts EcDisk.
From Stdlib Require Import Strings.Byte Strings.Ascii.
#[local] Open Scope list_scope.
#[local] Open Scope Z_scope.

(** ** Names *)

Definition lacks (c : ascii) (s : string) : Prop := Forall (fun d => d <> c) (chars s).

Lemma lacks_app c s t : lacks c (s ++ t) <-> lacks c s /\ lacks c t.
Proof. unfold lacks. by rewrite chars_app, Forall_app. Qed.

Lemma lacks_cons c d s : lacks c (String.String d s) <-> d <> c /\ lacks c s.
Proof. unfold lacks. cbn. by rewrite Forall_cons. Qed.

Lemma str_rfind_none c s : lacks c s -> str_rfind c s = None.
Proof.
  induction s as [|d s IH]; [done|]. rewrite lacks_cons. intros [Hd Hs]. cbn [str_rfind]. rewrite IH by done.
  destruct (Ascii.eqb_spec c d); congruence.
Qed.

Lemma str_rfind_app c s t : lacks c t -> str_rfind c (s ++ String.String c t) = Some (str_len s).
Proof.
  intros Ht. induction s as [|d s IH].
  - change ("" ++ String.String c t)%string with (String.String c t). cbn [str_rfind].
    rewrite (str_rfind_none c t Ht). by rewrite Ascii.eqb_refl.
  - change (str_rfind c (String.String d s ++ String.String c t))
      with (str_rfind c (String.String d (s ++ String.String c t))).
    cbn [str_rfind]. rewrite IH. f_equal. unfold str_len. cbn. lia.
Qed.

Lemma str_slice_after c s t : Forall is_ascii (chars (s ++ String.String c t)) ->
  str_slice (s ++ String.String c t) (str_len s + 1) (str_len (s ++ String.String c t)) = Some t.
Proof.
  intros Ha. change (String.String c t) with (String.String c "" ++ t)%string in *. rewrite <- append_assoc' in *.
  replace (str_len s + 1) with (str_len (s ++ String.String c "")%string) by (rewrite str_len_app; reflexivity).
  by apply str_slice_app_r.
Qed.

Lemma fmt_dec_ascii z : 0 <= z -> Forall is_ascii (chars (fmt_dec z)).
Proof. intros. apply fmt_digits_ascii. eapply Forall_impl; [apply (digits_range 10 64 z); lia|]. cbn. lia. Qed.

Lemma fmt_dec_lacks c z : 0 <= z -> zchar c < 48 \/ 57 < zchar c -> lacks c (fmt_dec z).
Proof.
  intros Hz Hc. unfold lacks, fmt_dec. rewrite chars_fmt_digits. apply List.Forall_map.
  eapply Forall_impl; [apply (digits_range 10 64 z); lia|]. intros d Hd E. cbn in Hd. subst c. revert Hc.
  rewrite zchar_from_digit by lia. rewrite (proj2 (Z.ltb_lt d 10)) by lia. lia.
Qed.

Lemma fmt_dec_nonempty z : fmt_dec z <> "".
Proof.
  intros E. apply (f_equal str_len) in E. unfold fmt_dec in E. rewrite str_len_fmt_digits in E.
  pose proof (digits_nonempty 10 64 z ltac:(lia)). destruct (digits 10 64 z); [done|].
  rewrite len_cons in E. pose proof (len_nonneg l). change (str_len "") with 0 in E. lia.
Qed.

(** Collections with a plain name. *)
Definition plain (collection : string) : Prop :=
  lacks "." collection /\ lacks "_" collection /\ Forall is_ascii (chars collection).

Lemma base_ascii coll vid : plain coll -> 0 <= vid -> Forall is_ascii (chars (ec_shard_base_filename coll vid)).
Proof.
  intros (_ & _ & Ha) Hv. unfold ec_shard_base_filename. case_bool_decide; [by apply fmt_dec_ascii|].
  rewrite !chars_app, !Forall_app. split; [done|]. split; [|by apply fmt_dec_ascii].
  by repeat constructor.
Qed.

Lemma base_lacks_dot coll vid : plain coll -> 0 <= vid -> lacks "." (ec_shard_base_filename coll vid).
Proof.
  intros (Hd & _ & _) Hv. unfold ec_shard_base_filename. case_bool_decide; [|rewrite !lacks_app; split; [done|split]].
  - apply fmt_dec_lacks; [done|]. left. reflexivity.
  - by repeat constructor.
  - apply fmt_dec_lacks; [done|]. left. reflexivity.
Qed.

Lemma base_nonempty coll vid : ec_shard_base_filename coll vid <> "".
Proof.
  unfold ec_shard_base_filename. case_bool_decide; [apply fmt_dec_nonempty|]. by destruct coll.
Qed.

Lemma parse_base coll vid : plain coll -> in_u32 vid ->
  Parser.parse_collection_volume_id (ec_shard_base_filename coll vid) = Ok (vid, coll).
Proof.
  intros Hp Hv. pose proof (base_ascii coll vid Hp ltac:(unfold in_u32 in Hv; lia)) as Ha.
  destruct Hp as (_ & Hu & _). unfold ec_shard_base_filename in *.
  unfold Parser.parse_collection_volume_id. case_bool_decide as E.
  - rewrite KeyHash.str_find_none; [|apply fmt_dec_lacks; [unfold in_u32 in Hv; lia|right; reflexivity]].
    rewrite parse_fmt_dec by done. by subst.
  - change ("_" ++ fmt_dec vid)%string with (String.String "_" (fmt_dec vid)) in *.
    rewrite Fid.str_find_app by done. rewrite str_slice_app_l by done. cbn [unwrap obind].
    rewrite str_slice_after by done. cbn [unwrap obind]. by rewrite parse_fmt_dec.
Qed.

(** A name and its extension *)
Definition dotted (base ext : string) : string := (base ++ String.String "." ext)%string.

Record ext_ok (ext : string) : Prop := {
  ext_lacks : lacks "." ext;
  ext_ascii : Forall is_ascii (chars ext);
}.

Lemma dotted_ascii b e : Forall is_ascii (chars b) -> ext_ok e -> Forall is_ascii (chars (dotted b e)).
Proof.
  intros Hb [_ He]. unfold dotted. rewrite chars_app, Forall_app. split; [done|]. cbn. by constructor.
Qed.

Lemma dotted_extension b e : b <> "" -> Forall is_ascii (chars b) -> ext_ok e -> Location.extension (dotted b e) = Some e.
Proof.
  intros Hn Hb He. unfold Location.extension. pose proof (dotted_ascii b e Hb He) as Ha. unfold dotted in *.
  rewrite str_rfind_app by apply He. rewrite (proj2 (Z.eqb_neq _ _)); [by apply str_slice_after|].
  destruct b; [done|]. unfold str_len. cbn. lia.
Qed.

Lemma dotted_base b e : Forall is_ascii (chars b) -> ext_ok e ->
  str_slice (dotted b e) 0 (str_len (dotted b e) - str_len e - 1) = Some b.
Proof.
  intros Hb He. pose proof (dotted_ascii b e Hb He) as Ha. unfold dotted in *.
  replace (str_len (b ++ String.String "." e) - str_len e - 1) with (str_len b); [by apply str_slice_app_l|].
  rewrite str_len_app. unfold str_len. cbn [String.length]. lia.
Qed.

Lemma dotted_find b e : lacks "." b -> str_find "." (dotted b e) = Some (str_len b).
Proof. apply Fid.str_find_app. Qed.

Lemma dotted_after b e : Forall is_ascii (chars (dotted b e)) ->
  str_slice (dotted b e) (str_len b + 1) (str_len (dotted b e)) = Some e.
Proof. apply str_slice_after. Qed.

(** ** The order of a directory *)

Lemma ascii_compare_refl c : Ascii.compare c c = Eq.
Proof. apply N.compare_refl. Qed.

Lemma compare_same b x y : String.compare (b ++ x) (b ++ y) = String.compare x y.
Proof.
  induction b as [|c b IH]; [done|].
  change (String.compare (String.String c (b ++ x)) (String.String c (b ++ y)) = String.compare x y).
  cbn [String.compare]. by rewrite ascii_compare_refl, IH.
Qed.

(** Files of different volumes compare like the volumes. *)
Lemma compare_cross b1 : forall b2 x y, lacks "." b1 -> lacks "." b2 -> b1 <> b2 ->
  String.compare (dotted b1 x) (dotted b2 y) = String.compare (dotted b1 "") (dotted b2 "").
Proof.
  unfold dotted. induction b1 as [|c b1 IH]; intros [|d b2] x y H1 H2 Hne; [done| | |].
  - apply lacks_cons in H2 as [Hd _].
    change (String.compare (String.String "." x) (String.String d (b2 ++ String.String "." y))
      = String.compare (String.String "." "") (String.String d (b2 ++ String.String "." ""))).
    cbn [String.compare]. destruct (Ascii.compare "." d) eqn:E; [by apply Ascii.compare_eq_iff in E|done..].
  - apply lacks_cons in H1 as [Hc _].
    change (String.compare (String.String c (b1 ++ String.String "." x)) (String.String "." y)
      = String.compare (String.String c (b1 ++ String.String "." "")) (String.String "." "")).
    cbn [String.compare]. destruct (Ascii.compare c ".") eqn:E; [by apply Ascii.compare_eq_iff in E|done..].
  - apply lacks_cons in H1 as [_ H1]. apply lacks_cons in H2 as [_ H2].
    change (String.compare (String.String c (b1 ++ String.String "." x)) (String.String d (b2 ++ String.String "." y))
      = String.compare (String.String c (b1 ++ String.String "." "")) (String.String d (b2 ++ String.String "." ""))).
    cbn [String.compare]. destruct (Ascii.compare c d) eqn:E; [|done..].
    apply Ascii.compare_eq_iff in E as ->. apply IH; [done..|congruence].
Qed.

Lemma compare_trans a : forall b c, String.compare a b <> Gt -> String.compare b c <> Gt -> String.compare a c <> Gt.
Proof.
  induction a as [|x a IH]; intros [|y b] [|z c]; cbn [String.compare]; try done.
  unfold Ascii.compare. intros H1 H2.
  destruct (N.compare_spec (N_of_ascii x) (N_of_ascii y)) as [E1|E1|E1],
    (N.compare_spec (N_of_ascii y) (N_of_ascii z)) as [E2|E2|E2],
    (N.compare_spec (N_of_ascii x) (N_of_ascii z)) as [E3|E3|E3]; try done; try lia.
  by apply (IH b).
Qed.

Lemma name_le_compare a b : name_le a b <-> String.compare a b <> Gt.
Proof. unfold name_le, String.leb. by destruct (String.compare a b). Qed.

#[export] Instance name_le_trans : Transitive name_le.
Proof. intros a b c. rewrite !name_le_compare. apply compare_trans. Qed.
#[export] Instance name_le_total : Total name_le.
Proof. intros a b. apply String.leb_total. Qed.
#[export] Instance name_le_antisymm : AntiSymm (=) name_le.
Proof. intros a b. apply String.leb_antisym. Qed.

(** ** The files of a volume *)

Definition shard_ext (id : Z) : string := ("ec" ++ fmt_dec_pad 2 id)%string.
Definition known_exts : list string :=
  Eval vm_compute in ["cpd"; "cpx"; "dat"] ++ map shard_ext shard_ids ++ ["ecj"; "ecx"; "idx"; "vif"].

Lemma known_exts_ok : Forall ext_ok known_exts.
Proof. repeat constructor; cbn; intros E; discriminate E. Qed.

Lemma known_exts_sorted : StronglySorted name_le known_exts.
Proof. repeat constructor. Qed.

(** The files a volume has in a directory: those with the extensions [vf_has]. *)
Record volume_files := VolumeFiles {
  vf_collection : string;
  vf_vid : Z;
  vf_has : string -> bool;
}.

Definition vf_base (g : volume_files) : string := ec_shard_base_filename g.(vf_collection) g.(vf_vid).
Definition vf_names (g : volume_files) : list string := map (dotted (vf_base g)) (List.filter g.(vf_has) known_exts).

Definition vf_ok (g : volume_files) : Prop := plain g.(vf_collection) /\ 1 <= g.(vf_vid) /\ in_u32 g.(vf_vid).

Lemma vf_base_inj g h : vf_ok g -> vf_ok h -> vf_base g = vf_base h -> vf_vid g = vf_vid h.
Proof.
  intros (P1 & _ & V1) (P2 & _ & V2) E. pose proof (parse_base _ _ P1 V1) as H1. pose proof (parse_base _ _ P2 V2) as H2.
  fold (vf_base g) in H1. fold (vf_base h) in H2. congruence.
Qed.

Lemma vf_base_dot g : vf_ok g -> lacks "." (vf_base g).
Proof. intros (P & V & _). apply base_lacks_dot; [done|lia]. Qed.

Lemma sorted_filter {A} (R : relation A) f l : StronglySorted R l -> StronglySorted R (List.filter f l).
Proof.
  induction 1 as [|x l Hs IH Hx]; cbn; [constructor|]. destruct (f x); [|done]. constructor; [done|].
  apply Forall_forall. intros y [Hy _]%list_elem_of_In%filter_In. rewrite Forall_forall in Hx. apply Hx.
  by apply list_elem_of_In.
Qed.

Lemma dotted_sorted b es : StronglySorted name_le es -> StronglySorted name_le (map (dotted b) es).
Proof.
  apply (StronglySorted_fmap (dotted b) name_le name_le).
  intros x y. rewrite !name_le_compare. unfold dotted. rewrite compare_same. cbn [String.compare].
  by rewrite ascii_compare_refl.
Qed.

Lemma vf_names_sorted g : StronglySorted name_le (vf_names g).
Proof. apply dotted_sorted, sorted_filter, known_exts_sorted. Qed.

Lemma vf_names_elim g x : x ∈ vf_names g -> exists e, x = dotted (vf_base g) e.
Proof. unfold vf_names. rewrite list_elem_of_In, in_map_iff. intros (e & E & _). by exists e. Qed.

(** The volumes of a directory in the order of their names. *)
Definition vf_le (g h : volume_files) : Prop := name_le (dotted (vf_base g) "") (dotted (vf_base h) "").
#[export] Instance vf_le_dec : RelDecision vf_le.
Proof. intros g h. unfold vf_le. apply _. Defined.
#[export] Instance vf_le_trans : Transitive vf_le.
Proof. intros a b c. unfold vf_le. apply transitivity. Qed.
#[export] Instance vf_le_total : Total vf_le.
Proof. intros a b. unfold vf_le. apply total, _. Qed.

Lemma names_sorted gs : Forall vf_ok gs -> NoDup (map vf_vid gs) -> StronglySorted vf_le gs ->
  StronglySorted name_le (concat (map vf_names gs)).
Proof.
  induction gs as [|g gs IH]; intros Hok Hnd Hs; cbn [map concat] in *; [constructor|].
  apply Forall_cons in Hok as [Hg Hok]. apply NoDup_cons in Hnd as [Hn Hnd].
  apply StronglySorted_inv in Hs as [Hs Hle].
  apply StronglySorted_app_2; [|apply vf_names_sorted|exact (IH Hok Hnd Hs)].
  intros x y Hx Hy. apply vf_names_elim in Hx as [e ->].
  apply list_elem_of_In, in_concat in Hy as (l & Hl & Hy). apply in_map_iff in Hl as (h & <- & Hh).
  apply list_elem_of_In, vf_names_elim in Hy as [e' ->]. apply list_elem_of_In in Hh.
  rewrite Forall_forall in Hok, Hle. pose proof (Hle h Hh) as L. unfold vf_le in L. rewrite name_le_compare in *.
  rewrite compare_cross; [done|by apply vf_base_dot..|by apply vf_base_dot, Hok|].
  intros E. apply Hn. apply vf_base_inj in E; [|done|by apply Hok]. rewrite E. by apply list_elem_of_fmap_2.
Qed.

Lemma sorted_directory gs names : Forall vf_ok gs -> NoDup (map vf_vid gs) ->
  names ≡ₚ concat (map vf_names gs) ->
  exists gs', gs' ≡ₚ gs /\ merge_sort name_le names = concat (map vf_names gs').
Proof.
  intros Hok Hnd Hp. exists (merge_sort vf_le gs). pose proof (merge_sort_Permutation vf_le gs) as P. split; [done|].
  apply (StronglySorted_unique name_le).
  - apply StronglySorted_merge_sort; apply _.
  - apply names_sorted; [by rewrite P|by rewrite P|apply StronglySorted_merge_sort; apply _].
  - rewrite merge_sort_Permutation, Hp. by rewrite P.
Qed.

(** ** Reading the directory *)

Section load.
Context {VI : VolumeInfoJson} (now : Z).

Definition vf_shards (g : volume_files) : list Z := List.filter (fun id => g.(vf_has) (shard_ext id)) shard_ids.

Lemma entry_step g e rest same pre st : vf_ok g -> ext_ok e ->
  load_entries now (dotted (vf_base g) e :: rest) same pre st
  = if has_shard_ext e
    then load_entries now rest
           (if (pre =? 0) || (vf_vid g =? pre) then same ++ [dotted (vf_base g) e] else [dotted (vf_base g) e]) (vf_vid g) st
    else if bool_decide (e = "ecx") && (vf_vid g =? pre)
    then mbind' (load_ec_shards now same (vf_collection g) (vf_vid g)) (fun _ => load_entries now rest same (vf_vid g)) st
    else load_entries now rest same pre st.
Proof.
  intros (Hp & H1 & Hv) He. cbn [load_entries].
  pose proof (base_ascii (vf_collection g) (vf_vid g) Hp ltac:(lia)) as Ha. fold (vf_base g) in Ha.
  rewrite dotted_extension; [|apply base_nonempty|done..]. unfold mbind' at 1, mlift. rewrite dotted_base by done.
  cbn [unwrap]. unfold vf_base at 1. rewrite parse_base by done. destruct (has_shard_ext e); [done|].
  by destruct (bool_decide (e = "ecx") && _).
Qed.

(** Files that are neither shards nor the sorted index. *)
Definition other (e : string) : Prop := ext_ok e /\ has_shard_ext e = false /\ e <> "ecx".

Lemma other_exts : Forall other ["cpd"; "cpx"; "dat"; "ecj"; "idx"; "vif"].
Proof. repeat constructor; cbn; intros E; discriminate E. Qed.

Lemma filter_Forall {A} (P : A -> Prop) f l : Forall P l -> Forall P (List.filter f l).
Proof.
  intros H. apply Forall_forall. intros x [Hx _]%list_elem_of_In%filter_In. rewrite Forall_forall in H.
  by apply H, list_elem_of_In.
Qed.

Lemma entries_skip g es rest same pre st : vf_ok g -> Forall other es ->
  load_entries now (map (dotted (vf_base g)) (List.filter (vf_has g) es) ++ rest) same pre st
  = load_entries now rest same pre st.
Proof.
  intros Hg Ho. apply (filter_Forall _ (vf_has g)) in Ho. induction Ho as [|e es' (He & H1 & H2) Ho IH]; [done|].
  cbn [map app]. by rewrite entry_step, H1, bool_decide_false.
Qed.

Lemma entries_shards g es rest : vf_ok g -> Forall ext_ok es -> Forall (fun e => has_shard_ext e = true) es ->
  forall same st, load_entries now (map (dotted (vf_base g)) es ++ rest) same (vf_vid g) st
  = load_entries now rest (same ++ map (dotted (vf_base g)) es) (vf_vid g) st.
Proof.
  intros Hg Ho Hs. induction es as [|e es IH]; intros same st; [by rewrite app_nil_r|].
  apply Forall_cons in Ho as [He Ho]. apply Forall_cons in Hs as [H1 Hs]. cbn [map app].
  rewrite entry_step, H1, Z.eqb_refl, orb_true_r by done. rewrite IH by done. by rewrite <- app_assoc.
Qed.

Lemma filter_known f : List.filter f known_exts
  = List.filter f ["cpd"; "cpx"; "dat"] ++ map shard_ext (List.filter (fun id => f (shard_ext id)) shard_ids)
    ++ List.filter f ["ecj"] ++ List.filter f ["ecx"] ++ List.filter f ["idx"; "vif"].
Proof.
  assert (E : map shard_ext (List.filter (fun id => f (shard_ext id)) shard_ids) = List.filter f (map shard_ext shard_ids)).
  { induction shard_ids as [|i ids IH]; [done|]. cbn [map List.filter]. destruct (f (shard_ext i)); cbn [map]; by rewrite IH. }
  rewrite E, <- !List.filter_app. reflexivity.
Qed.

Lemma shard_exts_ok ids : (forall i, i ∈ ids -> i ∈ shard_ids) ->
  Forall ext_ok (map shard_ext ids) /\ Forall (fun e => has_shard_ext e = true) (map shard_ext ids).
Proof.
  intros H. assert (A : Forall (fun i => ext_ok (shard_ext i) /\ has_shard_ext (shard_ext i) = true) shard_ids).
  { repeat constructor; cbn; intros E; discriminate E. }
  rewrite Forall_forall in A. split; apply List.Forall_map, Forall_forall; intros i Hi; by apply A, H.
Qed.

Lemma group_tail g rest same pre st : vf_ok g ->
  load_entries now (map (dotted (vf_base g)) (List.filter (vf_has g) ["ecj"])
    ++ map (dotted (vf_base g)) (List.filter (vf_has g) ["ecx"])
    ++ map (dotted (vf_base g)) (List.filter (vf_has g) ["idx"; "vif"]) ++ rest) same pre st
  = if vf_has g "ecx" && (vf_vid g =? pre)
    then mbind' (load_ec_shards now same (vf_collection g) (vf_vid g)) (fun _ => load_entries now rest same (vf_vid g)) st
    else load_entries now rest same pre st.
Proof.
  intros Hg. pose proof other_exts as Ho. do 3 apply Forall_cons in Ho as [_ Ho].
  apply Forall_cons in Ho as [Hj Ho]. rewrite entries_skip by (done || by apply Forall_singleton).
  change (List.filter (vf_has g) ["ecx"]) with (if vf_has g "ecx" then ["ecx"] else []).
  destruct (vf_has g "ecx"); cbn [map app andb]; [|by apply entries_skip].
  rewrite entry_step; [|done|by repeat constructor]. cbn [has_shard_ext]. rewrite bool_decide_true by done. cbn [andb].
  destruct (vf_vid g =? pre); [|by apply entries_skip].
  unfold mbind'. destruct (load_ec_shards _ _ _ _ _) as [st1 [u|e|]]; [|done..]. by apply entries_skip.
Qed.

(** What the files of one volume do: its shards are loaded when the sorted index
    comes after them. *)
Lemma group_step g rest same pre st : vf_ok g -> pre <> vf_vid g -> (pre = 0 -> same = []) ->
  let names := map (dotted (vf_base g)) (map shard_ext (vf_shards g)) in
  load_entries now (vf_names g ++ rest) same pre st
  = match vf_shards g with
    | [] => load_entries now rest same pre st
    | _ => if vf_has g "ecx"
           then mbind' (load_ec_shards now names (vf_collection g) (vf_vid g)) (fun _ => load_entries now rest names (vf_vid g)) st
           else load_entries now rest names (vf_vid g) st
    end.
Proof.
  intros Hg Hpre Hsame names. unfold vf_names. rewrite filter_known, !map_app, <- !app_assoc. fold (vf_shards g).
  rewrite entries_skip; [|done|pose proof other_exts as Ho; by do 3 (apply Forall_cons in Ho as [? Ho]); repeat constructor].
  destruct (shard_exts_ok (vf_shards g)) as [So Ss].
  { intros i [Hi _]%list_elem_of_In%filter_In. by apply list_elem_of_In. }
  unfold names. destruct (vf_shards g) as [|i ids].
  - cbn [map app]. rewrite group_tail, (proj2 (Z.eqb_neq _ _)) by done. by rewrite andb_false_r.
  - cbn [map app] in *. apply Forall_cons in So as [Hi So]. apply Forall_cons in Ss as [Hi' Ss].
    rewrite entry_step, Hi' by done.
    assert ((if (pre =? 0) || (vf_vid g =? pre) then same ++ [dotted (vf_base g) (shard_ext i)]
      else [dotted (vf_base g) (shard_ext i)]) = [dotted (vf_base g) (shard_ext i)]) as ->.
    { destruct (Z.eqb_spec pre 0) as [->|]; [by rewrite Hsame|]. by rewrite (proj2 (Z.eqb_neq (vf_vid g) pre)). }
    by rewrite entries_shards, group_tail, Z.eqb_refl, andb_true_r.
Qed.
End load.

(** ** Opening the shards of a volume *)

Lemma dotted_inj b1 b2 e1 e2 : lacks "." e1 -> lacks "." e2 -> dotted b1 e1 = dotted b2 e2 -> b1 = b2 /\ e1 = e2.
Proof.
  unfold dotted. intros H1 H2 E.
  assert (L : str_len b1 = str_len b2) by (pose proof (str_rfind_app "." b1 e1 H1); pose proof (str_rfind_app "." b2 e2 H2); congruence).
  clear H1 H2. revert b2 E L. induction b1 as [|c b1 IH]; intros [|d b2] E L; try done; try (unfold str_len in L; cbn in L; lia).
  - injection E as ->. done.
  - change (String.String c (b1 ++ String.String "." e1) = String.String d (b2 ++ String.String "." e2)) in E.
    injection E as -> E. destruct (IH b2 E) as [-> ->]; [unfold str_len in *; cbn in L; lia|done].
Qed.

Section mount.
Context {VI : VolumeInfoJson} (now : Z) (dir : string).

Definition vf_path (g : volume_files) : string := (dir ++ String.String "/" (vf_base g))%string.
Definition vf_file (g : volume_files) (e : string) : string := dotted (vf_path g) e.

Lemma path_eq g : ec_shard_filename (vf_collection g) dir (vf_vid g) = vf_path g.
Proof. unfold ec_shard_filename, vf_path, vf_base, ec_shard_base_filename. by case_bool_decide. Qed.

Lemma vf_file_inj g h e e' : lacks "." e -> lacks "." e' -> vf_file g e = vf_file h e' -> vf_base g = vf_base h /\ e = e'.
Proof.
  intros H1 H2 E. apply dotted_inj in E as [E ->]; [|done..]. split; [|done]. unfold vf_path in E.
  induction dir as [|c d IH]; [by injection E|]. apply IH.
  change (String.String c (d ++ String.String "/" (vf_base g)) = String.String c (d ++ String.String "/" (vf_base h))) in E.
  by injection E.
Qed.

(** The shard of a file, as it is mounted. *)
Definition disk_shard (s : fs) (g : volume_files) (id : Z) : ec_shard :=
  let f := default [] (fs_bytes s (vf_file g (shard_ext id))) in
  EcShard id (vf_vid g) (vf_collection g) dir f (len f).

(** The files of the directory: those of the volume, and the file of the volume
    description, when there is one, describes a volume without remote files. *)
Record on_disk (s : fs) (g : volume_files) : Prop := {
  od_files : forall e, e ∈ known_exts -> vf_has g e = true -> is_Some (fs_bytes s (vf_file g e));
  od_vif : s !! vf_file g "vif" = None
    \/ exists f info, s !! vf_file g "vif" = Some (FNode f false)
                      /\ vi_from_slice f = Some info /\ vi_files info = [];
}.

(** What a mounted volume looks like. *)
Record opened (s : fs) (g : volume_files) (ids : list Z) (v : ec_volume) : Prop := {
  op_id : ev_volume_id v = vf_vid g;
  op_dir : ev_dir v = dir;
  op_collection : ev_collection v = vf_collection g;
  op_ecx : fs_bytes s (vf_file g "ecx") = Some (ecx_file v);
  op_ecx_size : ecx_filesize v = len (ecx_file v);
  op_locations : shard_locations v = ∅;
  op_time : shard_locations_refresh_time v = now;
  op_version : ev_version v = VERSION2;
  op_shards : ev_shards v ≡ₚ map (disk_shard s g) ids;
}.

(** The only files mounting writes. *)
Definition untouched (g : volume_files) (s s' : fs) : Prop :=
  forall n, n <> vf_file g "ecj" -> n <> vf_file g "vif" -> s' !! n = s !! n.

Lemma untouched_file g s s' h e : untouched g s s' -> lacks "." e -> e <> "ecj" -> e <> "vif" ->
  fs_bytes s' (vf_file h e) = fs_bytes s (vf_file h e).
Proof.
  intros Hu He H1 H2. unfold fs_bytes. rewrite Hu; [done| |]; intros [_ E]%vf_file_inj; done || by repeat constructor.
Qed.

Lemma shard_ext_ok id : id ∈ shard_ids -> ext_ok (shard_ext id) /\ shard_ext id <> "ecj" /\ shard_ext id <> "vif"
  /\ shard_ext id ∈ known_exts.
Proof.
  revert id. apply Forall_forall. repeat constructor; cbn; intros E; discriminate E.
Qed.

Lemma open_volume g s : on_disk s g -> vf_has g "ecx" = true -> exists v s',
  Disk.volume_new now dir (vf_collection g) (vf_vid g) s = (s', Ok v)
  /\ untouched g s s' /\ opened s g [] v.
Proof.
  intros [Hf Hvif] Hx. destruct (Hf "ecx") as [ecx Hecx]; [by apply (bool_decide_unpack _)|done|].
  unfold Disk.volume_new. rewrite path_eq.
  change (vf_path g ++ ".ecx")%string with (vf_file g "ecx"). change (vf_path g ++ ".ecj")%string with (vf_file g "ecj").
  change (vf_path g ++ ".vif")%string with (vf_file g "vif").
  set (ecj := default [] (fs_bytes s (vf_file g "ecj"))). set (s1 := fs_put (vf_file g "ecj") ecj s).
  assert (Hne : vf_file g "ecj" <> vf_file g "vif") by (intros [_ E]%vf_file_inj; [done|by repeat constructor..]).
  assert (Hv1 : s1 !! vf_file g "vif" = s !! vf_file g "vif") by (unfold s1; apply fs_put_lookup_ne; congruence).
  assert (Hl : maybe_load_volume_info (vf_file g "vif") s1 = Ok None).
  { unfold maybe_load_volume_info, check_file, fs_get. rewrite Hv1.
    destruct Hvif as [->|(f & info & -> & Hj & Hi)]; [done|]. cbn. by rewrite Hj, Hi. }
  assert (Hs : exists s2, save_volume_info (vf_file g "vif") (VolumeInfo [] VERSION2 "") s1 = (s2, Ok tt)
    /\ forall n, n <> vf_file g "vif" -> s2 !! n = s1 !! n).
  { eexists. unfold save_volume_info, check_file, mbind', mget, mlift, mmodify. rewrite Hv1. split.
    - destruct Hvif as [->|(f & info & -> & _)]; cbn [map_err f_readonly negb]; reflexivity.
    - intros n Hn. by apply fs_put_lookup_ne. }
  destruct Hs as (s2 & Hs & Hs2).
  exists (EcVolume (vf_vid g) dir (vf_collection g) ecx (len ecx) [] ∅ now VERSION2 ecj), s2. split; [|split].
  - unfold mbind', mget, mlift, mmodify, mret. apply fs_get_bytes in Hecx. rewrite Hecx. cbn [map_err].
    fold ecj. fold s1. rewrite Hl. cbn [map_err]. by rewrite Hs.
  - intros n N1 N2. rewrite Hs2 by done. by apply fs_put_lookup_ne.
  - by split.
Qed.

Lemma disk_shard_same g s s' id : untouched g s s' -> id ∈ shard_ids -> disk_shard s' g id = disk_shard s g id.
Proof.
  intros Hu Hid. destruct (shard_ext_ok id Hid) as (He & H1 & H2 & _). unfold disk_shard.
  by rewrite (untouched_file g s s') by (done || apply He).
Qed.

(** The volume of [g] in a location, with some of its shards. *)
Definition partly (s0 : fs) (g : volume_files) (ids : list Z) (l : disk_location) : Prop :=
  match l.(dl_ec_volumes) !! vf_vid g with
  | Some v => opened s0 g ids v
  | None => ids = []
  end.

Lemma add_opened s0 g ids v id : opened s0 g ids v -> id ∉ ids -> opened s0 g (ids ++ [id]) (add_ec_shard (disk_shard s0 g id) v).1.
Proof.
  intros [] Hn. unfold add_ec_shard.
  assert (existsb (fun item => es_shard_id (disk_shard s0 g id) =? es_shard_id item) (ev_shards v) = false) as ->.
  { apply not_true_is_false. intros (x & Hx & E%Z.eqb_eq)%existsb_exists. apply Hn. apply list_elem_of_In in Hx.
    rewrite op_shards0 in Hx. apply list_elem_of_fmap in Hx as (j & -> & Hj). by cbn in E; subst. }
  split; try done. cbn [ev_shards with_shards fst]. rewrite merge_sort_Permutation, op_shards0. by rewrite map_app.
Qed.

Lemma load_shard g s0 s l id ids : on_disk s0 g -> untouched g s0 s -> vf_has g "ecx" = true ->
  id ∈ vf_shards g -> l.(dl_directory) = dir -> id ∉ ids -> partly s0 g ids l ->
  s = s0 \/ is_Some (l.(dl_ec_volumes) !! vf_vid g) ->
  exists v s', load_ec_shard now (vf_collection g) (vf_vid g) id (l, s) = ((put_ec (vf_vid g) v l, s'), Ok tt)
    /\ untouched g s0 s' /\ opened s0 g (ids ++ [id]) v.
Proof.
  intros Hd Hu Hx [Hid Hh]%list_elem_of_In%filter_In Hl Hn Hp Hs0. apply list_elem_of_In in Hid.
  destruct (shard_ext_ok id Hid) as (He & H1 & H2 & Hk).
  assert (Hf : is_Some (fs_bytes s (vf_file g (shard_ext id)))).
  { rewrite (untouched_file g s0 s) by (done || apply He). by apply (od_files s0 g Hd). }
  destruct Hf as [f Hf]. pose proof Hf as Hg. apply fs_get_bytes in Hg.
  assert (Hs : Disk.shard_new dir (vf_collection g) (vf_vid g) id s = Ok (disk_shard s0 g id)).
  { rewrite <- (disk_shard_same g s0 s) by done. unfold Disk.shard_new, disk_shard. rewrite path_eq.
    change (shard_path (vf_path g) id) with (vf_file g (shard_ext id)). by rewrite Hg, Hf. }
  unfold load_ec_shard, mbind', mget, mlift, on_location, mmodify. cbn [fst snd]. rewrite Hl, Hs. cbn [map_err].
  unfold partly in Hp. destruct (dl_ec_volumes l !! vf_vid g) as [v|] eqn:E.
  - exists (add_ec_shard (disk_shard s0 g id) v).1, s. split; [done|]. split; [done|]. by apply add_opened.
  - subst ids. destruct Hs0 as [->|[? ?]]; [|done]. destruct (open_volume g s0 Hd Hx) as (v & s' & Ho & Hu' & Hv).
    unfold on_fs. cbn [fst snd es_collection disk_shard]. rewrite Ho.
    exists (add_ec_shard (disk_shard s0 g id) v).1, s'. split; [done|]. split; [done|].
    by apply (add_opened s0 g []).
Qed.

Lemma shard_digits id : id ∈ shard_ids -> exists d,
  str_slice (shard_ext id) 2 (str_len (shard_ext id)) = Some d /\ parse_u64 d = Ok id /\ u8 id = id.
Proof.
  revert id. apply Forall_forall. repeat constructor; eexists; (split; [reflexivity|split; reflexivity]).
Qed.

Lemma load_shards g s0 : vf_ok g -> on_disk s0 g -> vf_has g "ecx" = true -> forall ids done_ l s,
  (forall id, id ∈ ids -> id ∈ vf_shards g) -> NoDup (done_ ++ ids) -> l.(dl_directory) = dir ->
  untouched g s0 s -> partly s0 g done_ l -> s = s0 \/ is_Some (l.(dl_ec_volumes) !! vf_vid g) ->
  exists l' s', load_ec_shards now (map (dotted (vf_base g)) (map shard_ext ids)) (vf_collection g) (vf_vid g) (l, s)
                = ((l', s'), Ok tt)
    /\ untouched g s0 s' /\ partly s0 g (done_ ++ ids) l' /\ l'.(dl_directory) = dir
    /\ (forall k, k <> vf_vid g -> l'.(dl_ec_volumes) !! k = l.(dl_ec_volumes) !! k)
    /\ l'.(dl_volumes) = l.(dl_volumes).
Proof.
  intros Hg Hd Hx ids. induction ids as [|id ids IH]; intros done_ l s Hsub Hnd Hl Hu Hp Hs.
  - exists l, s. by rewrite app_nil_r.
  - assert (Hid : id ∈ vf_shards g) by (apply Hsub; by left).
    assert (Hi : id ∈ shard_ids) by (apply list_elem_of_In, filter_In in Hid as [? _]; by apply list_elem_of_In).
    destruct (shard_ext_ok id Hi) as (He & _). destruct (shard_digits id Hi) as (d & Hd1 & Hd2 & Hd3).
    destruct (load_shard g s0 s l id done_) as (v & s1 & E & Hu1 & Hv1); [done..| |done|done|].
    { intros Hin. apply NoDup_app in Hnd as (_ & Hnd & _). apply (Hnd id Hin). by left. }
    destruct Hg as (Hpl & H1 & _). pose proof (base_ascii (vf_collection g) (vf_vid g) Hpl ltac:(lia)) as Ha.
    fold (vf_base g) in Ha. pose proof (dotted_ascii _ _ Ha He) as Ha'.
    destruct (IH (done_ ++ [id]) (put_ec (vf_vid g) v l) s1) as (l' & s' & E' & R); [|by rewrite <- app_assoc|done|done| | |].
    { intros j Hj. apply Hsub. by right. }
    { unfold partly. cbn. by rewrite lookup_insert_eq. }
    { right. cbn. by rewrite lookup_insert_eq. }
    exists l', s'. rewrite <- app_assoc in R. split; [|destruct R as (R1 & R2 & R3 & R4 & R5); split; [done|split; [done|split; [done|]]]].
    + cbn [map load_ec_shards]. unfold mbind' at 1.
      rewrite dotted_find by (apply base_lacks_dot; [done|lia]).
      unfold mbind' at 1 2 3, mlift. rewrite dotted_after by done. cbn [unwrap].
      rewrite Hd1. cbn [unwrap]. rewrite Hd2. cbn [map_err]. by rewrite Hd3, E.
    + split; [|done]. intros k Hk. rewrite R4 by done. cbn. by rewrite lookup_insert_ne.
Qed.

(** ** The whole directory *)

(** Shards that come with a sorted index are mounted, all of them. *)
Definition mounts (s : fs) (g : volume_files) (l : disk_location) : Prop :=
  if vf_has g "ecx" && negb (bool_decide (vf_shards g = []))
  then exists v, l.(dl_ec_volumes) !! vf_vid g = Some v /\ opened s g (vf_shards g) v
  else l.(dl_ec_volumes) !! vf_vid g = None.

(** Data, shards and indexes are left alone. *)
Definition data_kept (s s' : fs) : Prop :=
  forall h e, lacks "." e -> e <> "ecj" -> e <> "vif" -> fs_bytes s' (vf_file h e) = fs_bytes s (vf_file h e).

Lemma untouched_kept g s s' : untouched g s s' -> data_kept s s'.
Proof. intros Hu h e. by apply (untouched_file g). Qed.

Lemma opened_kept s s' g ids v : data_kept s s' -> (forall id, id ∈ ids -> id ∈ shard_ids) ->
  opened s' g ids v -> opened s g ids v.
Proof.
  intros Hk Hsub []. split; try done.
  - rewrite <- Hk; [done|by repeat constructor|done..].
  - rewrite op_shards0. rewrite (map_ext_in (disk_shard s' g) (disk_shard s g)); [done|]. intros id Hid%list_elem_of_In.
    destruct (shard_ext_ok id (Hsub id Hid)) as (He & H1 & H2 & _). unfold disk_shard. by rewrite Hk by (done || apply He).
Qed.

Lemma vf_shards_sub g id : id ∈ vf_shards g -> id ∈ shard_ids.
Proof. intros [Hi _]%list_elem_of_In%filter_In. by apply list_elem_of_In. Qed.

Lemma vf_shards_NoDup g : NoDup (vf_shards g).
Proof. apply NoDup_ListNoDup, List.NoDup_filter, NoDup_ListNoDup, NoDup_seqZ. Qed.

Lemma mounts_kept s s' g l : data_kept s s' -> mounts s' g l -> mounts s g l.
Proof.
  unfold mounts. intros Hk. destruct (_ && _); [|done]. intros (v & E & H). exists v. split; [done|].
  eapply opened_kept; [done| |done]. apply vf_shards_sub.
Qed.

Lemma on_disk_other g h s s' : vf_base h <> vf_base g -> untouched g s s' -> on_disk s h -> on_disk s' h.
Proof.
  intros Hne Hu [Hf Hv]. assert (U : forall e, e ∈ known_exts -> s' !! vf_file h e = s !! vf_file h e).
  { intros e He. pose proof known_exts_ok as K. rewrite Forall_forall in K. destruct (K e He) as [Hl _].
    apply Hu; intros [E _]%vf_file_inj; done || by repeat constructor. }
  split.
  - intros e He Hh. unfold fs_bytes. rewrite U by done. by apply Hf.
  - rewrite U by (by apply (bool_decide_unpack _)). done.
Qed.

Lemma load_group g rest same pre l s : vf_ok g -> pre <> vf_vid g -> (pre = 0 -> same = []) ->
  on_disk s g -> l.(dl_directory) = dir -> l.(dl_ec_volumes) !! vf_vid g = None ->
  exists l' s' same' pre', load_entries now (vf_names g ++ rest) same pre (l, s) = load_entries now rest same' pre' (l', s')
    /\ (pre' = pre \/ pre' = vf_vid g) /\ (pre' = 0 -> same' = []) /\ mounts s g l' /\ untouched g s s'
    /\ l'.(dl_directory) = dir /\ (forall k, k <> vf_vid g -> l'.(dl_ec_volumes) !! k = l.(dl_ec_volumes) !! k)
    /\ l'.(dl_volumes) = l.(dl_volumes).
Proof.
  intros Hg Hpre Hsame Hd Hl Hn. assert (Hv : vf_vid g <> 0) by (destruct Hg as (_ & ? & _); lia).
  rewrite group_step by done. unfold mounts. destruct (vf_shards g) as [|i ids] eqn:E.
  { exists l, s, same, pre. rewrite andb_false_r. repeat split; auto. }
  rewrite (bool_decide_false (i :: ids = [])), andb_true_r by done. rewrite <- E.
  destruct (vf_has g "ecx") eqn:Hx.
  2:{ eexists l, s, _, (vf_vid g). split; [done|]. repeat split; auto. done. }
  destruct (load_shards g s Hg Hd Hx (vf_shards g) [] l s) as (l' & s' & E' & R1 & R2 & R3 & R4 & R5).
  { done. } { apply vf_shards_NoDup. } { done. } { done. } { unfold partly. by rewrite Hn. } { by left. }
  eexists l', s', _, (vf_vid g). unfold mbind'. rewrite E'. split; [done|]. split; [by right|]. split; [done|]. split; [|done].
  unfold partly in R2. destruct (dl_ec_volumes l' !! vf_vid g) as [v|]; [by exists v|]. by rewrite E in R2.
Qed.

Lemma load_groups gs : Forall vf_ok gs -> NoDup (map vf_vid gs) -> forall pre same l s,
  Forall (on_disk s) gs -> Forall (fun g => l.(dl_ec_volumes) !! vf_vid g = None /\ pre <> vf_vid g) gs ->
  (pre = 0 -> same = []) -> l.(dl_directory) = dir ->
  exists l' s', load_entries now (concat (map vf_names gs)) same pre (l, s) = ((l', s'), Ok tt)
    /\ Forall (fun g => mounts s g l') gs /\ data_kept s s'
    /\ (forall k, k ∉ map vf_vid gs -> l'.(dl_ec_volumes) !! k = l.(dl_ec_volumes) !! k)
    /\ l'.(dl_volumes) = l.(dl_volumes) /\ l'.(dl_directory) = dir.
Proof.
  induction gs as [|g gs IH]; intros Hok Hnd pre same l s Hd Hn Hs Hl; cbn [map concat] in *.
  { exists l, s. repeat split; auto. }
  apply Forall_cons in Hok as [Hg Hok]. apply NoDup_cons in Hnd as [Hng Hnd].
  apply Forall_cons in Hd as [Hdg Hd]. apply Forall_cons in Hn as [[Hng1 Hng2] Hn].
  destruct (load_group g (concat (map vf_names gs)) same pre l s) as (l1 & s1 & same1 & pre1 & -> & P1 & P2 & P3 & P4 & P5 & P6 & P7);
    [done..|].
  assert (Hvid : forall h, h ∈ gs -> vf_vid h <> vf_vid g).
  { intros h Hh E. apply Hng. rewrite <- E. by apply list_elem_of_fmap_2. }
  destruct (IH Hok Hnd pre1 same1 l1 s1) as (l2 & s2 & -> & Q1 & Q2 & Q3 & Q4 & Q5); [| |done|done|].
  - rewrite Forall_forall in Hd |- *. intros h Hh. apply (on_disk_other g h s s1); [|done|by apply Hd].
    intros E. apply (Hvid h Hh). rewrite Forall_forall in Hok. by apply vf_base_inj; [apply Hok| |].
  - rewrite Forall_forall in Hn |- *. intros h Hh. destruct (Hn h Hh). split; [by rewrite P6 by auto|].
    destruct P1 as [->| ->]; [done|]. intros E. by apply (Hvid h Hh).
  - exists l2, s2. split; [done|]. split; [|split; [|split; [|split; [congruence|done]]]].
    + constructor.
      * unfold mounts in *. by rewrite Q3 by done.
      * eapply Forall_impl; [exact Q1|]. intros h. apply mounts_kept. by apply (untouched_kept g).
    + intros h e H1 H2 H3. rewrite Q2 by done. by apply (untouched_kept g).
    + intros k Hk. rewrite not_elem_of_cons in Hk. rewrite Q3, P6; naive_solver.
Qed.
End mount.

Lemma restart_loads {VI : VolumeInfoJson} now dir max gs names s :
  Forall vf_ok gs -> NoDup (map vf_vid gs) -> Forall (on_disk dir s) gs ->
  names ≡ₚ concat (map vf_names gs) ->
  exists l s', load_all_shards now names (Location.new dir max, s) = ((l, s'), Ok tt)
    /\ (forall g, g ∈ gs ->
          match l.(dl_ec_volumes) !! vf_vid g with
          | Some v => vf_has g "ecx" = true /\ vf_shards g <> [] /\ opened now dir s g (vf_shards g) v
          | None => vf_has g "ecx" = false \/ vf_shards g = []
          end)
    /\ (forall vid v, l.(dl_ec_volumes) !! vid = Some v -> vid ∈ map vf_vid gs)
    /\ (forall g e, g ∈ gs -> e ∈ known_exts -> e <> "ecj" -> e <> "vif" ->
          fs_bytes s' (vf_file dir g e) = fs_bytes s (vf_file dir g e)).
Proof.
  intros Hok Hnd Hd Hp. unfold load_all_shards.
  destruct (sorted_directory gs names Hok Hnd Hp) as (gs' & Hgs & ->).
  destruct (load_groups now dir gs') with (pre := 0) (same := @nil string) (l := Location.new dir max) (s := s)
    as (l & s' & E & H1 & H2 & H3 & _); [by rewrite Hgs|by rewrite Hgs|by rewrite Hgs| |done|done|].
  { rewrite Hgs. eapply Forall_impl; [exact Hok|]. intros g (_ & ? & _). cbn. rewrite lookup_empty. split; [done|lia]. }
  exists l, s'. split; [done|]. rewrite Hgs in H1. rewrite Forall_forall in H1. split; [|split].
  - intros g Hg. specialize (H1 g Hg). unfold mounts in H1. destruct (vf_has g "ecx"); cbn [andb] in H1; [|rewrite H1; by left].
    case_bool_decide; cbn [negb] in H1; [rewrite H1; by right|]. by destruct H1 as (v & -> & Hv).
  - intros vid v Hv. destruct (decide (vid ∈ map vf_vid gs)) as [|Hni]; [done|].
    rewrite H3 in Hv by (by rewrite Hgs). cbn in Hv. by rewrite lookup_empty in Hv.
  - intros g e _ He N1 N2. pose proof known_exts_ok as K. rewrite Forall_forall in K. apply H2; [apply (K e He)|done..].
Qed.

(** C16: after a restart every erasure-coded volume is back.  When a directory
    holds the files of any number of volumes with plain collection names and
    different ids, listed in any order, reading it succeeds and mounts, for each
    volume that has its sorted index, exactly the shards whose files are there,
    with their contents; volumes without index or without shards are not mounted,
    and no data file, shard or index is changed. *)
Theorem restart_mounts_shards : forall (VI : VolumeInfoJson) now dir max gs names s,
  Forall vf_ok gs -> NoDup (map vf_vid gs) -> Forall (on_disk dir s) gs ->
  names ≡ₚ concat (map vf_names gs) ->
  exists l s', load_all_shards now names (Location.new dir max, s) = ((l, s'), Ok tt)
    /\ (forall g, g ∈ gs ->
          match l.(dl_ec_volumes) !! vf_vid g with
          | Some v => vf_has g "ecx" = true /\ vf_shards g <> [] /\ opened now dir s g (vf_shards g) v
          | None => vf_has g "ecx" = false \/ vf_shards g = []
          end)
    /\ (forall vid v, l.(dl_ec_volumes) !! vid = Some v -> vid ∈ map vf_vid gs)
    /\ (forall g e, g ∈ gs -> e ∈ known_exts -> e <> "ecj" -> e <> "vif" ->
          fs_bytes s' (vf_file dir g e) = fs_bytes s (vf_file dir g e)).
Proof. intros VI now dir max gs names s. apply restart_loads. Qed.

(** A directory with volume 3, which has two shards and its index, and volume 12
    of a collection, which has lost its index. *)
#[local] Instance any_json : VolumeInfoJson := {
  vi_to_vec _ := [Byte.x7b; Byte.x7d];
  vi_from_slice _ := Some (VolumeInfo [] VERSION2 "");
}.

Definition volume_3 : volume_files := VolumeFiles "" 3 (fun e => bool_decide (e ∈ ["dat"; "ec00"; "ec05"; "ecx"])).
Definition volume_12 : volume_files := VolumeFiles "c" 12 (fun e => bool_decide (e ∈ ["ec01"; "vif"])).
Definition two_volumes : fs :=
  list_to_map (map (fun n => (("/d/" ++ n)%string, FNode [Byte.x01] false)) (vf_names volume_3 ++ vf_names volume_12)).

Lemma restart_mounts_shards_witness : exists l s',
  load_all_shards 5 (vf_names volume_12 ++ vf_names volume_3) (Location.new "/d" 7, two_volumes) = ((l, s'), Ok tt)
  /\ (exists v, l.(dl_ec_volumes) !! 3 = Some v /\ map es_shard_id (ev_shards v) ≡ₚ [0; 5])
  /\ l.(dl_ec_volumes) !! 12 = None.
Proof.
  destruct (restart_mounts_shards any_json 5 "/d" 7 [volume_3; volume_12] (vf_names volume_12 ++ vf_names volume_3)
    two_volumes) as (l & s' & E & H & _).
  - repeat constructor; cbn; try done; intros X; discriminate X.
  - repeat constructor; set_solver.
  - apply Forall_cons. split; [|apply Forall_singleton]; split.
    + apply (proj1 (Forall_forall (fun e => vf_has volume_3 e = true -> is_Some (fs_bytes two_volumes (vf_file "/d" volume_3 e))) _)).
      repeat constructor; vm_compute; intros X; (discriminate X || by eexists).
    + left. vm_compute. reflexivity.
    + apply (proj1 (Forall_forall (fun e => vf_has volume_12 e = true -> is_Some (fs_bytes two_volumes (vf_file "/d" volume_12 e))) _)).
      repeat constructor; vm_compute; intros X; (discriminate X || by eexists).
    + right. do 2 eexists. split; [vm_compute; reflexivity|split; reflexivity].
  - vm_compute. apply (Permutation_app_comm ["c_12.ec01"; "c_12.vif"]).
  - exists l, s'. split; [exact E|]. split.
    + specialize (H volume_3 ltac:(left)). cbn [vf_vid volume_3] in H.
      destruct (l.(dl_ec_volumes) !! 3) as [v|]; [|vm_compute in H; destruct H as [H|H]; discriminate H].
      exists v. split; [reflexivity|]. destruct H as (_ & _ & H). rewrite (op_shards _ _ _ _ _ _ H), map_map.
      cbn [disk_shard es_shard_id]. rewrite map_id. change (vf_shards volume_3) with [0; 5]. reflexivity.
    + specialize (H volume_12 ltac:(right; left)). cbn [vf_vid volume_12] in H.
      destruct (l.(dl_ec_volumes) !! 12); [|reflexivity]. destruct H as (H & _). vm_compute in H. discriminate H.
Defined.
