(* ===== verification/Node.v ===== *)
(** * The topology tree ([topology/node.rs], [rack.rs], [data_center.rs], [data_node.rs])

    Topology, data centers, racks and data nodes are reference-counted objects
    that point to their parent and to their children.  They live in a store;
    a reference is an address.  The [DataNode], [Rack], [DataCenter] and
    [Topology] structs own a [NodeImpl] and delegate to it ([impl_node!]). *)

From S2P Require Import Prelude Types Text Ttl Replica Errors Fid Files Fs Needle NeedleMap Volume ShardBits.
#[local] Open Scope string_scope.
#[local] Open Scope list_scope.
#[local] Open Scope Z_scope.

Definition nref : Type := Z.

Record data_node := DataNode {
  dn_ip : string;
  dn_port : Z;
  dn_public_url : string;
  dn_volumes : gmap Z volume_info;
  dn_ec_shards : gmap Z ec_volume_info;
}.

Inductive node_type := TTopology | TDataCenter | TRack | TDataNode (d : data_node).

(** The counters of a [NodeImpl], [AtomicI64] each. *)
Record counts := Counts {
  volume_count : Z;
  active_volume_count : Z;
  ec_shard_count : Z;
  max_volume_count : Z;
}.
Inductive counter := CVolume | CActive | CEcShard | CMax.

Record node := Node {
  nd_id : string;
  nd_type : node_type;
  nd_counts : counts;
  nd_max_volume_id : Z;
  nd_parent : option nref;
  nd_children : list (string * nref);
}.

(** The store, with the next free address. *)
Record tree := Tree { t_next : nref; t_nodes : gmap nref node }.

(** [NodeImpl::new] *)
Definition node_new (id : string) (ty : node_type) : node :=
  Node id ty (Counts 0 0 0 0) 0 None [].

(** [DataNode::new] *)
Definition data_node_new (id ip : string) (port : Z) (public_url : string) (max : Z) : node :=
  Node id (TDataNode (DataNode ip port public_url ∅ ∅)) (Counts 0 0 0 max) 0 None [].

Definition is_data_node (nd : node) : bool :=
  match nd.(nd_type) with TDataNode _ => true | _ => false end.

Definition get_count (c : counter) (k : counts) : Z :=
  match c with
  | CVolume => k.(volume_count)
  | CActive => k.(active_volume_count)
  | CEcShard => k.(ec_shard_count)
  | CMax => k.(max_volume_count)
  end.
Definition set_count (c : counter) (v : Z) (k : counts) : counts :=
  match c with
  | CVolume => Counts v k.(active_volume_count) k.(ec_shard_count) k.(max_volume_count)
  | CActive => Counts k.(volume_count) v k.(ec_shard_count) k.(max_volume_count)
  | CEcShard => Counts k.(volume_count) k.(active_volume_count) v k.(max_volume_count)
  | CMax => Counts k.(volume_count) k.(active_volume_count) k.(ec_shard_count) v
  end.
Definition cnt (c : counter) (nd : node) : Z := get_count c nd.(nd_counts).

Definition with_counts (k : counts) (nd : node) : node :=
  Node nd.(nd_id) nd.(nd_type) k nd.(nd_max_volume_id) nd.(nd_parent) nd.(nd_children).
Definition with_max_volume_id (v : Z) (nd : node) : node :=
  Node nd.(nd_id) nd.(nd_type) nd.(nd_counts) v nd.(nd_parent) nd.(nd_children).
Definition with_parent (p : option nref) (nd : node) : node :=
  Node nd.(nd_id) nd.(nd_type) nd.(nd_counts) nd.(nd_max_volume_id) p nd.(nd_children).
Definition with_children (cs : list (string * nref)) (nd : node) : node :=
  Node nd.(nd_id) nd.(nd_type) nd.(nd_counts) nd.(nd_max_volume_id) nd.(nd_parent) cs.
Definition with_type (ty : node_type) (nd : node) : node :=
  Node nd.(nd_id) ty nd.(nd_counts) nd.(nd_max_volume_id) nd.(nd_parent) nd.(nd_children).

(** Updating the object behind a reference. *)
Definition upd (r : nref) (f : node -> node) (t : tree) : tree :=
  Tree t.(t_next) (alter f r t.(t_nodes)).
Definition alloc (nd : node) (t : tree) : tree * nref :=
  (Tree (t.(t_next) + 1) (<[t.(t_next) := nd]> t.(t_nodes)), t.(t_next)).
Definition get_node (t : tree) (r : nref) : option node := t.(t_nodes) !! r.

(** A path to the root has at most four nodes: data node, rack, data center,
    topology. *)
Definition MAX_DEPTH : nat := 4.

(** [fetch_add] here and at every ancestor. *)
Definition add_count (c : counter) (delta : Z) (nd : node) : node :=
  with_counts (set_count c (i64 (cnt c nd + delta)) nd.(nd_counts)) nd.

Fixpoint adjust_up (fuel : nat) (c : counter) (delta : Z) (r : nref) (t : tree) : tree :=
  match fuel with
  | O => t
  | S fuel' =>
      match get_node t r with
      | None => t
      | Some nd =>
          let t := upd r (add_count c delta) t in
          match nd.(nd_parent) with
          | Some p => adjust_up fuel' c delta p t
          | None => t
          end
      end
  end.
Definition adjust (c : counter) (delta : Z) (r : nref) (t : tree) : tree :=
  adjust_up MAX_DEPTH c delta r t.

Definition adjust_volume_count := adjust CVolume.
Definition adjust_active_volume_count := adjust CActive.
Definition adjust_ec_shard_count := adjust CEcShard.
Definition adjust_max_volume_count := adjust CMax.

(** [adjust_max_volume_id]: stops at the first node that is large enough. *)
Fixpoint adjust_max_id_up (fuel : nat) (vid : Z) (r : nref) (t : tree) : tree :=
  match fuel with
  | O => t
  | S fuel' =>
      match get_node t r with
      | None => t
      | Some nd =>
          if nd.(nd_max_volume_id) <? vid then
            let t := upd r (with_max_volume_id vid) t in
            match nd.(nd_parent) with
            | Some p => adjust_max_id_up fuel' vid p t
            | None => t
            end
          else t
      end
  end.
Definition adjust_max_volume_id (vid : Z) (r : nref) (t : tree) : tree :=
  adjust_max_id_up MAX_DEPTH vid r t.

(** [DashMap] operations on the children; the order of the list is the order
    of iteration. *)
Fixpoint find_child (id : string) (cs : list (string * nref)) : option nref :=
  match cs with
  | [] => None
  | (k, r) :: cs' => if bool_decide (k = id) then Some r else find_child id cs'
  end.
Definition remove_child (id : string) (cs : list (string * nref)) : list (string * nref) :=
  filter (fun e => e.1 <> id) cs.

(** [NodeImpl::link_child_node] *)
Definition link_child_node (p c : nref) (t : tree) : tree :=
  match get_node t p, get_node t c with
  | Some pn, Some cn =>
      match find_child cn.(nd_id) pn.(nd_children) with
      | Some _ => t
      | None =>
          let t := adjust_max_volume_count (cnt CMax cn) p t in
          let t := adjust_max_volume_id cn.(nd_max_volume_id) p t in
          let t := adjust_volume_count (cnt CVolume cn) p t in
          let t := adjust_ec_shard_count (cnt CEcShard cn) p t in
          let t := adjust_active_volume_count (cnt CActive cn) p t in
          let t := upd c (with_parent (Some p)) t in
          upd p (fun nd => with_children (nd.(nd_children) ++ [(cn.(nd_id), c)]) nd) t
      end
  | _, _ => t
  end.

(** [NodeImpl::unlink_child_node] *)
Definition unlink_child_node (p : nref) (id : string) (t : tree) : tree :=
  match get_node t p with
  | None => t
  | Some pn =>
      match find_child id pn.(nd_children) with
      | None => t
      | Some c =>
          match get_node t c with
          | None => t
          | Some cn =>
              let t := upd p (fun nd => with_children (remove_child id nd.(nd_children)) nd) t in
              let t := upd c (with_parent None) t in
              let t := adjust_max_volume_count (i64 (- cnt CMax cn)) p t in
              let t := adjust_volume_count (i64 (- cnt CVolume cn)) p t in
              let t := adjust_ec_shard_count (i64 (- cnt CEcShard cn)) p t in
              adjust_active_volume_count (i64 (- cnt CActive cn)) p t
          end
      end
  end.

(** [free_space]: the number of free volume slots. *)
Definition free_space (nd : node) : Z :=
  let free := i64 (cnt CMax nd - cnt CVolume nd) in
  if 0 <? cnt CEcShard nd
  then i64 (i64 (free - Z.quot (cnt CEcShard nd) DATA_SHARDS_COUNT) - 1)
  else free.

(** [reserve_one_volume]: walk down to the data node that holds slot [rand]. *)
Fixpoint reserve_up (fuel : nat) (r : nref) (rand : Z) (t : tree) : outcome VolumeError nref :=
  match fuel with
  | O => Panic
  | S fuel' =>
      match get_node t r with
      | None => Panic
      | Some nd =>
          (fix go (cs : list (string * nref)) (rand : Z) : outcome VolumeError nref :=
             match cs with
             | [] => Err VNoFreeSpace
             | (_, c) :: cs' =>
                 match get_node t c with
                 | None => Panic
                 | Some cn =>
                     if free_space cn <=? 0 then go cs' rand
                     else if free_space cn <=? rand then go cs' (i64 (rand - free_space cn))
                     else if is_data_node cn && (0 <? free_space cn) then Ok c
                     else reserve_up fuel' c rand t
                 end
             end) nd.(nd_children) rand
      end
  end.
Definition reserve_one_volume (r : nref) (rand : Z) (t : tree) : outcome VolumeError nref :=
  reserve_up MAX_DEPTH r rand t.

(** ** Finding or creating nodes *)

(** [Rack::get_or_create_data_node]; a child of another type is a panic. *)
Definition get_or_create_data_node (rack : nref) (id ip : string) (port : Z) (public_url : string)
    (max_volume_count : Z) (t : tree) : tree * outcome VolumeError nref :=
  match get_node t rack with
  | None => (t, Panic)
  | Some rn =>
      match find_child id rn.(nd_children) with
      | Some c => (t, match get_node t c with
                      | Some cn => if is_data_node cn then Ok c else Panic
                      | None => Panic
                      end)
      | None =>
          let '(t1, c) := alloc (data_node_new id ip port public_url max_volume_count) t in
          (link_child_node rack c t1, Ok c)
      end
  end.

(** [DataCenter::get_or_create_rack] *)
Definition get_or_create_rack (dc : nref) (id : string) (t : tree) : tree * outcome VolumeError nref :=
  match get_node t dc with
  | None => (t, Panic)
  | Some dn =>
      match find_child id dn.(nd_children) with
      | Some c => (t, match get_node t c with
                      | Some cn => match cn.(nd_type) with TRack => Ok c | _ => Err VWrongNodeType end
                      | None => Panic
                      end)
      | None => let '(t1, c) := alloc (node_new id TRack) t in (link_child_node dc c t1, Ok c)
      end
  end.

(** [Topology::get_or_create_data_center] *)
Definition get_or_create_data_center (topo : nref) (id : string) (t : tree)
  : tree * outcome VolumeError nref :=
  match get_node t topo with
  | None => (t, Panic)
  | Some tn =>
      match find_child id tn.(nd_children) with
      | Some c => (t, match get_node t c with
                      | Some cn => match cn.(nd_type) with TDataCenter => Ok c | _ => Err VWrongNodeType end
                      | None => Panic
                      end)
      | None => let '(t1, c) := alloc (node_new id TDataCenter) t in (link_child_node topo c t1, Ok c)
      end
  end.

(** [DataNode::rack_id], [DataNode::data_center_id] *)
Definition parent_of (r : nref) (t : tree) : option nref := get_node t r ≫= nd_parent.
Definition id_of (r : option nref) (t : tree) : string :=
  match r ≫= get_node t with Some nd => nd.(nd_id) | None => "" end.
Definition rack_id (r : nref) (t : tree) : string := id_of (parent_of r t) t.
Definition data_center_id (r : nref) (t : tree) : string :=
  id_of (parent_of r t ≫= fun p => parent_of p t) t.

(** [Rack::data_center_id] *)
Definition rack_data_center_id (r : nref) (t : tree) : string := id_of (parent_of r t) t.

(** [DataCenter::link_rack], [Rack::link_data_node] *)
Definition link_rack (dc rack : nref) (t : tree) : tree := link_child_node dc rack t.
Definition link_data_node (rack dn : nref) (t : tree) : tree := link_child_node rack dn t.

(** ** The volumes of a data node *)

Definition volumes_of (r : nref) (t : tree) : gmap Z volume_info :=
  match get_node t r with
  | Some nd => match nd.(nd_type) with TDataNode d => d.(dn_volumes) | _ => ∅ end
  | None => ∅
  end.

Definition set_volumes (vs : gmap Z volume_info) (nd : node) : node :=
  match nd.(nd_type) with
  | TDataNode d => with_type (TDataNode (DataNode d.(dn_ip) d.(dn_port) d.(dn_public_url) vs
                                           d.(dn_ec_shards))) nd
  | _ => nd
  end.

(** [add_or_update_volume]: true for a volume that was not there. *)
Definition add_or_update_volume (r : nref) (v : volume_info) (t : tree) : tree * bool :=
  match volumes_of r t !! v.(vi_id) with
  | Some _ => (upd r (set_volumes (<[v.(vi_id) := v]> (volumes_of r t))) t, false)
  | None =>
      let t := adjust_volume_count 1 r t in
      let t := if v.(vi_read_only) then t else adjust_active_volume_count 1 r t in
      let t := adjust_max_volume_id v.(vi_id) r t in
      (upd r (set_volumes (<[v.(vi_id) := v]> (volumes_of r t))) t, true)
  end.

(** Forgetting a volume; [read_only] is what the caller knows of it. *)
Definition drop_volume (r : nref) (id : Z) (read_only : bool) (t : tree) : tree :=
  let t := upd r (set_volumes (delete id (volumes_of r t))) t in
  let t := adjust_volume_count (-1) r t in
  if read_only then t else adjust_active_volume_count (-1) r t.

(** [delta_update_volumes]: the read-only flag of a deletion is the message's. *)
Definition delta_update_volumes (r : nref) (new_volumes deleted_volumes : list volume_info)
    (t : tree) : tree :=
  let t := fold_left (fun t v => match volumes_of r t !! v.(vi_id) with
                                 | Some _ => drop_volume r v.(vi_id) v.(vi_read_only) t
                                 | None => t
                                 end) deleted_volumes t in
  fold_left (fun t v => (add_or_update_volume r v t).1) new_volumes t.

(** [update_volumes]: the volumes become those of the list; [order] is the
    order in which the map is iterated. *)
Definition update_volumes (order : gmap Z volume_info -> list (Z * volume_info)) (r : nref)
    (volume_infos : list volume_info) (t : tree) : tree * (list volume_info * list volume_info) :=
  let deleted_id := filter (fun id => Forall (fun v => v.(vi_id) <> id) volume_infos)
                      (map fst (order (volumes_of r t))) in
  let '(t, new_volumes) :=
    fold_left (fun '(t, acc) v => let '(t', is_new) := add_or_update_volume r v t in
                                  (t', if is_new then acc ++ [v] else acc)) volume_infos (t, []) in
  let '(t, deleted_volumes) :=
    fold_left (fun '(t, acc) id => match volumes_of r t !! id with
                                   | Some v => (drop_volume r id v.(vi_read_only) t, acc ++ [v])
                                   | None => (t, acc)
                                   end) deleted_id (t, []) in
  (t, (new_volumes, deleted_volumes)).
