(* ===== verification/NodeFacts.v ===== *)
(** * The counters of the topology tree

    Every inner node's counters are the sums of its children's.  The sums are
    taken in [i64], as the code adds: no bound on the counters is needed. *)

From S2P Require Import Prelude Types Text Ttl Replica Errors Fid Files Fs Needle NeedleMap Volume ShardBits Node.
#[local] Open Scope Z_scope.

#[export] Instance counter_eq_dec : EqDecision counter.
Proof. solve_decision. Defined.

(** ** The shape of a tree *)

Definition level (nd : node) : Z :=
  match nd.(nd_type) with TDataNode _ => 0 | TRack => 1 | TDataCenter => 2 | TTopology => 3 end.

Lemma level_range nd : 0 <= level nd <= 3.
Proof. unfold level. destruct (nd_type nd); lia. Qed.

Lemma level_data_node nd : is_data_node nd = true <-> level nd = 0.
Proof. unfold level, is_data_node. destruct (nd_type nd); split; done || lia. Qed.

Record shape (t : tree) : Prop := {
  sh_child : forall p pn id c, get_node t p = Some pn -> (id, c) ∈ pn.(nd_children) ->
    exists cn, get_node t c = Some cn /\ cn.(nd_parent) = Some p /\ cn.(nd_id) = id
               /\ level pn = level cn + 1;
  sh_parent : forall c cn p, get_node t c = Some cn -> cn.(nd_parent) = Some p ->
    exists pn, get_node t p = Some pn /\ (cn.(nd_id), c) ∈ pn.(nd_children);
  sh_keys : forall p pn, get_node t p = Some pn -> NoDup (map fst pn.(nd_children));
  sh_next : forall r nd, get_node t r = Some nd -> r < t.(t_next);
}.

(** The updates that leave the shape alone. *)
Definition keeps_shape (f : node -> node) : Prop := forall nd,
  (f nd).(nd_id) = nd.(nd_id) /\ level (f nd) = level nd
  /\ (f nd).(nd_parent) = nd.(nd_parent) /\ (f nd).(nd_children) = nd.(nd_children).

Lemma get_upd r f t x :
  get_node (upd r f t) x = if decide (r = x) then f <$> get_node t x else get_node t x.
Proof.
  unfold get_node, upd. cbn [t_nodes]. case_decide as E.
  - subst. by rewrite lookup_alter_eq.
  - by rewrite lookup_alter_ne.
Qed.

Lemma get_upd_Some r f t x nd :
  get_node (upd r f t) x = Some nd ->
  exists nd0, get_node t x = Some nd0 /\ nd = if decide (r = x) then f nd0 else nd0.
Proof.
  rewrite get_upd. case_decide; [|eauto]. intros (nd0 & -> & E)%fmap_Some. eauto.
Qed.

Lemma get_upd_of r f t x nd0 :
  get_node t x = Some nd0 -> get_node (upd r f t) x = Some (if decide (r = x) then f nd0 else nd0).
Proof. intros E. rewrite get_upd, E. by case_decide. Qed.

Lemma shape_upd r f t : keeps_shape f -> shape t -> shape (upd r f t).
Proof.
  intros Hf [H1 H2 H3 H4].
  assert (Hk : forall x (nd : node), let nd' := (if decide (r = x) then f nd else nd) in
    nd'.(nd_id) = nd.(nd_id) /\ level nd' = level nd /\ nd'.(nd_parent) = nd.(nd_parent)
    /\ nd'.(nd_children) = nd.(nd_children)) by (intros x nd; case_decide; [apply Hf|done]).
  split.
  - intros p pn id c (pn0 & Hp & ->)%get_upd_Some Hc.
    destruct (Hk p pn0) as (_ & K2 & _ & K4). rewrite K4 in Hc. rewrite K2.
    destruct (H1 p pn0 id c Hp Hc) as (cn & Hcn & E1 & E2 & E3).
    destruct (Hk c cn) as (J1 & J2 & J3 & J4). eexists. split; [by apply get_upd_of|].
    rewrite J1, J2, J3. done.
  - intros c cn p (cn0 & Hc & ->)%get_upd_Some Hp.
    destruct (Hk c cn0) as (J1 & J2 & J3 & J4). rewrite J3 in Hp. rewrite J1.
    destruct (H2 c cn0 p Hc Hp) as (pn & Hpn & Hin). destruct (Hk p pn) as (_ & _ & _ & K4).
    eexists. split; [by apply get_upd_of|]. by rewrite K4.
  - intros p pn (pn0 & Hp & ->)%get_upd_Some. destruct (Hk p pn0) as (_ & _ & _ & ->). by apply (H3 p).
  - intros x nd (nd0 & Hx & ->)%get_upd_Some. by apply (H4 x nd0).
Qed.

Lemma keeps_add_count c d : keeps_shape (add_count c d).
Proof. by intros nd. Qed.
Lemma keeps_max_id v : keeps_shape (with_max_volume_id v).
Proof. by intros nd. Qed.
Lemma keeps_volumes vs : keeps_shape (set_volumes vs).
Proof. intros nd. unfold set_volumes, level. destruct (nd_type nd) eqn:E; simpl; by rewrite ?E. Qed.
#[export] Hint Resolve keeps_add_count keeps_max_id keeps_volumes shape_upd : helyim.

Lemma shape_not_own_child t p pn id c :
  shape t -> get_node t p = Some pn -> (id, c) ∈ pn.(nd_children) -> c <> p.
Proof.
  intros Ht Hp Hc ->. destruct (sh_child t Ht p pn id p Hp Hc) as (cn & Hcn & _ & _ & E).
  assert (cn = pn) as -> by congruence. lia.
Qed.

(** The references among the children are distinct. *)
Lemma shape_refs t p pn :
  shape t -> get_node t p = Some pn -> NoDup (map snd pn.(nd_children)).
Proof.
  intros Ht Hp. pose proof (sh_keys t Ht p pn Hp) as Hk.
  assert (Hc : forall id c, (id, c) ∈ nd_children pn -> exists cn, get_node t c = Some cn /\ nd_id cn = id).
  { intros id c Hin. destruct (sh_child t Ht p pn id c Hp Hin) as (cn & ? & _ & ? & _). eauto. }
  induction (nd_children pn) as [|[id c] cs IH]; simpl in *; [constructor|].
  apply NoDup_cons in Hk as [Hk1 Hk2]. apply NoDup_cons. split; [|apply IH; [done|]].
  - intros ([id' c'] & E & Hin)%list_elem_of_fmap. simpl in E. subst c'. apply Hk1.
    destruct (Hc id c) as (cn & E1 & <-); [by left|].
    destruct (Hc id' c) as (cn' & E2 & <-); [by right|]. assert (cn = cn') as -> by congruence.
    apply list_elem_of_fmap. by exists (nd_id cn', c).
  - intros id' c' Hin. apply Hc. by right.
Qed.

(** ** Sums of counters *)

Definition node_cnt (c : counter) (t : tree) (r : nref) : Z :=
  match get_node t r with Some nd => cnt c nd | None => 0 end.

Fixpoint sum_counts (c : counter) (t : tree) (cs : list (string * nref)) : Z :=
  match cs with
  | [] => 0
  | (_, r) :: cs' => node_cnt c t r + sum_counts c t cs'
  end.

Lemma sum_counts_ext c t t' cs :
  (forall id r, (id, r) ∈ cs -> node_cnt c t' r = node_cnt c t r) ->
  sum_counts c t' cs = sum_counts c t cs.
Proof.
  induction cs as [|[id r] cs IH]; intros H; simpl; [done|].
  rewrite (H id r) by left. rewrite IH; [done|]. intros i s Hin. apply (H i s). by right.
Qed.

Lemma sum_counts_one c t t' cs r id :
  NoDup (map snd cs) -> (id, r) ∈ cs ->
  (forall x, x <> r -> node_cnt c t' x = node_cnt c t x) ->
  sum_counts c t' cs = sum_counts c t cs + (node_cnt c t' r - node_cnt c t r).
Proof.
  intros Hn Hin Hx. induction cs as [|[i s] cs IH]; simpl in *; [by apply elem_of_nil in Hin|].
  apply NoDup_cons in Hn as [Hn1 Hn2]. apply elem_of_cons in Hin as [[= -> ->]|Hin].
  - rewrite (sum_counts_ext c t t' cs); [lia|]. intros j x Hj. apply Hx. intros ->. apply Hn1.
    apply list_elem_of_fmap. by exists (j, s).
  - rewrite IH by done. rewrite (Hx s); [lia|]. intros ->. apply Hn1.
    apply list_elem_of_fmap. by exists (id, r).
Qed.

Lemma sum_counts_app c t a b : sum_counts c t (a ++ b) = sum_counts c t a + sum_counts c t b.
Proof. induction a as [|[i s] a IH]; simpl; [lia|]. rewrite IH. lia. Qed.

(** The counter [c] of every inner node is the sum over its children, up to a
    pending change [e p] at each node [p]. *)
Definition gsums (c : counter) (t : tree) (e : nref -> Z) : Prop :=
  forall p pn, get_node t p = Some pn -> is_data_node pn = false ->
    i64 (cnt c pn + e p) = i64 (sum_counts c t pn.(nd_children)).
Definition sums (c : counter) (t : tree) : Prop := gsums c t (fun _ => 0).

(** [d] at [r], nothing elsewhere. *)
Definition at_ref (r : nref) (d : Z) : nref -> Z := fun x => if decide (x = r) then d else 0.

Lemma gsums_ext c t e e' :
  (forall p pn, get_node t p = Some pn -> is_data_node pn = false -> e' p = e p) ->
  gsums c t e -> gsums c t e'.
Proof. intros H Hs p pn Hp Hd. rewrite (H p pn Hp Hd). by apply Hs. Qed.

Lemma i64_add a b : i64 (i64 a + b) = i64 (a + b).
Proof. int_solve. Qed.
Lemma i64_idem a : i64 (i64 a) = i64 a.
Proof. int_solve. Qed.
Lemma i64_cong a b d : i64 a = i64 b -> i64 (a + d) = i64 (b + d).
Proof. int_solve. Qed.

Lemma cnt_add_count k c d nd :
  cnt c (add_count k d nd) = if decide (k = c) then i64 (cnt c nd + d) else cnt c nd.
Proof. unfold cnt, add_count. destruct k, c, nd; reflexivity. Qed.

Lemma node_cnt_upd c t r f x :
  (forall nd, get_node t r = Some nd -> r = x -> cnt c (f nd) = cnt c nd) ->
  node_cnt c (upd r f t) x = node_cnt c t x.
Proof.
  intros H. unfold node_cnt. rewrite get_upd. case_decide as E; [|done].
  destruct (get_node t x) as [nd|] eqn:Ex; [|done]. simpl. apply H; congruence.
Qed.

(** Updates that do not touch the counters keep the sums. *)
Lemma gsums_upd c t r f e :
  keeps_shape f -> (forall nd, cnt c (f nd) = cnt c nd) -> gsums c t e -> gsums c (upd r f t) e.
Proof.
  intros Hf Hc Hs p pn (pn0 & Hp & ->)%get_upd_Some Hd.
  rewrite (sum_counts_ext c t); [|intros; apply node_cnt_upd; auto].
  destruct (Hf pn0) as (_ & Hl & _ & Hch).
  assert (is_data_node pn0 = false).
  { destruct (is_data_node pn0) eqn:E; [|done]. apply level_data_node in E.
    case_decide; [|apply level_data_node in E; congruence].
    rewrite <- Hl in E. apply level_data_node in E. congruence. }
  case_decide; [rewrite Hch, Hc|]; by apply (Hs p pn0).
Qed.

(** One step of the walk moves the pending change to the parent. *)
Lemma adjust_step c d r nd t e :
  shape t -> get_node t r = Some nd -> gsums c t e ->
  gsums c (upd r (add_count c d) t)
    (fun x => e x - at_ref r d x + if decide (nd.(nd_parent) = Some x) then d else 0).
Proof.
  intros Ht Hr Hs. set (t' := upd r (add_count c d) t).
  assert (Hrc : node_cnt c t' r = i64 (node_cnt c t r + d)).
  { unfold node_cnt, t'. rewrite get_upd, decide_True, Hr by done. simpl.
    rewrite cnt_add_count. by rewrite decide_True. }
  assert (Hox : forall x, x <> r -> node_cnt c t' x = node_cnt c t x).
  { intros x Hx. unfold t'. apply node_cnt_upd. congruence. }
  (* what the sums over the children of [p] become *)
  assert (Hsum : forall p pn, get_node t p = Some pn ->
    i64 (sum_counts c t' pn.(nd_children))
    = i64 (sum_counts c t pn.(nd_children) + if decide (nd.(nd_parent) = Some p) then d else 0)).
  { intros p pn Hp. case_decide as E.
    - destruct (sh_parent t Ht r nd p Hr E) as (pn' & Hp' & Hin). assert (pn' = pn) as -> by congruence.
      rewrite (sum_counts_one c t t' _ r (nd_id nd)) by (done || by eapply shape_refs).
      rewrite Hrc. int_solve.
    - rewrite Z.add_0_r. f_equal. apply sum_counts_ext. intros id x Hin. apply Hox. intros ->.
      destruct (sh_child t Ht p pn id r Hp Hin) as (cn & Hcn & Hcp & _). congruence. }
  intros p pn (pn0 & Hp & ->)%get_upd_Some Hd.
  assert (nd_children (if decide (r = p) then add_count c d pn0 else pn0) = nd_children pn0) as ->
    by (by case_decide).
  rewrite (Hsum p pn0 Hp).
  assert (Hd0 : is_data_node pn0 = false) by (by destruct (decide (r = p))).
  specialize (Hs p pn0 Hp Hd0). rewrite Z.add_assoc. apply i64_cong. unfold at_ref.
  destruct (decide (r = p)) as [->|Hne].
  - rewrite cnt_add_count, !decide_True by done. rewrite i64_add, <- Hs. f_equal. lia.
  - rewrite decide_False by congruence. rewrite <- Hs. f_equal. lia.
Qed.

(** What a change of counter [c] leaves alone. *)
Record same_but (c : counter) (t t' : tree) : Prop := {
  sb_next : t'.(t_next) = t.(t_next);
  sb_node : forall r nd, get_node t r = Some nd -> exists nd',
    get_node t' r = Some nd' /\ nd'.(nd_id) = nd.(nd_id) /\ nd'.(nd_type) = nd.(nd_type)
    /\ nd'.(nd_parent) = nd.(nd_parent) /\ nd'.(nd_children) = nd.(nd_children)
    /\ nd'.(nd_max_volume_id) = nd.(nd_max_volume_id)
    /\ forall k, k <> c -> cnt k nd' = cnt k nd;
  sb_none : forall r, get_node t r = None -> get_node t' r = None;
}.

Lemma same_but_refl c t : same_but c t t.
Proof. split; [done| |done]. intros r nd E. exists nd. by repeat split. Qed.

Lemma same_but_trans c t1 t2 t3 : same_but c t1 t2 -> same_but c t2 t3 -> same_but c t1 t3.
Proof.
  intros [A1 A2 A3] [B1 B2 B3]. split; [congruence| |auto].
  intros r nd Hr. destruct (A2 r nd Hr) as (n1 & H1 & K1 & K2 & K3 & K4 & K5 & K6).
  destruct (B2 r n1 H1) as (n2 & H2 & L1 & L2 & L3 & L4 & L5 & L6).
  exists n2. split; [done|]. repeat split; try congruence.
  intros k Hk. rewrite L6, K6 by done. done.
Qed.

Lemma same_but_upd c d r t : same_but c t (upd r (add_count c d) t).
Proof.
  split; [done| |].
  - intros x nd Hx. eexists. split; [by apply get_upd_of|]. case_decide; [|by repeat split].
    repeat split. intros k Hk. rewrite cnt_add_count. by rewrite decide_False by congruence.
  - intros x Hx. rewrite get_upd, Hx. by case_decide.
Qed.

Lemma same_but_get c t t' r nd' :
  same_but c t t' -> get_node t' r = Some nd' -> exists nd, get_node t r = Some nd
    /\ nd'.(nd_id) = nd.(nd_id) /\ nd'.(nd_type) = nd.(nd_type) /\ nd'.(nd_parent) = nd.(nd_parent)
    /\ nd'.(nd_children) = nd.(nd_children) /\ nd'.(nd_max_volume_id) = nd.(nd_max_volume_id)
    /\ forall k, k <> c -> cnt k nd' = cnt k nd.
Proof.
  intros [_ H2 H3] Hr. destruct (get_node t r) as [nd|] eqn:E; [|rewrite (H3 _ E) in Hr; done].
  destruct (H2 r nd E) as (nd2 & E2 & K). exists nd. assert (nd2 = nd') as -> by congruence. done.
Qed.

Lemma same_but_gsums c k t t' e : same_but c t t' -> k <> c -> gsums k t e -> gsums k t' e.
Proof.
  intros Hsb Hk Hs p pn' Hp Hd.
  destruct (same_but_get _ _ _ _ _ Hsb Hp) as (pn & Hp0 & _ & E2 & _ & E4 & _ & E6).
  rewrite E6 by done. rewrite E4, (sum_counts_ext k t).
  - apply (Hs p pn Hp0). unfold is_data_node in *. by rewrite <- E2.
  - intros id r _. unfold node_cnt. destruct (get_node t r) as [nd|] eqn:E.
    + destruct (sb_node _ _ _ Hsb r nd E) as (nd' & -> & _ & _ & _ & _ & _ & H). by apply H.
    + by rewrite (sb_none _ _ _ Hsb r E).
Qed.

Lemma same_but_shape c t t' : same_but c t t' -> shape t -> shape t'.
Proof.
  intros Hsb [H1 H2 H3 H4]. split.
  - intros p pn id x Hp Hc. destruct (same_but_get _ _ _ _ _ Hsb Hp) as (pn0 & Hp0 & _ & E2 & _ & E4 & _).
    rewrite E4 in Hc. destruct (H1 p pn0 id x Hp0 Hc) as (cn & Hx & A & B & D).
    destruct (sb_node _ _ _ Hsb x cn Hx) as (cn' & Hx' & F1 & F2 & F3 & _).
    exists cn'. unfold level in *. rewrite E2, F2, F1, F3. done.
  - intros x cn p Hx Hp. destruct (same_but_get _ _ _ _ _ Hsb Hx) as (cn0 & Hx0 & E1 & _ & E3 & _).
    rewrite E3 in Hp. destruct (H2 x cn0 p Hx0 Hp) as (pn & Hpn & Hin).
    destruct (sb_node _ _ _ Hsb p pn Hpn) as (pn' & Hp' & _ & _ & _ & F4 & _).
    exists pn'. by rewrite E1, F4.
  - intros p pn Hp. destruct (same_but_get _ _ _ _ _ Hsb Hp) as (pn0 & Hp0 & _ & _ & _ & E4 & _).
    rewrite E4. by apply (H3 p).
  - intros r nd Hr. destruct (same_but_get _ _ _ _ _ Hsb Hr) as (nd0 & Hr0 & _).
    rewrite (sb_next _ _ _ Hsb). by apply (H4 r nd0).
Qed.

Lemma adjust_up_same fuel : forall c d r t, same_but c t (adjust_up fuel c d r t).
Proof.
  induction fuel as [|fuel IH]; intros c d r t; simpl; [apply same_but_refl|].
  destruct (get_node t r) as [nd|]; [|apply same_but_refl].
  destruct (nd_parent nd); [|apply same_but_upd].
  eapply same_but_trans; [apply same_but_upd|apply IH].
Qed.

(** The whole walk settles the pending change. *)
Lemma adjust_up_gsums fuel : forall c d r nd t e,
  shape t -> get_node t r = Some nd -> gsums c t e -> 4 <= Z.of_nat fuel + level nd ->
  gsums c (adjust_up fuel c d r t) (fun x => e x - at_ref r d x).
Proof.
  induction fuel as [|fuel IH]; intros c d r nd t e Ht Hr Hs Hl; cbn [adjust_up].
  { pose proof (level_range nd). lia. }
  rewrite Hr. pose proof (adjust_step c d r nd t e Ht Hr Hs) as Hst. cbv zeta.
  destruct (nd_parent nd) as [p|] eqn:Ep.
  - destruct (sh_parent t Ht r nd p Hr Ep) as (pn & Hp & Hin).
    destruct (sh_child t Ht p pn _ r Hp Hin) as (cn & Hcn & _ & _ & Hlev).
    assert (cn = nd) as -> by congruence.
    set (pn' := if decide (r = p) then add_count c d pn else pn).
    assert (Hp' : get_node (upd r (add_count c d) t) p = Some pn') by (by apply get_upd_of).
    assert (level pn' = level pn) as Hl' by (unfold pn'; by case_decide).
    assert (Ht' : shape (upd r (add_count c d) t)) by auto with helyim.
    assert (Hf : 4 <= Z.of_nat fuel + level pn') by lia.
    eapply gsums_ext; [|exact (IH c d p pn' _ _ Ht' Hp' Hst Hf)].
    intros x xn _ _. cbv beta. unfold at_ref.
    destruct (decide (Some p = Some x)), (decide (x = p)); simplify_eq; lia.
  - eapply gsums_ext; [|exact Hst]. intros x xn _ _. cbv beta. rewrite decide_False by done. lia.
Qed.

(** ** The largest volume id grows towards the root *)

Definition max_ids (t : tree) : Prop := forall c cn p pn,
  get_node t c = Some cn -> cn.(nd_parent) = Some p -> get_node t p = Some pn ->
  cn.(nd_max_volume_id) <= pn.(nd_max_volume_id).

(** The children of [r] may exceed it up to [vid]. *)
Definition max_ids_but (t : tree) (r : nref) (vid : Z) : Prop := forall c cn p pn,
  get_node t c = Some cn -> cn.(nd_parent) = Some p -> get_node t p = Some pn ->
  cn.(nd_max_volume_id) <= pn.(nd_max_volume_id) \/ (p = r /\ cn.(nd_max_volume_id) <= vid).

Lemma max_ids_step t r nd vid :
  get_node t r = Some nd -> max_ids_but t r vid -> nd.(nd_max_volume_id) < vid ->
  let t' := upd r (with_max_volume_id vid) t in
  match nd.(nd_parent) with
  | Some p => max_ids_but t' p vid
  | None => max_ids t'
  end.
Proof.
  intros Hr Hm Hlt t'.
  assert (H : forall c cn p pn, get_node t' c = Some cn -> cn.(nd_parent) = Some p ->
    get_node t' p = Some pn ->
    cn.(nd_max_volume_id) <= pn.(nd_max_volume_id)
    \/ (nd.(nd_parent) = Some p /\ cn.(nd_max_volume_id) <= vid)).
  { intros c cn p pn (cn0 & Hc & ->)%get_upd_Some Hp (pn0 & Hpn & ->)%get_upd_Some.
    destruct (decide (r = c)) as [->|Hne].
    - right. simpl in *. assert (cn0 = nd) as -> by congruence. split; [done|lia].
    - left. destruct (Hm c cn0 p pn0 Hc Hp Hpn) as [H|[-> H]]; case_decide; simplify_eq; simpl; lia. }
  destruct (nd_parent nd) as [q|]; intros c cn p pn Hc Hp Hpn;
    destruct (H c cn p pn Hc Hp Hpn) as [?|[[= ->] ?]]; auto.
Qed.

Lemma max_ids_settle t r nd vid :
  get_node t r = Some nd -> max_ids_but t r vid -> vid <= nd.(nd_max_volume_id) -> max_ids t.
Proof.
  intros Hr Hm Hle c cn p pn Hc Hp Hpn. destruct (Hm c cn p pn Hc Hp Hpn) as [?|[-> ?]]; [done|].
  assert (pn = nd) as -> by congruence. lia.
Qed.

(** What raising the largest id leaves alone. *)
Record same_but_max (t t' : tree) : Prop := {
  sm_next : t'.(t_next) = t.(t_next);
  sm_node : forall r nd, get_node t r = Some nd -> exists m,
    get_node t' r = Some (with_max_volume_id m nd);
  sm_none : forall r, get_node t r = None -> get_node t' r = None;
}.

Lemma same_but_max_upd r v t : same_but_max t (upd r (with_max_volume_id v) t).
Proof.
  split; [done| |].
  - intros x nd Hx. rewrite get_upd, Hx. case_decide; [by exists v|].
    exists (nd_max_volume_id nd). by destruct nd.
  - intros x Hx. rewrite get_upd, Hx. by case_decide.
Qed.

Lemma same_but_max_refl t : same_but_max t t.
Proof. split; [done| |done]. intros r nd H. exists (nd_max_volume_id nd). by destruct nd. Qed.

Lemma same_but_max_trans t1 t2 t3 : same_but_max t1 t2 -> same_but_max t2 t3 -> same_but_max t1 t3.
Proof.
  intros [A1 A2 A3] [B1 B2 B3]. split; [congruence| |auto].
  intros r nd Hr. destruct (A2 r nd Hr) as [m Hm]. destruct (B2 r _ Hm) as [m' Hm']. by exists m'.
Qed.

Lemma adjust_max_id_spec fuel : forall vid r nd t,
  shape t -> get_node t r = Some nd -> max_ids_but t r vid -> 4 <= Z.of_nat fuel + level nd ->
  max_ids (adjust_max_id_up fuel vid r t)
  /\ (forall k e, gsums k t e -> gsums k (adjust_max_id_up fuel vid r t) e)
  /\ shape (adjust_max_id_up fuel vid r t)
  /\ same_but_max t (adjust_max_id_up fuel vid r t).
Proof.
  induction fuel as [|fuel IH]; intros vid r nd t Ht Hr Hm Hl; cbn [adjust_max_id_up].
  { pose proof (level_range nd). lia. }
  rewrite Hr. destruct (Z.ltb_spec (nd_max_volume_id nd) vid) as [Hlt|Hge].
  2:{ split; [by eapply max_ids_settle|]. auto using same_but_max_refl. }
  pose proof (max_ids_step t r nd vid Hr Hm Hlt) as Hst. cbv zeta in *.
  set (t' := upd r (with_max_volume_id vid) t) in *.
  assert (Hsh : shape t') by (unfold t'; auto with helyim).
  assert (Hg : forall k e, gsums k t e -> gsums k t' e)
    by (intros; unfold t'; apply gsums_upd; [apply keeps_max_id|by intros []|done]).
  assert (Hsm : same_but_max t t') by apply same_but_max_upd.
  destruct (nd_parent nd) as [p|] eqn:Ep; [|by auto].
  destruct (sh_parent t Ht r nd p Hr Ep) as (pn & Hp & Hin).
  destruct (sh_child t Ht p pn _ r Hp Hin) as (cn & Hcn & _ & _ & Hlev).
  assert (cn = nd) as -> by congruence.
  set (pn' := if decide (r = p) then with_max_volume_id vid pn else pn).
  assert (Hp' : get_node t' p = Some pn') by (by apply get_upd_of).
  assert (Hl' : 4 <= Z.of_nat fuel + level pn').
  { assert (level pn' = level pn) by (unfold pn'; by case_decide). lia. }
  destruct (IH vid p pn' t' Hsh Hp' Hst Hl') as (H1 & H2 & H3 & H4).
  split; [done|]. split; [auto|]. split; [done|]. by eapply same_but_max_trans.
Qed.

(** ** The invariant of the tree *)

Record tree_ok (t : tree) : Prop := {
  ok_shape : shape t;
  ok_sums : forall c, sums c t;
  ok_max : max_ids t;
}.

(** All the counters, with pending changes. *)
Definition all_gsums (t : tree) (e : counter -> nref -> Z) : Prop := forall k, gsums k t (e k).

(** Changing one counter. *)
Lemma adjust_spec c d r nd t e :
  shape t -> get_node t r = Some nd -> all_gsums t e -> 
  all_gsums (adjust c d r t) (fun k x => e k x - if decide (k = c) then at_ref r d x else 0)
  /\ shape (adjust c d r t) /\ same_but c t (adjust c d r t).
Proof.
  intros Ht Hr Hs. pose proof (adjust_up_same MAX_DEPTH c d r t) as Hsb.
  split; [|split; [by eapply same_but_shape|done]].
  intros k. destruct (decide (k = c)) as [->|Hne].
  - apply (adjust_up_gsums MAX_DEPTH c d r nd t (e c) Ht Hr (Hs c)).
    pose proof (level_range nd). unfold MAX_DEPTH. lia.
  - eapply gsums_ext; [|eapply same_but_gsums; [exact Hsb|done|exact (Hs k)]].
    intros x xn _ _. cbv beta. lia.
Qed.

Lemma same_but_max_ids c t t' : same_but c t t' -> max_ids t -> max_ids t'.
Proof.
  intros Hsb Hm x cn p pn Hx Hp Hpn.
  destruct (same_but_get _ _ _ _ _ Hsb Hx) as (cn0 & Hx0 & _ & _ & E3 & _ & E5 & _).
  destruct (same_but_get _ _ _ _ _ Hsb Hpn) as (pn0 & Hpn0 & _ & _ & _ & _ & F5 & _).
  rewrite E5, F5. apply (Hm x cn0 p pn0); congruence.
Qed.

(** On a data node, a change of a counter keeps the invariant. *)
Lemma adjust_ok c d r nd t :
  tree_ok t -> get_node t r = Some nd -> is_data_node nd = true -> tree_ok (adjust c d r t).
Proof.
  intros [H1 H2 H3] Hr Hd. destruct (adjust_spec c d r nd t (fun _ _ => 0) H1 Hr H2) as (G1 & G2 & G3).
  split; [done| |by eapply same_but_max_ids].
  intros k. eapply gsums_ext; [|exact (G1 k)]. intros p pn Hp Hpd. cbv beta. unfold at_ref.
  destruct (decide (k = c)); [|lia]. case_decide; [subst|lia].
  destruct (same_but_get _ _ _ _ _ G3 Hp) as (pn0 & Hp0 & _ & Ht & _).
  assert (pn0 = nd) as -> by congruence. unfold is_data_node in *. rewrite Ht in Hpd. congruence.
Qed.

Lemma adjust_max_id_ok vid r nd t :
  tree_ok t -> get_node t r = Some nd ->
  tree_ok (adjust_max_volume_id vid r t) /\ same_but_max t (adjust_max_volume_id vid r t).
Proof.
  intros [H1 H2 H3] Hr.
  destruct (adjust_max_id_spec MAX_DEPTH vid r nd t H1 Hr) as (G1 & G2 & G3 & G4).
  - intros c cn p pn Hc Hp Hpn. left. by apply (H3 c cn p pn).
  - pose proof (level_range nd). unfold MAX_DEPTH. lia.
  - split; [|done]. split; [done| |done]. intros k. apply (G2 k), H2.
Qed.

(** ** Linking and unlinking *)

Lemma find_child_In id cs r : find_child id cs = Some r -> (id, r) ∈ cs.
Proof.
  induction cs as [|[k x] cs IH]; simpl; [done|]. case_bool_decide; [intros [= ->]; subst; left|].
  intros Hf. right. by apply IH.
Qed.

Lemma find_child_None id cs : find_child id cs = None -> id ∉ map fst cs.
Proof.
  induction cs as [|[k x] cs IH]; simpl; [intros _; apply not_elem_of_nil|].
  case_bool_decide; [done|]. intros Hn. apply not_elem_of_cons. auto.
Qed.

(** Attaching [c] below [p]: the last two steps of [link_child_node]. *)
Definition attach (p c : nref) (id : string) (t : tree) : tree :=
  upd p (fun nd => with_children (nd.(nd_children) ++ [(id, c)]) nd) (upd c (with_parent (Some p)) t).

Lemma get_attach p c id t x nd :
  get_node t x = Some nd ->
  exists nd', get_node (attach p c id t) x = Some nd'
    /\ nd'.(nd_id) = nd.(nd_id) /\ nd'.(nd_type) = nd.(nd_type) /\ nd'.(nd_counts) = nd.(nd_counts)
    /\ nd'.(nd_max_volume_id) = nd.(nd_max_volume_id)
    /\ nd'.(nd_parent) = (if decide (x = c) then Some p else nd.(nd_parent))
    /\ nd'.(nd_children) = (if decide (x = p) then nd.(nd_children) ++ [(id, c)] else nd.(nd_children)).
Proof.
  intros Hx. unfold attach. eexists. split; [apply get_upd_of, get_upd_of, Hx|].
  destruct (decide (p = x)), (decide (c = x)), (decide (x = c)), (decide (x = p)); simplify_eq; done.
Qed.

Lemma get_attach_inv p c id t x nd' :
  get_node (attach p c id t) x = Some nd' -> exists nd, get_node t x = Some nd.
Proof. intros (nd1 & (nd & H & _)%get_upd_Some & _)%get_upd_Some. eauto. Qed.

Lemma node_cnt_attach k p c id t x : node_cnt k (attach p c id t) x = node_cnt k t x.
Proof.
  unfold node_cnt. destruct (get_node t x) as [nd|] eqn:E.
  - destruct (get_attach p c id t x nd E) as (nd' & -> & _ & _ & Hc & _). unfold cnt. by rewrite Hc.
  - destruct (get_node (attach p c id t) x) eqn:E2; [|done]. apply get_attach_inv in E2 as [nd E2]. congruence.
Qed.

Lemma attach_shape p c pn cn t :
  shape t -> get_node t p = Some pn -> get_node t c = Some cn -> cn.(nd_parent) = None ->
  level pn = level cn + 1 -> cn.(nd_id) ∉ map fst pn.(nd_children) ->
  shape (attach p c cn.(nd_id) t).
Proof.
  intros Ht Hp Hc Hcp Hl Hn. set (id := nd_id cn).
  assert (Hpc : p <> c) by (intros ->; assert (pn = cn) by congruence; subst; lia).
  assert (Hlev : forall x xn xn', get_node t x = Some xn ->
    get_node (attach p c id t) x = Some xn' -> level xn' = level xn).
  { intros x xn xn' Hx Hx'. destruct (get_attach p c id t x xn Hx) as (y & Hy & _ & E & _).
    assert (y = xn') as -> by congruence. unfold level. by rewrite E. }
  split.
  - intros q qn' i x Hq' Hin. destruct (get_attach_inv _ _ _ _ _ _ Hq') as [qn Hq].
    destruct (get_attach p c id t q qn Hq) as (qn2 & Hq2 & _ & _ & _ & _ & _ & Hch).
    assert (qn2 = qn') as -> by congruence. rewrite Hch in Hin. rewrite (Hlev q qn qn' Hq Hq').
    assert ((i, x) ∈ nd_children qn \/ (q = p /\ i = id /\ x = c)) as [Hin'|(-> & -> & ->)].
    { case_decide; [|by left]. apply elem_of_app in Hin as [?|Hs]; [by left|].
      apply list_elem_of_singleton in Hs. simplify_eq. by right. }
    + destruct (sh_child t Ht q qn i x Hq Hin') as (xn & Hx & E1 & E2 & E3).
      destruct (get_attach p c id t x xn Hx) as (xn' & Hx' & F1 & _ & _ & _ & F5 & _).
      exists xn'. rewrite F1, F5, (Hlev x xn xn' Hx Hx'), decide_False by congruence. done.
    + destruct (get_attach p c id t c cn Hc) as (cn' & Hc' & F1 & _ & _ & _ & F5 & _).
      exists cn'. rewrite F1, F5, (Hlev c cn cn' Hc Hc'), decide_True by done.
      assert (qn = pn) as -> by congruence. done.
  - intros x xn' q Hx' Hq. destruct (get_attach_inv _ _ _ _ _ _ Hx') as [xn Hx].
    destruct (get_attach p c id t x xn Hx) as (y & Hy & F1 & _ & _ & _ & F5 & _).
    assert (y = xn') as -> by congruence. rewrite F5 in Hq. rewrite F1. case_decide; simplify_eq.
    + destruct (get_attach q c id t q pn Hp) as (pn' & Hp' & _ & _ & _ & _ & _ & G6).
      exists pn'. split; [done|]. rewrite G6, decide_True by done. apply elem_of_app. right.
      apply list_elem_of_singleton. done.
    + destruct (sh_parent t Ht x xn q Hx Hq) as (qn & Hqn & Hin).
      destruct (get_attach p c id t q qn Hqn) as (qn' & Hq' & _ & _ & _ & _ & _ & G6).
      exists qn'. split; [done|]. rewrite G6. case_decide; [apply elem_of_app; by left|done].
  - intros q qn' Hq'. destruct (get_attach_inv _ _ _ _ _ _ Hq') as [qn Hq].
    destruct (get_attach p c id t q qn Hq) as (qn2 & Hq2 & _ & _ & _ & _ & _ & Hch).
    assert (qn2 = qn') as -> by congruence. rewrite Hch. pose proof (sh_keys t Ht q qn Hq).
    case_decide; [|done]. subst. assert (qn = pn) as -> by congruence.
    rewrite map_app. apply NoDup_app. split; [done|]. split; [|apply NoDup_singleton].
    intros i Hi Hi2. apply list_elem_of_singleton in Hi2. by subst.
  - intros x xn' Hx'. destruct (get_attach_inv _ _ _ _ _ _ Hx') as [xn Hx]. by apply (sh_next t Ht x xn).
Qed.

Lemma attach_gsums k p c pn cn t e :
  get_node t p = Some pn -> get_node t c = Some cn ->
  gsums k t e -> gsums k (attach p c cn.(nd_id) t) (fun x => e x + at_ref p (cnt k cn) x).
Proof.
  intros Hp Hc Hs q qn' Hq' Hd. destruct (get_attach_inv _ _ _ _ _ _ Hq') as [qn Hq].
  destruct (get_attach p c (nd_id cn) t q qn Hq) as (y & Hy & _ & Ety & Ec & _ & _ & Hch).
  assert (y = qn') as -> by congruence.
  assert (Hd0 : is_data_node qn = false) by (unfold is_data_node in *; by rewrite <- Ety).
  specialize (Hs q qn Hq Hd0). unfold cnt in *. rewrite Ec, Hch.
  rewrite (sum_counts_ext k t) by (intros; apply node_cnt_attach). unfold at_ref.
  case_decide; [subst|by rewrite Z.add_0_r]. rewrite sum_counts_app. simpl.
  unfold node_cnt. rewrite Hc. fold (cnt k cn). rewrite Z.add_0_r, Z.add_assoc.
  by apply i64_cong.
Qed.

(** A walk from [p] leaves the nodes below [p]'s level alone. *)
Lemma adjust_up_low fuel : forall k d p pn t x xn,
  shape t -> get_node t p = Some pn -> get_node t x = Some xn -> level xn < level pn ->
  get_node (adjust_up fuel k d p t) x = Some xn.
Proof.
  induction fuel as [|fuel IH]; intros k d p pn t x xn Ht Hp Hx Hl; cbn [adjust_up]; [done|].
  rewrite Hp. assert (Hne : p <> x) by (intros ->; assert (pn = xn) by congruence; subst; lia).
  assert (Hx' : get_node (upd p (add_count k d) t) x = Some xn) by (by rewrite get_upd, decide_False).
  destruct (nd_parent pn) as [q|] eqn:Eq; [|done].
  destruct (sh_parent t Ht p pn q Hp Eq) as (qn & Hq & Hin).
  destruct (sh_child t Ht q qn _ p Hq Hin) as (y & Hy & _ & _ & Hlev). assert (y = pn) as -> by congruence.
  eapply (IH k d q); [auto with helyim|by apply get_upd_of|done|].
  assert (level (if decide (p = q) then add_count k d qn else qn) = level qn) as -> by (by case_decide). lia.
Qed.

Lemma adjust_max_id_low fuel : forall v p pn t x xn,
  shape t -> get_node t p = Some pn -> get_node t x = Some xn -> level xn < level pn ->
  get_node (adjust_max_id_up fuel v p t) x = Some xn.
Proof.
  induction fuel as [|fuel IH]; intros v p pn t x xn Ht Hp Hx Hl; cbn [adjust_max_id_up]; [done|].
  rewrite Hp. destruct (_ <? _); [|done].
  assert (Hne : p <> x) by (intros ->; assert (pn = xn) by congruence; subst; lia).
  assert (Hx' : get_node (upd p (with_max_volume_id v) t) x = Some xn) by (by rewrite get_upd, decide_False).
  destruct (nd_parent pn) as [q|] eqn:Eq; [|done].
  destruct (sh_parent t Ht p pn q Hp Eq) as (qn & Hq & Hin).
  destruct (sh_child t Ht q qn _ p Hq Hin) as (y & Hy & _ & _ & Hlev). assert (y = pn) as -> by congruence.
  eapply (IH v q); [auto with helyim|by apply get_upd_of|done|].
  assert (level (if decide (p = q) then with_max_volume_id v qn else qn) = level qn) as ->
    by (by case_decide). lia.
Qed.

Lemma same_but_max_shape t t' : same_but_max t t' -> forall r nd', get_node t' r = Some nd' ->
  exists nd m, get_node t r = Some nd /\ nd' = with_max_volume_id m nd.
Proof.
  intros [_ H2 H3] r nd' Hr. destruct (get_node t r) as [nd|] eqn:E; [|rewrite (H3 r E) in Hr; done].
  destruct (H2 r nd E) as [m Hm]. exists nd, m. split; [done|congruence].
Qed.

Lemma adjust_max_id_ge v p pn t :
  shape t -> get_node t p = Some pn ->
  exists pn', get_node (adjust_max_volume_id v p t) p = Some pn' /\ v <= pn'.(nd_max_volume_id)
              /\ level pn' = level pn /\ pn'.(nd_children) = pn.(nd_children).
Proof.
  intros Ht Hp. unfold adjust_max_volume_id, MAX_DEPTH. cbn [adjust_max_id_up]. rewrite Hp.
  destruct (Z.ltb_spec (nd_max_volume_id pn) v); [|by exists pn].
  set (t1 := upd p (with_max_volume_id v) t).
  assert (H1 : get_node t1 p = Some (with_max_volume_id v pn)) by (unfold t1; by rewrite get_upd, decide_True, Hp by done).
  exists (with_max_volume_id v pn).
  split; [|done]. destruct (nd_parent pn) as [q|] eqn:Eq; [|done].
  destruct (sh_parent t Ht p pn q Hp Eq) as (qn & Hq & Hin).
  destruct (sh_child t Ht q qn _ p Hq Hin) as (y & Hy & _ & _ & Hlev). assert (y = pn) as -> by congruence.
  assert (Hq1 : get_node t1 q = Some (if decide (p = q) then with_max_volume_id v qn else qn)) by (by apply get_upd_of).
  fold (adjust_max_id_up 3 v q t1).
  change (get_node (adjust_max_id_up 3 v q t1) p = Some (with_max_volume_id v pn)).
  apply (adjust_max_id_low 3 v q _ t1 p _ ltac:(unfold t1; auto with helyim) Hq1 H1).
  assert (level (if decide (p = q) then with_max_volume_id v qn else qn) = level qn) as ->
    by (by case_decide).
  change (level (with_max_volume_id v pn)) with (level pn). lia.
Qed.

(** The tree while [c] is being linked below [p]: [m] is a lower bound of the
    largest id of [p]. *)
Record linking (t : tree) (p c : nref) (pn cn : node) (m : Z) (e : counter -> nref -> Z) : Prop := {
  lk_shape : shape t;
  lk_sums : all_gsums t e;
  lk_max : max_ids t;
  lk_p : exists pn', get_node t p = Some pn' /\ level pn' = level pn
                     /\ pn'.(nd_children) = pn.(nd_children) /\ m <= pn'.(nd_max_volume_id);
  lk_c : get_node t c = Some cn;
}.

Lemma linking_adjust t p c pn cn m e k d :
  linking t p c pn cn m e -> level cn < level pn ->
  linking (adjust k d p t) p c pn cn m (fun j x => e j x - if decide (j = k) then at_ref p d x else 0).
Proof.
  intros [H1 H2 H3 (pn' & Hp & Hl & Hch & Hm) H5] Hlt.
  destruct (adjust_spec k d p pn' t e H1 Hp H2) as (G1 & G2 & G3).
  split; [done|done|by eapply same_but_max_ids| |].
  - destruct (sb_node _ _ _ G3 p pn' Hp) as (pn2 & Hp2 & _ & E2 & _ & E4 & E5 & _).
    exists pn2. unfold level in *. rewrite E2, E4, E5. done.
  - eapply (adjust_up_low MAX_DEPTH k d p pn'); [done..|lia].
Qed.

Lemma linking_max t p c pn cn m e v :
  linking t p c pn cn m e -> level cn < level pn ->
  linking (adjust_max_volume_id v p t) p c pn cn v e.
Proof.
  intros [H1 H2 H3 (pn' & Hp & Hl & Hch & Hm) H5] Hlt.
  destruct (adjust_max_id_spec MAX_DEPTH v p pn' t H1 Hp) as (G1 & G2 & G3 & G4).
  { intros x xn q qn Hx Hq Hqn. left. by apply (H3 x xn q qn). }
  { pose proof (level_range pn'). unfold MAX_DEPTH. lia. }
  split; [done|intros k; apply (G2 k), H2|done| |].
  - destruct (adjust_max_id_ge v p pn' t H1 Hp) as (pn2 & Hp2 & Hv & E1 & E2).
    exists pn2. rewrite E1, E2. done.
  - eapply (adjust_max_id_low MAX_DEPTH v p pn'); [done..|lia].
Qed.

Lemma attach_max p c pn cn t :
  max_ids t -> get_node t p = Some pn -> get_node t c = Some cn ->
  cn.(nd_max_volume_id) <= pn.(nd_max_volume_id) -> max_ids (attach p c cn.(nd_id) t).
Proof.
  intros Hm Hp Hc Hle x xn' q qn' Hx' Hq Hqn'.
  destruct (get_attach_inv _ _ _ _ _ _ Hx') as [xn Hx]. destruct (get_attach_inv _ _ _ _ _ _ Hqn') as [qn Hqn].
  destruct (get_attach p c (nd_id cn) t x xn Hx) as (y & Hy & _ & _ & _ & E4 & E5 & _).
  destruct (get_attach p c (nd_id cn) t q qn Hqn) as (z & Hz & _ & _ & _ & F4 & _).
  assert (y = xn') as -> by congruence. assert (z = qn') as -> by congruence.
  rewrite E4, F4. rewrite E5 in Hq. case_decide; simplify_eq; [done|]. by apply (Hm x xn q qn).
Qed.

(** The walks of [link_child_node] up the tree: what is added above is what the
    child brings, and the child itself is not touched. *)
Lemma link_walks p c pn cn t : tree_ok t -> get_node t p = Some pn -> get_node t c = Some cn -> level cn < level pn ->
  linking (adjust_active_volume_count (cnt CActive cn) p (adjust_ec_shard_count (cnt CEcShard cn) p
    (adjust_volume_count (cnt CVolume cn) p (adjust_max_volume_id (nd_max_volume_id cn) p
      (adjust_max_volume_count (cnt CMax cn) p t))))) p c pn cn (nd_max_volume_id cn)
    (fun k x => 0 - (if decide (k = CMax) then at_ref p (cnt CMax cn) x else 0)
       - (if decide (k = CVolume) then at_ref p (cnt CVolume cn) x else 0)
       - (if decide (k = CEcShard) then at_ref p (cnt CEcShard cn) x else 0)
       - (if decide (k = CActive) then at_ref p (cnt CActive cn) x else 0)).
Proof.
  intros [H1 H2 H3] Hp Hc Hlt.
  assert (L : linking t p c pn cn (nd_max_volume_id pn) (fun _ _ => 0))
    by (split; [done|done|done|by exists pn|done]).
  apply (linking_adjust _ _ _ _ _ _ _ CMax (cnt CMax cn)) in L; [|done].
  apply (linking_max _ _ _ _ _ _ _ (nd_max_volume_id cn)) in L; [|done].
  apply (linking_adjust _ _ _ _ _ _ _ CVolume (cnt CVolume cn)) in L; [|done].
  apply (linking_adjust _ _ _ _ _ _ _ CEcShard (cnt CEcShard cn)) in L; [|done].
  by apply (linking_adjust _ _ _ _ _ _ _ CActive (cnt CActive cn)) in L.
Qed.

(** Linking a detached node below a node of the next level keeps the
    invariant. *)
Lemma link_ok p c pn cn t :
  tree_ok t -> get_node t p = Some pn -> get_node t c = Some cn -> cn.(nd_parent) = None ->
  level pn = level cn + 1 -> tree_ok (link_child_node p c t).
Proof.
  intros Hok Hp Hc Hcp Hl. unfold link_child_node. rewrite Hp, Hc.
  destruct (find_child (nd_id cn) (nd_children pn)) eqn:Ef; [done|]. apply find_child_None in Ef.
  assert (Hlt : level cn < level pn) by lia. pose proof (link_walks p c pn cn t Hok Hp Hc Hlt) as L. cbv zeta.
  set (t5 := adjust_active_volume_count _ _ _) in *.
  fold (attach p c (nd_id cn) t5). destruct L as [L1 L2 L3 (pn' & Hp5 & Hl5 & Hch5 & Hm5) L5].
  split.
  - eapply attach_shape; [done|exact Hp5|exact L5|done|lia|by rewrite Hch5].
  - intros k. eapply gsums_ext; [|exact (attach_gsums k p c pn' cn t5 _ Hp5 L5 (L2 k))].
    intros x xn _ _. cbv beta. destruct k; repeat case_decide; done || lia.
  - by apply (attach_max p c pn').
Qed.

(** The linked node has its parent, and is otherwise as it was. *)
Lemma link_get p c pn cn t : tree_ok t -> get_node t p = Some pn -> get_node t c = Some cn -> level cn < level pn ->
  find_child cn.(nd_id) pn.(nd_children) = None ->
  get_node (link_child_node p c t) c = Some (with_parent (Some p) cn).
Proof.
  intros Hok Hp Hc Hlt Hf. pose proof (lk_c _ _ _ _ _ _ _ (link_walks p c pn cn t Hok Hp Hc Hlt)) as H5.
  assert (p <> c) by (intros ->; assert (pn = cn) by congruence; subst; lia).
  unfold link_child_node. rewrite Hp, Hc, Hf. cbv zeta. rewrite get_upd, decide_False by done.
  by rewrite get_upd, decide_True, H5 by done.
Qed.

(** Allocating a detached leaf. *)
Lemma alloc_ok nd t :
  tree_ok t -> nd.(nd_parent) = None -> nd.(nd_children) = [] ->
  (forall c, is_data_node nd = false -> cnt c nd = 0) ->
  let '(t', r) := alloc nd t in
  tree_ok t' /\ get_node t' r = Some nd /\ forall x, x <> r -> get_node t' x = get_node t x.
Proof.
  intros [[S1 S2 S3 S4] H2 H3] Hp Hc H0. unfold alloc.
  set (t' := Tree _ _). set (r := t_next t).
  assert (Hr : get_node t' r = Some nd) by (unfold get_node, t'; cbn [t_nodes]; by rewrite lookup_insert_eq).
  assert (Hx : forall x, x <> r -> get_node t' x = get_node t x)
    by (intros x Hx; unfold get_node, t'; cbn [t_nodes]; by rewrite lookup_insert_ne).
  assert (Hfr : forall x xn, get_node t x = Some xn -> x <> r).
  { intros x xn Hxn ->. apply S4 in Hxn. unfold r in Hxn. lia. }
  split; [|done]. split; [split| |].
  - intros p pn id c Hpn Hin. destruct (decide (p = r)) as [->|Hne].
    + assert (pn = nd) as -> by congruence. rewrite Hc in Hin. by apply elem_of_nil in Hin.
    + rewrite Hx in Hpn by done. destruct (S1 p pn id c Hpn Hin) as (cn & Hcn & K).
      exists cn. rewrite Hx by (by eapply Hfr). done.
  - intros c cn p Hcn Hcp. destruct (decide (c = r)) as [->|Hne]; [congruence|].
    rewrite Hx in Hcn by done. destruct (S2 c cn p Hcn Hcp) as (pn & Hpn & Hin).
    exists pn. rewrite Hx by (by eapply Hfr). done.
  - intros p pn Hpn. destruct (decide (p = r)) as [->|Hne].
    + assert (pn = nd) as -> by congruence. rewrite Hc. constructor.
    + rewrite Hx in Hpn by done. by apply (S3 p).
  - intros x xn Hxn. unfold t'. cbn [t_next]. destruct (decide (x = r)) as [->|Hne]; [unfold r; lia|].
    rewrite Hx in Hxn by done. apply S4 in Hxn. lia.
  - intros k p pn Hpn Hd. destruct (decide (p = r)) as [->|Hne].
    + assert (pn = nd) as -> by congruence. rewrite Hc, H0 by done. done.
    + rewrite Hx in Hpn by done. rewrite (H2 k p pn Hpn Hd). f_equal. symmetry.
      apply sum_counts_ext. intros id x Hin. unfold node_cnt.
      destruct (S1 p pn id x Hpn Hin) as (xn & Hxn & _). rewrite Hx by (by eapply Hfr). done.
  - intros c cn p pn Hcn Hcp Hpn. destruct (decide (c = r)) as [->|Hne]; [congruence|].
    rewrite Hx in Hcn by done. destruct (S2 c cn p Hcn Hcp) as (pn0 & Hpn0 & _).
    rewrite Hx in Hpn by (by eapply Hfr). by apply (H3 c cn p pn).
Qed.

Lemma gsums_cong c t e e' :
  (forall p, i64 (e' p) = i64 (e p)) -> gsums c t e -> gsums c t e'.
Proof.
  intros H Hs p pn Hp Hd. rewrite <- (Hs p pn Hp Hd). rewrite !(Z.add_comm (cnt c pn)).
  by apply i64_cong.
Qed.

(** Detaching [c] from [p]: the first two steps of [unlink_child_node]. *)
Definition detach (p c : nref) (id : string) (t : tree) : tree :=
  upd c (with_parent None) (upd p (fun nd => with_children (remove_child id nd.(nd_children)) nd) t).

Lemma get_detach p c id t x nd :
  get_node t x = Some nd ->
  exists nd', get_node (detach p c id t) x = Some nd'
    /\ nd'.(nd_id) = nd.(nd_id) /\ nd'.(nd_type) = nd.(nd_type) /\ nd'.(nd_counts) = nd.(nd_counts)
    /\ nd'.(nd_max_volume_id) = nd.(nd_max_volume_id)
    /\ nd'.(nd_parent) = (if decide (x = c) then None else nd.(nd_parent))
    /\ nd'.(nd_children) = (if decide (x = p) then remove_child id nd.(nd_children) else nd.(nd_children)).
Proof.
  intros Hx. unfold detach. eexists. split; [apply get_upd_of, get_upd_of, Hx|].
  destruct (decide (p = x)), (decide (c = x)), (decide (x = c)), (decide (x = p)); simplify_eq; done.
Qed.

Lemma get_detach_inv p c id t x nd' :
  get_node (detach p c id t) x = Some nd' ->
  exists nd, get_node t x = Some nd /\ nd'.(nd_id) = nd.(nd_id) /\ nd'.(nd_type) = nd.(nd_type)
    /\ nd'.(nd_counts) = nd.(nd_counts) /\ nd'.(nd_max_volume_id) = nd.(nd_max_volume_id)
    /\ nd'.(nd_parent) = (if decide (x = c) then None else nd.(nd_parent))
    /\ nd'.(nd_children) = (if decide (x = p) then remove_child id nd.(nd_children) else nd.(nd_children)).
Proof.
  intros H. assert (exists nd, get_node t x = Some nd) as [nd Hx]
    by (apply get_upd_Some in H as (nd1 & (nd & H & _)%get_upd_Some & _); eauto).
  destruct (get_detach p c id t x nd Hx) as (y & Hy & K). exists nd.
  assert (y = nd') as -> by congruence. done.
Qed.

Lemma remove_child_In id i x cs : (i, x) ∈ remove_child id cs <-> i <> id /\ (i, x) ∈ cs.
Proof. unfold remove_child. by rewrite list_elem_of_filter. Qed.

Lemma remove_child_NoDup id cs : NoDup (map fst cs) -> NoDup (map fst (remove_child id cs)).
Proof.
  intros H. unfold remove_child. induction cs as [|[i x] cs IH]; [done|].
  simpl in H. apply NoDup_cons in H as [H1 H2]. rewrite filter_cons. case_decide; [|auto].
  simpl. apply NoDup_cons. split; [|auto]. intros ([j y] & E & Hin)%list_elem_of_fmap. simpl in E. subst.
  apply H1. apply list_elem_of_filter in Hin as [_ Hin]. apply list_elem_of_fmap. by exists (j, y).
Qed.

Lemma sum_remove_child k t id c cs :
  NoDup (map fst cs) -> (id, c) ∈ cs ->
  sum_counts k t (remove_child id cs) = sum_counts k t cs - node_cnt k t c.
Proof.
  unfold remove_child. induction cs as [|[i x] cs IH]; intros Hn Hin; [by apply elem_of_nil in Hin|].
  simpl in Hn. apply NoDup_cons in Hn as [Hn1 Hn2]. rewrite filter_cons. cbn [fst].
  apply elem_of_cons in Hin as [[= -> ->]|Hin].
  - rewrite decide_False by naive_solver. simpl.
    assert (filter (fun e : string * nref => e.1 <> i) cs = cs) as ->; [|lia].
    clear IH. induction cs as [|[j y] cs IH]; [done|]. rewrite filter_cons. simpl in Hn1.
    apply not_elem_of_cons in Hn1 as [Hne Hn1]. rewrite decide_True by (simpl; congruence).
    f_equal. apply IH; [done|]. by apply NoDup_cons in Hn2 as [_ ?].
  - rewrite decide_True. 2:{ simpl. intros ->. apply Hn1. apply list_elem_of_fmap. by exists (id, c). }
    simpl. rewrite IH by done. lia.
Qed.

Lemma node_cnt_detach k p c id t x : node_cnt k (detach p c id t) x = node_cnt k t x.
Proof.
  unfold node_cnt. destruct (get_node t x) as [nd|] eqn:E.
  - destruct (get_detach p c id t x nd E) as (nd' & -> & _ & _ & Hc & _). unfold cnt. by rewrite Hc.
  - destruct (get_node (detach p c id t) x) eqn:E2; [|done]. apply get_detach_inv in E2 as [nd [E2 _]]. congruence.
Qed.

Lemma detach_shape p c pn id t :
  shape t -> get_node t p = Some pn -> (id, c) ∈ pn.(nd_children) -> shape (detach p c id t).
Proof.
  intros Ht Hp Hin0. pose proof Ht as [S1 S2 S3 S4].
  destruct (S1 p pn id c Hp Hin0) as (cn & Hc & Hcp & Hcid & _).
  split.
  - intros q qn' i x (qn & Hq & _ & Et & _ & _ & _ & Hch)%get_detach_inv Hin.
    assert (Hin' : (i, x) ∈ nd_children qn /\ (q = p -> i <> id)).
    { rewrite Hch in Hin. case_decide; [|done]. apply remove_child_In in Hin as [? ?]. done. }
    destruct Hin' as [Hin' Hi]. destruct (S1 q qn i x Hq Hin') as (xn & Hx & E1 & E2 & E3).
    assert (x <> c).
    { intros ->. assert (xn = cn) as -> by congruence. apply Hi; congruence. }
    destruct (get_detach p c id t x xn Hx) as (xn' & Hx' & F1 & F2 & _ & _ & F5 & _).
    exists xn'. unfold level in *. rewrite Et, F1, F2, F5, decide_False by done. done.
  - intros x xn' q (xn & Hx & F1 & _ & _ & _ & F5 & _)%get_detach_inv Hq. rewrite F5 in Hq. rewrite F1.
    destruct (decide (x = c)) as [->|Hne]; [done|].
    destruct (S2 x xn q Hx Hq) as (qn & Hqn & Hin).
    destruct (get_detach p c id t q qn Hqn) as (qn' & Hq' & _ & _ & _ & _ & _ & G6).
    exists qn'. split; [done|]. rewrite G6. case_decide; [|done]. subst. apply remove_child_In.
    split; [|done]. intros E. apply Hne. assert (qn = pn) as -> by congruence.
    pose proof (shape_refs t p pn Ht Hp) as _. rewrite E in Hin.
    pose proof (S3 p pn Hp) as Hk. clear -Hin Hin0 Hk.
    induction (nd_children pn) as [|[i y] cs IH]; [by apply elem_of_nil in Hin|].
    simpl in Hk. apply NoDup_cons in Hk as [Hk1 Hk2].
    apply elem_of_cons in Hin as [[= <- <-]|Hin]; apply elem_of_cons in Hin0 as [[= <-]|Hin0]; auto;
      exfalso; apply Hk1; apply list_elem_of_fmap; eexists (_, _); split; try done; done.
  - intros q qn' (qn & Hq & _ & _ & _ & _ & _ & Hch)%get_detach_inv. rewrite Hch.
    pose proof (S3 q qn Hq). case_decide; [by apply remove_child_NoDup|done].
  - intros x xn' (xn & Hx & _)%get_detach_inv. by apply (S4 x xn).
Qed.

Lemma detach_gsums k p c pn cn id t :
  shape t -> get_node t p = Some pn -> (id, c) ∈ pn.(nd_children) -> get_node t c = Some cn ->
  sums k t -> gsums k (detach p c id t) (at_ref p (- cnt k cn)).
Proof.
  intros Ht Hp Hin Hc Hs q qn' (qn & Hq & _ & Et & Ec & _ & _ & Hch)%get_detach_inv Hd.
  assert (Hd0 : is_data_node qn = false) by (unfold is_data_node in *; by rewrite <- Et).
  specialize (Hs q qn Hq Hd0). rewrite Z.add_0_r in Hs. unfold cnt in *. rewrite Ec, Hch.
  rewrite (sum_counts_ext k t) by (intros; apply node_cnt_detach). unfold at_ref.
  case_decide; [subst|by rewrite Z.add_0_r]. assert (qn = pn) as -> by congruence.
  rewrite (sum_remove_child k t id c) by (done || by apply (sh_keys t Ht p)).
  unfold node_cnt. rewrite Hc. unfold cnt. rewrite <- Z.add_opp_r. by apply i64_cong.
Qed.

(** Unlinking a child keeps the invariant of the tree that remains and of the
    subtree that was cut off. *)
Lemma unlink_ok p id t : tree_ok t -> tree_ok (unlink_child_node p id t).
Proof.
  intros [H1 H2 H3]. unfold unlink_child_node.
  destruct (get_node t p) as [pn|] eqn:Hp; [|done].
  destruct (find_child id (nd_children pn)) as [c|] eqn:Ef; [|done].
  apply find_child_In in Ef. destruct (get_node t c) as [cn|] eqn:Hc; [|done].
  destruct (sh_child t H1 p pn id c Hp Ef) as (cn' & Hc' & _ & _ & Hl).
  assert (cn' = cn) as -> by congruence. cbv zeta. fold (detach p c id t).
  set (d := detach p c id t). assert (Hd : shape d) by (by apply (detach_shape p c pn)).
  destruct (get_detach p c id t p pn Hp) as (pd & Hpd & _ & Etp & _ & _ & _ & Hchp).
  destruct (get_detach p c id t c cn Hc) as (cd & Hcd & _ & Etc & _).
  assert (Hlt : level cd < level pd) by (unfold level in *; rewrite Etp, Etc; lia).
  assert (L : linking d p c pd cd (nd_max_volume_id pd) (fun k => at_ref p (- cnt k cn))).
  { split; [done| | |by exists pd|done].
    - intros k. by apply (detach_gsums k p c pn cn id).
    - intros x xn' q qn' (xn & Hx & _ & _ & _ & Em & Ep & _)%get_detach_inv Hq
        (qn & Hqn & _ & _ & _ & Fm & _)%get_detach_inv.
      rewrite Em, Fm. rewrite Ep in Hq. case_decide; [done|]. by apply (H3 x xn q qn). }
  apply (linking_adjust _ _ _ _ _ _ _ CMax (i64 (- cnt CMax cn))) in L; [|done].
  apply (linking_adjust _ _ _ _ _ _ _ CVolume (i64 (- cnt CVolume cn))) in L; [|done].
  apply (linking_adjust _ _ _ _ _ _ _ CEcShard (i64 (- cnt CEcShard cn))) in L; [|done].
  apply (linking_adjust _ _ _ _ _ _ _ CActive (i64 (- cnt CActive cn))) in L; [|done].
  destruct L as [L1 L2 L3 _ _]. split; [done| |done].
  intros k. eapply gsums_cong; [|exact (L2 k)]. intros x. unfold at_ref.
  destruct k; repeat case_decide; try done; int_solve.
Qed.

(** ** Volumes of a data node *)

Definition is_dn (t : tree) (r : nref) : Prop :=
  exists nd, get_node t r = Some nd /\ is_data_node nd = true.

Lemma set_volumes_ok r vs t : tree_ok t -> tree_ok (upd r (set_volumes vs) t).
Proof.
  intros [H1 H2 H3]. split.
  - auto with helyim.
  - intros k. apply gsums_upd; [apply keeps_volumes| |apply H2].
    intros nd. unfold set_volumes. by destruct (nd_type nd).
  - intros c cn p pn (cn0 & Hc & ->)%get_upd_Some Hp (pn0 & Hpn & ->)%get_upd_Some.
    assert (Hk : forall nd, nd_parent (set_volumes vs nd) = nd_parent nd
      /\ nd_max_volume_id (set_volumes vs nd) = nd_max_volume_id nd)
      by (intros nd; unfold set_volumes; by destruct (nd_type nd)).
    assert (nd_max_volume_id cn0 <= nd_max_volume_id pn0).
    { apply (H3 c cn0 p pn0); [done| |done]. case_decide; [by rewrite (proj1 (Hk cn0)) in Hp|done]. }
    repeat case_decide; rewrite ?(proj2 (Hk cn0)), ?(proj2 (Hk pn0)); done.
Qed.

Lemma volumes_of_same c t t' r : same_but c t t' -> volumes_of r t' = volumes_of r t.
Proof.
  intros Hsb. unfold volumes_of. destruct (get_node t r) as [nd|] eqn:E.
  - destruct (sb_node _ _ _ Hsb r nd E) as (nd' & -> & _ & -> & _). done.
  - by rewrite (sb_none _ _ _ Hsb r E).
Qed.

Lemma volumes_of_max t t' r : same_but_max t t' -> volumes_of r t' = volumes_of r t.
Proof.
  intros Hsb. unfold volumes_of. destruct (get_node t r) as [nd|] eqn:E.
  - destruct (sm_node _ _ Hsb r nd E) as [m ->]. done.
  - by rewrite (sm_none _ _ Hsb r E).
Qed.

Lemma is_dn_same c t t' r : same_but c t t' -> is_dn t r -> is_dn t' r.
Proof.
  intros Hsb (nd & Hr & Hd). destruct (sb_node _ _ _ Hsb r nd Hr) as (nd' & Hr' & _ & E & _).
  exists nd'. unfold is_data_node in *. by rewrite E.
Qed.

Lemma is_dn_max t t' r : same_but_max t t' -> is_dn t r -> is_dn t' r.
Proof.
  intros Hsb (nd & Hr & Hd). destruct (sm_node _ _ Hsb r nd Hr) as [m Hm]. by exists (with_max_volume_id m nd).
Qed.

Lemma volumes_of_set r vs t : is_dn t r ->
  volumes_of r (upd r (set_volumes vs) t) = vs /\ is_dn (upd r (set_volumes vs) t) r
  /\ forall k, node_cnt k (upd r (set_volumes vs) t) r = node_cnt k t r.
Proof.
  intros (nd & Hr & Hd). unfold volumes_of, is_dn, node_cnt. rewrite get_upd, decide_True, Hr by done. simpl.
  unfold set_volumes, is_data_node in *. destruct (nd_type nd) eqn:E; try done. simpl.
  split; [done|]. split; [by eexists|]. by intros k.
Qed.

(** A walk from a data node changes its own counter once. *)
Lemma adjust_own c d r t :
  shape t -> is_dn t r -> forall k,
  node_cnt k (adjust c d r t) r = if decide (c = k) then i64 (node_cnt k t r + d) else node_cnt k t r.
Proof.
  intros Ht (nd & Hr & Hd) k. unfold adjust, MAX_DEPTH. cbn [adjust_up]. rewrite Hr.
  set (t1 := upd r (add_count c d) t).
  assert (H1 : get_node t1 r = Some (add_count c d nd)) by (unfold t1; by rewrite get_upd, decide_True, Hr by done).
  assert (Hg : forall x, get_node x r = Some (add_count c d nd) ->
    node_cnt k x r = if decide (c = k) then i64 (node_cnt k t r + d) else node_cnt k t r).
  { intros x Hx. unfold node_cnt. rewrite Hx, Hr, cnt_add_count. done. }
  destruct (nd_parent nd) as [p|] eqn:Ep; [|by apply Hg]. apply Hg.
  destruct (sh_parent t Ht r nd p Hr Ep) as (pn & Hp & Hin).
  destruct (sh_child t Ht p pn _ r Hp Hin) as (y & Hy & _ & _ & Hlev). assert (y = nd) as -> by congruence.
  change (get_node (adjust_up 3 c d p t1) r = Some (add_count c d nd)).
  assert (Hp1 : get_node t1 p = Some (if decide (r = p) then add_count c d pn else pn)) by (by apply get_upd_of).
  apply (adjust_up_low 3 c d p _ t1 r _ ltac:(unfold t1; auto with helyim) Hp1 H1).
  assert (level (if decide (r = p) then add_count c d pn else pn) = level pn) as -> by (by case_decide).
  change (level (add_count c d nd)) with (level nd). lia.
Qed.

(** A data node whose volume counter agrees with its map. *)
Record dn_inv (t : tree) (r : nref) : Prop := {
  di_tree : tree_ok t;
  di_dn : is_dn t r;
  di_count : node_cnt CVolume t r = i64 (Z.of_nat (size (volumes_of r t)));
}.

Lemma adjust_dn c d r t :
  tree_ok t -> is_dn t r ->
  tree_ok (adjust c d r t) /\ is_dn (adjust c d r t) r
  /\ volumes_of r (adjust c d r t) = volumes_of r t
  /\ (forall k, node_cnt k (adjust c d r t) r
               = if decide (c = k) then i64 (node_cnt k t r + d) else node_cnt k t r).
Proof.
  intros Ht Hd. pose proof (adjust_up_same MAX_DEPTH c d r t) as Hsb.
  pose proof Hd as (nd & Hr & Hn). split; [by apply (adjust_ok c d r nd)|].
  split; [by eapply is_dn_same|]. split; [by eapply volumes_of_same|].
  apply adjust_own; [apply Ht|done].
Qed.

Lemma adjust_max_dn v r t :
  tree_ok t -> is_dn t r ->
  tree_ok (adjust_max_volume_id v r t) /\ is_dn (adjust_max_volume_id v r t) r
  /\ volumes_of r (adjust_max_volume_id v r t) = volumes_of r t
  /\ forall k, node_cnt k (adjust_max_volume_id v r t) r = node_cnt k t r.
Proof.
  intros Ht Hd. pose proof Hd as (nd & Hr & Hn).
  destruct (adjust_max_id_ok v r nd t Ht Hr) as [H1 H2]. split; [done|].
  split; [by eapply is_dn_max|]. split; [by eapply volumes_of_max|].
  intros k. unfold node_cnt. rewrite Hr. by destruct (sm_node _ _ H2 r nd Hr) as [m ->].
Qed.

Lemma add_volume_spec r v t :
  dn_inv t r ->
  let '(t', is_new) := add_or_update_volume r v t in
  dn_inv t' r /\ volumes_of r t' = <[v.(vi_id) := v]> (volumes_of r t)
  /\ is_new = bool_decide (volumes_of r t !! v.(vi_id) = None)
  /\ node_cnt CActive t' r
     = if is_new && negb v.(vi_read_only) then i64 (node_cnt CActive t r + 1) else node_cnt CActive t r.
Proof.
  intros [Ht Hd Hc]. unfold add_or_update_volume.
  destruct (volumes_of r t !! vi_id v) as [old|] eqn:Ev.
  - destruct (volumes_of_set r (<[vi_id v:=v]> (volumes_of r t)) t Hd) as (E1 & E2 & E3).
    split; [split; [by apply set_volumes_ok|done|]|].
    + rewrite E1, E3, Hc. by rewrite map_size_insert_Some.
    + rewrite E1, E3. done.
  - destruct (adjust_dn CVolume 1 r t Ht Hd) as (A1 & A2 & A3 & A4).
    set (t1 := adjust_volume_count 1 r t). change (adjust CVolume 1 r t) with t1 in *.
    set (t2 := if vi_read_only v then t1 else adjust_active_volume_count 1 r t1).
    assert (tree_ok t2 /\ is_dn t2 r /\ volumes_of r t2 = volumes_of r t1
      /\ node_cnt CVolume t2 r = node_cnt CVolume t1 r
      /\ node_cnt CActive t2 r = if negb (vi_read_only v) then i64 (node_cnt CActive t1 r + 1)
                                 else node_cnt CActive t1 r) as (B1 & B2 & B3 & B4 & B5).
    { unfold t2. destruct (vi_read_only v); [done|].
      destruct (adjust_dn CActive 1 r t1 A1 A2) as (C1 & C2 & C3 & C4).
      split; [done|]. split; [done|]. split; [done|]. split; apply C4. }
    destruct (adjust_max_dn (vi_id v) r t2 B1 B2) as (C1 & C2 & C3 & C4).
    set (t3 := adjust_max_volume_id (vi_id v) r t2) in *.
    destruct (volumes_of_set r (<[vi_id v:=v]> (volumes_of r t3)) t3 C2) as (E1 & E2 & E3).
    rewrite C3, B3, A3 in *. cbv zeta. split; [split; [by apply set_volumes_ok|done|]|].
    + rewrite E1, E3, C4, B4, A4, decide_True, Hc by done.
      rewrite map_size_insert_None by done. rewrite i64_add. f_equal. lia.
    + rewrite E1, E3, C4, B5, A4, decide_False by done. done.
Qed.

Lemma drop_volume_spec r id ro t v :
  dn_inv t r -> volumes_of r t !! id = Some v ->
  dn_inv (drop_volume r id ro t) r /\ volumes_of r (drop_volume r id ro t) = delete id (volumes_of r t).
Proof.
  intros [Ht Hd Hc] Hv. unfold drop_volume.
  destruct (volumes_of_set r (delete id (volumes_of r t)) t Hd) as (E1 & E2 & E3).
  pose proof (set_volumes_ok r (delete id (volumes_of r t)) t Ht) as Ht1.
  set (t1 := upd r _ t) in *. destruct (adjust_dn CVolume (-1) r t1 Ht1 E2) as (A1 & A2 & A3 & A4).
  assert (Hsz : node_cnt CVolume (adjust CVolume (-1) r t1) r
                = i64 (Z.of_nat (size (delete id (volumes_of r t))))).
  { rewrite A4, decide_True, E3, Hc, i64_add by done. f_equal.
    assert (size (delete id (volumes_of r t)) = Nat.pred (size (volumes_of r t))) as Hds
      by (apply map_size_delete_Some; eauto).
    assert (size (volumes_of r t) <> 0%nat).
    { intros E0%map_size_empty_inv. rewrite E0, lookup_empty in Hv. done. }
    lia. }
  unfold adjust_volume_count, adjust_active_volume_count. cbv zeta. destruct ro.
  - split; [split; [done|done|by rewrite A3, E1]|by rewrite A3, E1].
  - destruct (adjust_dn CActive (-1) r (adjust CVolume (-1) r t1) A1 A2) as (B1 & B2 & B3 & B4).
    split; [split; [done|done|]|by rewrite B3, A3, E1].
    rewrite B4, decide_False by done. rewrite Hsz, B3, A3, E1. done.
Qed.

(** The map after reporting [infos], the last report of an id winning. *)
Definition apply_infos (vs : gmap Z volume_info) (infos : list volume_info) : gmap Z volume_info :=
  fold_left (fun m v => <[v.(vi_id) := v]> m) infos vs.

Lemma delta_update_spec r news dels t :
  dn_inv t r ->
  dn_inv (delta_update_volumes r news dels t) r
  /\ volumes_of r (delta_update_volumes r news dels t)
     = apply_infos (fold_left (fun m v => delete v.(vi_id) m) dels (volumes_of r t)) news.
Proof.
  intros Hi. unfold delta_update_volumes.
  set (step := fun t v => match volumes_of r t !! vi_id v with
                          | Some _ => drop_volume r (vi_id v) (vi_read_only v) t | None => t end).
  assert (H1 : forall l t, dn_inv t r -> dn_inv (fold_left step l t) r
    /\ volumes_of r (fold_left step l t) = fold_left (fun m v => delete v.(vi_id) m) l (volumes_of r t)).
  { induction l as [|v l IH]; intros x Hx; simpl; [done|]. unfold step at 2 4.
    destruct (volumes_of r x !! vi_id v) as [w|] eqn:E.
    - destruct (drop_volume_spec r (vi_id v) (vi_read_only v) x w Hx E) as [D1 D2].
      destruct (IH _ D1) as [I1 I2]. split; [done|]. by rewrite I2, D2.
    - destruct (IH _ Hx) as [I1 I2]. split; [done|]. by rewrite I2, (delete_id _ _ E). }
  destruct (H1 dels t Hi) as [D1 D2]. rewrite <- D2. generalize (fold_left step dels t), D1. clear.
  intros t. revert t. induction news as [|v l IH]; intros t Hi; simpl; [done|].
  pose proof (add_volume_spec r v t Hi) as Ha. destruct (add_or_update_volume r v t) as [t' b].
  destruct Ha as (A1 & A2 & _). destruct (IH t' A1) as [I1 I2]. split; [done|]. simpl. by rewrite I2, A2.
Qed.

Lemma apply_infos_lookup infos : forall vs id,
  apply_infos vs infos !! id
  = match list_find (fun v => v.(vi_id) = id) (reverse infos) with Some (_, v) => Some v | None => vs !! id end.
Proof.
  induction infos as [|v infos IH] using rev_ind; intros vs id; [done|].
  unfold apply_infos in *. rewrite fold_left_app, reverse_snoc. simpl.
  destruct (decide (vi_id v = id)) as [<-|Hne]; [by rewrite lookup_insert_eq|].
  rewrite lookup_insert_ne, IH by done. by destruct (list_find _ _) as [[? ?]|].
Qed.

Lemma apply_infos_mentioned infos vs vs' id :
  Exists (fun v => v.(vi_id) = id) infos -> apply_infos vs infos !! id = apply_infos vs' infos !! id.
Proof.
  intros H. rewrite !apply_infos_lookup. destruct (list_find _ _) as [[i v]|] eqn:E; [done|].
  exfalso. apply list_find_None in E. apply Exists_exists in H as (v & Hin & Hid).
  eapply Forall_forall in E; [done|]. by apply elem_of_reverse.
Qed.

Lemma apply_infos_other infos vs id :
  Forall (fun v => v.(vi_id) <> id) infos -> apply_infos vs infos !! id = vs !! id.
Proof.
  intros H. rewrite apply_infos_lookup. destruct (list_find _ _) as [[i v]|] eqn:E; [|done].
  exfalso. apply list_find_Some in E as (Hl & Hid & _). apply list_elem_of_lookup_2 in Hl. rewrite elem_of_reverse in Hl.
  rewrite Forall_forall in H. by apply (H v).
Qed.

Lemma add_all_spec r infos : forall t acc,
  dn_inv t r ->
  let '(t', news) := fold_left (fun '(t, acc) v => let '(t', is_new) := add_or_update_volume r v t in
                                  (t', if is_new then acc ++ [v] else acc)) infos (t, acc) in
  dn_inv t' r /\ volumes_of r t' = apply_infos (volumes_of r t) infos
  /\ (forall v, v ∈ news -> v ∈ acc \/ (v ∈ infos /\ volumes_of r t !! v.(vi_id) = None)).
Proof.
  induction infos as [|v infos IH]; intros t acc Hi; simpl; [by auto|].
  pose proof (add_volume_spec r v t Hi) as Ha. destruct (add_or_update_volume r v t) as [t1 b].
  destruct Ha as (A1 & A2 & A3 & _). specialize (IH t1 (if b then acc ++ [v] else acc) A1).
  destruct (fold_left _ infos _) as [t2 news]. destruct IH as (I1 & I2 & I3).
  split; [done|]. split; [by rewrite I2, A2|]. intros w Hw. destruct (I3 w Hw) as [Hw'|[Hw' Hn]].
  - destruct b; [|by left]. apply elem_of_app in Hw' as [?|Hw']; [by left|].
    apply list_elem_of_singleton in Hw' as ->. right. split; [left|]. symmetry in A3. by apply bool_decide_eq_true in A3.
  - right. split; [by right|]. rewrite A2 in Hn. by apply lookup_insert_None in Hn as [? _].
Qed.

Lemma drop_all_spec r ids : forall t acc,
  dn_inv t r ->
  let '(t', dels) := fold_left (fun '(t, acc) id => match volumes_of r t !! id with
                                   | Some v => (drop_volume r id v.(vi_read_only) t, acc ++ [v])
                                   | None => (t, acc)
                                   end) ids (t, acc) in
  dn_inv t' r /\ volumes_of r t' = fold_left (fun m id => delete id m) ids (volumes_of r t).
Proof.
  induction ids as [|id ids IH]; intros t acc Hi; simpl; [done|].
  destruct (volumes_of r t !! id) as [v|] eqn:E.
  - destruct (drop_volume_spec r id (vi_read_only v) t v Hi E) as [D1 D2].
    specialize (IH (drop_volume r id (vi_read_only v) t) (acc ++ [v]) D1).
    destruct (fold_left _ ids _) as [t' dels]. destruct IH as [I1 I2]. split; [done|]. by rewrite I2, D2.
  - specialize (IH t acc Hi). destruct (fold_left _ ids _) as [t' dels]. destruct IH as [I1 I2].
    split; [done|]. by rewrite I2, (delete_id _ _ E).
Qed.

Lemma fold_delete_lookup {A} ids (m : gmap Z A) id :
  fold_left (fun m id => delete id m) ids m !! id = if decide (id ∈ ids) then None else m !! id.
Proof.
  revert m. induction ids as [|i ids IH]; intros m; cbn [fold_left].
  - by rewrite decide_False by apply not_elem_of_nil.
  - rewrite IH. destruct (decide (i = id)) as [->|Hne].
    + rewrite (decide_True (P := id ∈ id :: ids)) by left. case_decide; [done|]. apply lookup_delete_eq.
    + rewrite lookup_delete_ne by done. repeat case_decide; try done; exfalso; set_solver.
Qed.

Lemma update_volumes_spec order r infos t :
  (forall m : gmap Z volume_info, order m ≡ₚ map_to_list m) -> dn_inv t r ->
  let '(t', (news, dels)) := update_volumes order r infos t in
  dn_inv t' r /\ volumes_of r t' = apply_infos ∅ infos
  /\ (forall v, v ∈ news -> v ∈ infos /\ volumes_of r t !! v.(vi_id) = None).
Proof.
  intros Hord Hi. unfold update_volumes.
  set (ids := filter _ (map fst (order (volumes_of r t)))).
  pose proof (add_all_spec r infos t [] Hi) as Ha.
  destruct (fold_left _ infos (t, [])) as [t1 news]. destruct Ha as (A1 & A2 & A3).
  pose proof (drop_all_spec r ids t1 [] A1) as Hd.
  destruct (fold_left _ ids (t1, [])) as [t2 dels]. destruct Hd as [D1 D2].
  split; [done|]. split.
  - apply map_eq. intros id. rewrite D2, A2, fold_delete_lookup.
    assert (Hids : id ∈ ids <-> Forall (fun v => vi_id v <> id) infos /\ is_Some (volumes_of r t !! id)).
    { unfold ids. rewrite list_elem_of_filter, list_elem_of_fmap. f_equiv. split.
      - intros ([k v] & -> & Hin). rewrite Hord in Hin. apply elem_of_map_to_list in Hin. eauto.
      - intros [v Hv]. exists (id, v). split; [done|]. rewrite Hord. by apply elem_of_map_to_list. }
    destruct (decide (Exists (fun v => vi_id v = id) infos)) as [He|Hne].
    + rewrite decide_False; [by apply apply_infos_mentioned|]. rewrite Hids. intros [Hf _].
      apply Exists_exists in He as (v & Hin & Hv). by eapply Forall_forall in Hf.
    + apply not_Exists_Forall in Hne; [|intros; apply _]. rewrite (apply_infos_other _ ∅), lookup_empty by done.
      case_decide as Hin; [done|]. rewrite apply_infos_other by done.
      apply eq_None_not_Some. intros Hs. apply Hin, Hids. done.
  - intros v Hv. destruct (A3 v Hv) as [Hn|?]; [by apply elem_of_nil in Hn|done].
Qed.

(** ** Reserving a slot *)

Fixpoint free_slots (t : tree) (cs : list (string * nref)) : Z :=
  match cs with
  | [] => 0
  | (_, c) :: cs' =>
      match get_node t c with Some cn => Z.max 0 (free_space cn) | None => 0 end + free_slots t cs'
  end.

Lemma free_slots_nonneg t cs : 0 <= free_slots t cs.
Proof. induction cs as [|[i c] cs IH]; simpl; [lia|]. destruct (get_node t c); lia. Qed.

(** A rack serves every slot number below the free slots of its data nodes, and
    the node it answers has a free slot. *)
Lemma reserve_rack t r rn rand :
  shape t -> get_node t r = Some rn -> level rn = 1 -> 0 <= rand < free_slots t rn.(nd_children) ->
  rand < 2 ^ 63 ->
  exists c cn, reserve_one_volume r rand t = Ok c /\ get_node t c = Some cn
               /\ is_data_node cn = true /\ 0 < free_space cn /\ cn.(nd_parent) = Some r.
Proof.
  intros Ht Hr Hl Hrand Hb. unfold reserve_one_volume, MAX_DEPTH. cbn [reserve_up]. rewrite Hr.
  assert (Hc : forall id c, (id, c) ∈ nd_children rn -> exists cn,
    get_node t c = Some cn /\ nd_parent cn = Some r /\ is_data_node cn = true).
  { intros id c Hin. destruct (sh_child t Ht r rn id c Hr Hin) as (cn & Hcn & Hp & _ & Hlev).
    exists cn. split; [done|]. split; [done|]. apply level_data_node. lia. }
  revert rand Hrand Hb. induction (nd_children rn) as [|[id c] cs IH]; intros rand Hrand Hb; simpl in *; [lia|].
  destruct (Hc id c) as (cn & Hcn & Hp & Hd); [by left|]. rewrite Hcn in *.
  pose proof (free_slots_nonneg t cs). destruct (Z.leb_spec (free_space cn) 0).
  { apply IH; [|lia|done]. intros i x Hin. apply (Hc i x). by right. }
  destruct (Z.leb_spec (free_space cn) rand).
  - assert (i64 (rand - free_space cn) = rand - free_space cn) as -> by int_solve.
    apply IH; [|lia|lia]. intros i x Hin. apply (Hc i x). by right.
  - rewrite Hd, (proj2 (Z.ltb_lt _ _)) by lia. by exists c, cn.
Qed.

(** ** The operations as steps *)

Definition has_level (t : tree) (r : nref) (l : Z) : Prop :=
  exists nd, get_node t r = Some nd /\ level nd = l.

Lemma create_ok p pn nd t :
  tree_ok t -> get_node t p = Some pn -> nd.(nd_parent) = None -> nd.(nd_children) = [] ->
  (forall c, is_data_node nd = false -> cnt c nd = 0) -> level pn = level nd + 1 ->
  let '(t1, c) := alloc nd t in tree_ok (link_child_node p c t1).
Proof.
  intros Ht Hp H1 H2 H3 Hl. pose proof (alloc_ok nd t Ht H1 H2 H3) as Ha.
  destruct (alloc nd t) as [t1 c] eqn:E. destruct Ha as (A1 & A2 & A3).
  apply (link_ok p c pn nd); try done. rewrite A3; [done|].
  intros ->. unfold alloc in E. simplify_eq. apply (sh_next t (ok_shape t Ht)) in Hp. lia.
Qed.

Lemma tree_ok_new : tree_ok (Tree 1 {[ 0 := node_new "topo" TTopology ]}).
Proof.
  assert (H : forall r nd, get_node (Tree 1 {[ 0 := node_new "topo" TTopology ]}) r = Some nd ->
    r = 0 /\ nd = node_new "topo" TTopology).
  { intros r nd. unfold get_node. cbn [t_nodes]. intros [? ?]%lookup_singleton_Some. done. }
  split; [split| |].
  - intros p pn id c [-> ->]%H Hin. by apply elem_of_nil in Hin.
  - intros c cn p [-> ->]%H Hp. done.
  - intros p pn [-> ->]%H. constructor.
  - intros r nd [-> ->]%H. simpl. lia.
  - intros k p pn [-> ->]%H _. by destruct k.
  - intros c cn p pn [-> ->]%H Hp. done.
Qed.

Lemma add_volume_ok r v t : tree_ok t -> is_dn t r -> tree_ok (add_or_update_volume r v t).1.
Proof.
  intros Ht Hd. unfold add_or_update_volume. destruct (volumes_of r t !! vi_id v).
  - by apply set_volumes_ok.
  - destruct (adjust_dn CVolume 1 r t Ht Hd) as (A1 & A2 & _).
    set (t1 := adjust_volume_count 1 r t). change (adjust CVolume 1 r t) with t1 in *.
    assert (tree_ok (if vi_read_only v then t1 else adjust_active_volume_count 1 r t1)
            /\ is_dn (if vi_read_only v then t1 else adjust_active_volume_count 1 r t1) r) as [B1 B2].
    { destruct (vi_read_only v); [done|]. by destruct (adjust_dn CActive 1 r t1 A1 A2) as (? & ? & _). }
    apply set_volumes_ok. by apply adjust_max_dn.
Qed.

Lemma drop_volume_ok r id ro t : tree_ok t -> is_dn t r -> tree_ok (drop_volume r id ro t).
Proof.
  intros Ht Hd. unfold drop_volume.
  destruct (volumes_of_set r (delete id (volumes_of r t)) t Hd) as (_ & E2 & _).
  pose proof (set_volumes_ok r (delete id (volumes_of r t)) t Ht) as Ht1.
  set (t1 := upd r _ t) in *. destruct (adjust_dn CVolume (-1) r t1 Ht1 E2) as (A1 & A2 & _).
  destruct ro; [done|]. by destruct (adjust_dn CActive (-1) r _ A1 A2) as (? & _).
Qed.

(** Finding or creating a node below one of the next level. *)
Lemma data_center_ok topo id t : tree_ok t -> has_level t topo 3 -> tree_ok (get_or_create_data_center topo id t).1.
Proof.
  intros Ht (pn & Hp & Hl). unfold get_or_create_data_center. rewrite Hp. destruct (find_child _ _); [done|].
  pose proof (create_ok topo pn (node_new id TDataCenter) t Ht Hp eq_refl eq_refl) as H.
  destruct (alloc _ t) as [t1 c]. apply H; [by intros []|done].
Qed.

Lemma rack_ok dc id t : tree_ok t -> has_level t dc 2 -> tree_ok (get_or_create_rack dc id t).1.
Proof.
  intros Ht (pn & Hp & Hl). unfold get_or_create_rack. rewrite Hp. destruct (find_child _ _); [done|].
  pose proof (create_ok dc pn (node_new id TRack) t Ht Hp eq_refl eq_refl) as H.
  destruct (alloc _ t) as [t1 c]. apply H; [by intros []|done].
Qed.

Lemma data_node_ok rack id ip port url max t : tree_ok t -> has_level t rack 1 ->
  tree_ok (get_or_create_data_node rack id ip port url max t).1.
Proof.
  intros Ht (pn & Hp & Hl). unfold get_or_create_data_node. rewrite Hp. destruct (find_child _ _); [done|].
  pose proof (create_ok rack pn (data_node_new id ip port url max) t Ht Hp eq_refl eq_refl) as H.
  destruct (alloc _ t) as [t1 c]. by apply H.
Qed.

(** ** The properties of the component *)

(** A cluster of one data center, two racks and two data nodes. *)
Definition sample_topology : tree :=
  let t := Tree 1 {[ 0 := node_new "topo" TTopology ]} in
  let t := (get_or_create_data_center 0 "dc" t).1 in
  let t := (get_or_create_rack 1 "r1" t).1 in
  let t := (get_or_create_rack 1 "r2" t).1 in
  let t := (get_or_create_data_node 2 "n1" "10.0.0.1" 80 "n1" 7 t).1 in
  let t := (get_or_create_data_node 3 "n2" "10.0.0.2" 80 "n2" 5 t).1 in
  let t := adjust CEcShard 5 4 t in
  adjust CEcShard 4 5 t.

Lemma sample_topology_ok : tree_ok sample_topology.
Proof.
  unfold sample_topology. cbv zeta.
  do 2 (apply adjust_dn; [|eexists; split; [vm_compute; reflexivity|reflexivity]]).
  do 2 (apply data_node_ok; [|eexists; split; [vm_compute; reflexivity|reflexivity]]).
  do 2 (apply rack_ok; [|eexists; split; [vm_compute; reflexivity|reflexivity]]).
  apply data_center_ok; [apply tree_ok_new|eexists; split; [vm_compute; reflexivity|reflexivity]].
Qed.

(** A full report replaces the volumes of a data node: afterwards they are
    exactly the reported ones, the last report of an id winning; the volume
    counter of the node is the size of that map; volumes returned as new were
    reported and unknown before. *)
Theorem update_volumes_replaces : forall order r infos t,
  (forall m : gmap Z volume_info, order m ≡ₚ map_to_list m) -> dn_inv t r ->
  let '(t', (news, dels)) := update_volumes order r infos t in
  dn_inv t' r /\ volumes_of r t' = apply_infos ∅ infos
  /\ (forall v, v ∈ news -> v ∈ infos /\ volumes_of r t !! v.(vi_id) = None).
Proof. intros order r infos t. apply update_volumes_spec. Qed.

Definition report (id : Z) (ro : bool) : volume_info :=
  VolumeInfo id 0 Replica.default Ttl.default "" CURRENT_VERSION 0 0 0 ro.

Lemma sample_dn_inv : dn_inv sample_topology 4.
Proof.
  split; [|eexists; split; [vm_compute; reflexivity|reflexivity]|vm_compute; reflexivity].
  exact sample_topology_ok.
Qed.

Lemma update_volumes_replaces_witness :
  let '(t', (news, dels)) := update_volumes map_to_list 4 [report 3 false; report 8 true] sample_topology in
  dn_inv t' 4 /\ volumes_of 4 t' = apply_infos ∅ [report 3 false; report 8 true].
Proof.
  pose proof (update_volumes_replaces map_to_list 4 [report 3 false; report 8 true] sample_topology) as H.
  destruct (update_volumes map_to_list 4 [report 3 false; report 8 true] sample_topology) as [t' [news dels]].
  destruct H as (H1 & H2 & _); [intros m; reflexivity|exact sample_dn_inv|]. split; [exact H1|exact H2].
Defined.

(** Incremental reports delete and then insert; the volume counter keeps
    counting the map. *)
Theorem delta_update_counts : forall r news dels t,
  dn_inv t r ->
  dn_inv (delta_update_volumes r news dels t) r
  /\ volumes_of r (delta_update_volumes r news dels t)
     = apply_infos (fold_left (fun m v => delete v.(vi_id) m) dels (volumes_of r t)) news.
Proof. intros r news dels t. apply delta_update_spec. Qed.

Lemma delta_update_counts_witness :
  dn_inv (delta_update_volumes 4 [report 3 false; report 8 true] [report 3 false] sample_topology) 4.
Proof. apply (delta_update_counts 4 _ _ sample_topology sample_dn_inv). Defined.

(** The active-volume counter does not follow a volume that becomes
    read-only: reporting a known volume again changes no counter, so a writable
    volume that turns read-only is still counted as active. *)
Theorem active_count_drift : forall r v t,
  dn_inv t r -> is_Some (volumes_of r t !! v.(vi_id)) ->
  node_cnt CActive (add_or_update_volume r v t).1 r = node_cnt CActive t r
  /\ volumes_of r (add_or_update_volume r v t).1 !! v.(vi_id) = Some v.
Proof.
  intros r v t Hi [w Hw]. pose proof (add_volume_spec r v t Hi) as H.
  destruct (add_or_update_volume r v t) as [t' b]. destruct H as (_ & H2 & H3 & H4).
  rewrite Hw in H3. cbn [fst]. rewrite H2, lookup_insert_eq, H4, H3. done.
Qed.

Lemma active_count_drift_witness :
  let t := (add_or_update_volume 4 (report 3 false) sample_topology).1 in
  node_cnt CActive (add_or_update_volume 4 (report 3 true) t).1 4 = 1
  /\ volumes_of 4 (add_or_update_volume 4 (report 3 true) t).1 !! 3 = Some (report 3 true).
Proof.
  intros t. destruct (active_count_drift 4 (report 3 true) t) as [H1 H2].
  - pose proof (add_volume_spec 4 (report 3 false) sample_topology sample_dn_inv) as H.
    unfold t. destruct (add_or_update_volume 4 (report 3 false) sample_topology) as [t' b]. apply H.
  - eexists. vm_compute. reflexivity.
  - split; [|exact H2]. rewrite H1. vm_compute. reflexivity.
Defined.

(** A rack asked for a slot number below the free slots of its data nodes
    answers one of its data nodes, and that node has a free slot. *)
Theorem rack_reserves_free_node : forall t r rn rand,
  shape t -> get_node t r = Some rn -> level rn = 1 -> 0 <= rand < free_slots t rn.(nd_children) ->
  rand < 2 ^ 63 ->
  exists c cn, reserve_one_volume r rand t = Ok c /\ get_node t c = Some cn
               /\ is_data_node cn = true /\ 0 < free_space cn /\ cn.(nd_parent) = Some r.
Proof. intros t r rn rand. apply reserve_rack. Qed.

Lemma rack_reserves_free_node_witness : exists c cn,
  reserve_one_volume 2 5 sample_topology = Ok c /\ get_node sample_topology c = Some cn
  /\ 0 < free_space cn.
Proof.
  destruct (get_node sample_topology 2) as [rn|] eqn:E; [|vm_compute in E; discriminate E].
  destruct (rack_reserves_free_node sample_topology 2 rn 5) as (c & cn & H1 & H2 & _ & H3 & _).
  - apply ok_shape, sample_topology_ok.
  - exact E.
  - vm_compute in E. injection E as <-. reflexivity.
  - vm_compute in E. injection E as <-. vm_compute. split; congruence || reflexivity.
  - reflexivity.
  - exists c, cn. split; [exact H1|]. split; [exact H2|exact H3].
Defined.

(** Above the racks the free space is rounded differently from the sum of
    its parts: a data center announces more free slots than its racks
    can serve, and the last of them is refused. *)
Theorem data_center_overpromises : exists t dc dn,
  tree_ok t /\ get_node t dc = Some dn /\ level dn = 2
  /\ reserve_one_volume dc (free_space dn - 1) t = Err VNoFreeSpace /\ 0 < free_space dn.
Proof.
  destruct (get_node sample_topology 1) as [dn|] eqn:E; [|vm_compute in E; discriminate E].
  exists sample_topology, 1, dn. split; [apply sample_topology_ok|]. split; [done|].
  vm_compute in E. injection E as <-. repeat split; vm_compute; reflexivity.
Qed.
