(* ===== verification/Rand.v ===== *)
(** * Random choices

    The code draws from [rand::thread_rng()].  The generator is outside the
    sources: [gen_range n] of any generator returns a number below [n] and
    the generator to draw from next. *)

From S2P Require Import Prelude.
#[local] Open Scope Z_scope.

Class Rng := {
  rng : Type;
  gen : Z -> rng -> Z * rng;
  gen_range_ok : forall n g, 0 < n -> 0 <= (gen n g).1 < n;
}.

(** [rng.gen_range(0..n)]; an empty range is a panic. *)
Definition gen_range {R : Rng} {E : Type} (n : Z) : M rng E Z :=
  fun g => if n <=? 0 then (g, Panic)
           else let '(x, g') := gen n g in (g', Ok x).

(** A generator that reads its draws from a list, for examples. *)
#[local] Instance list_rng : Rng.
Proof.
  refine {| rng := list Z;
            gen := fun n g => match g with [] => (0, []) | x :: g' => (x mod n, g') end |}.
  intros n [|x g] Hn; cbn; [lia|]. by apply Z.mod_pos_bound.
Defined.

Lemma gen_range_spec {R : Rng} {E} n (g : rng) : 0 < n ->
  exists x g', @gen_range R E n g = (g', Ok x) /\ 0 <= x < n.
Proof.
  intros Hn. unfold gen_range. pose proof (gen_range_ok n g Hn) as H.
  destruct (Z.leb_spec n 0); [lia|]. destruct (gen n g) as [x g'] eqn:E1.
  exists x, g'. done.
Qed.
