(* ===== verification/VolumeLayout.v ===== *)
(** * Volume layouts ([topology/volume_layout.rs])

    The master keeps, for each collection, replication and TTL, where the
    volumes are and which of them can be written. *)

From S2P Require Import Prelude Types Text Ttl Replica Errors Volume ShardBits Node NodeFacts Rand.
#[local] Open Scope string_scope.
#[local] Open Scope list_scope.
#[local] Open Scope Z_scope.

(** [VolumeGrowOption] of [topology/volume_grow.rs]. *)
Record grow_option := VolumeGrowOption {
  go_collection : string;
  go_replica_placement : replica_placement;
  go_ttl : ttl;
  go_preallocate : Z;
  go_data_center : string;
  go_rack : string;
  go_data_node : string;
}.

Record volume_layout := VolumeLayout {
  vl_rp : replica_placement;
  vl_ttl : option ttl;
  vl_volume_size_limit : Z;
  vl_writable : list Z;
  vl_readonly : gmap Z bool;
  vl_oversize : gmap Z bool;
  vl_locations : gmap Z (list nref);
}.

(** [ip] and [port] of a data node. *)
Definition dn_addr (t : tree) (r : nref) : option (string * Z) :=
  match get_node t r with
  | Some nd => match nd.(nd_type) with TDataNode d => Some (d.(dn_ip), d.(dn_port)) | _ => None end
  | None => None
  end.
Definition same_server (t : tree) (a b : nref) : bool := bool_decide (dn_addr t a = dn_addr t b).

Module Layout.

Definition new (rp : replica_placement) (ttl : option ttl) (volume_size_limit : Z) : volume_layout :=
  VolumeLayout rp ttl volume_size_limit [] ∅ ∅ ∅.

Definition with_writable (w : list Z) (l : volume_layout) : volume_layout :=
  VolumeLayout l.(vl_rp) l.(vl_ttl) l.(vl_volume_size_limit) w l.(vl_readonly) l.(vl_oversize)
    l.(vl_locations).
Definition with_readonly (m : gmap Z bool) (l : volume_layout) : volume_layout :=
  VolumeLayout l.(vl_rp) l.(vl_ttl) l.(vl_volume_size_limit) l.(vl_writable) m l.(vl_oversize)
    l.(vl_locations).
Definition with_oversize (m : gmap Z bool) (l : volume_layout) : volume_layout :=
  VolumeLayout l.(vl_rp) l.(vl_ttl) l.(vl_volume_size_limit) l.(vl_writable) l.(vl_readonly) m
    l.(vl_locations).
Definition with_locations (m : gmap Z (list nref)) (l : volume_layout) : volume_layout :=
  VolumeLayout l.(vl_rp) l.(vl_ttl) l.(vl_volume_size_limit) l.(vl_writable) l.(vl_readonly)
    l.(vl_oversize) m.

(** The test on a replica that [active_volume_count] and [pick_for_write]
    share. *)
Definition node_matches (o : grow_option) (t : tree) (r : nref) : bool :=
  bool_decide (data_center_id r t = o.(go_data_center))
  && negb (negb (is_empty o.(go_rack)) && negb (bool_decide (rack_id r t = o.(go_rack))))
  && negb (negb (is_empty o.(go_data_node)) && negb (bool_decide (id_of (Some r) t = o.(go_data_node)))).

Definition replicas (l : volume_layout) (vid : Z) : list nref := default [] (l.(vl_locations) !! vid).

Definition active_volume_count (o : grow_option) (t : tree) (l : volume_layout) : Z :=
  if is_empty o.(go_data_center) then len l.(vl_writable)
  else fold_left (fun count vid =>
         fold_left (fun count r => if node_matches o t r then count + 1 else count)
           (replicas l vid) count) l.(vl_writable) 0.

(** ** [pick_for_write] *)

Section pick.
Context {R : Rng}.

(** The state of the scan: matches seen so far, and the pick among them. *)
Record picked := Picked { p_counter : Z; p_vid : Z; p_locations : option (list nref) }.

Fixpoint pick_nodes (o : grow_option) (t : tree) (vid : Z) (locations nodes : list nref) (p : picked)
  : M rng VolumeError picked :=
  match nodes with
  | [] => mret p
  | r :: nodes' =>
      if node_matches o t r then
        let* x := gen_range (p.(p_counter) + 1) in
        pick_nodes o t vid locations nodes'
          (if x <? 1 then Picked (p.(p_counter) + 1) vid (Some locations)
           else Picked (p.(p_counter) + 1) p.(p_vid) p.(p_locations))
      else pick_nodes o t vid locations nodes' p
  end.

Fixpoint pick_volumes (o : grow_option) (t : tree) (l : volume_layout) (vids : list Z) (p : picked)
  : M rng VolumeError picked :=
  match vids with
  | [] => mret p
  | vid :: vids' =>
      let* p := match l.(vl_locations) !! vid with
                | Some locations => pick_nodes o t vid locations locations p
                | None => mret p
                end in
      pick_volumes o t l vids' p
  end.

Definition pick_for_write (o : grow_option) (t : tree) (l : volume_layout)
  : M rng VolumeError (Z * list nref) :=
  match l.(vl_writable) with
  | [] => mthrow VNoWritableVolumes
  | _ =>
      if is_empty o.(go_data_center) then
        let* i := gen_range (len l.(vl_writable)) in
        let* vid := mlift (unwrap (l.(vl_writable) !! Z.to_nat i)) in
        match l.(vl_locations) !! vid with
        | Some nodes => mret (vid, nodes)
        | None => mthrow (VNotFound vid)
        end
      else
        let* p := pick_volumes o t l l.(vl_writable) (Picked 0 0 None) in
        match p.(p_locations) with
        | Some locations => mret (p.(p_vid), locations)
        | None => mthrow VNoWritableVolumes
        end
  end.

End pick.

(** ** The writable list *)

Definition set_volume_writable (vid : Z) (l : volume_layout) : volume_layout * bool :=
  if bool_decide (vid ∈ l.(vl_writable)) then (l, false)
  else (with_writable (l.(vl_writable) ++ [vid]) l, true).

(** The index of the last occurrence. *)
Definition last_index (vid : Z) (w : list Z) : option nat :=
  fold_left (fun acc e => if bool_decide (e.2 = vid) then Some e.1 else acc)
    (imap (fun i x => (i, x)) w) None.

Definition remove_from_writable (vid : Z) (l : volume_layout) : volume_layout * bool :=
  match last_index vid l.(vl_writable) with
  | Some i => (with_writable (delete i l.(vl_writable)) l, true)
  | None => (l, false)
  end.

(** ** Registering *)

Fixpoint set_node (t : tree) (locations : list nref) (dn : nref) : list nref :=
  match locations with
  | [] => [dn]
  | r :: rest => if same_server t r dn then dn :: rest else r :: set_node t rest dn
  end.

Definition is_oversize (v : volume_info) (l : volume_layout) : bool :=
  l.(vl_volume_size_limit) <=? v.(vi_size).

Definition is_writable (v : volume_info) (l : volume_layout) : bool :=
  negb (is_oversize v l) && (v.(vi_version) =? CURRENT_VERSION) && negb v.(vi_read_only).

Definition remember_oversized_volume (v : volume_info) (l : volume_layout) : volume_layout :=
  if is_oversize v l then with_oversize (<[v.(vi_id) := true]> l.(vl_oversize)) l
  else with_oversize (delete v.(vi_id) l.(vl_oversize)) l.

Definition ensure_correct_writable (v : volume_info) (l : volume_layout) : volume_layout :=
  match l.(vl_locations) !! v.(vi_id) with
  | None => l
  | Some locations =>
      if (Replica.copy_count l.(vl_rp) <=? len locations) && is_writable v l then
        match l.(vl_oversize) !! v.(vi_id) with
        | None => (set_volume_writable v.(vi_id) l).1
        | Some _ => l
        end
      else (remove_from_writable v.(vi_id) l).1
  end.

(** The loop over the replicas of volume [vid]: [true] when it ran to its
    end, [false] when it returned at a read-only or missing replica. *)
Fixpoint check_replicas (t : tree) (vid : Z) (locations : list nref) (l : volume_layout)
  : volume_layout * bool :=
  match locations with
  | [] => (l, true)
  | r :: rest =>
      match volumes_of r t !! vid with
      | Some w =>
          if w.(vi_read_only) then
            let l := (remove_from_writable w.(vi_id) l).1 in
            (with_readonly (<[w.(vi_id) := true]> l.(vl_readonly)) l, false)
          else check_replicas t vid rest (with_readonly (delete w.(vi_id) l.(vl_readonly)) l)
      | None =>
          let l := (remove_from_writable vid l).1 in
          (with_readonly (delete vid l.(vl_readonly)) l, false)
      end
  end.

Definition register_volume (t : tree) (v : volume_info) (dn : nref) (l : volume_layout) : volume_layout :=
  let locations := set_node t (replicas l v.(vi_id)) dn in
  let l := with_locations (<[v.(vi_id) := locations]> l.(vl_locations)) l in
  let '(l, finished) := check_replicas t v.(vi_id) locations l in
  if finished then ensure_correct_writable v (remember_oversized_volume v l) else l.

(** ** Availability *)

Definition set_volume_available (t : tree) (vid : Z) (dn : nref) (l : volume_layout)
  : volume_layout * bool :=
  match l.(vl_locations) !! vid with
  | None => (l, false)
  | Some locations =>
      let locations := set_node t locations dn in
      let l := with_locations (<[vid := locations]> l.(vl_locations)) l in
      if len locations =? Replica.copy_count l.(vl_rp) then set_volume_writable vid l else (l, false)
  end.

Definition set_volume_unavailable (t : tree) (vid : Z) (dn : nref) (l : volume_layout)
  : volume_layout * bool :=
  match l.(vl_locations) !! vid with
  | None => (l, false)
  | Some locations =>
      let locations := filter (fun r => same_server t r dn = false) locations in
      let l := with_locations (<[vid := locations]> l.(vl_locations)) l in
      if len locations <? Replica.copy_count l.(vl_rp) then remove_from_writable vid l else (l, false)
  end.

(** [Vec::remove] of the first replica on the server, [None] when there is
    none. *)
Fixpoint remove_server (t : tree) (dn : nref) (locations : list nref) : option (list nref) :=
  match locations with
  | [] => None
  | r :: rest => if same_server t r dn then Some rest
                 else match remove_server t dn rest with Some k => Some (r :: k) | None => None end
  end.

Definition unregister_volume (t : tree) (v : volume_info) (dn : nref) (l : volume_layout) : volume_layout :=
  match l.(vl_locations) !! v.(vi_id) ≫= remove_server t dn with
  | None => l
  | Some locations =>
      let l := with_locations (<[v.(vi_id) := locations]> l.(vl_locations)) l in
      let l := ensure_correct_writable v l in
      with_locations (filter (fun e => e.2 <> []) l.(vl_locations)) l
  end.

Definition lookup (vid : Z) (l : volume_layout) : option (list nref) := l.(vl_locations) !! vid.

End Layout.
