(* ===== verification/VolumeLayoutFacts.v ===== *)
(** * What a volume layout keeps

    Writable volumes have enough replicas, on different servers, whatever the
    sequence of registrations; a pick for a write returns such a volume, and
    fails exactly when the count of active volumes is zero. *)

From S2P Require Import Prelude Types Text Ttl Replica Errors Volume ShardBits Node NodeFacts Rand VolumeLayout.
#[local] Open Scope string_scope.
#[local] Open Scope list_scope.
#[local] Open Scope Z_scope.

Import Layout.

Record layout_inv (t : tree) (l : volume_layout) : Prop := {
  li_writable : NoDup l.(vl_writable);
  li_copies : forall vid, vid ∈ l.(vl_writable) -> exists locs,
    l.(vl_locations) !! vid = Some locs /\ Replica.copy_count l.(vl_rp) <= len locs;
  li_servers : forall vid locs, l.(vl_locations) !! vid = Some locs ->
    NoDup (map (dn_addr t) locs) /\ Forall (is_dn t) locs;
}.

(** ** The writable list *)

Lemma last_index_snoc vid w x :
  last_index vid (w ++ [x]) = if bool_decide (x = vid) then Some (length w) else last_index vid w.
Proof.
  unfold last_index. rewrite imap_app, fold_left_app. cbn. rewrite Nat.add_0_r. done.
Qed.

Lemma last_index_spec vid w :
  match last_index vid w with Some i => w !! i = Some vid | None => vid ∉ w end.
Proof.
  induction w as [|x w IH] using rev_ind; [cbn; set_solver|].
  rewrite last_index_snoc. case_bool_decide as Hx.
  - subst. by rewrite list_lookup_middle.
  - destruct (last_index vid w) as [i|]; [|set_solver].
    apply lookup_app_l_Some. done.
Qed.

Lemma delete_NoDup (w : list Z) i vid : NoDup w -> w !! i = Some vid ->
  NoDup (delete i w) /\ forall x, x ∈ delete i w <-> x ∈ w /\ x <> vid.
Proof.
  intros Hn Hi. rewrite <- (take_drop_middle w i vid Hi) in Hn |- *.
  assert (Hl : length (take i w) = i) by (apply lookup_lt_Some in Hi; rewrite length_take; lia).
  rewrite delete_take_drop, take_app_le, take_take, Nat.min_id by lia.
  replace (drop (S i) (take i w ++ vid :: drop (S i) w)) with (drop (S i) w).
  2:{ rewrite drop_app_ge by lia. rewrite Hl. replace (S i - i)%nat with 1%nat by lia. done. }
  rewrite NoDup_app, NoDup_cons in Hn. destruct Hn as (H1 & H2 & H3 & H4). split.
  - apply NoDup_app. split; [done|]. split; [|done]. intros x Hx. specialize (H2 x Hx). set_solver.
  - intros x. rewrite !elem_of_app, elem_of_cons. split; [|naive_solver].
    intros [Hx|Hx]; (split; [tauto|]); intros ->; [|done].
    apply (H2 vid Hx). set_solver.
Qed.

Lemma with_writable_self l : with_writable l.(vl_writable) l = l.
Proof. by destruct l. Qed.

(** Both updates change the list of writable volumes only. *)
Lemma remove_writable_spec vid l : NoDup l.(vl_writable) -> exists w,
  (remove_from_writable vid l).1 = with_writable w l /\ NoDup w
  /\ forall x, x ∈ w <-> x ∈ l.(vl_writable) /\ x <> vid.
Proof.
  intros Hn. unfold remove_from_writable. pose proof (last_index_spec vid l.(vl_writable)) as H.
  destruct (last_index vid l.(vl_writable)) as [i|].
  - destruct (delete_NoDup _ _ _ Hn H). by eexists.
  - exists l.(vl_writable). rewrite with_writable_self. repeat split; [done|set_solver..].
Qed.

Lemma set_writable_spec vid l : NoDup l.(vl_writable) -> exists w,
  (set_volume_writable vid l).1 = with_writable w l /\ NoDup w
  /\ forall x, x ∈ w <-> x ∈ l.(vl_writable) \/ x = vid.
Proof.
  intros Hn. unfold set_volume_writable. case_bool_decide.
  - exists l.(vl_writable). rewrite with_writable_self. repeat split; [done|set_solver..].
  - exists (l.(vl_writable) ++ [vid]). split; [done|]. split.
    + apply NoDup_app. split; [done|]. split; [set_solver|]. apply NoDup_singleton.
    + set_solver.
Qed.

(** ** Replica lists *)

Lemma set_node_addrs t ls dn : map (dn_addr t) (set_node t ls dn)
  = if bool_decide (dn_addr t dn ∈ map (dn_addr t) ls) then map (dn_addr t) ls
    else map (dn_addr t) ls ++ [dn_addr t dn].
Proof.
  induction ls as [|r ls IH]; cbn [set_node map].
  - rewrite bool_decide_false; [done|]. apply not_elem_of_nil.
  - unfold same_server. destruct (decide (dn_addr t r = dn_addr t dn)) as [H1|H1].
    + rewrite !bool_decide_true by set_solver. cbn [map]. by rewrite H1.
    + rewrite (bool_decide_false (dn_addr t r = _)) by done. cbn [map]. rewrite IH.
      destruct (decide (dn_addr t dn ∈ map (dn_addr t) ls)) as [H2|H2].
      * by rewrite !bool_decide_true by set_solver.
      * by rewrite !bool_decide_false by set_solver.
Qed.

Lemma set_node_servers t ls dn : is_dn t dn ->
  NoDup (map (dn_addr t) ls) /\ Forall (is_dn t) ls ->
  NoDup (map (dn_addr t) (set_node t ls dn)) /\ Forall (is_dn t) (set_node t ls dn).
Proof.
  intros Hd [H1 H2]. split.
  - rewrite set_node_addrs. case_bool_decide; [done|]. apply NoDup_app.
    repeat split; [done|set_solver|apply NoDup_singleton].
  - clear H1. induction H2 as [|r ls Hr Hls IH]; cbn [set_node].
    + by repeat constructor.
    + destruct same_server; by constructor.
Qed.

Lemma len_map {A B} (f : A -> B) l : len (map f l) = len l.
Proof. unfold len. by rewrite length_map. Qed.

Lemma set_node_len t ls dn : len ls <= len (set_node t ls dn) /\ 0 < len (set_node t ls dn).
Proof.
  induction ls as [|r ls IH]; cbn [set_node]; rewrite ?len_cons; [rewrite !len_nil; lia|].
  pose proof (len_nonneg ls). destruct same_server; rewrite ?len_cons; lia.
Qed.

Lemma set_node_has t ls dn : dn ∈ set_node t ls dn.
Proof.
  induction ls as [|x ls IH]; cbn [set_node]; [set_solver|]. destruct same_server; set_solver.
Qed.

Lemma set_node_keeps t ls dn r : r ∈ ls -> same_server t r dn = false -> r ∈ set_node t ls dn.
Proof.
  intros Hr Hs. induction ls as [|x ls IH]; cbn [set_node]; [by apply not_elem_of_nil in Hr|].
  apply elem_of_cons in Hr. destruct (same_server t x dn) eqn:E; [|set_solver].
  destruct Hr as [->|Hr]; [congruence|set_solver].
Qed.

Lemma set_node_from t ls dn r : r ∈ set_node t ls dn -> r = dn \/ r ∈ ls.
Proof.
  induction ls as [|x ls IH]; cbn [set_node]; [set_solver|]. destruct same_server; set_solver.
Qed.

Lemma remove_server_spec t dn ls : forall ls', remove_server t dn ls = Some ls' ->
  exists a r b, ls = a ++ r :: b /\ ls' = a ++ b /\ same_server t r dn = true.
Proof.
  induction ls as [|x ls IH]; intros ls'; cbn [remove_server]; [done|].
  destruct (same_server t x dn) eqn:E.
  - intros [= <-]. by exists [], x, ls.
  - destruct (remove_server t dn ls) as [k|]; [|done]. intros [= <-].
    destruct (IH k eq_refl) as (a & r & b & -> & -> & Hr). by exists (x :: a), r, b.
Qed.

Lemma remove_server_servers t dn ls ls' : remove_server t dn ls = Some ls' ->
  NoDup (map (dn_addr t) ls) /\ Forall (is_dn t) ls ->
  NoDup (map (dn_addr t) ls') /\ Forall (is_dn t) ls' /\ dn_addr t dn ∉ map (dn_addr t) ls'.
Proof.
  intros (a & r & b & -> & -> & Hr)%remove_server_spec.
  unfold same_server in Hr. apply bool_decide_eq_true in Hr.
  rewrite !map_app, map_cons, NoDup_app, NoDup_cons, !Forall_app, Forall_cons.
  intros [(H1 & H2 & H3 & H4) (H5 & H6 & H7)]. rewrite <- Hr.
  repeat split; [|done..|].
  - apply NoDup_app. repeat split; [done|set_solver|done].
  - rewrite elem_of_app. intros [H|H]; [|done]. apply (H2 _ H). set_solver.
Qed.

(** ** The invariant, operation by operation *)

Lemma layout_inv_writable t l w :
  layout_inv t l -> NoDup w ->
  (forall x, x ∈ w -> x ∈ l.(vl_writable) \/ exists locs,
     l.(vl_locations) !! x = Some locs /\ Replica.copy_count l.(vl_rp) <= len locs) ->
  layout_inv t (with_writable w l).
Proof.
  intros [H1 H2 H3] Hn Hw. split; [done| |done].
  intros vid Hv. destruct (Hw vid Hv); auto.
Qed.

Lemma layout_inv_remove t vid l : layout_inv t l -> layout_inv t (remove_from_writable vid l).1.
Proof.
  intros H. destruct (remove_writable_spec vid l (li_writable _ _ H)) as (w & -> & Hn & Hw).
  apply layout_inv_writable; [done..|]. intros x Hx%Hw. naive_solver.
Qed.

Lemma layout_inv_readonly t m l : layout_inv t l -> layout_inv t (with_readonly m l).
Proof. by intros [H1 H2 H3]; split. Qed.
Lemma layout_inv_oversize t m l : layout_inv t l -> layout_inv t (with_oversize m l).
Proof. by intros [H1 H2 H3]; split. Qed.
#[local] Hint Resolve layout_inv_remove layout_inv_readonly layout_inv_oversize : helyim.

(** A longer list of replicas, on different servers. *)
Lemma layout_inv_locations t vid locs l :
  layout_inv t l -> NoDup (map (dn_addr t) locs) /\ Forall (is_dn t) locs ->
  len (replicas l vid) <= len locs ->
  layout_inv t (with_locations (<[vid := locs]> l.(vl_locations)) l).
Proof.
  intros [H1 H2 H3] Hs Hl. split; cbn; [done| |].
  - intros x Hx. destruct (H2 x Hx) as (ls & E & Hc). destruct (decide (x = vid)) as [->|Hne].
    + exists locs. rewrite lookup_insert_eq. split; [done|].
      unfold replicas in Hl. rewrite E in Hl. cbn in Hl. lia.
    + exists ls. by rewrite lookup_insert_ne by done.
  - intros x ls. destruct (decide (x = vid)) as [->|Hne].
    + rewrite lookup_insert_eq. by intros [= <-].
    + rewrite lookup_insert_ne by done. apply H3.
Qed.

Lemma replicas_servers t l vid : layout_inv t l ->
  NoDup (map (dn_addr t) (replicas l vid)) /\ Forall (is_dn t) (replicas l vid).
Proof.
  intros H. unfold replicas. destruct (vl_locations l !! vid) as [ls|] eqn:E; cbn.
  - by apply (li_servers _ _ H vid).
  - split; constructor.
Qed.

Lemma check_replicas_inv t vid ls : forall l, layout_inv t l -> layout_inv t (check_replicas t vid ls l).1.
Proof.
  induction ls as [|r ls IH]; intros l H; cbn [check_replicas]; [done|].
  destruct (volumes_of r t !! vid) as [w|]; [|cbn; auto with helyim].
  destruct (vi_read_only w); [cbn; auto with helyim|]. apply IH. auto with helyim.
Qed.

Lemma ensure_inv t v l : layout_inv t l -> layout_inv t (ensure_correct_writable v l).
Proof.
  intros H. unfold ensure_correct_writable.
  destruct (vl_locations l !! vi_id v) as [ls|] eqn:E; [|done].
  destruct (Z.leb_spec (Replica.copy_count l.(vl_rp)) (len ls)); cbn; [|auto with helyim].
  destruct (is_writable v l); [|auto with helyim].
  destruct (vl_oversize l !! vi_id v); [done|].
  destruct (set_writable_spec (vi_id v) l (li_writable _ _ H)) as (w & -> & Hn & Hw).
  apply layout_inv_writable; [done..|]. intros x [Hx| ->]%Hw; [by left|right; by exists ls].
Qed.

Lemma register_inv t v dn l : layout_inv t l -> is_dn t dn -> layout_inv t (register_volume t v dn l).
Proof.
  intros H Hd. unfold register_volume.
  set (locs := set_node t (replicas l (vi_id v)) dn).
  set (l1 := with_locations _ l).
  assert (H1 : layout_inv t l1).
  { apply layout_inv_locations; [done|by apply set_node_servers, replicas_servers|apply set_node_len]. }
  pose proof (check_replicas_inv t (vi_id v) locs l1 H1) as H2.
  destruct (check_replicas t (vi_id v) locs l1) as [l2 []]; [|done].
  apply ensure_inv. unfold remember_oversized_volume. destruct is_oversize; auto with helyim.
Qed.

Lemma available_inv t vid dn l :
  layout_inv t l -> is_dn t dn -> layout_inv t (set_volume_available t vid dn l).1.
Proof.
  intros H Hd. unfold set_volume_available. destruct (vl_locations l !! vid) as [ls|] eqn:E; [|done].
  assert (H1 : layout_inv t (with_locations (<[vid := set_node t ls dn]> l.(vl_locations)) l)).
  { apply layout_inv_locations; [done|by eapply set_node_servers, (li_servers _ _ H)|].
    unfold replicas. rewrite E. apply set_node_len. }
  cbn [vl_rp with_locations]. destruct (Z.eqb_spec (len (set_node t ls dn)) (Replica.copy_count l.(vl_rp)));
    [|done].
  destruct (set_writable_spec vid _ (li_writable _ _ H1)) as (w & -> & Hn & Hw).
  apply layout_inv_writable; [done..|]. intros x [Hx| ->]%Hw; [by left|right].
  exists (set_node t ls dn). cbn. rewrite lookup_insert_eq. split; [done|lia].
Qed.

(** A shorter list: the volume leaves the writable list unless enough
    replicas stay. *)
Lemma layout_inv_shrink t vid locs l w :
  layout_inv t l -> NoDup (map (dn_addr t) locs) /\ Forall (is_dn t) locs -> NoDup w ->
  (forall x, x ∈ w -> x ∈ l.(vl_writable) \/ x = vid) ->
  (vid ∈ w -> Replica.copy_count l.(vl_rp) <= len locs) ->
  layout_inv t (with_writable w (with_locations (<[vid := locs]> l.(vl_locations)) l)).
Proof.
  intros [H1 H2 H3] Hs Hn Hw Hc. split; cbn; [done| |].
  - intros x Hx. destruct (decide (x = vid)) as [->|Hne].
    + exists locs. rewrite lookup_insert_eq. auto.
    + destruct (Hw x Hx) as [Hx'|]; [|done]. destruct (H2 x Hx') as (ls & E & Hls).
      exists ls. by rewrite lookup_insert_ne by done.
  - intros x ls. destruct (decide (x = vid)) as [->|Hne].
    + rewrite lookup_insert_eq. by intros [= <-].
    + rewrite lookup_insert_ne by done. apply H3.
Qed.

Lemma filter_servers t P `{!forall r : nref, Decision (P r)} ls :
  NoDup (map (dn_addr t) ls) /\ Forall (is_dn t) ls ->
  NoDup (map (dn_addr t) (filter P ls)) /\ Forall (is_dn t) (filter P ls).
Proof.
  intros [H1 H2]. split; [|apply Forall_forall; intros r [_ Hr]%list_elem_of_filter;
                            by apply (proj1 (Forall_forall _ _) H2)].
  eapply sublist_NoDup; [done|]. apply (fmap_sublist (dn_addr t)), sublist_filter.
Qed.

Lemma unavailable_inv t vid dn l :
  layout_inv t l -> layout_inv t (set_volume_unavailable t vid dn l).1.
Proof.
  intros H. unfold set_volume_unavailable. destruct (vl_locations l !! vid) as [ls|] eqn:E; [|done].
  cbn [vl_rp with_locations]. set (locs := filter _ ls). set (l1 := with_locations _ l).
  assert (Hs := filter_servers t (fun r => same_server t r dn = false) ls (li_servers _ _ H _ _ E)).
  pose proof (li_writable _ _ H) as Hn.
  destruct (Z.ltb_spec (len locs) (Replica.copy_count l.(vl_rp))).
  - destruct (remove_writable_spec vid l1 Hn) as (w & -> & Hw & Hx).
    apply layout_inv_shrink; [done..| |]; intros; [left|]; naive_solver.
  - cbn [fst]. rewrite <- (with_writable_self l1). apply layout_inv_shrink; [done|done|done|auto|auto].
Qed.

Lemma unregister_inv t v dn l : 0 < Replica.copy_count l.(vl_rp) ->
  layout_inv t l -> layout_inv t (unregister_volume t v dn l).
Proof.
  intros Hcc H. unfold unregister_volume.
  destruct (vl_locations l !! vi_id v) as [ls|] eqn:E; cbn; [|done].
  destruct (remove_server t dn ls) as [locs|] eqn:Er; [|done].
  destruct (remove_server_servers _ _ _ _ Er (li_servers _ _ H _ _ E)) as (Hs1 & Hs2 & _).
  set (l1 := with_locations _ l).
  assert (H1 : layout_inv t (ensure_correct_writable v l1)).
  { unfold ensure_correct_writable. subst l1. cbn [vl_locations with_locations vl_rp].
    rewrite lookup_insert_eq. pose proof (li_writable _ _ H) as Hn.
    destruct (Z.leb_spec (Replica.copy_count l.(vl_rp)) (len locs)); cbn [andb].
    1: destruct is_writable.
    - assert (Hl : layout_inv t (with_locations (<[vi_id v := locs]> l.(vl_locations)) l)).
      { rewrite <- (with_writable_self (with_locations _ l)).
        apply layout_inv_shrink; [done|done|done|auto|auto]. }
      destruct (vl_oversize _ !! _); [done|].
      destruct (set_writable_spec (vi_id v) _ (li_writable _ _ Hl)) as (w & -> & Hw & Hx).
      apply layout_inv_writable; [done..|]. intros x [Hx'| ->]%Hx; [by left|right].
      exists locs. cbn. by rewrite lookup_insert_eq.
    - edestruct (remove_writable_spec (vi_id v)) as (w & -> & Hw & Hx); [exact Hn|].
      apply layout_inv_shrink; [done..| |]; intros; [left|]; naive_solver.
    - edestruct (remove_writable_spec (vi_id v)) as (w & -> & Hw & Hx); [exact Hn|].
      apply layout_inv_shrink; [done..| |]; intros; [left|]; naive_solver. }
  assert (Hrp : (ensure_correct_writable v l1).(vl_rp) = l.(vl_rp)).
  { unfold ensure_correct_writable. destruct (vl_locations l1 !! vi_id v); [|done].
    destruct (_ && _).
    - destruct (vl_oversize l1 !! vi_id v); [done|]. unfold set_volume_writable. by case_bool_decide.
    - unfold remove_from_writable. by destruct last_index. }
  destruct H1 as [K1 K2 K3]. split; cbn; [done| |].
  - intros x Hx. destruct (K2 x Hx) as (k & Ek & Hk). rewrite Hrp in *. exists k. split; [|done].
    apply map_lookup_filter_Some. split; [done|]. cbn. intros ->. rewrite len_nil in Hk. lia.
  - intros x k [Hk _]%map_lookup_filter_Some. by apply (K3 x).
Qed.

(** ** Reachable layouts

    The master changes a layout with these operations; between two of them
    the tree changes, but a data node keeps its address for life. *)

Definition keeps_servers (t t' : tree) : Prop :=
  forall r, is_dn t r -> is_dn t' r /\ dn_addr t' r = dn_addr t r.

Inductive layout_step : tree * volume_layout -> tree * volume_layout -> Prop :=
| ls_register t l v dn : is_dn t dn -> layout_step (t, l) (t, register_volume t v dn l)
| ls_unregister t l v dn : layout_step (t, l) (t, unregister_volume t v dn l)
| ls_available t l vid dn : is_dn t dn -> layout_step (t, l) (t, (set_volume_available t vid dn l).1)
| ls_unavailable t l vid dn : layout_step (t, l) (t, (set_volume_unavailable t vid dn l).1)
| ls_compacting t l vid : layout_step (t, l) (t, (remove_from_writable vid l).1)
| ls_tree t t' l : keeps_servers t t' -> layout_step (t, l) (t', l).

Inductive layout_reachable (rp : replica_placement) : tree * volume_layout -> Prop :=
| lr_new t ttl limit : layout_reachable rp (t, new rp ttl limit)
| lr_step s s' : layout_reachable rp s -> layout_step s s' -> layout_reachable rp s'.

Lemma layout_inv_tree t t' l : keeps_servers t t' -> layout_inv t l -> layout_inv t' l.
Proof.
  intros Hk [H1 H2 H3]. split; [done..|]. intros vid locs E. destruct (H3 vid locs E) as [Hn Hd]. split.
  - replace (map (dn_addr t') locs) with (map (dn_addr t) locs); [done|].
    apply map_ext_in. intros r Hr. symmetry. apply Hk.
    apply (proj1 (Forall_forall _ _) Hd). by apply list_elem_of_In.
  - eapply Forall_impl; [exact Hd|]. intros r Hr. by apply Hk.
Qed.

Lemma remove_writable_rp vid l : vl_rp (remove_from_writable vid l).1 = vl_rp l.
Proof. unfold remove_from_writable. by destruct last_index. Qed.
Lemma set_writable_rp vid l : vl_rp (set_volume_writable vid l).1 = vl_rp l.
Proof. unfold set_volume_writable. by case_bool_decide. Qed.
Lemma ensure_rp v l : vl_rp (ensure_correct_writable v l) = vl_rp l.
Proof.
  unfold ensure_correct_writable. destruct (vl_locations l !! vi_id v); [|done]. destruct (_ && _).
  - destruct (vl_oversize l !! vi_id v); [done|]. apply set_writable_rp.
  - apply remove_writable_rp.
Qed.
Lemma check_replicas_rp t vid ls : forall l, vl_rp (check_replicas t vid ls l).1 = vl_rp l.
Proof.
  induction ls as [|r ls IH]; intros l; cbn [check_replicas]; [done|].
  destruct (volumes_of r t !! vid) as [w|]; [|cbn; apply remove_writable_rp].
  destruct (vi_read_only w); [cbn; apply remove_writable_rp|]. by rewrite IH.
Qed.

Lemma layout_step_rp s s' : layout_step s s' -> vl_rp s'.2 = vl_rp s.2.
Proof.
  destruct 1; cbn [snd]; [| | | |apply remove_writable_rp|done].
  - unfold register_volume. set (locs := set_node _ _ _). set (l1 := with_locations _ l).
    pose proof (check_replicas_rp t (vi_id v) locs l1) as Hr.
    destruct (check_replicas t (vi_id v) locs l1) as [l2 []]; [|done]. rewrite ensure_rp.
    unfold remember_oversized_volume. by destruct is_oversize.
  - unfold unregister_volume. destruct (_ ≫= _); [|done]. cbn. by rewrite ensure_rp.
  - unfold set_volume_available. destruct (vl_locations l !! vid); [|done].
    destruct (_ =? _); [by rewrite set_writable_rp|done].
  - unfold set_volume_unavailable. destruct (vl_locations l !! vid); [|done].
    destruct (_ <? _); [by rewrite remove_writable_rp|done].
Qed.

Lemma layout_reachable_inv rp t l : 0 < Replica.copy_count rp ->
  layout_reachable rp (t, l) -> layout_inv t l /\ vl_rp l = rp.
Proof.
  intros Hc. remember (t, l) as s eqn:Es. intros H. revert t l Es.
  induction H as [t0 ttl limit|s s' H IH Hs]; intros t l Es.
  - injection Es as <- <-. split; [|done]. split; cbn; [constructor|set_solver|].
    intros vid locs. by rewrite lookup_empty.
  - destruct s as [t0 l0]. destruct (IH t0 l0 eq_refl) as [Hi Hrp]. split.
    + subst s'. inversion Hs; subst.
      * by apply register_inv.
      * apply unregister_inv; [done..].
      * by apply available_inv.
      * by apply unavailable_inv.
      * by apply layout_inv_remove.
      * by eapply layout_inv_tree.
    + apply layout_step_rp in Hs. subst s'. cbn in Hs. congruence.
Qed.

(** ** Picking a volume *)

Section picking.
Context {R : Rng}.

(** What the scan has picked so far: nothing as long as nothing matched. *)
Definition picked_ok (o : grow_option) (t : tree) (l : volume_layout) (p : picked) : Prop :=
  0 <= p.(p_counter) /\
  match p.(p_locations) with
  | None => p.(p_counter) = 0
  | Some locs => 0 < p.(p_counter) /\ p.(p_vid) ∈ l.(vl_writable)
                 /\ l.(vl_locations) !! p.(p_vid) = Some locs /\ exists r, r ∈ locs /\ node_matches o t r = true
  end.

Lemma pick_nodes_ok o t l vid locs nodes : vid ∈ l.(vl_writable) -> l.(vl_locations) !! vid = Some locs ->
  (forall r, r ∈ nodes -> r ∈ locs) -> forall p g, picked_ok o t l p -> exists p' g',
  pick_nodes o t vid locs nodes p g = (g', Ok p') /\ picked_ok o t l p'
  /\ p'.(p_counter) = fold_left (fun c r => if node_matches o t r then c + 1 else c) nodes p.(p_counter).
Proof.
  intros Hv Hl. induction nodes as [|r nodes IH]; intros Hin p g Hp; cbn [pick_nodes fold_left].
  - by exists p, g.
  - assert (Hin' : forall x, x ∈ nodes -> x ∈ locs) by (intros; apply Hin; set_solver).
    destruct (node_matches o t r) eqn:Em; [|by apply IH].
    destruct Hp as [Hc Hp].
    destruct (gen_range_spec (E := VolumeError) (p_counter p + 1) g) as (x & g' & Hg & Hx); [lia|].
    unfold mbind'. rewrite Hg. destruct (Z.ltb_spec x 1).
    + apply IH; [done|]. split; cbn; [lia|]. split; [lia|]. repeat split; [done..|].
      exists r. split; [apply Hin; set_solver|done].
    + apply IH; [done|]. split; cbn; [lia|]. destruct (p_locations p); [|lia].
      destruct Hp as (? & ? & ? & ?). repeat split; [lia|done..].
Qed.

Lemma pick_volumes_ok o t l vids : (forall x, x ∈ vids -> x ∈ l.(vl_writable)) ->
  forall p g, picked_ok o t l p -> exists p' g',
  pick_volumes o t l vids p g = (g', Ok p') /\ picked_ok o t l p'
  /\ p'.(p_counter) = fold_left (fun c vid =>
       fold_left (fun c r => if node_matches o t r then c + 1 else c) (replicas l vid) c) vids p.(p_counter).
Proof.
  induction vids as [|vid vids IH]; intros Hin p g Hp; cbn [pick_volumes fold_left].
  - by exists p, g.
  - assert (Hin' : forall x, x ∈ vids -> x ∈ l.(vl_writable)) by (intros; apply Hin; set_solver).
    unfold mbind', replicas at 2. destruct (vl_locations l !! vid) as [locs|] eqn:E; cbn.
    + destruct (pick_nodes_ok o t l vid locs locs) with (p := p) (g := g) as (p1 & g1 & -> & Hp1 & <-);
        [apply Hin; set_solver|done..|]. by apply IH.
    + by apply IH.
Qed.

Lemma pick_for_write_lemma o t l g : layout_inv t l ->
  match (pick_for_write o t l g).2 with
  | Ok (vid, locs) =>
      0 < active_volume_count o t l /\ vid ∈ l.(vl_writable) /\ lookup vid l = Some locs
      /\ Replica.copy_count l.(vl_rp) <= len locs /\ NoDup (map (dn_addr t) locs)
      /\ (o.(go_data_center) <> "" -> exists r, r ∈ locs /\ node_matches o t r = true)
  | Err e => e = VNoWritableVolumes /\ active_volume_count o t l = 0
  | Panic => False
  end.
Proof.
  intros H. assert (Hlocs : forall vid, vid ∈ l.(vl_writable) -> exists locs,
    l.(vl_locations) !! vid = Some locs /\ Replica.copy_count l.(vl_rp) <= len locs
    /\ NoDup (map (dn_addr t) locs)).
  { intros vid Hv. destruct (li_copies _ _ H vid Hv) as (k & E & Hk). exists k.
    repeat split; [done..|]. by eapply (li_servers _ _ H). }
  unfold pick_for_write, active_volume_count, is_empty, lookup.
  destruct (vl_writable l) as [|v0 w] eqn:Ew.
  { cbn. split; [done|]. case_bool_decide; [by rewrite len_nil|done]. }
  rewrite <- Ew in Hlocs |- *. case_bool_decide as Hdc.
  - assert (0 < len (vl_writable l)) by (rewrite Ew, len_cons; pose proof (len_nonneg w); lia).
    destruct (gen_range_spec (E := VolumeError) (len (vl_writable l)) g) as (i & g' & Hg & Hi); [done|].
    unfold mbind'. rewrite Hg. cbn.
    destruct (lookup_lt_is_Some_2 (vl_writable l) (Z.to_nat i)) as [vid Hv]; [unfold len in *; lia|].
    rewrite Hv. cbn. pose proof (list_elem_of_lookup_2 _ _ _ Hv) as Hin.
    destruct (Hlocs vid Hin) as (k & Ek & Hk & Hn). rewrite Ek. cbn. done.
  - destruct (pick_volumes_ok o t l (vl_writable l)) with (p := Picked 0 0 None) (g := g)
      as (p & g' & Hp & [Hc Hok] & Hcnt); [done|by split|].
    unfold mbind'. rewrite Hp. cbn [p_counter] in Hcnt. rewrite <- Hcnt.
    destruct (p_locations p) as [locs|]; cbn; [|done].
    destruct Hok as (Hpos & Hv & Hl & Hr). destruct (Hlocs _ Hv) as (k & Ek & Hk & Hn).
    assert (k = locs) as -> by congruence. done.
Qed.

End picking.

(** C27: whatever the sequence of registrations, removals, node changes and
    compactions that led to a layout, [pick_for_write] never panics; it
    returns a writable volume with at least the replicas the placement asks
    for, on different servers, one of them in the data center, rack and node
    the request names when it names a data center; and it fails exactly when [active_volume_count] is
    zero, with [NoWritableVolumes]. *)
Theorem pick_for_write_correct : forall (R : Rng) rp t l o g,
  0 < Replica.copy_count rp -> layout_reachable rp (t, l) ->
  match (pick_for_write o t l g).2 with
  | Ok (vid, locs) =>
      0 < active_volume_count o t l /\ vid ∈ l.(vl_writable) /\ lookup vid l = Some locs
      /\ Replica.copy_count rp <= len locs /\ NoDup (map (dn_addr t) locs)
      /\ (o.(go_data_center) <> "" -> exists r, r ∈ locs /\ node_matches o t r = true)
  | Err e => e = VNoWritableVolumes /\ active_volume_count o t l = 0
  | Panic => False
  end.
Proof.
  intros R rp t l o g Hc Hr. destruct (layout_reachable_inv rp t l Hc Hr) as [Hi <-].
  by apply pick_for_write_lemma.
Qed.

(** Two replicas of volume 3, on the two servers of the sample cluster. *)
Definition rp_other_rack : replica_placement := ReplicaPlacement 0 1 0.
Definition replicated (id size : Z) : volume_info :=
  VolumeInfo id size rp_other_rack Ttl.default "" CURRENT_VERSION 0 0 0 false.
Definition sample_cluster : tree :=
  (add_or_update_volume 5 (replicated 3 0) (add_or_update_volume 4 (replicated 3 0) sample_topology).1).1.
Definition sample_layout : volume_layout :=
  register_volume sample_cluster (replicated 3 0) 5
    (register_volume sample_cluster (replicated 3 0) 4 (new rp_other_rack None 1000)).

Lemma sample_is_dn r : r = 4 \/ r = 5 -> is_dn sample_cluster r.
Proof. intros [-> | ->]; eexists; split; [vm_compute; reflexivity|reflexivity|vm_compute; reflexivity|reflexivity]. Qed.

Lemma sample_layout_reachable : layout_reachable rp_other_rack (sample_cluster, sample_layout).
Proof.
  eapply lr_step; [|apply ls_register; apply sample_is_dn; auto].
  eapply lr_step; [|apply ls_register; apply sample_is_dn; auto].
  apply lr_new.
Qed.

Lemma pick_for_write_correct_witness :
  let o := VolumeGrowOption "" rp_other_rack Ttl.default 0 "dc" "r2" "" in
  (pick_for_write (R := list_rng) o sample_cluster sample_layout [7]).2 = Ok (3, [4; 5])
  /\ Replica.copy_count rp_other_rack <= len [4; 5]
  /\ exists r, r ∈ [4; 5] /\ node_matches o sample_cluster r = true.
Proof.
  set (o := VolumeGrowOption "" rp_other_rack Ttl.default 0 "dc" "r2" "").
  assert (E : (pick_for_write (R := list_rng) o sample_cluster sample_layout [7]).2 = Ok (3, [4; 5]))
    by (vm_compute; reflexivity).
  pose proof (pick_for_write_correct list_rng rp_other_rack sample_cluster sample_layout o [7]
                ltac:(vm_compute; reflexivity) sample_layout_reachable) as H.
  cbv zeta. rewrite E in H |- *. destruct H as (_ & _ & _ & Hc & _ & Hm).
  split; [reflexivity|]. split; [exact Hc|]. apply Hm. discriminate.
Defined.

(** ** Registering decides who is writable *)

(** A replica that holds the volume and can be written. *)
Definition healthy (t : tree) (vid : Z) (r : nref) : bool :=
  match volumes_of r t !! vid with Some w => negb w.(vi_read_only) | None => false end.

Definition keyed (t : tree) (vid : Z) : Prop :=
  forall r w, volumes_of r t !! vid = Some w -> w.(vi_id) = vid.

Lemma check_replicas_spec t vid ls : keyed t vid -> forall l, NoDup l.(vl_writable) ->
  let l' := (check_replicas t vid ls l).1 in
  (check_replicas t vid ls l).2 = forallb (healthy t vid) ls
  /\ NoDup l'.(vl_writable)
  /\ l'.(vl_locations) = l.(vl_locations) /\ l'.(vl_volume_size_limit) = l.(vl_volume_size_limit)
  /\ forall x, x ∈ l'.(vl_writable) <-> x ∈ l.(vl_writable) /\ (forallb (healthy t vid) ls = false -> x <> vid).
Proof.
  intros Hk. induction ls as [|r ls IH]; intros l Hn; cbn [check_replicas forallb].
  { cbn. repeat split; [done|naive_solver..]. }
  unfold healthy at 1 3. destruct (volumes_of r t !! vid) as [w|] eqn:E.
  - rewrite (Hk _ _ E). destruct (vi_read_only w); cbn [negb andb].
    + destruct (remove_writable_spec vid l Hn) as (w' & Er & Hw & Hx). rewrite Er. cbn.
      repeat split; [done..| | |]; rewrite ?Hx; naive_solver.
    + destruct (IH (with_readonly (delete vid l.(vl_readonly)) l) Hn) as (H1 & H2 & H3 & H4 & H5).
      repeat split; [done..| | |]; intros; try (apply H5; naive_solver); by apply H5 in H as [].
  - destruct (remove_writable_spec vid l Hn) as (w' & Er & Hw & Hx). rewrite Er. cbn.
    repeat split; [done..| | |]; rewrite ?Hx; naive_solver.
Qed.

(** With the oversize mark of the volume up to date, [ensure_correct_writable]
    decides membership of that volume only. *)
Lemma ensure_spec v l locs : NoDup l.(vl_writable) -> l.(vl_locations) !! v.(vi_id) = Some locs ->
  (is_oversize v l = false -> l.(vl_oversize) !! v.(vi_id) = None) ->
  let l' := ensure_correct_writable v l in
  l'.(vl_locations) = l.(vl_locations) /\ NoDup l'.(vl_writable) /\
  forall x, x ∈ l'.(vl_writable) <->
    if decide (x = v.(vi_id)) then Replica.copy_count l.(vl_rp) <= len locs /\ is_writable v l = true
    else x ∈ l.(vl_writable).
Proof.
  intros Hn El Ho. unfold ensure_correct_writable. rewrite El.
  destruct (Z.leb_spec (Replica.copy_count l.(vl_rp)) (len locs)); cbn [andb].
  1: destruct (is_writable v l) eqn:Ew.
  - rewrite Ho. 2:{ unfold is_writable in Ew. by destruct (is_oversize v l). }
    destruct (set_writable_spec v.(vi_id) l Hn) as (w & -> & Hw & Hx).
    repeat split; [done|..]; cbn; rewrite Hx; destruct decide; naive_solver.
  - destruct (remove_writable_spec v.(vi_id) l Hn) as (w & -> & Hw & Hx).
    repeat split; [done|..]; cbn; rewrite Hx; destruct decide; naive_solver.
  - destruct (remove_writable_spec v.(vi_id) l Hn) as (w & -> & Hw & Hx).
    repeat split; [done|..]; cbn; rewrite Hx; destruct decide; naive_solver lia.
Qed.

(** What [register_volume] leaves, with the replicas spelled out. *)
Lemma register_volume_lemma t l v dn :
  layout_inv t l -> keyed t v.(vi_id) ->
  let l' := register_volume t v dn l in
  let locs := set_node t (replicas l v.(vi_id)) dn in
  lookup v.(vi_id) l' = Some locs
    /\ (v.(vi_id) ∈ l'.(vl_writable) <-> forallb (healthy t v.(vi_id)) locs = true
        /\ Replica.copy_count l.(vl_rp) <= len locs /\ is_writable v l = true)
    /\ forall x, x <> v.(vi_id) -> lookup x l' = lookup x l
        /\ (x ∈ l'.(vl_writable) <-> x ∈ l.(vl_writable)).
Proof.
  intros Hi Hk. cbv zeta. unfold register_volume.
  set (locs := set_node t (replicas l (vi_id v)) dn). set (l1 := with_locations _ l).
  destruct (check_replicas_spec t (vi_id v) locs Hk l1 (li_writable _ _ Hi)) as (H1 & H2 & H3 & H4 & H5).
  pose proof (check_replicas_rp t (vi_id v) locs l1) as H6.
  destruct (check_replicas t (vi_id v) locs l1) as [l2 b]. cbn [fst snd] in *. subst b.
  unfold lookup.
  assert (Hloc : forall l', l'.(vl_locations) = l1.(vl_locations) ->
    l'.(vl_locations) !! vi_id v = Some locs /\
    forall x, x <> vi_id v -> l'.(vl_locations) !! x = l.(vl_locations) !! x).
  { intros l' ->. cbn. split; [apply lookup_insert_eq|intros; by rewrite lookup_insert_ne]. }
  destruct (forallb (healthy t (vi_id v)) locs) eqn:Ef.
  - set (l3 := remember_oversized_volume v l2).
    assert (Hw3 : vl_writable l3 = vl_writable l2 /\ vl_rp l3 = vl_rp l2
      /\ vl_locations l3 = vl_locations l2 /\ is_writable v l3 = is_writable v l2
      /\ (is_oversize v l3 = false -> vl_oversize l3 !! vi_id v = None)).
    { unfold l3, remember_oversized_volume. destruct (is_oversize v l2) eqn:Eo; repeat split.
      - cbn. unfold is_oversize in *. cbn. congruence.
      - intros _. cbn. apply lookup_delete_eq. }
    destruct Hw3 as (W1 & W2 & W3 & W4 & W5).
    destruct (Hloc l3 ltac:(congruence)) as [L1 L2].
    destruct (ensure_spec v l3 locs) as (E1 & E2 & E3); [by rewrite W1|done..|].
    assert (Hisw : is_writable v l3 = is_writable v l)
      by (rewrite W4; unfold is_writable, is_oversize; by rewrite H4).
    rewrite E1. split; [done|]. split.
    + rewrite E3. destruct decide; [|done]. rewrite Hisw, W2, H6. naive_solver.
    + intros x Hx. split; [auto|]. rewrite E3. destruct decide; [done|]. rewrite W1, H5. naive_solver.
  - destruct (Hloc l2 H3) as [L1 L2]. split; [done|]. split.
    + rewrite H5. naive_solver.
    + intros x Hx. split; [auto|]. rewrite H5. naive_solver.
Qed.


(** A test for [keyed]. *)
Definition keyedb (t : tree) : bool :=
  forallb (fun e => match e.2.(nd_type) with
                    | TDataNode d => forallb (fun p => p.2.(vi_id) =? p.1) (map_to_list d.(dn_volumes))
                    | _ => true
                    end) (map_to_list t.(t_nodes)).

Lemma keyedb_ok t vid : keyedb t = true -> keyed t vid.
Proof.
  unfold keyedb. rewrite forallb_forall. intros H r w Hv. unfold volumes_of, get_node in Hv.
  destruct (t_nodes t !! r) as [nd|] eqn:E; [|by rewrite lookup_empty in Hv].
  specialize (H (r, nd)). cbn [snd] in H. rewrite <- list_elem_of_In, elem_of_map_to_list in H.
  specialize (H E). destruct (nd_type nd) as [| | |d]; [by rewrite lookup_empty in Hv..|].
  rewrite forallb_forall in H. specialize (H (vid, w)).
  rewrite <- list_elem_of_In, elem_of_map_to_list in H. specialize (H Hv). cbn in H. lia.
Qed.

Lemma sample_inv : layout_inv sample_cluster sample_layout.
Proof. by apply (layout_reachable_inv rp_other_rack _ _ eq_refl sample_layout_reachable). Qed.


Lemma ensure_other v l x : NoDup l.(vl_writable) -> x <> v.(vi_id) ->
  vl_locations (ensure_correct_writable v l) = vl_locations l
  /\ (x ∈ vl_writable (ensure_correct_writable v l) <-> x ∈ vl_writable l).
Proof.
  intros Hn Hx. unfold ensure_correct_writable. destruct (vl_locations l !! vi_id v); [|done].
  destruct (_ && _).
  - destruct (vl_oversize l !! vi_id v); [done|].
    destruct (set_writable_spec (vi_id v) l Hn) as (w & -> & _ & Hw). cbn. rewrite Hw. naive_solver.
  - destruct (remove_writable_spec (vi_id v) l Hn) as (w & -> & _ & Hw). cbn. rewrite Hw. naive_solver.
Qed.

Lemma remove_server_None t dn ls : remove_server t dn ls = None -> dn_addr t dn ∉ map (dn_addr t) ls.
Proof.
  induction ls as [|r ls IH]; cbn [remove_server map]; [set_solver|].
  destruct (same_server t r dn) eqn:E; [done|]. destruct (remove_server t dn ls); [done|].
  unfold same_server in E. apply bool_decide_eq_false in E. intros _. set_solver.
Qed.

Lemma not_same_server t dn ls : dn_addr t dn ∉ map (dn_addr t) ls ->
  forall r, r ∈ ls -> same_server t r dn = false.
Proof.
  intros H r Hr. unfold same_server. apply bool_decide_eq_false. intros E. apply H. rewrite <- E.
  apply list_elem_of_In, in_map, list_elem_of_In, Hr.
Qed.

Lemma drop_empty_lookup (m : gmap Z (list nref)) x :
  default [] (filter (fun e => e.2 <> []) m !! x) = default [] (m !! x)
  /\ filter (fun e => e.2 <> []) m !! x <> Some [].
Proof.
  split; [|by intros [_ H]%map_lookup_filter_Some].
  destruct (filter (fun e => e.2 <> []) m !! x) as [k|] eqn:E.
  - apply map_lookup_filter_Some in E as [-> _]. done.
  - apply map_lookup_filter_None in E as [->|E]; [done|].
    destruct (m !! x) as [[|y k]|] eqn:Em; [done| |done]. by destruct (E (y :: k) eq_refl).
Qed.

(** Unregistering a volume from a data node that is one of its replicas
    leaves no replica on that server and forgets the volume when it was the
    last one; a volume left without enough replicas is not writable, and the
    other volumes keep their replicas and stay writable or not. *)
Theorem unregister_volume_removes : forall t l v dn,
  0 < Replica.copy_count l.(vl_rp) -> layout_inv t l ->
  let l' := unregister_volume t v dn l in
  (forall r, r ∈ replicas l' v.(vi_id) -> same_server t r dn = false)
  /\ (dn_addr t dn ∈ map (dn_addr t) (replicas l v.(vi_id)) -> lookup v.(vi_id) l' <> Some [])
  /\ (len (replicas l' v.(vi_id)) < Replica.copy_count l.(vl_rp) -> v.(vi_id) ∉ l'.(vl_writable))
  /\ forall x, x <> v.(vi_id) -> replicas l' x = replicas l x
       /\ (x ∈ l'.(vl_writable) <-> x ∈ l.(vl_writable)).
Proof.
  intros t l v dn Hc Hi l'.
  assert (Hi' : layout_inv t l') by by apply unregister_inv.
  assert (Hrp : vl_rp l' = vl_rp l) by apply (layout_step_rp (t, l) (t, l')), ls_unregister.
  assert (H3 : len (replicas l' v.(vi_id)) < Replica.copy_count l.(vl_rp) -> v.(vi_id) ∉ l'.(vl_writable)).
  { intros Hl Hw. destruct (li_copies _ _ Hi' _ Hw) as (k & E & Hk). unfold replicas in Hl.
    rewrite E in Hl. cbn in Hl. rewrite Hrp in Hk. lia. }
  subst l'. revert H3. clear Hi' Hrp. unfold unregister_volume.
  destruct (vl_locations l !! vi_id v) as [ls|] eqn:E; cbn [mbind option_bind].
  2:{ intros H3. unfold replicas, lookup in *. rewrite E in *. cbn.
      split; [set_solver|]. by split. }
  destruct (remove_server t dn ls) as [locs|] eqn:Er; intros H3.
  - destruct (remove_server_servers _ _ _ _ Er (li_servers _ _ Hi _ _ E)) as (_ & _ & Hn).
    set (l1 := with_locations _ l) in *.
    assert (He : forall x, x <> vi_id v -> vl_locations (ensure_correct_writable v l1) = vl_locations l1
      /\ (x ∈ vl_writable (ensure_correct_writable v l1) <-> x ∈ vl_writable l1))
      by (intros; apply ensure_other; [apply Hi|done]).
    assert (Hl : vl_locations (ensure_correct_writable v l1) = vl_locations l1)
      by (apply (He (vi_id v + 1)); lia).
    unfold replicas at 1, lookup. cbn [vl_locations with_locations]. rewrite Hl in *.
    split; [|split; [|split; [exact H3|]]].
    + intros r. rewrite (proj1 (drop_empty_lookup _ _)). cbn. rewrite lookup_insert_eq.
      by apply not_same_server.
    + intros _. apply drop_empty_lookup.
    + intros x Hx. split; [|by apply (He x Hx)]. unfold replicas. cbn [vl_locations with_locations].
      rewrite (proj1 (drop_empty_lookup _ _)). cbn. by rewrite lookup_insert_ne by done.
  - apply remove_server_None in Er. unfold replicas in *. rewrite E in *. cbn.
    split; [by apply not_same_server|]. split; [done|]. by split.
Qed.

Lemma unregister_volume_removes_witness :
  let l' := unregister_volume sample_cluster (replicated 3 0) 5 sample_layout in
  0 < Replica.copy_count sample_layout.(vl_rp) /\ replicas l' 3 = [4] /\ 3 ∉ l'.(vl_writable).
Proof.
  destruct (unregister_volume_removes sample_cluster sample_layout (replicated 3 0) 5
              ltac:(vm_compute; reflexivity) sample_inv) as (_ & _ & H & _).
  split; [vm_compute; reflexivity|]. split; [vm_compute; reflexivity|].
  apply H. vm_compute. reflexivity.
Defined.
