(* ===== verification/VolumeGrow.v ===== *)
(** * Choosing the servers of a new volume ([topology/volume_grow.rs]) *)

From S2P Require Import Prelude Types Text Ttl Replica Errors Volume ShardBits Node NodeFacts Rand VolumeLayout.
#[local] Open Scope string_scope.
#[local] Open Scope list_scope.
#[local] Open Scope Z_scope.

Module Grow.

(** [find_volume_count]: logical volumes to create for a number of copies. *)
Definition find_volume_count (count : Z) : Z :=
  if count =? 1 then 7 else if count =? 2 then 6 else if count =? 3 then 3 else 1.

Definition free_of (t : tree) (r : nref) : Z :=
  match get_node t r with Some nd => free_space nd | None => 0 end.
Definition children_of (t : tree) (r : nref) : list nref :=
  match get_node t r with Some nd => map snd nd.(nd_children) | None => [] end.
Definition node_id (t : tree) (r : nref) : string := id_of (Some r) t.

Section grow.
Context {R : Rng}.

(** The loop over the candidates [i], [i+1], ...: the first ones fill
    [rest_nodes], a later one takes the place of a random one. *)
Fixpoint fill_rest (i : nat) (candidates : list nref) (rest_nodes : list (option nref)) (ret : bool)
  : M rng VolumeError (list (option nref) * bool) :=
  match candidates with
  | [] => mret (rest_nodes, ret)
  | c :: candidates' =>
      if Z.of_nat i <? len rest_nodes then
        fill_rest (S i) candidates' (<[i := Some c]> rest_nodes)
          (if Z.of_nat i =? len rest_nodes - 1 then true else ret)
      else
        let* x := gen_range (Z.of_nat i + 1) in
        fill_rest (S i) candidates'
          (if x <? len rest_nodes then <[Z.to_nat x := Some c]> rest_nodes else rest_nodes) ret
  end.

(** [randomly_pick_nodes] *)
Definition randomly_pick_nodes (t : tree) (children : list nref) (accept : nref -> bool) (nodes_num : Z)
  : M rng VolumeError (nref * list (option nref)) :=
  let candidates := filter (fun r => accept r = true) children in
  if bool_decide (candidates = []) then mthrow VNoFreeSpace
  else
    let* first_idx := gen_range (len candidates) in
    let* main_dn := mlift (unwrap (candidates !! Z.to_nat first_idx)) in
    let rest := filter (fun r => node_id t r <> node_id t main_dn /\ 0 < free_of t r) children in
    let* '(rest_nodes, ret) :=
      fill_rest 0 rest (replicate (Z.to_nat nodes_num) None) (nodes_num =? 0) in
    if ret then mret (main_dn, rest_nodes) else mthrow VNoFreeSpace.

(** The filters of [find_empty_slots].  The counters compared with the fields
    of the placement have their type, [u8]. *)
Definition accept_data_center (o : grow_option) (t : tree) (dc : nref) : bool :=
  let rp := o.(go_replica_placement) in
  if negb (is_empty o.(go_data_center)) && negb (bool_decide (node_id t dc = o.(go_data_center))) then false
  else if len (children_of t dc) <? rp.(diff_rack_count) + 1 then false
  else if free_of t dc <? u8 (rp.(diff_rack_count) + rp.(same_rack_count)) + 1 then false
  else
    let possible_racks_count :=
      fold_left (fun racks rack =>
        let possible_nodes_count :=
          fold_left (fun nodes dn => if 1 <=? free_of t dn then u8 (nodes + 1) else nodes)
            (children_of t rack) 0 in
        if rp.(same_rack_count) <? possible_nodes_count then u8 (racks + 1) else racks)
        (children_of t dc) 0 in
    if possible_racks_count <? u8 (rp.(diff_rack_count) + 1) then false else true.

Definition accept_rack (o : grow_option) (t : tree) (rack : nref) : bool :=
  let rp := o.(go_replica_placement) in
  if negb (is_empty o.(go_rack)) && negb (bool_decide (o.(go_rack) = node_id t rack)) then false
  else if free_of t rack <? rp.(same_rack_count) + 1 then false
  else if len (children_of t rack) <? rp.(same_rack_count) + 1 then false
  else
    let possible_nodes :=
      fold_left (fun nodes dn => if 1 <=? free_of t dn then nodes + 1 else nodes) (children_of t rack) 0 in
    if possible_nodes <? rp.(same_rack_count) + 1 then false else true.

Definition accept_data_node (o : grow_option) (t : tree) (dn : nref) : bool :=
  if negb (is_empty o.(go_data_node)) && negb (bool_decide (o.(go_data_node) = node_id t dn)) then false
  else if free_of t dn <? 1 then false else true.

(** [downcast_node] *)
Definition downcast_node (t : tree) (r : nref) : outcome VolumeError nref :=
  match get_node t r with
  | Some nd => if is_data_node nd then Ok r else Err VWrongNodeType
  | None => Panic
  end.

Fixpoint downcast_nodes (t : tree) (rs : list nref) : outcome VolumeError (list nref) :=
  match rs with
  | [] => Ok []
  | r :: rs' => let? d := downcast_node t r in let? ds := downcast_nodes t rs' in Ok (d :: ds)
  end.

(** One slot in each of the racks or data centers. *)
Fixpoint reserve_each (t : tree) (rs : list nref) : M rng VolumeError (list nref) :=
  match rs with
  | [] => mret []
  | r :: rs' =>
      let* x := gen_range (free_of t r) in
      let* node := mlift (reserve_one_volume r x t) in
      let* nodes := reserve_each t rs' in
      mret (node :: nodes)
  end.

(** [into_iter().flatten()] *)
Definition flatten (l : list (option nref)) : list nref := omap id l.

Definition find_empty_slots (o : grow_option) (topo : nref) (t : tree) : M rng VolumeError (list nref) :=
  let rp := o.(go_replica_placement) in
  let* '(main_data_center, other_centers) :=
    randomly_pick_nodes t (children_of t topo) (accept_data_center o t) rp.(diff_data_center_count) in
  let* '(main_rack, other_racks) :=
    randomly_pick_nodes t (children_of t main_data_center) (accept_rack o t) rp.(diff_rack_count) in
  let* '(main_dn, other_nodes) :=
    randomly_pick_nodes t (children_of t main_rack) (accept_data_node o t) rp.(same_rack_count) in
  let* main := mlift (downcast_node t main_dn) in
  let* same := mlift (downcast_nodes t (flatten other_nodes)) in
  let* racks := reserve_each t (flatten other_racks) in
  let* centers := reserve_each t (flatten other_centers) in
  mret (main :: same ++ racks ++ centers).

End grow.

End Grow.
