(* ===== verification/VolumeGrowFacts.v ===== *)
(** * A new volume is placed as its replication asks

    Whatever the random choices, the servers found for a volume are as many as
    the placement wants, spread over nodes, racks and data centers as it wants,
    and have a free slot each. *)

From S2P Require Import Prelude Types Text Ttl Replica Errors Volume ShardBits Node NodeFacts Rand VolumeLayout VolumeLayoutFacts VolumeGrow.
#[local] Open Scope string_scope.
#[local] Open Scope list_scope.
#[local] Open Scope Z_scope.

Import Grow.

(** ** Picking without replacement *)

Lemma NoDup_insert_fresh {A} (l k : list A) i c :
  NoDup (l ++ c :: k) -> NoDup (<[i := c]> l ++ k).
Proof.
  intros H. destruct (decide (i < length l)%nat) as [Hi|Hi].
  - destruct (lookup_lt_is_Some_2 l i Hi) as [y Hy].
    rewrite (insert_take_drop l i c Hi). rewrite <- (take_drop_middle l i y Hy) in H.
    assert (Hp : (take i l ++ y :: drop (S i) l) ++ c :: k
                 ≡ₚ y :: ((take i l ++ c :: drop (S i) l) ++ k)) by solve_Permutation.
    rewrite Hp, NoDup_cons in H. apply H.
  - rewrite list_insert_ge by lia. rewrite NoDup_app, NoDup_cons in *. set_solver.
Qed.

Lemma insert_elem {A} (l : list A) i c y : y ∈ <[i := c]> l -> y = c \/ y ∈ l.
Proof.
  intros (j & Hj)%list_elem_of_lookup. apply list_lookup_insert_Some in Hj as [(-> & -> & _)|[_ Hj]]; [by left|].
  right. by eapply list_elem_of_lookup_2.
Qed.

Section picking.
Context {R : Rng}.

Lemma fill_rest_spec n cands : forall i picks g,
  length picks = (i `min` n)%nat -> NoDup (picks ++ cands) ->
  exists picks' g',
    fill_rest i cands (map Some picks ++ replicate (n - length picks) None) (bool_decide (n <= i)%nat) g
    = (g', Ok (map Some picks' ++ replicate (n - length picks') None,
               bool_decide (n <= i + length cands)%nat))
    /\ length picks' = ((i + length cands) `min` n)%nat /\ NoDup picks'
    /\ (forall x, x ∈ picks' -> x ∈ picks \/ x ∈ cands).
Proof.
  induction cands as [|c cands IH]; intros i picks g Hl Hn; cbn [fill_rest length].
  { exists picks, g. rewrite Nat.add_0_r. rewrite app_nil_r in Hn. naive_solver. }
  assert (Hlen : len (map Some picks ++ replicate (n - length picks) None) = Z.of_nat n).
  { rewrite len_app, len_replicate. unfold len. rewrite length_map. lia. }
  rewrite Hlen. replace (i + S (length cands))%nat with (S i + length cands)%nat by lia.
  destruct (Z.ltb_spec (Z.of_nat i) (Z.of_nat n)) as [Hi|Hi].
  - destruct (IH (S i) (picks ++ [c]) g) as (p' & g' & Hf & H1 & H2 & H3).
    { rewrite length_app. cbn [length]. lia. }
    { by rewrite <- app_assoc. }
    exists p', g'. split; [|split; [done|split; [done|]]].
    + rewrite <- Hf. f_equal.
      * replace (n - length picks)%nat with (S (n - length (picks ++ [c])))
          by (rewrite length_app; cbn [length]; lia).
        cbn [replicate]. rewrite insert_app_r_alt by (rewrite length_map; lia).
        rewrite length_map. replace (i - length picks)%nat with 0%nat by lia. cbn.
        rewrite map_app, <- app_assoc. done.
      * destruct (Z.eqb_spec (Z.of_nat i) (Z.of_nat n - 1)); repeat case_bool_decide; lia || done.
    + intros x Hx. destruct (H3 x Hx); set_solver.
  - assert (Hp : n = length picks) by lia.
    destruct (gen_range_spec (E := VolumeError) (Z.of_nat i + 1) g) as (x & g1 & Hg & Hx); [lia|].
    unfold mbind'. rewrite Hg.
    assert (Hb : forall j, (n <= j)%nat -> bool_decide (n <= j)%nat = true) by (intros; by apply bool_decide_true).
    rewrite (Hb i) by lia.
    destruct (Z.ltb_spec x (Z.of_nat n)).
    + destruct (IH (S i) (<[Z.to_nat x := c]> picks) g1) as (p' & g' & Hf & H1 & H2 & H3).
      { rewrite length_insert. lia. }
      { by apply NoDup_insert_fresh. }
      rewrite (Hb (S i)) in Hf by lia. exists p', g'. split; [|split; [done|split; [done|]]].
      * rewrite <- Hf. rewrite length_insert, Hp, Nat.sub_diag. cbn [replicate]. rewrite !app_nil_r.
        f_equal. change (map Some) with (fmap (M := list) (Some (A := nref))). by rewrite list_fmap_insert.
      * intros y Hy. destruct (H3 y Hy) as [Hy'|]; [|set_solver].
        apply insert_elem in Hy'. set_solver.
    + destruct (IH (S i) picks g1) as (p' & g' & Hf & H1 & H2 & H3); [lia| |].
      { eapply sublist_NoDup; [exact Hn|]. apply sublist_app; [done|]. by constructor. }
      rewrite (Hb (S i)) in Hf by lia. exists p', g'. split; [done|split; [done|split; [done|]]]. intros y Hy. destruct (H3 y Hy); set_solver.
Qed.

Lemma map_Some_full (l : list nref) n : (n <= length l)%nat ->
  map Some l ++ replicate (n - length l) None = map Some l.
Proof. intros. replace (n - length l)%nat with 0%nat by lia. apply app_nil_r. Qed.

Lemma pick_nodes_spec t children accept n g : NoDup children -> 0 <= n ->
  match (randomly_pick_nodes t children accept n g).2 with
  | Ok (main, rest) => main ∈ children /\ accept main = true /\ exists picks,
      rest = map Some picks /\ len picks = n /\ NoDup (main :: picks)
      /\ forall x, x ∈ picks -> x ∈ children /\ 0 < free_of t x
  | Err e => e = VNoFreeSpace
  | Panic => False
  end.
Proof.
  intros Hn Hpos. unfold randomly_pick_nodes. set (cands := filter _ children).
  case_bool_decide as Hc; [done|].
  destruct (gen_range_spec (E := VolumeError) (len cands) g) as (x & g1 & Hg & Hx).
  { destruct cands; [done|]. unfold len. cbn. lia. }
  destruct (lookup_lt_is_Some_2 cands (Z.to_nat x)) as [main Hm]; [unfold len in *; lia|].
  unfold mbind', mlift. rewrite Hg, Hm. cbn [unwrap].
  set (rest := filter _ children).
  destruct (fill_rest_spec (Z.to_nat n) rest 0 [] g1) as (picks & g2 & Hf & H1 & H2 & H3);
    [cbn; lia|by apply NoDup_filter|].
  cbn [length map app] in Hf. rewrite Nat.sub_0_r in Hf.
  replace (bool_decide (Z.to_nat n <= 0)%nat) with (n =? 0) in Hf
    by (destruct (Z.eqb_spec n 0); case_bool_decide; lia || done).
  rewrite Hf. clear Hf. cbn [plus] in *. case_bool_decide as Hb; [|by cbn]. cbn [mret snd].
  apply list_elem_of_lookup_2 in Hm. apply list_elem_of_filter in Hm as [Ha Hm].
  split; [done|]. split; [done|]. exists picks.
  assert (Hin : forall y, y ∈ picks -> y ∈ rest) by (intros y Hy; destruct (H3 y Hy); set_solver).
  split; [apply map_Some_full; lia|]. split; [unfold len; lia|]. split.
  - apply NoDup_cons. split; [|done]. intros Hp%Hin%list_elem_of_filter. naive_solver.
  - intros y Hy%Hin%list_elem_of_filter. naive_solver.
Qed.

Lemma flatten_map_Some l : flatten (map Some l) = l.
Proof. unfold flatten. induction l as [|x l IH]; [done|]. cbn. by rewrite IH. Qed.

End picking.

(** ** Reserving a slot below a rack or a data center *)

Fixpoint up (k : nat) (t : tree) (r : nref) : option nref :=
  match k with O => Some r | S k => parent_of r t ≫= up k t end.

Lemma up_S k t r p : up k t r = Some p -> up (S k) t r = parent_of p t.
Proof.
  revert r. induction k as [|k IH]; intros r; cbn [up]; [intros [= ->]; by destruct (parent_of p t)|].
  destruct (parent_of r t) as [q|]; cbn; [apply IH|done].
Qed.

Definition slot_below (k : nat) (t : tree) (r : nref) (o : outcome VolumeError nref) : Prop :=
  match o with
  | Ok c => up k t c = Some r /\ is_dn t c /\ 0 < free_of t c
  | Err e => e = VNoFreeSpace
  | Panic => False
  end.

Lemma reserve_below t : shape t -> forall fuel k r rn x,
  get_node t r = Some rn -> level rn = Z.of_nat k -> (k < fuel)%nat ->
  slot_below k t r (reserve_up fuel r x t).
Proof.
  intros Hs. induction fuel as [|fuel IH]; intros k r rn x Hr Hl Hk; [lia|].
  cbn [reserve_up]. rewrite Hr.
  assert (Hc : forall id c, (id, c) ∈ nd_children rn -> exists cn,
    get_node t c = Some cn /\ nd_parent cn = Some r /\ level rn = level cn + 1).
  { intros id c Hin. destruct (sh_child t Hs r rn id c Hr Hin) as (cn & ? & ? & _ & ?). eauto. }
  revert x Hc. induction (nd_children rn) as [|[id c] cs IHc]; intros x Hc; [done|].
  destruct (Hc id c) as (cn & Hcn & Hp & Hlev); [by left|]. rewrite Hcn.
  assert (Hc' : forall id' c', (id', c') ∈ cs -> exists cn,
    get_node t c' = Some cn /\ nd_parent cn = Some r /\ level rn = level cn + 1).
  { intros id' c' Hin. apply (Hc id' c'). by right. }
  destruct (Z.leb_spec (free_space cn) 0); [by apply IHc|].
  destruct (Z.leb_spec (free_space cn) x); [by apply IHc|].
  assert (Hpar : parent_of c t = Some r) by (unfold parent_of; by rewrite Hcn).
  destruct (is_data_node cn) eqn:Ed; cbn [andb].
  - rewrite (proj2 (Z.ltb_lt 0 (free_space cn))) by lia.
    assert (k = 1%nat) as -> by (apply level_data_node in Ed; lia).
    cbn [slot_below up]. rewrite Hpar. repeat split; [by exists cn|]. unfold free_of. by rewrite Hcn.
  - destruct k as [|k]; [pose proof (level_range cn); lia|].
    pose proof (IH k c cn x Hcn ltac:(lia) ltac:(lia)) as Hr'.
    destruct (reserve_up fuel c x t) as [d| |]; cbn [slot_below] in *; [|done..].
    destruct Hr' as (Hu & Hd & Hf). split; [|done]. by rewrite (up_S k t d c Hu).
Qed.

Section reserving.
Context {R : Rng}.

Lemma reserve_each_spec t k rs : shape t -> (k <= 3)%nat ->
  (forall r, r ∈ rs -> 0 < free_of t r /\ exists rn, get_node t r = Some rn /\ level rn = Z.of_nat k) ->
  forall g, match (reserve_each t rs g).2 with
  | Ok ns => map (up k t) ns = map Some rs /\ Forall (fun c => is_dn t c /\ 0 < free_of t c) ns
  | Err e => e = VNoFreeSpace
  | Panic => False
  end.
Proof.
  intros Hs Hk. induction rs as [|r rs IH]; intros Hrs g; cbn [reserve_each]; [by cbn|].
  destruct (Hrs r) as (Hf & rn & Hr & Hl); [set_solver|].
  destruct (gen_range_spec (E := VolumeError) (free_of t r) g) as (x & g1 & Hg & Hx); [done|].
  unfold mbind' at 1. rewrite Hg.
  pose proof (reserve_below t Hs MAX_DEPTH k r rn x Hr Hl ltac:(unfold MAX_DEPTH; lia)) as Hb.
  unfold mbind' at 1, mlift, reserve_one_volume.
  destruct (reserve_up MAX_DEPTH r x t) as [c|e|]; cbn [slot_below snd] in *; [|done..].
  assert (Hrs' : forall r0, r0 ∈ rs -> 0 < free_of t r0 /\ exists rn0, get_node t r0 = Some rn0 /\ level rn0 = Z.of_nat k)
    by (intros; apply Hrs; set_solver).
  specialize (IH Hrs' g1). unfold mbind'. destruct (reserve_each t rs g1) as [g2 [ns|e|]]; cbn in *; [|done..].
  destruct IH as [H1 H2], Hb as (B1 & B2 & B3). split; [|by constructor]. by rewrite B1, H1.
Qed.

End reserving.

Lemma children_level t r rn c : shape t -> get_node t r = Some rn -> c ∈ children_of t r ->
  exists cn, get_node t c = Some cn /\ parent_of c t = Some r /\ level rn = level cn + 1.
Proof.
  unfold children_of. intros Hs Hr. rewrite Hr. intros ([id c'] & -> & Hin)%list_elem_of_fmap.
  destruct (sh_child t Hs r rn id c' Hr Hin) as (cn & H1 & H2 & _ & H3). exists cn. split; [done|].
  split; [|done]. cbn [snd]. unfold parent_of. by rewrite H1.
Qed.

Lemma children_NoDup t r : shape t -> NoDup (children_of t r).
Proof.
  intros Hs. unfold children_of. destruct (get_node t r) eqn:E; [by eapply shape_refs|constructor].
Qed.

Lemma downcast_nodes_spec t rs : match downcast_nodes t rs with
  | Ok ds => ds = rs /\ Forall (is_dn t) rs
  | Err e => e = VWrongNodeType /\ exists r, r ∈ rs /\ exists nd, get_node t r = Some nd /\ is_data_node nd = false
  | Panic => exists r, r ∈ rs /\ get_node t r = None
  end.
Proof.
  induction rs as [|r rs IH]; cbn [downcast_nodes]; [done|]. unfold downcast_node.
  destruct (get_node t r) as [nd|] eqn:E; cbn; [|exists r; set_solver].
  destruct (is_data_node nd) eqn:Ed; cbn; [|split; [done|]; exists r; set_solver].
  destruct (downcast_nodes t rs) as [ds|e|]; cbn in *.
  - destruct IH as [-> IH]. split; [done|]. constructor; [by exists nd|done].
  - destruct IH as (-> & x & Hx & ?). split; [done|]. exists x. set_solver.
  - destruct IH as (x & Hx & ?). exists x. set_solver.
Qed.

(** ** Placement *)

(** [up 1] of a data node is its rack, [up 2] its data center. *)
Definition placed (rp : replica_placement) (t : tree) (main : nref) (same racks centers : list nref) : Prop :=
  (len same = rp.(same_rack_count) /\ len racks = rp.(diff_rack_count)
   /\ len centers = rp.(diff_data_center_count))
  /\ (NoDup (main :: same) /\ forall r, r ∈ same -> up 1 t r = up 1 t main)
  /\ (NoDup (map (up 1 t) (main :: racks)) /\ forall r, r ∈ racks -> up 2 t r = up 2 t main)
  /\ NoDup (map (up 2 t) (main :: centers))
  /\ Forall (fun c => is_dn t c /\ 0 < free_of t c) (main :: same ++ racks ++ centers).

(** The requested data center, rack and node. *)
Definition requested (o : grow_option) (t : tree) (main : nref) : Prop :=
  (o.(go_data_center) = "" \/ data_center_id main t = o.(go_data_center))
  /\ (o.(go_rack) = "" \/ rack_id main t = o.(go_rack))
  /\ (o.(go_data_node) = "" \/ node_id t main = o.(go_data_node)).

Lemma fresh_by {A B} (f : A -> B) main l x : NoDup (map f (main :: l)) -> x ∈ l -> f x <> f main.
Proof.
  cbn. intros [H _]%NoDup_cons Hx E. apply H. rewrite <- E. by apply (list_elem_of_fmap_2 f).
Qed.

Lemma up_2 t r r' : up 1 t r = up 1 t r' -> up 2 t r = up 2 t r'.
Proof.
  cbn. destruct (parent_of r t), (parent_of r' t); cbn; intros E; congruence.
Qed.

Lemma placed_NoDup rp t main same racks centers :
  placed rp t main same racks centers -> NoDup (main :: same ++ racks ++ centers).
Proof.
  intros (_ & [H1 H2] & [H3 H4] & H5 & _).
  pose proof (fun x => fresh_by (up 1 t) main racks x H3) as F1.
  pose proof (fun x => fresh_by (up 2 t) main centers x H5) as F2.
  apply NoDup_fmap_1, NoDup_cons in H3 as [H3 H3'], H5 as [H5 H5']. apply NoDup_cons in H1 as [H1 H1'].
  apply NoDup_cons. split; [set_solver|]. apply NoDup_app. split; [done|]. split.
  - intros x Hx. rewrite elem_of_app. intros [Hr|Hc]; [by apply (F1 x Hr), H2|].
    apply (F2 x Hc), up_2, H2, Hx.
  - apply NoDup_app. split; [done|]. split; [|done]. intros x Hx Hc. by apply (F2 x Hc), H4.
Qed.

Lemma accept_dc_id o t dc : accept_data_center o t dc = true ->
  o.(go_data_center) = "" \/ node_id t dc = o.(go_data_center).
Proof. unfold accept_data_center, is_empty. repeat case_bool_decide; naive_solver. Qed.
Lemma accept_rack_id o t r : accept_rack o t r = true -> o.(go_rack) = "" \/ node_id t r = o.(go_rack).
Proof. unfold accept_rack, is_empty. repeat case_bool_decide; naive_solver. Qed.
Lemma accept_dn_id o t r : accept_data_node o t r = true ->
  (o.(go_data_node) = "" \/ node_id t r = o.(go_data_node)) /\ 0 < free_of t r.
Proof.
  unfold accept_data_node, is_empty. intros H. split.
  - revert H. repeat case_bool_decide; naive_solver.
  - revert H. destruct (_ && _); [done|]. destruct (Z.ltb_spec (free_of t r) 1); [done|lia].
Qed.

Definition nonneg_fields (rp : replica_placement) : Prop :=
  0 <= rp.(same_rack_count) /\ 0 <= rp.(diff_rack_count) /\ 0 <= rp.(diff_data_center_count).

Definition child_at (t : tree) (r : nref) (l : Z) (x : nref) : Prop :=
  exists xn, get_node t x = Some xn /\ parent_of x t = Some r /\ level xn = l.

Lemma pick_children_spec {R : Rng} t r rn l accept n g :
  shape t -> get_node t r = Some rn -> level rn = l + 1 -> 0 <= n ->
  match (randomly_pick_nodes t (children_of t r) accept n g).2 with
  | Ok (main, rest) => accept main = true /\ len (flatten rest) = n /\ NoDup (main :: flatten rest)
      /\ (forall x, x ∈ main :: flatten rest -> child_at t r l x)
      /\ (forall x, x ∈ flatten rest -> 0 < free_of t x)
  | Err e => e = VNoFreeSpace
  | Panic => False
  end.
Proof.
  intros Hs Hr Hl Hn.
  pose proof (pick_nodes_spec t (children_of t r) accept n g (children_NoDup t r Hs) Hn) as Hp.
  destruct (randomly_pick_nodes t (children_of t r) accept n g) as [g1 [[main rest]|e|]]; cbn [snd] in *; [|done..].
  destruct Hp as (H1 & H2 & picks & -> & H3 & H4 & H5). rewrite flatten_map_Some.
  do 3 (split; [done|]). split; [|intros x Hx; by apply H5]. intros x Hx.
  assert (Hc : x ∈ children_of t r) by (apply elem_of_cons in Hx as [->|Hx]; [done|by apply H5]).
  destruct (children_level t r rn x Hs Hr Hc) as (xn & E1 & E2 & E3). exists xn. split; [done|]. split; [done|lia].
Qed.

(** The data nodes below the picked nodes are where they should be. *)
Lemma placed_from rp t dc dcs rk rks dn dns racks centers :
  len dcs = rp.(diff_data_center_count) -> NoDup (dc :: dcs) ->
  len rks = rp.(diff_rack_count) -> NoDup (rk :: rks) -> (forall x, x ∈ rk :: rks -> child_at t dc 1 x) ->
  len dns = rp.(same_rack_count) -> NoDup (dn :: dns) -> (forall x, x ∈ dn :: dns -> child_at t rk 0 x) ->
  map (up 1 t) racks = map Some rks -> map (up 2 t) centers = map Some dcs ->
  Forall (fun c => is_dn t c /\ 0 < free_of t c) (dn :: dns ++ racks ++ centers) ->
  placed rp t dn dns racks centers.
Proof.
  intros D1 D2 R1 R2 R3 N1 N2 N3 Q1 C1 Hall.
  assert (U1 : forall x, x ∈ dn :: dns -> up 1 t x = Some rk).
  { intros x Hx. destruct (N3 x Hx) as (xn & _ & Hp & _). cbn. by rewrite Hp. }
  assert (U2 : up 2 t dn = Some dc).
  { rewrite (up_S 1 t dn rk) by (apply U1; set_solver). destruct (R3 rk) as (rn & _ & Hp & _); [set_solver|done]. }
  assert (L1 : len racks = len rks) by (rewrite <- (len_map (up 1 t)), Q1; apply len_map).
  assert (L2 : len centers = len dcs) by (rewrite <- (len_map (up 2 t)), C1; apply len_map).
  split; [lia|]. split; [|split; [|split; [|done]]].
  - split; [done|]. intros r Hr. by rewrite !U1 by set_solver.
  - split.
    + cbn [map]. rewrite Q1, U1 by set_solver. by apply (NoDup_fmap_2 Some (rk :: rks)).
    + intros r Hr. assert (Hp : up 1 t r ∈ map Some rks)
        by (rewrite <- Q1; by apply (list_elem_of_fmap_2 (up 1 t))).
      apply list_elem_of_fmap in Hp as (p & E & Hp).
      destruct (R3 p) as (pn & _ & Hpp & _); [set_solver|]. rewrite (up_S 1 t r p E). congruence.
  - cbn [map]. rewrite C1, U2. by apply (NoDup_fmap_2 Some (dc :: dcs)).
Qed.

Lemma requested_from o t dc rk dn : accept_data_center o t dc = true -> accept_rack o t rk = true ->
  accept_data_node o t dn = true -> parent_of rk t = Some dc -> parent_of dn t = Some rk ->
  requested o t dn.
Proof.
  intros H1%accept_dc_id H2%accept_rack_id [H3 _]%accept_dn_id P1 P2.
  unfold requested, data_center_id, rack_id. rewrite P2. cbn [mbind option_bind]. by rewrite P1.
Qed.

Lemma find_empty_slots_lemma {R : Rng} o topo tn t g :
  shape t -> get_node t topo = Some tn -> level tn = 3 -> nonneg_fields o.(go_replica_placement) ->
  match (find_empty_slots o topo t g).2 with
  | Ok ns => exists main same racks centers, ns = main :: same ++ racks ++ centers
      /\ placed o.(go_replica_placement) t main same racks centers /\ requested o t main
  | Err e => e = VNoFreeSpace
  | Panic => False
  end.
Proof.
  intros Hs Ht Hl (P1 & P2 & P3). unfold find_empty_slots. set (rp := go_replica_placement o) in *.
  pose proof (pick_children_spec t topo tn 2 (accept_data_center o t) _ g Hs Ht Hl P3) as Hdc.
  unfold mbind' at 1. destruct (randomly_pick_nodes t (children_of t topo) _ _ g) as [g1 [[dc dcs]|e|]]; [|done..].
  destruct Hdc as (D1 & D2 & D3 & D4 & D5). destruct (D4 dc) as (dcn & Edc & _ & Ldc); [set_solver|].
  pose proof (pick_children_spec t dc dcn 1 (accept_rack o t) _ g1 Hs Edc Ldc P2) as Hrk.
  unfold mbind' at 1. destruct (randomly_pick_nodes t (children_of t dc) _ _ g1) as [g2 [[rk rks]|e|]]; [|done..].
  destruct Hrk as (R1 & R2 & R3 & R4 & R5). destruct (R4 rk) as (rkn & Erk & Prk & Lrk); [set_solver|].
  pose proof (pick_children_spec t rk rkn 0 (accept_data_node o t) _ g2 Hs Erk Lrk P1) as Hdn.
  unfold mbind' at 1. destruct (randomly_pick_nodes t (children_of t rk) _ _ g2) as [g3 [[dn dns]|e|]]; [|done..].
  destruct Hdn as (N1 & N2 & N3 & N4 & N5). destruct (N4 dn) as (dnn & Edn & Pdn & Ldn); [set_solver|].
  unfold mbind' at 1, mlift at 1, downcast_node. rewrite Edn, (proj2 (level_data_node dnn) Ldn).
  unfold mbind' at 1, mlift at 1.
  assert (Hds : downcast_nodes t (flatten dns) = Ok (flatten dns) /\ Forall (is_dn t) (flatten dns)).
  { pose proof (downcast_nodes_spec t (flatten dns)) as H. destruct (downcast_nodes t (flatten dns)).
    - by destruct H as [-> ?].
    - destruct H as (_ & x & Hx & nd & E1 & E2). destruct (N4 x) as (nd' & E3 & _ & L); [set_solver|].
      assert (nd' = nd) as -> by congruence. apply level_data_node in L. congruence.
    - destruct H as (x & Hx & E1). destruct (N4 x) as (nd' & ? & _); [set_solver|congruence]. }
  destruct Hds as [-> Hds].
  assert (Hrr := reserve_each_spec t 1 (flatten rks) Hs ltac:(lia)
    ltac:(intros r Hr; split; [by apply R5|]; destruct (R4 r) as (rn & ? & _ & ?); [set_solver|by exists rn]) g3).
  unfold mbind' at 1. destruct (reserve_each t (flatten rks) g3) as [g4 [racks|e|]]; [|done..].
  assert (Hrc := reserve_each_spec t 2 (flatten dcs) Hs ltac:(lia)
    ltac:(intros r Hr; split; [by apply D5|]; destruct (D4 r) as (rn & ? & _ & ?); [set_solver|by exists rn]) g4).
  unfold mbind' at 1. destruct (reserve_each t (flatten dcs) g4) as [g5 [centers|e|]]; [|done..].
  destruct Hrr as [Q1 Q2], Hrc as [C1 C2]. cbn [mret snd].
  exists dn, (flatten dns), racks, centers. split; [done|]. split; [|by eapply requested_from].
  eapply placed_from; try done. constructor.
  - split; [exists dnn; split; [done|by apply level_data_node]|by apply (accept_dn_id o)].
  - rewrite !Forall_app. split; [|done]. apply Forall_forall. intros x Hx.
    split; [by apply (proj1 (Forall_forall _ _) Hds)|by apply N5].
Qed.

(** C26: the servers [find_empty_slots] returns for a new volume, whatever the
    random choices, are as many as the placement asks for, all different, all
    data nodes with a free slot: the main one in the requested data center,
    rack and node; [same_rack_count] more in its rack; [diff_rack_count] in
    other racks of its data center, all different; [diff_data_center_count] in
    other data centers, all different.  Otherwise it fails with [NoFreeSpace],
    and it never panics. *)
Theorem find_empty_slots_places : forall (R : Rng) o tn t g,
  tree_ok t -> get_node t 0 = Some tn -> level tn = 3 -> nonneg_fields o.(go_replica_placement) ->
  match (find_empty_slots o 0 t g).2 with
  | Ok ns => exists main same racks centers, ns = main :: same ++ racks ++ centers /\ NoDup ns
      /\ placed o.(go_replica_placement) t main same racks centers /\ requested o t main
  | Err e => e = VNoFreeSpace
  | Panic => False
  end.
Proof.
  intros R o tn t g Hr Ht Hl Hn.
  pose proof (find_empty_slots_lemma o 0 tn t g (ok_shape t Hr) Ht Hl Hn) as H.
  destruct (find_empty_slots o 0 t g) as [g' [ns|e|]]; cbn [snd] in *; [|done..].
  destruct H as (main & same & racks & centers & -> & H1 & H2). exists main, same, racks, centers.
  split; [done|]. split; [by eapply placed_NoDup|done].
Qed.

Lemma find_empty_slots_places_witness :
  let o := VolumeGrowOption "" (ReplicaPlacement 0 1 0) Ttl.default 0 "dc" "r2" "" in
  exists main racks, (find_empty_slots (R := list_rng) o 0 sample_topology [0]).2 = Ok (main :: racks)
    /\ main = 5 /\ racks = [4] /\ NoDup (main :: racks) /\ requested o sample_topology main.
Proof.
  set (o := VolumeGrowOption "" (ReplicaPlacement 0 1 0) Ttl.default 0 "dc" "r2" "").
  assert (E : (find_empty_slots (R := list_rng) o 0 sample_topology [0]).2 = Ok [5; 4]) by (vm_compute; reflexivity).
  destruct (get_node sample_topology 0) as [tn|] eqn:Et; [|vm_compute in Et; discriminate Et].
  pose proof (find_empty_slots_places list_rng o tn sample_topology [0] sample_topology_ok Et
    ltac:(vm_compute in Et; injection Et as <-; reflexivity) ltac:(vm_compute; repeat split; congruence)) as H.
  cbv zeta. exists 5, [4]. rewrite E in H |- *. destruct H as (main & same & racks & centers & E' & Hn & _ & Hq).
  injection E' as <- _. split; [reflexivity|]. split; [reflexivity|]. split; [reflexivity|]. split; [exact Hn|exact Hq].
Defined.
