(* ===== verification/EcShards.v ===== *)
(** * The master's view of erasure-coded shards
      ([topology/erasure_coding/])

    A data node knows which shards it holds, the topology knows, for each
    shard of a volume, on which data nodes it is.  The sets of shards are cells
    of the heap of [ShardBits]. *)

From S2P Require Import Prelude Messages Types Text Ttl Replica Errors Volume ShardBits Node NodeFacts.
#[local] Open Scope string_scope.
#[local] Open Scope list_scope.
#[local] Open Scope Z_scope.

(** ** Shard locations *)

Record ec_shard_locations := EcShardLocations {
  es_collection : string;
  es_locations : list (list nref);
}.

Module EcLocations.

Definition new (collection : string) : ec_shard_locations :=
  EcShardLocations collection (replicate (Z.to_nat TOTAL_SHARDS_COUNT) []).

Definition node_id (t : tree) (r : nref) : string := id_of (Some r) t.

(** [locations[shard_id]] out of range is a panic. *)
Definition add_ec_shard (t : tree) (shard_id : Z) (dn : nref) (e : ec_shard_locations)
  : outcome VolumeError (ec_shard_locations * bool) :=
  match e.(es_locations) !! Z.to_nat shard_id with
  | None => Panic
  | Some nodes =>
      if existsb (fun n => bool_decide (node_id t n = node_id t dn)) nodes then Ok (e, false)
      else Ok (EcShardLocations e.(es_collection)
                 (<[Z.to_nat shard_id := nodes ++ [dn]]> e.(es_locations)), true)
  end.

(** The index of the first node with the id. *)
Fixpoint index_of (t : tree) (dn : nref) (nodes : list nref) : option nat :=
  match nodes with
  | [] => None
  | n :: nodes' => if bool_decide (node_id t n = node_id t dn) then Some O
                   else match index_of t dn nodes' with Some i => Some (S i) | None => None end
  end.

Definition delete_ec_shard (t : tree) (shard_id : Z) (dn : nref) (e : ec_shard_locations)
  : outcome VolumeError (ec_shard_locations * bool) :=
  match e.(es_locations) !! Z.to_nat shard_id with
  | None => Panic
  | Some nodes =>
      match index_of t dn nodes with
      | None => Ok (e, false)
      | Some i => Ok (EcShardLocations e.(es_collection)
                        (<[Z.to_nat shard_id := delete i nodes]> e.(es_locations)), true)
      end
  end.

(** The loop over [shard_ids]. *)
Fixpoint for_shards (f : Z -> ec_shard_locations -> outcome VolumeError (ec_shard_locations * bool))
    (ids : list Z) (e : ec_shard_locations) : outcome VolumeError ec_shard_locations :=
  match ids with
  | [] => Ok e
  | i :: ids' => let? p := f i e in for_shards f ids' p.1
  end.

(** [Topology::register_ec_shards], on the map of the topology. *)
Definition register_ec_shards (t : tree) (h : heap) (info : ec_volume_info) (dn : nref)
    (m : gmap Z ec_shard_locations) : outcome VolumeError (gmap Z ec_shard_locations) :=
  let e := match m !! info.(ev_volume_id) with
           | Some e => e
           | None => new info.(ev_collection)
           end in
  let? e := for_shards (fun i e => add_ec_shard t i dn e) (ShardBits.shard_ids info.(ev_shard_bits) h) e in
  Ok (<[info.(ev_volume_id) := e]> m).

(** [Topology::unregister_ec_shards] *)
Definition unregister_ec_shards (t : tree) (h : heap) (info : ec_volume_info) (dn : nref)
    (m : gmap Z ec_shard_locations) : outcome VolumeError (gmap Z ec_shard_locations) :=
  match m !! info.(ev_volume_id) with
  | None => Ok m
  | Some e =>
      let? e := for_shards (fun i e => delete_ec_shard t i dn e) (ShardBits.shard_ids info.(ev_shard_bits) h) e in
      Ok (<[info.(ev_volume_id) := e]> m)
  end.

End EcLocations.

(** ** The shards of a data node ([erasure_coding/data_node.rs]) *)

Definition shards_of (r : nref) (t : tree) : gmap Z ec_volume_info :=
  match get_node t r with
  | Some nd => match nd.(nd_type) with TDataNode d => d.(dn_ec_shards) | _ => ∅ end
  | None => ∅
  end.

Definition set_shards (m : gmap Z ec_volume_info) (nd : node) : node :=
  match nd.(nd_type) with
  | TDataNode d => with_type (TDataNode (DataNode d.(dn_ip) d.(dn_port) d.(dn_public_url)
                                           d.(dn_volumes) m)) nd
  | _ => nd
  end.

Definition has_ec_shards (r : nref) (vid : Z) (t : tree) : bool :=
  match shards_of r t !! vid with Some _ => true | None => false end.

Module EcNode.

(** [add_or_update_ec_shards] *)
Definition add_or_update_ec_shards (r : nref) (v : ec_volume_info) (s : tree * heap) : tree * heap :=
  let '(t, h) := s in
  match shards_of r t !! v.(ev_volume_id) with
  | Some e =>
      let '(h, old_count) := ShardBits.shard_id_count e.(ev_shard_bits) h in
      let '(h, b) := ShardBits.plus e.(ev_shard_bits) v.(ev_shard_bits) h in
      let '(h, count) := ShardBits.shard_id_count b h in
      let t := upd r (set_shards (<[v.(ev_volume_id) := EcVolumeInfo e.(ev_volume_id) e.(ev_collection) b]>
                                    (shards_of r t))) t in
      (adjust_ec_shard_count (i64 (u64 (count - old_count))) r t, h)
  | None =>
      let '(h, delta) := ShardBits.shard_id_count v.(ev_shard_bits) h in
      let t := upd r (set_shards (<[v.(ev_volume_id) := v]> (shards_of r t))) t in
      (adjust_ec_shard_count (i64 delta) r t, h)
  end.

(** [delete_ec_shard].  The entry of the map stays locked by [get_mut] until
    the end of the block, so [remove] on the same map inside it waits for a
    lock its own task holds: [None]. *)
Definition delete_ec_shard (r : nref) (v : ec_volume_info) (s : tree * heap) : option (tree * heap) :=
  let '(t, h) := s in
  match shards_of r t !! v.(ev_volume_id) with
  | None => Some (t, h)
  | Some e =>
      let '(h, old_count) := ShardBits.shard_id_count e.(ev_shard_bits) h in
      let '(h, b) := ShardBits.minus e.(ev_shard_bits) v.(ev_shard_bits) h in
      let '(h, count) := ShardBits.shard_id_count b h in
      let delta := u64 (count - old_count) in
      let '(h, remaining) := ShardBits.shard_id_count b h in
      if remaining =? 0 then None
      else
        let t := upd r (set_shards (<[v.(ev_volume_id) := EcVolumeInfo e.(ev_volume_id) e.(ev_collection) b]>
                                      (shards_of r t))) t in
        Some (adjust_ec_shard_count (i64 delta) r t, h)
  end.

(** [delta_update_ec_shards] *)
Definition delta_update_ec_shards (r : nref) (new_shards deleted_shards : list ec_volume_info)
    (s : tree * heap) : option (tree * heap) :=
  let s := fold_left (fun s v => add_or_update_ec_shards r v s) new_shards s in
  fold_left (fun s v => s ≫= delete_ec_shard r v) deleted_shards (Some s).

(** The accumulators of [update_ec_shards]. *)
Record update_acc := UpdateAcc {
  ua_new_count : Z;
  ua_deleted_count : Z;
  ua_new : list ec_volume_info;
  ua_deleted : list ec_volume_info;
}.

(** One shard set the node knows, against the reported ones. *)
Definition compare_known (actual : gmap Z ec_volume_info) (s : heap * update_acc)
    (kv : Z * ec_volume_info) : heap * update_acc :=
  let '(h, a) := s in
  let '(vid, known) := kv in
  match actual !! vid with
  | Some act =>
      let '(h, n) := ec_minus act known h in
      let '(h, c1) := ShardBits.shard_id_count n.(ev_shard_bits) h in
      let '(h, a) :=
        if 0 <? c1 then
          let '(h, c2) := ShardBits.shard_id_count n.(ev_shard_bits) h in
          (h, UpdateAcc (u64 (a.(ua_new_count) + c2)) a.(ua_deleted_count) (a.(ua_new) ++ [n]) a.(ua_deleted))
        else (h, a) in
      let '(h, d) := ec_minus known act h in
      let '(h, c3) := ShardBits.shard_id_count d.(ev_shard_bits) h in
      if 0 <? c3 then
        let '(h, c4) := ShardBits.shard_id_count d.(ev_shard_bits) h in
        (h, UpdateAcc a.(ua_new_count) (u64 (a.(ua_deleted_count) + c4)) a.(ua_new) (a.(ua_deleted) ++ [d]))
      else (h, a)
  | None =>
      let '(h, c) := ShardBits.shard_id_count known.(ev_shard_bits) h in
      (h, UpdateAcc a.(ua_new_count) (u64 (a.(ua_deleted_count) + c)) a.(ua_new) (a.(ua_deleted) ++ [known]))
  end.

(** One reported shard set, against the known ones. *)
Definition compare_actual (known : gmap Z ec_volume_info) (s : heap * update_acc) (act : ec_volume_info)
  : heap * update_acc :=
  let '(h, a) := s in
  match known !! act.(ev_volume_id) with
  | Some _ =>
      let '(h, c) := ShardBits.shard_id_count act.(ev_shard_bits) h in
      (h, UpdateAcc (u64 (a.(ua_new_count) + c)) a.(ua_deleted_count) (a.(ua_new) ++ [act]) a.(ua_deleted))
  | None => (h, a)
  end.

(** [update_ec_shards]; [order] is the order in which the map is iterated. *)
Definition update_ec_shards (order : gmap Z ec_volume_info -> list (Z * ec_volume_info)) (r : nref)
    (actual_shards : list ec_volume_info) (s : tree * heap)
  : (tree * heap) * (list ec_volume_info * list ec_volume_info) :=
  let '(t, h) := s in
  let known := shards_of r t in
  let actual := fold_left (fun m v => <[v.(ev_volume_id) := v]> m) actual_shards ∅ in
  let '(h, a) := fold_left (compare_known actual) (order known) (h, UpdateAcc 0 0 [] []) in
  let '(h, a) := fold_left (compare_actual known) actual_shards (h, a) in
  if (len a.(ua_new) =? 0) && (len a.(ua_deleted) =? 0) then ((t, h), (a.(ua_new), a.(ua_deleted)))
  else
    let t := upd r (set_shards actual) t in
    let t := adjust_ec_shard_count (i64 (i64 a.(ua_new_count) - i64 a.(ua_deleted_count))) r t in
    ((t, h), (a.(ua_new), a.(ua_deleted))).

End EcNode.

(** ** Heartbeats ([Topology::sync_data_node_ec_shards] and its incremental
    form) *)

Definition ec_info (m : ec_message) : HM ec_volume_info :=
  let$ b := ShardBits.new m.(em_ec_index_bits) in
  hret (EcVolumeInfo m.(em_id) m.(em_collection) b).

Fixpoint ec_infos (ms : list ec_message) : HM (list ec_volume_info) :=
  match ms with
  | [] => hret []
  | m :: ms' => let$ v := ec_info m in let$ vs := ec_infos ms' in hret (v :: vs)
  end.

Abbreviation ec_registry := (gmap Z ec_shard_locations).

Fixpoint register_all (t : tree) (h : heap) (dn : nref) (vs : list ec_volume_info) (m : ec_registry)
  : outcome VolumeError ec_registry :=
  match vs with
  | [] => Ok m
  | v :: vs' => let? m := EcLocations.register_ec_shards t h v dn m in register_all t h dn vs' m
  end.

Fixpoint unregister_all (t : tree) (h : heap) (dn : nref) (vs : list ec_volume_info) (m : ec_registry)
  : outcome VolumeError ec_registry :=
  match vs with
  | [] => Ok m
  | v :: vs' => let? m := EcLocations.unregister_ec_shards t h v dn m in unregister_all t h dn vs' m
  end.

(** [sync_data_node_ec_shards] *)
Definition sync_data_node_ec_shards (order : gmap Z ec_volume_info -> list (Z * ec_volume_info))
    (shard_infos : list ec_message) (dn : nref) (t : tree) (h : heap) (m : ec_registry)
  : (tree * heap) * outcome VolumeError (ec_registry * (list ec_volume_info * list ec_volume_info)) :=
  let '(h, shards) := ec_infos shard_infos h in
  let '((t, h), (news, dels)) := EcNode.update_ec_shards order dn shards (t, h) in
  ((t, h), let? m := register_all t h dn news m in
           let? m := unregister_all t h dn dels m in Ok (m, (news, dels))).

(** [incremental_sync_data_node_ec_shards]; [None] when a deletion waits for
    its own lock. *)
Definition incremental_sync_data_node_ec_shards (new_ec_shards deleted_ec_shards : list ec_message)
    (dn : nref) (t : tree) (h : heap) (m : ec_registry)
  : option ((tree * heap) * outcome VolumeError ec_registry) :=
  let '(h, news) := ec_infos new_ec_shards h in
  let '(h, dels) := ec_infos deleted_ec_shards h in
  match EcNode.delta_update_ec_shards dn news dels (t, h) with
  | None => None
  | Some (t, h) =>
      Some ((t, h), let? m := register_all t h dn news m in unregister_all t h dn dels m)
  end.

(** ** The registry is exact *)

Import EcLocations.

Record ec_ok (t : tree) (e : ec_shard_locations) : Prop := {
  eo_len : length e.(es_locations) = Z.to_nat TOTAL_SHARDS_COUNT;
  eo_ids : forall i nodes, e.(es_locations) !! i = Some nodes -> NoDup (map (node_id t) nodes);
}.

(** The ids of the data nodes listed for shard [i]. *)
Definition ids_at (t : tree) (e : ec_shard_locations) (i : Z) : list string :=
  map (node_id t) (default [] (e.(es_locations) !! Z.to_nat i)).

Lemma existsb_id t dn nodes :
  existsb (fun n => bool_decide (node_id t n = node_id t dn)) nodes = bool_decide (node_id t dn ∈ map (node_id t) nodes).
Proof.
  induction nodes as [|n nodes IH]; cbn [existsb map]; [by rewrite bool_decide_false by apply not_elem_of_nil|].
  rewrite IH. repeat case_bool_decide; set_solver.
Qed.

Lemma update_at t e i nodes' : ec_ok t e -> 0 <= i < TOTAL_SHARDS_COUNT ->
  NoDup (map (node_id t) nodes') ->
  let e' := EcShardLocations e.(es_collection) (<[Z.to_nat i := nodes']> e.(es_locations)) in
  ec_ok t e' /\ ids_at t e' i = map (node_id t) nodes'
  /\ forall j, 0 <= j -> j <> i -> ids_at t e' j = ids_at t e j.
Proof.
  intros [Hl Hi] Hr Hn. unfold ids_at. cbn [es_locations es_collection].
  assert (Hlt : (Z.to_nat i < length (es_locations e))%nat) by lia. split; [split|split].
  - cbn [es_locations]. by rewrite length_insert.
  - cbn [es_locations]. intros j k [(<- & -> & _)|[_ Hj]]%list_lookup_insert_Some; [done|by apply (Hi j)].
  - by rewrite list_lookup_insert_eq.
  - intros j Hj Hne. rewrite list_lookup_insert_ne by lia. done.
Qed.

Lemma shard_nodes t e i : ec_ok t e -> 0 <= i < TOTAL_SHARDS_COUNT ->
  exists nodes, e.(es_locations) !! Z.to_nat i = Some nodes /\ ids_at t e i = map (node_id t) nodes
                /\ NoDup (map (node_id t) nodes).
Proof.
  intros [Hl Hi] Hr. destruct (lookup_lt_is_Some_2 (es_locations e) (Z.to_nat i)) as [nodes E]; [lia|].
  exists nodes. unfold ids_at. rewrite E. split; [done|]. split; [done|by eapply Hi].
Qed.

Lemma add_ec_shard_spec t i dn e : ec_ok t e -> 0 <= i < TOTAL_SHARDS_COUNT ->
  exists e' b, add_ec_shard t i dn e = Ok (e', b) /\ ec_ok t e'
    /\ forall j x, 0 <= j -> x ∈ ids_at t e' j <-> x ∈ ids_at t e j \/ (j = i /\ x = node_id t dn).
Proof.
  intros He Hi. destruct (shard_nodes t e i He Hi) as (nodes & E & Eids & Hn).
  unfold add_ec_shard. rewrite E, existsb_id. case_bool_decide as Hin.
  - exists e, false. split; [done|]. split; [done|]. intros j x Hj.
    split; [by left|]. intros [?|[-> ->]]; [done|]. by rewrite Eids.
  - destruct (update_at t e i (nodes ++ [dn]) He Hi) as (H1 & H2 & H3).
    { rewrite map_app. apply NoDup_app. repeat split; [done|set_solver|apply NoDup_singleton]. }
    eexists _, true. split; [reflexivity|]. split; [done|]. intros j x Hj.
    destruct (decide (j = i)) as [->|Hne]; [|rewrite H3 by done; naive_solver].
    rewrite H2, Eids, map_app, elem_of_app. cbn [map]. rewrite list_elem_of_singleton. naive_solver.
Qed.

Lemma index_of_spec t dn nodes : match index_of t dn nodes with
  | Some i => exists a n b, nodes = a ++ n :: b /\ i = length a /\ node_id t n = node_id t dn
  | None => node_id t dn ∉ map (node_id t) nodes
  end.
Proof.
  induction nodes as [|n nodes IH]; cbn [index_of map]; [apply not_elem_of_nil|].
  case_bool_decide as E; [by exists [], n, nodes|].
  destruct (index_of t dn nodes) as [i|]; [|set_solver].
  destruct IH as (a & m & b & -> & -> & Hm). by exists (n :: a), m, b.
Qed.

Lemma delete_ec_shard_spec t i dn e : ec_ok t e -> 0 <= i < TOTAL_SHARDS_COUNT ->
  exists e' b, delete_ec_shard t i dn e = Ok (e', b) /\ ec_ok t e'
    /\ forall j x, 0 <= j -> x ∈ ids_at t e' j <-> x ∈ ids_at t e j /\ ~ (j = i /\ x = node_id t dn).
Proof.
  intros He Hi. destruct (shard_nodes t e i He Hi) as (nodes & E & Eids & Hn).
  unfold delete_ec_shard. rewrite E. pose proof (index_of_spec t dn nodes) as Hx.
  destruct (index_of t dn nodes) as [k|].
  - destruct Hx as (a & n & b & -> & -> & En). rewrite map_app, map_cons in Hn.
    apply NoDup_app in Hn as (Ha & Hab & (Hb1 & Hb2)%NoDup_cons).
    assert (Hd : delete (length a) (a ++ n :: b) = a ++ b) by apply delete_middle.
    destruct (update_at t e i (a ++ b) He Hi) as (H1 & H2 & H3).
    { rewrite map_app. apply NoDup_app. repeat split; [done|set_solver|done]. }
    rewrite Hd. eexists _, true. split; [reflexivity|]. split; [done|]. intros j x Hj.
    destruct (decide (j = i)) as [->|Hne]; [|rewrite H3 by done; naive_solver].
    rewrite H2, Eids, !map_app, map_cons, !elem_of_app, elem_of_cons, <- En.
    split; [|naive_solver]. intros [Hx|Hx]; (split; [tauto|]); intros [_ ->]; [|done].
    apply (Hab _ Hx). set_solver.
  - exists e, false. split; [done|]. split; [done|]. intros j x Hj. split; [|naive_solver].
    intros Hin. split; [done|]. intros [-> ->]. by rewrite Eids in Hin.
Qed.

Lemma shard_ids_range b h i : i ∈ ShardBits.shard_ids b h -> 0 <= i < TOTAL_SHARDS_COUNT.
Proof. unfold ShardBits.shard_ids. intros [_ Hi%elem_of_seqZ]%list_elem_of_filter. lia. Qed.

Lemma add_shards_spec t dn ids : Forall (fun i => 0 <= i < TOTAL_SHARDS_COUNT) ids -> forall e, ec_ok t e ->
  exists e', for_shards (fun i e => add_ec_shard t i dn e) ids e = Ok e' /\ ec_ok t e'
    /\ forall j x, 0 <= j -> x ∈ ids_at t e' j <-> x ∈ ids_at t e j \/ (j ∈ ids /\ x = node_id t dn).
Proof.
  induction 1 as [|i ids Hi _ IH]; intros e He; cbn [for_shards].
  - exists e. split; [done|]. split; [done|]. set_solver.
  - destruct (add_ec_shard_spec t i dn e He Hi) as (e1 & b & -> & H1 & H2). cbn [obind fst].
    destruct (IH e1 H1) as (e' & E & H3 & H4). exists e'. split; [done|]. split; [done|].
    intros j x Hj. rewrite H4, H2 by done. rewrite elem_of_cons. naive_solver.
Qed.

Lemma delete_shards_spec t dn ids : Forall (fun i => 0 <= i < TOTAL_SHARDS_COUNT) ids -> forall e, ec_ok t e ->
  exists e', for_shards (fun i e => delete_ec_shard t i dn e) ids e = Ok e' /\ ec_ok t e'
    /\ forall j x, 0 <= j -> x ∈ ids_at t e' j <-> x ∈ ids_at t e j /\ ~ (j ∈ ids /\ x = node_id t dn).
Proof.
  induction 1 as [|i ids Hi _ IH]; intros e He; cbn [for_shards].
  - exists e. split; [done|]. split; [done|]. set_solver.
  - destruct (delete_ec_shard_spec t i dn e He Hi) as (e1 & b & -> & H1 & H2). cbn [obind fst].
    destruct (IH e1 H1) as (e' & E & H3 & H4). exists e'. split; [done|]. split; [done|].
    intros j x Hj. rewrite H4, H2 by done. rewrite elem_of_cons. naive_solver.
Qed.

Lemma ec_ok_new t c : ec_ok t (new c).
Proof.
  split; [done|]. intros i nodes [-> _]%lookup_replicate_1. constructor.
Qed.

(** The locations of a volume the registry does not know. *)
Definition entry (m : ec_registry) (vid : Z) (c : string) : ec_shard_locations :=
  default (new c) (m !! vid).

(** Registering the shards of a data node adds its id to the list of each
    shard of the set and to no other; unregistering removes exactly those;
    neither lists a node twice for a shard, and neither ever panics. *)
Theorem ec_registry_exact : forall t h v dn (m : ec_registry),
  map_Forall (fun _ e => ec_ok t e) m ->
  let ids := ShardBits.shard_ids v.(ev_shard_bits) h in
  (exists e', register_ec_shards t h v dn m = Ok (<[v.(ev_volume_id) := e']> m) /\ ec_ok t e'
     /\ forall j x, 0 <= j -> x ∈ ids_at t e' j <->
          x ∈ ids_at t (entry m v.(ev_volume_id) v.(ev_collection)) j \/ (j ∈ ids /\ x = node_id t dn))
  /\ (forall e, m !! v.(ev_volume_id) = Some e ->
      exists e', unregister_ec_shards t h v dn m = Ok (<[v.(ev_volume_id) := e']> m) /\ ec_ok t e'
        /\ forall j x, 0 <= j -> x ∈ ids_at t e' j <->
             x ∈ ids_at t e j /\ ~ (j ∈ ids /\ x = node_id t dn)).
Proof.
  intros t h v dn m Hm ids.
  assert (Hids : Forall (fun i => 0 <= i < TOTAL_SHARDS_COUNT) ids)
    by (apply Forall_forall; intros i Hi; by eapply shard_ids_range).
  assert (He : ec_ok t (entry m (ev_volume_id v) (ev_collection v))).
  { unfold entry. destruct (m !! ev_volume_id v) eqn:E; cbn; [by eapply Hm|apply ec_ok_new]. }
  subst ids. split.
  - destruct (add_shards_spec t dn _ Hids _ He) as (e' & E & H1 & H2). exists e'. split; [|done].
    unfold register_ec_shards, entry in *. destruct (m !! ev_volume_id v); cbn [default from_option] in E; cbv zeta; unfold id in E; rewrite E; done.
  - intros e Ee. destruct (delete_shards_spec t dn _ Hids e) as (e' & E & H1 & H2); [by eapply Hm|].
    exists e'. split; [|done]. unfold unregister_ec_shards. by rewrite Ee, E.
Qed.

Lemma ec_registry_exact_witness : exists e',
  register_ec_shards sample_topology (Heap 1 {[ 0 := 20 ]}) (EcVolumeInfo 9 "c" 0) 4 ∅ = Ok (<[9 := e']> ∅)
  /\ "n1" ∈ ids_at sample_topology e' 4 /\ ~ "n1" ∈ ids_at sample_topology e' 3.
Proof.
  destruct (ec_registry_exact sample_topology (Heap 1 {[ 0 := 20 ]}) (EcVolumeInfo 9 "c" 0) 4 ∅) as [(e' & E & _ & H) _].
  - apply map_Forall_empty.
  - assert (Es : ShardBits.shard_ids 0 (Heap 1 {[ 0 := 20 ]}) = [2; 4]) by (vm_compute; reflexivity).
    assert (En : node_id sample_topology 4 = "n1") by (vm_compute; reflexivity).
    cbn [ev_shard_bits] in H. rewrite Es, En in H.
    exists e'. split; [exact E|]. rewrite !H by lia. split.
    { right. split; [|reflexivity]. apply elem_of_cons. right. apply elem_of_cons. left. reflexivity. }
    intros [Hn|[Hn _]].
    2:{ rewrite !elem_of_cons in Hn. destruct Hn as [Hn|[Hn|Hn]]; [lia|lia|by apply not_elem_of_nil in Hn]. }
    unfold ids_at, entry in Hn. rewrite lookup_empty in Hn. vm_compute in Hn. inversion Hn.
Defined.

(** ** What heartbeats do to the registry *)

Lemma compare_actual_empty vs : forall s, fold_left (EcNode.compare_actual ∅) vs s = s.
Proof.
  induction vs as [|v vs IH]; intros [h a]; [done|]. cbn [fold_left EcNode.compare_actual].
  rewrite lookup_empty. apply IH.
Qed.

(** A full report of shards from a data node the master knows no shard of
    changes nothing: neither the node nor the registry learn a shard. *)
Theorem full_ec_report_ignored : forall order infos dn t h m,
  (forall k : gmap Z ec_volume_info, order k ≡ₚ map_to_list k) -> shards_of dn t = ∅ ->
  exists h', sync_data_node_ec_shards order infos dn t h m = ((t, h'), Ok (m, ([], []))).
Proof.
  intros order infos dn t h m Ho Hs. unfold sync_data_node_ec_shards.
  destruct (ec_infos infos h) as [h1 shards]. unfold EcNode.update_ec_shards. rewrite Hs.
  pose proof (Ho ∅) as He. rewrite map_to_list_empty in He. apply Permutation_nil_r in He. rewrite He.
  cbn [fold_left]. rewrite compare_actual_empty. by exists h1.
Qed.

Lemma full_ec_report_ignored_witness : exists h',
  sync_data_node_ec_shards map_to_list [EcMessage 9 "c" 20] 4 sample_topology (Heap 1 ∅) ∅
  = ((sample_topology, h'), Ok (∅, ([], []))).
Proof.
  apply (full_ec_report_ignored map_to_list [EcMessage 9 "c" 20] 4 sample_topology (Heap 1 ∅) ∅).
  - intros k. reflexivity.
  - vm_compute. reflexivity.
Defined.

Lemma count_zero b h : ShardBits.value b h = 0 -> ShardBits.shard_id_count b h = (h, 0).
Proof.
  intros H. unfold ShardBits.shard_id_count. cbn [ShardBits.count_loop]. unfold hbind, ShardBits.load. by rewrite H.
Qed.

(** Deleting shards of a volume the data node knows never returns: the
    counts have cleared the sets they count, so the entry always looks empty,
    and its removal waits for the lock the deletion itself holds. *)
Theorem ec_delete_blocks : forall r v t h e,
  shards_of r t !! v.(ev_volume_id) = Some e -> in_u32 (ShardBits.value e.(ev_shard_bits) h) ->
  EcNode.delete_ec_shard r v (t, h) = None.
Proof.
  intros r v t h e E He. unfold EcNode.delete_ec_shard. rewrite E.
  destruct (shard_id_count_lemma _ h He) as (h1 & -> & H0 & _).
  destruct (ShardBits.minus (ev_shard_bits e) (ev_shard_bits v) h1) as [h2 b] eqn:Em.
  assert (Hb : ShardBits.value b h2 = 0).
  { unfold ShardBits.minus, hbind, ShardBits.load in Em. rewrite H0, Z.ldiff_0_l in Em.
    pose proof (value_new 0 h1 (h_next h1)) as Hval. rewrite decide_True in Hval by done.
    unfold ShardBits.new in Em, Hval. injection Em as <- <-. exact Hval. }
  by rewrite !(count_zero b h2 Hb).
Qed.

Definition sample_ec_tree : tree :=
  upd 4 (set_shards {[ 9 := EcVolumeInfo 9 "c" 0 ]}) sample_topology.

Lemma ec_delete_blocks_witness :
  EcNode.delete_ec_shard 4 (EcVolumeInfo 9 "c" 1) (sample_ec_tree, Heap 2 {[ 0 := 20; 1 := 4 ]}) = None.
Proof.
  apply (ec_delete_blocks 4 (EcVolumeInfo 9 "c" 1) sample_ec_tree (Heap 2 {[ 0 := 20; 1 := 4 ]}) (EcVolumeInfo 9 "c" 0)).
  - vm_compute. reflexivity.
  - vm_compute. split; congruence.
Defined.

Lemma for_shards_nil t dn e b h : ShardBits.value b h = 0 ->
  for_shards (fun i e => add_ec_shard t i dn e) (ShardBits.shard_ids b h) e = Ok e.
Proof.
  intros H. replace (ShardBits.shard_ids b h) with (@nil Z); [done|].
  unfold ShardBits.shard_ids, ShardBits.has_shard_id. rewrite H.
  generalize (seqZ 0 TOTAL_SHARDS_COUNT). intros l. induction l as [|x l IH]; [done|].
  rewrite filter_cons, decide_False by done. exact IH.
Qed.

(** The first incremental report of a volume's shards is counted on the
    data node, but registers no location: counting has cleared the set the
    registration then reads. *)
Theorem first_ec_increment_unlisted : forall msg dn t h m,
  shards_of dn t !! msg.(em_id) = None -> in_u32 msg.(em_ec_index_bits) ->
  exists t' h', incremental_sync_data_node_ec_shards [msg] [] dn t h m
    = Some ((t', h'), Ok (<[msg.(em_id) := entry m msg.(em_id) msg.(em_collection)]> m)).
Proof.
  intros msg dn t h m Hs Hb. unfold incremental_sync_data_node_ec_shards.
  cbn [ec_infos]. unfold ec_info, hbind, hret, ShardBits.new. cbn [fst snd].
  set (h1 := Heap (h_next h + 1) _). set (v := EcVolumeInfo _ _ _).
  unfold EcNode.delta_update_ec_shards. cbn [fold_left]. unfold EcNode.add_or_update_ec_shards.
  assert (E : ev_volume_id v = em_id msg) by done. rewrite E, Hs.
  assert (Hv : in_u32 (ShardBits.value (ev_shard_bits v) h1)).
  { unfold ShardBits.value. cbn [ev_shard_bits v h1 h_cells]. by rewrite lookup_insert_eq. }
  destruct (shard_id_count_lemma _ h1 Hv) as (h2 & -> & H0 & _).
  eexists _, h2. cbn [register_all unregister_all]. unfold register_ec_shards.
  rewrite (for_shards_nil _ _ _ _ _ H0). cbn [obind]. rewrite E. unfold entry.
  destruct (m !! em_id msg); reflexivity.
Qed.

Lemma first_ec_increment_unlisted_witness : exists t' h',
  incremental_sync_data_node_ec_shards [EcMessage 9 "c" 20] [] 4 sample_topology (Heap 1 ∅) ∅
  = Some ((t', h'), Ok (<[9 := entry ∅ 9 "c"]> ∅)).
Proof.
  apply (first_ec_increment_unlisted (EcMessage 9 "c" 20) 4 sample_topology (Heap 1 ∅) ∅).
  - vm_compute. reflexivity.
  - vm_compute. split; congruence.
Defined.
