(* ===== verification/Sequence.v ===== *)
(** * File key sequencers ([sequence/]) *)

From S2P Require Import Prelude.
#[local] Open Scope Z_scope.

(** [sonyflake] is outside the sources: a state that yields the next id or an
    error. *)
Class Flake := {
  flake : Type;
  flake_next_id : flake -> flake * option Z;
}.

Inductive sequencer {F : Flake} :=
| SMemory (counter : Z)
| SSnowflake (f : flake).

Inductive SequenceError := SonyflakeError.

Module Memory.

Definition new : Z := 1.
Definition next_file_id (count : Z) (counter : Z) : Z * Z := (u64 (counter + count), counter).
Definition set_max (seen_value : Z) (counter : Z) : Z :=
  if counter <=? seen_value then seen_value else counter.

End Memory.

Module Sequencer.

Definition next_file_id {F : Flake} (count : Z) (s : sequencer)
  : sequencer * outcome SequenceError Z :=
  match s with
  | SMemory c => let '(c', id) := Memory.next_file_id count c in (SMemory c', Ok id)
  | SSnowflake f => let '(f', o) := flake_next_id f in
                    (SSnowflake f', match o with Some id => Ok id | None => Err SonyflakeError end)
  end.

Definition set_max {F : Flake} (value : Z) (s : sequencer) : sequencer :=
  match s with
  | SMemory c => SMemory (Memory.set_max value c)
  | SSnowflake f => SSnowflake f
  end.

End Sequencer.

(** ** The keys handed out *)

(** Requests a master serves: keys for [count] files, and heartbeats that
    report the largest key a server has seen. *)
Inductive seq_op := OpNext (count : Z) | OpSetMax (seen : Z).

(** The ranges of keys given to the clients, with the final counter. *)
Fixpoint run_memory (ops : list seq_op) (c : Z) : list (Z * Z) * Z :=
  match ops with
  | [] => ([], c)
  | OpNext n :: ops' =>
      let '(c', id) := Memory.next_file_id n c in
      let '(out, c'') := run_memory ops' c' in ((id, n) :: out, c'')
  | OpSetMax v :: ops' => run_memory ops' (Memory.set_max v c)
  end.

(** The operands are unsigned. *)
Definition op_size (o : seq_op) : Z := match o with OpNext n => n | OpSetMax v => v end.
Definition op_ok (o : seq_op) : Prop := 0 <= op_size o.

(** No addition of the run overflows the [u64] counter. *)
Fixpoint no_wrap (ops : list seq_op) (c : Z) : bool :=
  match ops with
  | [] => true
  | OpNext n :: ops' => (c + n <? 2 ^ 64) && no_wrap ops' (Memory.next_file_id n c).1
  | OpSetMax v :: ops' => no_wrap ops' (Memory.set_max v c)
  end.

Lemma run_memory_spec ops : forall c, Forall op_ok ops -> 0 <= c -> no_wrap ops c = true ->
  (forall i id n, (run_memory ops c).1 !! i = Some (id, n) -> c <= id)
  /\ forall i j id n id' n', (i < j)%nat -> (run_memory ops c).1 !! i = Some (id, n) ->
       (run_memory ops c).1 !! j = Some (id', n') -> id + n <= id'.
Proof.
  induction ops as [|o ops IH]; intros c Hok Hc Hr; cbn [run_memory].
  { cbn. split; intros; done. }
  apply Forall_cons in Hok as [Ho Hok]. destruct o as [n|v]; unfold op_ok in Ho; cbn [op_size no_wrap] in *.
  - apply andb_prop in Hr as [Hlt%Z.ltb_lt Hr]. unfold Memory.next_file_id in *. cbn [fst] in Hr.
    rewrite u64_id in * by (unfold in_u64; lia).
    destruct (IH (c + n)) as [H1 H2]; [done|lia|done|].
    destruct (run_memory ops (c + n)) as [out c'']; cbn [fst] in *. split.
    + intros [|i] id m; cbn; [intros [= <- <-]; lia|]. intros H%H1. lia.
    + intros [|i] [|j] id m id' m' Hij; cbn; [lia| |lia|].
      * intros [= <- <-] H%H1. lia.
      * apply H2. lia.
  - unfold Memory.set_max in *. destruct (Z.leb_spec c v); [|by apply IH].
    destruct (IH v) as [H1 H2]; [done|lia|done|]. split; [|done]. intros i id m H'%H1. lia.
Qed.

(** C32: as long as no addition overflows the 64-bit counter, the key ranges the memory
    sequencer hands out never overlap: each starts at or after the end of
    every earlier one, whatever heartbeats come between. *)
Theorem key_ranges_disjoint : forall ops i j id n id' n',
  Forall op_ok ops -> no_wrap ops Memory.new = true -> (i < j)%nat ->
  (run_memory ops Memory.new).1 !! i = Some (id, n) ->
  (run_memory ops Memory.new).1 !! j = Some (id', n') -> id + n <= id'.
Proof.
  intros ops i j id n id' n' Hok Hr Hij.
  destruct (run_memory_spec ops Memory.new Hok ltac:(unfold Memory.new; lia) Hr) as [_ H]. by apply H.
Qed.

Lemma key_ranges_disjoint_witness :
  (run_memory [OpNext 3; OpSetMax 9; OpNext 2] Memory.new).1 = [(1, 3); (9, 2)] /\ 1 + 3 <= 9.
Proof.
  split; [reflexivity|].
  apply (key_ranges_disjoint [OpNext 3; OpSetMax 9; OpNext 2] 0 1 1 3 9 2).
  - repeat constructor; unfold op_ok; cbn; lia.
  - reflexivity.
  - lia.
  - reflexivity.
  - reflexivity.
Defined.

(** After a heartbeat that reports a largest key the counter has not
    passed, the next key the memory sequencer hands out is that very key: a
    key some needle already has. *)
Theorem set_max_reuses_key : forall seen c n,
  c <= seen -> (Memory.next_file_id n (Memory.set_max seen c)).2 = seen.
Proof. intros seen c n H. unfold Memory.set_max. by rewrite (proj2 (Z.leb_le _ _) H). Qed.

Lemma set_max_reuses_key_witness : (Memory.next_file_id 1 (Memory.set_max 41 Memory.new)).2 = 41.
Proof. apply (set_max_reuses_key 41 Memory.new 1). unfold Memory.new. lia. Defined.
