(* ===== verification/Topology.v ===== *)
(** * The master's topology ([topology/topology.rs], [topology/collection.rs],
      [topology/volume_grow.rs])

    The state of a master: the tree of nodes, the collections with their
    layouts, the registry of erasure-coded shards, and the key sequencer. *)

From S2P Require Import Prelude Types Text Ttl Replica Errors Messages Fid Volume ShardBits Node NodeFacts Rand VolumeLayout VolumeGrow EcShards Sequence.
#[local] Open Scope string_scope.
#[local] Open Scope list_scope.
#[local] Open Scope Z_scope.

(** ** Maps with their iteration order

    A [DashMap] that the code iterates over is a list of entries in the order
    of the iteration. *)

Section assoc.
Context {A : Type}.

Fixpoint assoc (k : string) (l : list (string * A)) : option A :=
  match l with
  | [] => None
  | (k', a) :: l' => if bool_decide (k' = k) then Some a else assoc k l'
  end.

Fixpoint assoc_set (k : string) (a : A) (l : list (string * A)) : list (string * A) :=
  match l with
  | [] => [(k, a)]
  | (k', a') :: l' => if bool_decide (k' = k) then (k, a) :: l' else (k', a') :: assoc_set k a l'
  end.

End assoc.

(** ** Collections *)

Record collection := Collection {
  cl_name : string;
  cl_volume_size_limit : Z;
  cl_layouts : list (string * volume_layout);
}.

Definition with_layouts (ls : list (string * volume_layout)) (c : collection) : collection :=
  Collection c.(cl_name) c.(cl_volume_size_limit) ls.

Module Coll.

Definition new (name : string) (volume_size_limit : Z) : collection :=
  Collection name volume_size_limit [].

Definition layout_key (rp : replica_placement) (t : option ttl) : string :=
  match t with
  | Some t => Replica.fmt rp ++ Ttl.fmt t
  | None => Replica.fmt rp
  end.

(** The collection with the layout in it, and the layout. *)
Definition get_or_create_volume_layout (rp : replica_placement) (t : option ttl) (c : collection)
  : collection * volume_layout :=
  match assoc (layout_key rp t) c.(cl_layouts) with
  | Some vl => (c, vl)
  | None =>
      let vl := Layout.new rp t c.(cl_volume_size_limit) in
      (with_layouts (assoc_set (layout_key rp t) vl c.(cl_layouts)) c, vl)
  end.

(** The first layout that has the volume. *)
Fixpoint lookup_layouts (vid : Z) (ls : list (string * volume_layout)) : option (list nref) :=
  match ls with
  | [] => None
  | (_, l) :: ls' => match Layout.lookup vid l with Some n => Some n | None => lookup_layouts vid ls' end
  end.

Definition lookup (vid : Z) (c : collection) : option (list nref) := lookup_layouts vid c.(cl_layouts).

End Coll.

(** ** Messages *)

(** [VolumeInfo::new] *)
Definition volume_info_new (m : volume_message) : option volume_info :=
  match Replica.from_u8 (u8 m.(vm_replica_placement)) with
  | Ok rp =>
      match Ttl.from_u32 m.(vm_ttl) with
      | Ok t => Some (VolumeInfo m.(vm_id) m.(vm_size) rp t m.(vm_collection) (u8 m.(vm_version))
                        (i64 m.(vm_file_count)) (i64 m.(vm_delete_count)) m.(vm_deleted_bytes) m.(vm_read_only))
      | _ => None
      end
  | _ => None
  end.

(** [VolumeInfo::new_from_short] *)
Definition volume_info_new_from_short (m : volume_message) : option volume_info :=
  match Replica.from_u8 (u8 m.(vm_replica_placement)) with
  | Ok rp =>
      match Ttl.from_u32 m.(vm_ttl) with
      | Ok t => Some (VolumeInfo m.(vm_id) 0 rp t m.(vm_collection) (u8 m.(vm_version)) 0 0 0 false)
      | _ => None
      end
  | _ => None
  end.

(** ** The topology *)

(** [DataNode::url] *)
Definition url (r : nref) (t : tree) : string :=
  match get_node t r with
  | Some nd => match nd.(nd_type) with
               | TDataNode d => (d.(dn_ip) ++ ":" ++ fmt_dec d.(dn_port))%string
               | _ => ""
               end
  | None => ""
  end.

Record allocate_request := AllocateVolumeRequest {
  al_volume_id : Z;
  al_collection : string;
  al_replication : string;
  al_ttl : string;
  al_preallocate : Z;
}.

(** What the master asks the volume servers, by their addresses: to allocate a
    volume, and the steps of a compaction.  Each answers or fails, and [servers] is
    what the servers have become. *)
Class Rpc := {
  f64 : Type;
  f64_gt : f64 -> f64 -> bool;
  servers : Type;
  rpc_allocate_volume : string -> allocate_request -> servers -> servers * option VolumeError;
  rpc_vacuum_check : string -> Z -> servers -> servers * option f64;
  rpc_vacuum_compact : string -> Z -> Z -> servers -> servers * bool;
  rpc_vacuum_commit : string -> Z -> servers -> servers * bool;
  rpc_vacuum_cleanup : string -> Z -> servers -> servers * bool;
}.

(** The shard of a [DashMap] that a key is in. *)
Class Shards := shard_of : Z -> nat.

Section topology.
Context {R : Rng} {F : Flake} {P : Rpc} {Sh : Shards}.

Record topology := Topology {
  tp_tree : tree;
  tp_sequencer : sequencer;
  tp_collections : list (string * collection);
  tp_ec_shards : ec_registry;
  tp_heap : heap;
  tp_volume_size_limit : Z;
  tp_rng : rng;
  tp_servers : servers;
}.

(** The reference of the root. *)
Definition TOPO : nref := 0.

Definition topology_new (s : sequencer) (volume_size_limit : Z) (g : rng) (p : servers) : topology :=
  Topology (Tree 1 {[ TOPO := node_new "topo" TTopology ]}) s [] ∅ (Heap 0 ∅) volume_size_limit g p.

Definition set_tree (t : tree) (s : topology) : topology :=
  Topology t s.(tp_sequencer) s.(tp_collections) s.(tp_ec_shards) s.(tp_heap)
    s.(tp_volume_size_limit) s.(tp_rng) s.(tp_servers).
Definition set_sequencer (q : sequencer) (s : topology) : topology :=
  Topology s.(tp_tree) q s.(tp_collections) s.(tp_ec_shards) s.(tp_heap)
    s.(tp_volume_size_limit) s.(tp_rng) s.(tp_servers).
Definition set_collections (cs : list (string * collection)) (s : topology) : topology :=
  Topology s.(tp_tree) s.(tp_sequencer) cs s.(tp_ec_shards) s.(tp_heap)
    s.(tp_volume_size_limit) s.(tp_rng) s.(tp_servers).
Definition set_ec (m : ec_registry) (s : topology) : topology :=
  Topology s.(tp_tree) s.(tp_sequencer) s.(tp_collections) m s.(tp_heap)
    s.(tp_volume_size_limit) s.(tp_rng) s.(tp_servers).
Definition set_heap (h : heap) (s : topology) : topology :=
  Topology s.(tp_tree) s.(tp_sequencer) s.(tp_collections) s.(tp_ec_shards) h
    s.(tp_volume_size_limit) s.(tp_rng) s.(tp_servers).
Definition set_rng (g : rng) (s : topology) : topology :=
  Topology s.(tp_tree) s.(tp_sequencer) s.(tp_collections) s.(tp_ec_shards) s.(tp_heap)
    s.(tp_volume_size_limit) g s.(tp_servers).
Definition set_servers (p : servers) (s : topology) : topology :=
  Topology s.(tp_tree) s.(tp_sequencer) s.(tp_collections) s.(tp_ec_shards) s.(tp_heap)
    s.(tp_volume_size_limit) s.(tp_rng) p.

(** Running an operation that draws random numbers. *)
Definition with_rng {A} (m : M rng VolumeError A) : M topology VolumeError A :=
  fun s => let '(g, o) := m s.(tp_rng) in (set_rng g s, o).

(** *** Layouts *)

(** [get_volume_layout]: the collection and the layout are created when they
    are missing. *)
Definition get_volume_layout (name : string) (rp : replica_placement) (t : ttl) (s : topology)
  : topology * volume_layout :=
  let c := match assoc name s.(tp_collections) with
           | Some c => c
           | None => Coll.new name s.(tp_volume_size_limit)
           end in
  let '(c, vl) := Coll.get_or_create_volume_layout rp (Some t) c in
  (set_collections (assoc_set name c s.(tp_collections)) s, vl).

(** A layout is shared: a change through the reference is seen in the map. *)
Definition put_layout (name : string) (rp : replica_placement) (t : ttl) (vl : volume_layout) (s : topology)
  : topology :=
  match assoc name s.(tp_collections) with
  | Some c => set_collections (assoc_set name (with_layouts
      (assoc_set (Coll.layout_key rp (Some t)) vl c.(cl_layouts)) c) s.(tp_collections)) s
  | None => s
  end.

Definition update_layout (name : string) (rp : replica_placement) (t : ttl)
    (f : volume_layout -> volume_layout) (s : topology) : topology :=
  let '(s, vl) := get_volume_layout name rp t s in put_layout name rp t (f vl) s.

Definition register_volume_layout (v : volume_info) (dn : nref) (s : topology) : topology :=
  update_layout v.(vi_collection) v.(vi_replica_placement) v.(vi_ttl)
    (Layout.register_volume s.(tp_tree) v dn) s.

Definition unregister_volume_layout (v : volume_info) (dn : nref) (s : topology) : topology :=
  update_layout v.(vi_collection) v.(vi_replica_placement) v.(vi_ttl)
    (Layout.unregister_volume s.(tp_tree) v dn) s.

Fixpoint lookup_collections (vid : Z) (cs : list (string * collection)) : option (list nref) :=
  match cs with
  | [] => None
  | (_, c) :: cs' => match Coll.lookup vid c with Some n => Some n | None => lookup_collections vid cs' end
  end.

(** [lookup] *)
Definition lookup (name : string) (vid : Z) (s : topology) : option (list nref) :=
  if is_empty name then lookup_collections vid s.(tp_collections)
  else match assoc name s.(tp_collections) with Some c => Coll.lookup vid c | None => None end.

Definition option_layout (o : grow_option) (s : topology) : topology * volume_layout :=
  get_volume_layout o.(go_collection) o.(go_replica_placement) o.(go_ttl) s.

Definition has_writable_volume (o : grow_option) (s : topology) : topology * bool :=
  let '(s, vl) := option_layout o s in (s, 0 <? Layout.active_volume_count o s.(tp_tree) vl).

(** [pick_for_write]: keys first, then a volume; [nodes[0]] of an empty list is
    a panic. *)
Definition pick_for_write (count : Z) (o : grow_option) : M topology VolumeError (file_id * Z * nref) :=
  fun s =>
    let '(q, id) := Sequencer.next_file_id count s.(tp_sequencer) in
    let s := set_sequencer q s in
    match id with
    | Err _ => (s, Err VString)
    | Panic => (s, Panic)
    | Ok key =>
        let '(s, vl) := option_layout o s in
        (let* '(vid, nodes) := with_rng (Layout.pick_for_write o s.(tp_tree) vl) in
         let* node := mlift (unwrap (nodes !! 0%nat)) in
         let* hash := with_rng (gen_range (2 ^ 32)) in
         mret (FileId vid key hash, count, node)) s
    end.

(** *** Data nodes *)

(** [register_data_node] *)
Definition register_data_node (dc_name rack_name : string) (dn : nref) : M topology VolumeError unit :=
  fun s =>
    match parent_of dn s.(tp_tree) with
    | Some _ => (s, Ok tt)
    | None =>
        let '(t, dc) := get_or_create_data_center TOPO dc_name s.(tp_tree) in
        match dc with
        | Ok dc =>
            let '(t, rack) := get_or_create_rack dc rack_name t in
            match rack with
            | Ok rack =>
                let t := link_child_node rack dn t in
                (set_tree (upd dn (with_parent (Some rack)) t) s, Ok tt)
            | Err e => (set_tree t s, Err e)
            | Panic => (set_tree t s, Panic)
            end
        | Err e => (set_tree t s, Err e)
        | Panic => (set_tree t s, Panic)
        end
    end.

(** [sync_data_node_registration]; [order] is the order in which the volumes of
    the node are iterated. *)
Definition sync_data_node_registration (order : gmap Z volume_info -> list (Z * volume_info))
    (volumes : list volume_message) (dn : nref) (s : topology)
  : topology * (list volume_info * list volume_info) :=
  let infos := omap volume_info_new volumes in
  let '(t, (news, dels)) := update_volumes order dn infos s.(tp_tree) in
  let s := set_tree t s in
  let s := fold_left (fun s v => register_volume_layout v dn s) news s in
  let s := fold_left (fun s v => unregister_volume_layout v dn s) dels s in
  (s, (news, dels)).

(** [incremental_sync_data_node_registration] *)
Definition incremental_sync_data_node_registration (new_volumes deleted_volumes : list volume_message)
    (dn : nref) (s : topology) : topology :=
  let news := omap volume_info_new_from_short new_volumes in
  let olds := omap volume_info_new_from_short deleted_volumes in
  let s := set_tree (delta_update_volumes dn news olds s.(tp_tree)) s in
  let s := fold_left (fun s v => register_volume_layout v dn s) news s in
  fold_left (fun s v => unregister_volume_layout v dn s) olds s.

(** [unregister_data_node] *)
Definition unregister_data_node (order : gmap Z volume_info -> list (Z * volume_info)) (dn : nref)
    (s : topology) : topology :=
  let s := fold_left (fun s e =>
             update_layout e.2.(vi_collection) e.2.(vi_replica_placement) e.2.(vi_ttl)
               (fun l => (Layout.set_volume_unavailable s.(tp_tree) e.1 dn l).1) s)
             (order (volumes_of dn s.(tp_tree))) s in
  let own c t := match get_node t dn with Some nd => i64 (- cnt c nd) | None => 0 end in
  let t := s.(tp_tree) in
  let t := adjust_volume_count (own CVolume t) dn t in
  let t := adjust_active_volume_count (own CActive t) dn t in
  let t := adjust_max_volume_count (own CMax t) dn t in
  let t := match parent_of dn t with
           | Some rack => unlink_child_node rack (id_of (Some dn) t) t
           | None => t
           end in
  set_tree t s.

(** [next_volume_id]; the new maximum reaches the tree later, through raft. *)
Definition next_volume_id (s : topology) : Z :=
  match get_node s.(tp_tree) TOPO with
  | Some nd => u32 (nd.(nd_max_volume_id) + 1)
  | None => 0
  end.

Definition link_data_center (dc : nref) (s : topology) : topology :=
  set_tree (link_child_node TOPO dc s.(tp_tree)) s.

Definition set_max_sequence (seq : Z) (s : topology) : topology :=
  set_sequencer (Sequencer.set_max seq s.(tp_sequencer)) s.

(** *** Growing ([VolumeGrowth]) *)

Definition new_volume (vid : Z) (o : grow_option) : volume_info :=
  VolumeInfo vid 0 o.(go_replica_placement) o.(go_ttl) o.(go_collection) CURRENT_VERSION 0 0 0 false.

Definition allocate_request_of (vid : Z) (o : grow_option) : allocate_request :=
  AllocateVolumeRequest vid o.(go_collection) (Replica.fmt o.(go_replica_placement)) (Ttl.fmt o.(go_ttl))
    o.(go_preallocate).

Fixpoint grow (vid : Z) (o : grow_option) (nodes : list nref) : M topology VolumeError unit :=
  match nodes with
  | [] => mret tt
  | dn :: nodes' => fun s =>
      let '(p, failed) := rpc_allocate_volume (url dn s.(tp_tree)) (allocate_request_of vid o) s.(tp_servers) in
      let s := set_servers p s in
      match failed with
      | Some e => (s, Err e)
      | None =>
          let s := set_tree (add_or_update_volume dn (new_volume vid o) s.(tp_tree)).1 s in
          grow vid o nodes' (register_volume_layout (new_volume vid o) dn s)
      end
  end.

Definition find_and_grow (o : grow_option) : M topology VolumeError Z :=
  fun s =>
    (let* nodes := with_rng (Grow.find_empty_slots o TOPO s.(tp_tree)) in
     let* s := mget in
     let* _ := grow (next_volume_id s) o nodes in
     mret (len nodes)) s.

Fixpoint grow_by_count_and_type (count : nat) (o : grow_option) : M topology VolumeError Z :=
  match count with
  | O => mret 0
  | S k => let* n := find_and_grow o in
           let* m := grow_by_count_and_type k o in
           mret (n + m)
  end.

Definition grow_by_type (o : grow_option) : M topology VolumeError Z :=
  grow_by_count_and_type
    (Z.to_nat (Grow.find_volume_count (Replica.copy_count o.(go_replica_placement)))) o.

(** *** Vacuum ([vacuum] and [batch_vacuum_volume_*]) *)

(** A request to each of the data nodes in turn; [f] is the new verdict from the
    old one and the answer. *)
Definition ask_all {A} (call : string -> servers -> servers * A) (f : bool -> A -> bool) (t : tree) (nodes : list nref)
    (p : servers) : servers * bool :=
  fold_left (fun acc dn => let '(p, a) := call (url dn t) acc.1 in (p, f acc.2 a)) nodes (p, true).

Definition batch_vacuum_volume_check (t : tree) (vid : Z) (nodes : list nref) (garbage_ratio : f64) : servers -> servers * bool :=
  ask_all (fun addr => rpc_vacuum_check addr vid)
    (fun _ a => match a with Some ratio => f64_gt ratio garbage_ratio | None => false end) t nodes.

Definition batch_vacuum_volume_compact (t : tree) (vid : Z) (nodes : list nref) (preallocate : Z) (l : volume_layout)
    (p : servers) : (volume_layout * servers) * bool :=
  let '(p, ok) := ask_all (fun addr => rpc_vacuum_compact addr vid preallocate) (fun _ a => a) t nodes p in
  (((Layout.remove_from_writable vid l).1, p), ok).

Definition commit_all (t : tree) (vid : Z) (nodes : list nref) : servers -> servers * bool :=
  ask_all (fun addr => rpc_vacuum_commit addr vid) (fun ok a => if a : bool then ok else false) t nodes.

(** [DashMap]: the entries are spread over shards by the hash of the key, each
    shard under a lock of its own.  A reference to an entry, the one an iterator
    has reached included, has the lock of its shard for reading as long as it
    lives; [get_mut] takes it for writing.  [held] are the shards the task has
    locked for reading: [None] when it waits for a lock it holds itself, which
    nobody else can release. *)
Definition get_mut {A} (held : list nat) (k : Z) (m : gmap Z A) : option (option A) :=
  if bool_decide (shard_of k ∈ held) then None else Some (m !! k).

(** [set_volume_available] by a task that holds some locks of [locations]. *)
Definition set_available (held : list nat) (t : tree) (vid : Z) (dn : nref) (l : volume_layout) : option volume_layout :=
  match get_mut held vid l.(vl_locations) with
  | None => None
  | Some _ => Some (Layout.set_volume_available t vid dn l).1
  end.

Fixpoint set_all_available (held : list nat) (t : tree) (vid : Z) (nodes : list nref) (l : volume_layout) : option volume_layout :=
  match nodes with
  | [] => Some l
  | dn :: nodes' => match set_available held t vid dn l with
                    | Some l => set_all_available held t vid nodes' l
                    | None => None
                    end
  end.

Definition batch_vacuum_volume_commit (held : list nat) (t : tree) (vid : Z) (nodes : list nref) (l : volume_layout) (p : servers)
  : option ((volume_layout * servers) * bool) :=
  let '(p, commit_success) := commit_all t vid nodes p in
  if commit_success then
    match set_all_available held t vid nodes l with
    | Some l => Some ((l, p), commit_success)
    | None => None
    end
  else Some ((l, p), commit_success).

(** Not called. *)
Definition batch_vacuum_volume_cleanup (t : tree) (vid : Z) (nodes : list nref) : servers -> servers * bool :=
  ask_all (fun addr => rpc_vacuum_cleanup addr vid) (fun _ a => a) t nodes.

(** The body of the loop over the locations of a layout, under the locks of
    [held]. *)
Definition vacuum_volume (held : list nat) (t : tree) (garbage_threshold : f64) (preallocate : Z) (e : Z * list nref)
    (lp : volume_layout * servers) : option (volume_layout * servers) :=
  let '(vid, nodes) := e in
  let '(l, p) := lp in
  match l.(vl_readonly) !! vid with
  | Some _ => Some (l, p)
  | None =>
      let '(p, need_vacuum) := batch_vacuum_volume_check t vid nodes garbage_threshold p in
      if need_vacuum then
        let '((l, p), compacted) := batch_vacuum_volume_compact t vid nodes preallocate l p in
        if compacted then
          match batch_vacuum_volume_commit held t vid nodes l p with
          | Some (lp, _) => Some lp
          | None => None
          end
        else Some (l, p)
      else Some (l, p)
  end.

(** The locks the loop has while [data_nodes], the reference to the entry, lives:
    [locations.clone()] clones the [Arc], and the iterator runs over the map of
    the layout itself. *)
Definition entry_guard (e : Z * list nref) : list nat := [shard_of e.1].

Definition vacuum_layout (order : gmap Z (list nref) -> list (Z * list nref)) (t : tree) (garbage_threshold : f64)
    (preallocate : Z) (l : volume_layout) (p : servers) : option (volume_layout * servers) :=
  fold_left (fun a e => a ≫= vacuum_volume (entry_guard e) t garbage_threshold preallocate e) (order l.(vl_locations))
    (Some (l, p)).

Fixpoint vacuum_all {A} (f : A -> servers -> option (A * servers)) (l : list (string * A)) (p : servers)
  : option (list (string * A) * servers) :=
  match l with
  | [] => Some ([], p)
  | (k, a) :: l' => match f a p with
                    | None => None
                    | Some (a', p) => match vacuum_all f l' p with Some (r, p) => Some ((k, a') :: r, p) | None => None end
                    end
  end.

Definition vacuum_collection (order : gmap Z (list nref) -> list (Z * list nref)) (t : tree) (garbage_threshold : f64)
    (preallocate : Z) (c : collection) (p : servers) : option (collection * servers) :=
  match vacuum_all (vacuum_layout order t garbage_threshold preallocate) c.(cl_layouts) p with
  | Some (ls, p) => Some (with_layouts ls c, p)
  | None => None
  end.

Definition vacuum (order : gmap Z (list nref) -> list (Z * list nref)) (garbage_threshold : f64) (preallocate : Z)
    (s : topology) : option topology :=
  match vacuum_all (vacuum_collection order s.(tp_tree) garbage_threshold preallocate) s.(tp_collections) s.(tp_servers) with
  | Some (cs, p) => Some (set_servers p (set_collections cs s))
  | None => None
  end.

End topology.
