(* ===== verification/TopologyFacts.v ===== *)
(** * What the master guarantees

    A volume that was grown is writable, with the replicas it was placed on;
    volume ids never repeat; and what full heartbeats and vacuuming do not
    do. *)

From S2P Require Import Prelude Types Text Ttl Replica Errors Messages Fid Volume ShardBits Node NodeFacts Rand VolumeLayout VolumeLayoutFacts VolumeGrow VolumeGrowFacts EcShards Sequence Topology.
#[local] Open Scope string_scope.
#[local] Open Scope list_scope.
#[local] Open Scope Z_scope.

(** ** Entries of a map *)

Section assoc_facts.
Context {A : Type}.
Implicit Types (l : list (string * A)).

Lemma assoc_set_eq k a l : assoc k (assoc_set k a l) = Some a.
Proof.
  induction l as [|[k' a'] l IH]; cbn; [by rewrite bool_decide_true|].
  case_bool_decide; cbn; [by rewrite bool_decide_true|by rewrite bool_decide_false].
Qed.

Lemma assoc_set_ne k k' a l : k <> k' -> assoc k (assoc_set k' a l) = assoc k l.
Proof.
  intros Hne. induction l as [|[k0 a0] l IH]; cbn; [by rewrite bool_decide_false|].
  destruct (decide (k0 = k')) as [->|H0].
  - rewrite (bool_decide_true (k' = k')) by done. cbn. by rewrite !bool_decide_false by done.
  - rewrite (bool_decide_false (k0 = k')) by done. cbn. by rewrite IH.
Qed.

End assoc_facts.

(** ** What reports leave of the tree *)

(** The data behind every reference but [r] is unchanged. *)
Definition same_data (r : nref) (t t' : tree) : Prop :=
  forall x, x <> r -> nd_type <$> get_node t' x = nd_type <$> get_node t x.

Lemma same_but_types c t t' : same_but c t t' -> forall x, nd_type <$> get_node t' x = nd_type <$> get_node t x.
Proof.
  intros [_ H1 H2] x. destruct (get_node t x) as [nd|] eqn:E.
  - destruct (H1 x nd E) as (nd' & -> & _ & Ht & _). cbn. by rewrite Ht.
  - by rewrite (H2 x E).
Qed.

Lemma max_id_types fuel : forall vid r t x,
  nd_type <$> get_node (adjust_max_id_up fuel vid r t) x = nd_type <$> get_node t x.
Proof.
  induction fuel as [|fuel IH]; intros vid r t x; cbn [adjust_max_id_up]; [done|].
  destruct (get_node t r) as [nd|] eqn:E; [|done]. destruct (nd_max_volume_id nd <? vid); [|done].
  assert (Hu : nd_type <$> get_node (upd r (with_max_volume_id vid) t) x = nd_type <$> get_node t x).
  { rewrite get_upd. case_decide; [subst|done]. by rewrite E. }
  destruct (nd_parent nd); [by rewrite IH|done].
Qed.

Lemma adjust_types c d r t x : nd_type <$> get_node (adjust c d r t) x = nd_type <$> get_node t x.
Proof. eapply same_but_types, adjust_up_same. Qed.

Lemma add_volume_types r v t : same_data r t (add_or_update_volume r v t).1.
Proof.
  intros x Hx. unfold add_or_update_volume. destruct (volumes_of r t !! vi_id v); cbn [fst].
  - rewrite get_upd. by rewrite decide_False by congruence.
  - rewrite get_upd, decide_False by congruence. unfold adjust_max_volume_id. rewrite max_id_types.
    destruct (vi_read_only v); unfold adjust_active_volume_count, adjust_volume_count; by rewrite !adjust_types.
Qed.

(** Addresses and volumes are read off the data. *)
Lemma volumes_of_type t t' x : nd_type <$> get_node t' x = nd_type <$> get_node t x ->
  volumes_of x t' = volumes_of x t /\ dn_addr t' x = dn_addr t x /\ (is_dn t x -> is_dn t' x).
Proof.
  unfold volumes_of, dn_addr, is_dn, is_data_node. intros H.
  destruct (get_node t' x) as [n'|], (get_node t x) as [n|]; try done; cbn in H.
  - injection H as E. rewrite E. split; [done|]. split; [done|]. intros (nd & [= <-] & Hd).
    exists n'. by rewrite E.
Qed.

Lemma volumes_of_upd r vs t : is_dn t r ->
  volumes_of r (upd r (set_volumes vs) t) = vs /\ dn_addr (upd r (set_volumes vs) t) r = dn_addr t r
  /\ is_dn (upd r (set_volumes vs) t) r.
Proof.
  intros (nd & E & Hd). unfold volumes_of, dn_addr, is_dn. rewrite get_upd, decide_True, E by done. cbn.
  unfold set_volumes, is_data_node in *. destruct (nd_type nd) eqn:Et; [done..|]. cbn. repeat split.
  by eexists.
Qed.

Lemma add_volume_data r v t : is_dn t r ->
  let t' := (add_or_update_volume r v t).1 in
  volumes_of r t' = <[vi_id v := v]> (volumes_of r t)
  /\ (forall x, x <> r -> volumes_of x t' = volumes_of x t) /\ keeps_servers t t'.
Proof.
  intros Hd t'. pose proof (add_volume_types r v t) as Hs. fold t' in Hs.
  assert (Hr : volumes_of r t' = <[vi_id v := v]> (volumes_of r t) /\ dn_addr t' r = dn_addr t r /\ is_dn t' r).
  { subst t'. clear Hs. unfold add_or_update_volume. destruct (volumes_of r t !! vi_id v); cbn [fst].
    - by apply volumes_of_upd.
    - set (t1 := adjust_volume_count 1 r t).
      set (t2 := if vi_read_only v then t1 else adjust_active_volume_count 1 r t1).
      set (t3 := adjust_max_volume_id (vi_id v) r t2).
      assert (H3 : nd_type <$> get_node t3 r = nd_type <$> get_node t r).
      { unfold t3, adjust_max_volume_id. rewrite max_id_types. unfold t2.
        destruct (vi_read_only v); unfold t1, adjust_active_volume_count, adjust_volume_count; by rewrite !adjust_types. }
      destruct (volumes_of_type t t3 r H3) as (E1 & E2 & E3). rewrite E1, <- E2. apply volumes_of_upd. auto. }
  destruct Hr as (H1 & H2 & H3). split; [done|]. split.
  - intros x Hx. by apply volumes_of_type, Hs.
  - intros x Hdx. destruct (decide (x = r)) as [->|Hx]; [done|].
    destruct (volumes_of_type t t' x (Hs x Hx)) as (_ & ? & ?). auto.
Qed.

(** ** Layouts of the topology *)

Section facts.
Context {R : Rng} {F : Flake} {P : Rpc}.

(** The layout a request for this collection, placement and TTL would get. *)
Definition layout_of (name : string) (rp : replica_placement) (t : ttl) (s : topology) : volume_layout :=
  (get_volume_layout name rp t s).2.

Lemma get_layout_tree name rp t s : tp_tree (get_volume_layout name rp t s).1 = tp_tree s.
Proof. unfold get_volume_layout. by destruct Coll.get_or_create_volume_layout. Qed.

(** The collection is there afterwards, and the layout in it. *)
Lemma get_layout_stored name rp t s :
  exists c, assoc name (tp_collections (get_volume_layout name rp t s).1) = Some c
            /\ assoc (Coll.layout_key rp (Some t)) c.(cl_layouts) = Some (layout_of name rp t s).
Proof.
  unfold layout_of, get_volume_layout. set (c0 := match assoc name _ with Some c => c | None => _ end).
  unfold Coll.get_or_create_volume_layout.
  destruct (assoc (Coll.layout_key rp (Some t)) (cl_layouts c0)) as [vl|] eqn:E; cbn.
  - exists c0. by rewrite assoc_set_eq.
  - eexists. rewrite assoc_set_eq. split; [done|]. cbn. by rewrite assoc_set_eq.
Qed.

Lemma stored_layout name rp t s c vl : assoc name (tp_collections s) = Some c ->
  assoc (Coll.layout_key rp (Some t)) c.(cl_layouts) = Some vl -> layout_of name rp t s = vl.
Proof.
  intros H1 H2. unfold layout_of, get_volume_layout. rewrite H1. unfold Coll.get_or_create_volume_layout.
  by rewrite H2.
Qed.

Lemma update_layout_spec name rp t f s :
  let s' := update_layout name rp t f s in
  tp_tree s' = tp_tree s /\ layout_of name rp t s' = f (layout_of name rp t s).
Proof.
  unfold update_layout. destruct (get_layout_stored name rp t s) as (c & Hc & Hl).
  pose proof (get_layout_tree name rp t s) as Ht. unfold layout_of in Hl |- * at 2.
  destruct (get_volume_layout name rp t s) as [s1 vl]. cbn [fst snd] in *.
  unfold put_layout. rewrite Hc. split; [done|].
  eapply stored_layout; cbn; [apply assoc_set_eq|]. cbn. apply assoc_set_eq.
Qed.

(** ** Growing a volume *)

Lemma set_node_fresh t ls dn : dn_addr t dn ∉ map (dn_addr t) ls -> Layout.set_node t ls dn = ls ++ [dn].
Proof.
  induction ls as [|r ls IH]; cbn [Layout.set_node map]; [done|]. intros H.
  unfold same_server. rewrite bool_decide_false by set_solver. cbn. f_equal. apply IH. set_solver.
Qed.

Definition option_layout_of (o : grow_option) (s : topology) : volume_layout :=
  layout_of o.(go_collection) o.(go_replica_placement) o.(go_ttl) s.

(** The state while volume [vid] is being created: [made] hold it. *)
Record growing (vid : Z) (o : grow_option) (made todo : list nref) (s : topology) : Prop := {
  gr_servers : NoDup (map (dn_addr (tp_tree s)) (made ++ todo));
  gr_nodes : Forall (is_dn (tp_tree s)) (made ++ todo);
  gr_layout : layout_inv (tp_tree s) (option_layout_of o s);
  gr_rp : vl_rp (option_layout_of o s) = o.(go_replica_placement);
  gr_limit : 0 < vl_volume_size_limit (option_layout_of o s);
  gr_replicas : Layout.replicas (option_layout_of o s) vid = made;
  gr_made : forall r, r ∈ made -> volumes_of r (tp_tree s) !! vid = Some (new_volume vid o);
  gr_keyed : keyed (tp_tree s) vid;
}.

Lemma register_limit t v dn l : vl_volume_size_limit (Layout.register_volume t v dn l) = vl_volume_size_limit l.
Proof.
  unfold Layout.register_volume. set (locs := Layout.set_node _ _ _). set (l1 := Layout.with_locations _ l).
  assert (Hc : forall ls k, vl_volume_size_limit (Layout.check_replicas t (vi_id v) ls k).1 = vl_volume_size_limit k).
  { induction ls as [|r ls IH]; intros k; cbn [Layout.check_replicas]; [done|].
    assert (Hr : forall i, vl_volume_size_limit (Layout.remove_from_writable i k).1 = vl_volume_size_limit k)
      by (intros; unfold Layout.remove_from_writable; by destruct Layout.last_index).
    destruct (volumes_of r t !! vi_id v) as [w|]; [|apply Hr].
    destruct (vi_read_only w); [apply Hr|]. by rewrite IH. }
  pose proof (Hc locs l1) as E. destruct (Layout.check_replicas t (vi_id v) locs l1) as [l2 []]; [|done].
  cbn [fst] in E. unfold Layout.ensure_correct_writable, Layout.remember_oversized_volume.
  destruct (Layout.is_oversize v l2); cbn [Layout.with_oversize vl_locations vl_rp];
    (destruct (vl_locations l2 !! vi_id v); [|done]); (destruct (_ && _);
    [destruct (vl_oversize _ !! _); [done|]; unfold Layout.set_volume_writable; by case_bool_decide
    |unfold Layout.remove_from_writable; by destruct Layout.last_index]).
Qed.

Lemma layout_set_tree name rp t t' s : layout_of name rp t (set_tree t' s) = layout_of name rp t s.
Proof. unfold layout_of, get_volume_layout. cbn. by destruct Coll.get_or_create_volume_layout. Qed.

Lemma layout_set_rng name rp t g s : layout_of name rp t (set_rng g s) = layout_of name rp t s.
Proof. unfold layout_of, get_volume_layout. cbn. by destruct Coll.get_or_create_volume_layout. Qed.

Lemma layout_set_servers name rp t p s : layout_of name rp t (set_servers p s) = layout_of name rp t s.
Proof. unfold layout_of, get_volume_layout. cbn. by destruct Coll.get_or_create_volume_layout. Qed.

(** One data node: it gets the volume, and the layout learns about it. *)
Definition grow_one (vid : Z) (o : grow_option) (dn : nref) (s : topology) : topology :=
  register_volume_layout (new_volume vid o) dn
    (set_tree (add_or_update_volume dn (new_volume vid o) (tp_tree s)).1 s).

Lemma grow_one_layout vid o dn s :
  tp_tree (grow_one vid o dn s) = (add_or_update_volume dn (new_volume vid o) (tp_tree s)).1
  /\ option_layout_of o (grow_one vid o dn s)
     = Layout.register_volume (tp_tree (grow_one vid o dn s)) (new_volume vid o) dn (option_layout_of o s).
Proof.
  unfold grow_one, register_volume_layout, option_layout_of.
  cbn [vi_collection vi_replica_placement vi_ttl new_volume].
  set (s1 := set_tree _ s).
  destruct (update_layout_spec (go_collection o) (go_replica_placement o) (go_ttl o)
              (Layout.register_volume (tp_tree s1) (new_volume vid o) dn) s1) as [H1 H2].
  split; [by rewrite H1|]. rewrite H2, H1. f_equal. apply layout_set_tree.
Qed.

Lemma map_addr_servers t t' ls : keeps_servers t t' -> Forall (is_dn t) ls ->
  map (dn_addr t') ls = map (dn_addr t) ls /\ Forall (is_dn t') ls.
Proof.
  intros Hk. induction 1 as [|r ls Hr _ [IH1 IH2]]; [done|]. destruct (Hk r Hr) as [H1 H2].
  split; [cbn; by rewrite H2, IH1|by constructor].
Qed.

Lemma grow_one_spec vid o made dn todo s : growing vid o made (dn :: todo) s ->
  let s' := grow_one vid o dn s in
  growing vid o (made ++ [dn]) todo s'
  /\ (vid ∈ vl_writable (option_layout_of o s') <->
      Replica.copy_count o.(go_replica_placement) <= len (made ++ [dn])).
Proof.
  intros [G1 G2 G3 G4 G5 G6 G7 G8] s'. destruct (grow_one_layout vid o dn s) as [Et El].
  assert (Hd : is_dn (tp_tree s) dn) by (rewrite Forall_app, Forall_cons in G2; apply G2).
  destruct (add_volume_data dn (new_volume vid o) (tp_tree s) Hd) as (V1 & V2 & V3).
  rewrite <- Et in V1, V2, V3. fold s' in Et, El, V1, V2, V3.
  destruct (map_addr_servers _ _ _ V3 G2) as [M1 M2].
  assert (Hinv : layout_inv (tp_tree s') (option_layout_of o s)) by by eapply layout_inv_tree.
  assert (Hvol : forall r w, volumes_of r (tp_tree s') !! vid = Some w ->
    (r = dn /\ w = new_volume vid o) \/ volumes_of r (tp_tree s) !! vid = Some w).
  { intros r w. destruct (decide (r = dn)) as [->|Hr]; [|rewrite V2 by done; by right].
    rewrite V1. cbn. rewrite lookup_insert_eq. intros [= <-]. by left. }
  assert (Hk : keyed (tp_tree s') vid).
  { intros r w Hw. destruct (Hvol r w Hw) as [[-> ->]|Hw']; [done|by apply (G8 r)]. }
  assert (Hfresh : dn_addr (tp_tree s') dn ∉ map (dn_addr (tp_tree s')) made).
  { rewrite <- M1, map_app, NoDup_app in G1. intros Hin. apply (proj1 (proj2 G1) _ Hin). cbn. set_solver. }
  assert (Hmade : forall r, r ∈ made ++ [dn] -> volumes_of r (tp_tree s') !! vid = Some (new_volume vid o)).
  { intros r Hr. destruct (decide (r = dn)) as [->|Hne]; [rewrite V1; cbn; by rewrite lookup_insert_eq|].
    rewrite V2 by done. apply G7. set_solver. }
  destruct (register_volume_lemma (tp_tree s') (option_layout_of o s) (new_volume vid o) dn Hinv Hk)
    as (L1 & L2 & _). cbn [vi_id new_volume] in L1, L2. rewrite G6, set_node_fresh in L1, L2 by done.
  rewrite <- El in L1, L2. split; [split|].
  - rewrite <- app_assoc. cbn [app]. by rewrite M1.
  - by rewrite <- app_assoc.
  - rewrite El. apply register_inv; [done|]. rewrite Forall_app, Forall_cons in M2. apply M2.
  - rewrite El. rewrite <- G4.
    apply (layout_step_rp (tp_tree s', option_layout_of o s) (tp_tree s', _)), ls_register.
    rewrite Forall_app, Forall_cons in M2. apply M2.
  - by rewrite El, register_limit.
  - unfold Layout.replicas. unfold Layout.lookup in L1. by rewrite L1.
  - done.
  - done.
  - rewrite L2, G4. split; [naive_solver|]. intros Hc. split; [|split; [done|]].
    + apply forallb_forall. intros r Hr%list_elem_of_In. unfold healthy. by rewrite Hmade.
    + unfold Layout.is_writable, Layout.is_oversize. cbn. by rewrite (proj2 (Z.leb_gt _ _)).
Qed.

Lemma growing_servers vid o made todo p s : growing vid o made todo s -> growing vid o made todo (set_servers p s).
Proof. intros []. split; unfold option_layout_of; rewrite ?layout_set_servers; done. Qed.

Lemma grow_spec vid o todo : forall made s,
  (forall addr p, (rpc_allocate_volume addr (allocate_request_of vid o) p).2 = None) ->
  growing vid o made todo s ->
  exists s', grow vid o todo s = (s', Ok tt) /\ growing vid o (made ++ todo) [] s'
    /\ (todo <> [] -> (vid ∈ vl_writable (option_layout_of o s') <->
          Replica.copy_count o.(go_replica_placement) <= len (made ++ todo))).
Proof.
  induction todo as [|dn todo IH]; intros made s Hrpc Hg; cbn [grow].
  { exists s. rewrite app_nil_r. done. }
  pose proof (Hrpc (url dn (tp_tree s)) (tp_servers s)) as Ha.
  destruct (rpc_allocate_volume _ _ _) as [p failed]. cbn [snd] in Ha. subst failed.
  destruct (grow_one_spec vid o made dn todo (set_servers p s) (growing_servers _ _ _ _ _ _ Hg)) as [Hg' Hw].
  destruct (IH (made ++ [dn]) (grow_one vid o dn (set_servers p s))) as (s' & H1 & H2 & H3); [done|done|].
  rewrite <- app_assoc in H2, H3. cbn [app] in H2, H3. exists s'. split; [exact H1|]. split; [done|].
  intros _. destruct todo as [|d todo]; [|by apply H3]. cbn in H1. injection H1 as <-. exact Hw.
Qed.

(** ** Parents and volume ids *)

Lemma max_id_parent fuel : forall vid r t x, parent_of x (adjust_max_id_up fuel vid r t) = parent_of x t.
Proof.
  unfold parent_of. induction fuel as [|fuel IH]; intros vid r t x; cbn [adjust_max_id_up]; [done|].
  destruct (get_node t r) as [nd|] eqn:E; [|done]. destruct (nd_max_volume_id nd <? vid); [|done].
  assert (Hu : get_node (upd r (with_max_volume_id vid) t) x ≫= nd_parent = get_node t x ≫= nd_parent).
  { rewrite get_upd. case_decide; [subst|done]. by rewrite E. }
  destruct (nd_parent nd); [by rewrite IH|done].
Qed.

Lemma adjust_parent c d r t x : parent_of x (adjust c d r t) = parent_of x t.
Proof.
  destruct (adjust_up_same MAX_DEPTH c d r t) as [_ H1 H2]. unfold parent_of, adjust.
  destruct (get_node t x) as [nd|] eqn:E.
  - destruct (H1 x nd E) as (nd' & -> & _ & _ & Hp & _). done.
  - by rewrite (H2 x E).
Qed.

Lemma upd_volumes_parent r vs t x : parent_of x (upd r (set_volumes vs) t) = parent_of x t.
Proof.
  unfold parent_of. rewrite get_upd. case_decide; [subst|done]. destruct (get_node t x) as [nd|]; [|done].
  cbn. unfold set_volumes. by destruct (nd_type nd).
Qed.

Lemma add_volume_parent r v t x : parent_of x (add_or_update_volume r v t).1 = parent_of x t.
Proof.
  unfold add_or_update_volume. destruct (volumes_of r t !! vi_id v); cbn [fst]; [apply upd_volumes_parent|].
  rewrite upd_volumes_parent. unfold adjust_max_volume_id. rewrite max_id_parent.
  destruct (vi_read_only v); unfold adjust_active_volume_count, adjust_volume_count; by rewrite !adjust_parent.
Qed.

Lemma up_parents k t t' : (forall x, parent_of x t' = parent_of x t) -> forall r, up k t' r = up k t r.
Proof.
  intros H. induction k as [|k IH]; intros r; [done|]. cbn [up]. rewrite H.
  destruct (parent_of r t); cbn; [apply IH|done].
Qed.

(** The maximal id grows towards the root. *)
Lemma max_id_up t : tree_ok t -> forall k r rn p, get_node t r = Some rn -> up k t r = Some p ->
  exists pn, get_node t p = Some pn /\ rn.(nd_max_volume_id) <= pn.(nd_max_volume_id).
Proof.
  intros Ht. induction k as [|k IH]; intros r rn p Hr Hu; cbn [up] in Hu.
  { injection Hu as <-. by exists rn. }
  unfold parent_of in Hu. rewrite Hr in Hu. cbn in Hu. destruct (nd_parent rn) as [q|] eqn:Eq; [|done]. cbn in Hu.
  destruct (sh_parent t (ok_shape t Ht) r rn q Hr Eq) as (qn & Hq & _).
  destruct (IH q qn p Hq Hu) as (pn & Hp & Hle). exists pn. split; [done|].
  pose proof (ok_max t Ht r rn q qn Hr Eq Hq). lia.
Qed.

(** A new volume raises the maximal id of its node. *)
Lemma add_volume_max r v t : tree_ok t -> is_dn t r -> volumes_of r t !! vi_id v = None ->
  exists nd, get_node (add_or_update_volume r v t).1 r = Some nd /\ vi_id v <= nd.(nd_max_volume_id).
Proof.
  intros Ht Hd Hn. unfold add_or_update_volume. rewrite Hn. cbn [fst].
  destruct (adjust_dn CVolume 1 r t Ht Hd) as (A1 & A2 & _).
  set (t1 := adjust_volume_count 1 r t). change (adjust CVolume 1 r t) with t1 in *.
  set (t2 := if vi_read_only v then t1 else adjust_active_volume_count 1 r t1).
  assert (tree_ok t2 /\ is_dn t2 r) as [B1 (nd & Hr & _)].
  { unfold t2. destruct (vi_read_only v); [done|]. by destruct (adjust_dn CActive 1 r t1 A1 A2) as (? & ? & _). }
  destruct (adjust_max_id_ge (vi_id v) r nd t2 (ok_shape _ B1) Hr) as (nd' & Hr' & Hle & _).
  rewrite get_upd, decide_True, Hr' by done. eexists. split; [done|].
  unfold set_volumes. by destruct (nd_type nd').
Qed.
End facts.

(** ** Growing, end to end *)

(** A running master: its tree is well formed, servers have different addresses,
    the layout of the option is in order and has not seen the next id. *)
Record cluster_ready {R : Rng} {F : Flake} {P : Rpc} (o : grow_option) (s : topology) : Prop := {
  cr_tree : tree_ok (tp_tree s);
  cr_root : exists tn, get_node (tp_tree s) TOPO = Some tn /\ level tn = 3;
  cr_servers : forall a b, is_dn (tp_tree s) a -> is_dn (tp_tree s) b ->
    dn_addr (tp_tree s) a = dn_addr (tp_tree s) b -> a = b;
  cr_keyed : keyed (tp_tree s) (next_volume_id s);
  cr_digits : Replica.digits_ok o.(go_replica_placement);
  cr_layout : layout_inv (tp_tree s) (option_layout_of o s);
  cr_rp : vl_rp (option_layout_of o s) = o.(go_replica_placement);
  cr_limit : 0 < vl_volume_size_limit (option_layout_of o s);
  cr_fresh : Layout.lookup (next_volume_id s) (option_layout_of o s) = None;
}.

Lemma placed_copies rp t main same racks centers : Replica.digits_ok rp ->
  placed rp t main same racks centers -> len (main :: same ++ racks ++ centers) = Replica.copy_count rp.
Proof.
  intros Hd ((H1 & H2 & H3) & _). rewrite Replica.copy_count_digits by done.
  rewrite len_cons, !len_app. lia.
Qed.

Lemma NoDup_map_inj {A B} (f : A -> B) l :
  (forall x y, x ∈ l -> y ∈ l -> f x = f y -> x = y) -> NoDup l -> NoDup (map f l).
Proof.
  induction l as [|x l IH]; intros Hi Hn; cbn; [constructor|]. apply NoDup_cons in Hn as [H1 H2].
  apply NoDup_cons. split; [|apply IH; [|done]].
  - intros (y & E & Hy)%list_elem_of_fmap. assert (x = y) as -> by (apply Hi; [by left|by right|done]). done.
  - intros a b Ha Hb. apply Hi; by right.
Qed.

(** C25: when the volume servers accept the new volume, [find_and_grow] either
    reports that there is no free space, with the cluster unchanged, or creates
    a volume with the next id on as many servers as the placement asks for,
    placed as it asks; the volume is then in the layout with exactly those
    replicas, is writable, and every one of them holds it. *)
Theorem find_and_grow_writable : forall (R : Rng) (F : Flake) (P : Rpc) o s,
  cluster_ready o s -> (forall addr vid p, (rpc_allocate_volume addr (allocate_request_of vid o) p).2 = None) ->
  let vid := next_volume_id s in
  match find_and_grow o s with
  | (s', Ok n) => n = Replica.copy_count o.(go_replica_placement)
      /\ vid ∈ vl_writable (option_layout_of o s')
      /\ exists main same racks centers,
           Layout.lookup vid (option_layout_of o s') = Some (main :: same ++ racks ++ centers)
           /\ placed o.(go_replica_placement) (tp_tree s) main same racks centers
           /\ requested o (tp_tree s) main
           /\ forall r, r ∈ main :: same ++ racks ++ centers ->
                volumes_of r (tp_tree s') !! vid = Some (new_volume vid o)
  | (s', Err e) => e = VNoFreeSpace /\ tp_tree s' = tp_tree s /\ tp_collections s' = tp_collections s
  | (_, Panic) => False
  end.
Proof.
  intros R F P o s [C1 (tn & Et & El) C2 C3 C4 C5 C6 C7 C8] Hrpc. cbv zeta. unfold find_and_grow.
  assert (Hnn : nonneg_fields o.(go_replica_placement)) by (unfold nonneg_fields; destruct C4 as (? & ? & ?); lia).
  pose proof (find_empty_slots_lemma o TOPO tn (tp_tree s) (tp_rng s) (ok_shape _ C1) Et El Hnn) as Hf.
  unfold mbind' at 1, with_rng.
  destruct (Grow.find_empty_slots o TOPO (tp_tree s) (tp_rng s)) as [g [nodes|e|]]; cbn [snd] in Hf; [|done..].
  destruct Hf as (main & same & racks & centers & -> & Hp & Hq). set (nodes := main :: same ++ racks ++ centers).
  assert (Hlen : len nodes = Replica.copy_count o.(go_replica_placement)) by by eapply placed_copies.
  assert (Hdn : Forall (is_dn (tp_tree s)) nodes).
  { destruct Hp as (_ & _ & _ & _ & Hp). eapply Forall_impl; [exact Hp|]. by intros x [? _]. }
  assert (Hg : growing (next_volume_id s) o [] nodes (set_rng g s)).
  { split; cbn [app]; unfold option_layout_of; rewrite ?layout_set_rng; try done.
    - cbn [tp_tree set_rng]. apply NoDup_map_inj; [|by eapply placed_NoDup].
      intros x y Hx Hy. apply C2; by apply (proj1 (Forall_forall _ _) Hdn).
    - unfold Layout.replicas. unfold Layout.lookup, option_layout_of in C8. by rewrite C8.
    - intros r Hr. by apply not_elem_of_nil in Hr. }
  unfold mbind' at 1, mget. change (next_volume_id (set_rng g s)) with (next_volume_id s).
  destruct (grow_spec (next_volume_id s) o nodes [] (set_rng g s)) as (s' & Hgr & Hg' & Hw);
    [intros; apply Hrpc|done|].
  unfold mbind'. rewrite Hgr. cbn [mret]. split; [done|]. cbn [app] in *. split.
  - apply Hw; [done|]. lia.
  - exists main, same, racks, centers. destruct Hg' as [_ _ _ _ _ G6 G7 _]. split; [|done].
    unfold Layout.replicas in G6. unfold Layout.lookup.
    destruct (vl_locations (option_layout_of o s') !! next_volume_id s); cbn in G6; [by f_equal|done].
Qed.

(** A master of the sample cluster, with servers that accept every volume. *)
#[local] Instance no_flake : Flake := {| flake := unit; flake_next_id := fun f => (f, None) |}.
#[local] Instance willing : Rpc :=
  {| f64 := Z; f64_gt := fun a b => b <? a; servers := unit; rpc_allocate_volume := fun _ _ p => (p, None);
     rpc_vacuum_check := fun _ _ p => (p, Some 1); rpc_vacuum_compact := fun _ _ _ p => (p, true);
     rpc_vacuum_commit := fun _ _ p => (p, true); rpc_vacuum_cleanup := fun _ _ p => (p, true) |}.
#[local] Existing Instance list_rng.

Definition sample_option : grow_option :=
  VolumeGrowOption "pics" (ReplicaPlacement 0 1 0) Ttl.default 0 "dc" "r2" "".
Definition sample_master : topology :=
  set_tree sample_topology (topology_new (R := list_rng) (F := no_flake) (P := willing) (SMemory 1) 1000 [0] tt).

Lemma layout_inv_new t rp ttl limit : layout_inv t (Layout.new rp ttl limit).
Proof. split; cbn; [constructor|set_solver|]. intros vid locs. by rewrite lookup_empty. Qed.

Lemma node_listed t r nd : get_node t r = Some nd -> In (r, nd) (map_to_list (t_nodes t)).
Proof. intros E. by apply list_elem_of_In, elem_of_map_to_list. Qed.

Lemma sample_dns r : is_dn sample_topology r -> r = 4 \/ r = 5.
Proof.
  intros (nd & E & Hd).
  assert (Ed : forallb (fun e => negb (is_data_node e.2) || (e.1 =? 4) || (e.1 =? 5))
                 (map_to_list (t_nodes sample_topology)) = true) by (vm_compute; reflexivity).
  rewrite forallb_forall in Ed. specialize (Ed (r, nd) (node_listed _ _ _ E)). cbn [fst snd] in Ed.
  rewrite Hd in Ed. cbn in Ed. lia.
Qed.

Lemma sample_master_tree : tp_tree sample_master = sample_topology.
Proof. reflexivity. Qed.

Lemma sample_master_ready : cluster_ready sample_option sample_master.
Proof.
  split.
  - exact sample_topology_ok.
  - eexists. split; [vm_compute; reflexivity|reflexivity].
  - rewrite sample_master_tree. assert (A4 : dn_addr sample_topology 4 = Some ("10.0.0.1", 80)) by (vm_compute; reflexivity).
    assert (A5 : dn_addr sample_topology 5 = Some ("10.0.0.2", 80)) by (vm_compute; reflexivity).
    intros a b [-> | ->]%sample_dns [-> | ->]%sample_dns; rewrite ?A4, ?A5; congruence.
  - apply keyedb_ok. vm_compute. reflexivity.
  - vm_compute. repeat split; congruence.
  - apply layout_inv_new.
  - reflexivity.
  - vm_compute. reflexivity.
  - vm_compute. reflexivity.
Qed.

Lemma find_and_grow_writable_witness :
  (find_and_grow sample_option sample_master).2 = Ok 2
  /\ 1 ∈ vl_writable (option_layout_of sample_option (find_and_grow sample_option sample_master).1).
Proof.
  assert (E : (find_and_grow sample_option sample_master).2 = Ok 2) by (vm_compute; reflexivity).
  split; [exact E|].
  pose proof (find_and_grow_writable list_rng no_flake willing sample_option sample_master sample_master_ready
                (fun _ _ _ => eq_refl)) as H.
  assert (En : next_volume_id sample_master = 1) by (vm_compute; reflexivity).
  cbv zeta in H. rewrite En in H.
  destruct (find_and_grow sample_option sample_master) as [s' o]. cbn [snd fst] in *. rewrite E in H. apply H.
Defined.

(** An id is consumed once a linked data node holds a new volume of that
    id: the next id is a larger one. *)
Theorem grown_id_consumed : forall (R : Rng) (F : Flake) (P : Rpc) r v s,
  tree_ok (tp_tree s) -> is_dn (tp_tree s) r -> up 3 (tp_tree s) r = Some TOPO ->
  volumes_of r (tp_tree s) !! vi_id v = None ->
  let s' := set_tree (add_or_update_volume r v (tp_tree s)).1 s in
  (forall tn, get_node (tp_tree s') TOPO = Some tn -> nd_max_volume_id tn < 2 ^ 32 - 1 /\ 0 <= nd_max_volume_id tn) ->
  vi_id v < next_volume_id s'.
Proof.
  intros R F P r v s Hr Hd Hu Hn s' Hb. pose proof Hr as Ht.
  destruct (add_volume_max r v (tp_tree s) Ht Hd Hn) as (nd & E & Hle).
  pose proof (add_volume_ok r v (tp_tree s) Ht Hd) as Ht'.
  destruct (max_id_up _ Ht' 3 r nd TOPO E) as (pn & Ep & Hle').
  { rewrite (up_parents 3 (tp_tree s)) by apply add_volume_parent. done. }
  unfold next_volume_id. subst s'. cbn [tp_tree set_tree] in *. rewrite Ep. specialize (Hb pn Ep).
  rewrite u32_id by int_solve. lia.
Qed.

Lemma grown_id_consumed_witness :
  1 < next_volume_id (set_tree (add_or_update_volume 4 (report 1 false) (tp_tree sample_master)).1 sample_master).
Proof.
  apply (grown_id_consumed list_rng no_flake willing 4 (report 1 false) sample_master).
  - exact sample_topology_ok.
  - exact (di_dn _ _ sample_dn_inv).
  - vm_compute. reflexivity.
  - vm_compute. reflexivity.
  - intros tn E. vm_compute in E. injection E as <-. vm_compute. split; [reflexivity|congruence].
Defined.

(** ** Full heartbeats *)

(** A full report in which a data node lists exactly volumes the master
    already knows on it changes no layout: a volume that has become read-only or
    too large stays writable there. *)
Theorem known_report_keeps_layouts : forall (R : Rng) (F : Flake) (P : Rpc) order volumes dn s,
  (forall m : gmap Z volume_info, order m ≡ₚ map_to_list m) -> dn_inv (tp_tree s) dn ->
  (forall v, v ∈ omap volume_info_new volumes -> is_Some (volumes_of dn (tp_tree s) !! vi_id v)) ->
  (forall vid, is_Some (volumes_of dn (tp_tree s) !! vid) ->
     exists v, v ∈ omap volume_info_new volumes /\ vi_id v = vid) ->
  tp_collections (sync_data_node_registration order volumes dn s).1 = tp_collections s.
Proof.
  intros R F P order volumes dn s Ho Hi Hk Ha. unfold sync_data_node_registration.
  set (infos := omap volume_info_new volumes) in *.
  pose proof (update_volumes_spec order dn infos (tp_tree s) Ho Hi) as Hu.
  assert (Hd : (update_volumes order dn infos (tp_tree s)).2.2 = []).
  { unfold update_volumes.
    assert (Hf : filter (fun id => Forall (fun v => vi_id v <> id) infos) (map fst (order (volumes_of dn (tp_tree s)))) = []).
    { apply elem_of_nil_inv. intros id [Hall Hid]%list_elem_of_filter.
      apply list_elem_of_fmap in Hid as ([k w] & -> & Hin). rewrite Ho, elem_of_map_to_list in Hin.
      destruct (Ha k) as (v & Hv & Ev); [by exists w|]. rewrite Forall_forall in Hall. by apply (Hall v). }
    rewrite Hf. destruct (fold_left _ infos _) as [t1 news]. done. }
  destruct (update_volumes order dn infos (tp_tree s)) as [t' [news dels]]. cbn [snd fst] in *. subst dels.
  destruct Hu as (_ & _ & Hn). destruct news as [|v news]; [done|].
  destruct (Hn v) as [Hv E]; [set_solver|]. destruct (Hk v Hv) as [w Hw]. congruence.
Qed.

(** Volume 3 of server [n1] grows past the limit of 1000 bytes. *)
Definition big_report : volume_message := VolumeMessage 3 "" 10 CURRENT_VERSION 0 5000 0 0 0 false.
Definition sample_loaded : topology :=
  let s := sample_master in
  let t := (add_or_update_volume 4 (report 3 false) (tp_tree s)).1 in
  register_volume_layout (report 3 false) 4 (set_tree t s).

Lemma known_report_keeps_layouts_witness :
  let s' := (sync_data_node_registration map_to_list [big_report] 4 sample_loaded).1 in
  tp_collections s' = tp_collections sample_loaded
  /\ 3 ∈ vl_writable (layout_of "" Replica.default Ttl.default s').
Proof.
  assert (E : tp_collections (sync_data_node_registration map_to_list [big_report] 4 sample_loaded).1
              = tp_collections sample_loaded).
  { apply (known_report_keeps_layouts list_rng no_flake willing map_to_list [big_report] 4 sample_loaded).
    - intros m. reflexivity.
    - assert (H := add_volume_spec 4 (report 3 false) sample_topology sample_dn_inv).
      change (tp_tree sample_loaded) with (add_or_update_volume 4 (report 3 false) sample_topology).1.
      destruct (add_or_update_volume 4 (report 3 false) sample_topology) as [t' b]. apply H.
    - intros v Hv. change (omap volume_info_new [big_report]) with
        [VolumeInfo 3 5000 (ReplicaPlacement 0 1 0) (Ttl 0 Empty) "" CURRENT_VERSION 0 0 0 false] in Hv.
      apply list_elem_of_singleton in Hv as ->. eexists. vm_compute. reflexivity.
    - intros vid Hv. exists (VolumeInfo 3 5000 (ReplicaPlacement 0 1 0) (Ttl 0 Empty) "" CURRENT_VERSION 0 0 0 false).
      split; [vm_compute; constructor|].
      assert (Ev : volumes_of 4 (tp_tree sample_loaded) = {[ 3 := report 3 false ]}) by (vm_compute; reflexivity).
      rewrite Ev in Hv. apply lookup_singleton_is_Some in Hv. exact Hv. }
  cbv zeta. split; [exact E|]. unfold layout_of, get_volume_layout. rewrite E. vm_compute. constructor.
Defined.

(** ** Vacuuming *)

Section vacuum_facts.
Context {P : Rpc} {Sh : Shards} (t : tree) (threshold : f64) (preallocate : Z).

(** When every answer gives the verdict, it is the verdict. *)
Lemma ask_all_true {A} (call : string -> servers -> servers * A) (f : bool -> A -> bool) nodes p :
  (forall dn p, dn ∈ nodes -> f true (call (url dn t) p).2 = true) -> (ask_all call f t nodes p).2 = true.
Proof.
  unfold ask_all. revert p. induction nodes as [|dn nodes IH]; intros p H; [done|]. cbn [fold_left fst snd].
  pose proof (H dn p ltac:(left)) as E. destruct (call (url dn t) p) as [p' a]. cbn [snd] in E. rewrite E.
  apply IH. intros x q Hx. apply H. by right.
Qed.

(** The servers report a garbage ratio above the threshold, compact and commit. *)
Definition vacuum_succeeds (vid : Z) (nodes : list nref) : Prop :=
  nodes <> [] /\ forall dn p, dn ∈ nodes ->
    (exists ratio, (rpc_vacuum_check (url dn t) vid p).2 = Some ratio /\ f64_gt ratio threshold = true)
    /\ (rpc_vacuum_compact (url dn t) vid preallocate p).2 = true /\ (rpc_vacuum_commit (url dn t) vid p).2 = true.

(** Then the body of the loop gets to making the replicas available again. *)
Lemma vacuum_volume_commits held vid nodes l p : vacuum_succeeds vid nodes -> vl_readonly l !! vid = None ->
  exists p', vacuum_volume held t threshold preallocate (vid, nodes) (l, p)
    = match set_all_available held t vid nodes (Layout.remove_from_writable vid l).1 with
      | Some l' => Some (l', p')
      | None => None
      end.
Proof.
  intros [Hne Hs] Hr. unfold vacuum_volume. rewrite Hr.
  unfold batch_vacuum_volume_check, batch_vacuum_volume_compact, batch_vacuum_volume_commit.
  match goal with |- context [ask_all ?c ?f t nodes p] => assert (E : (ask_all c f t nodes p).2 = true) end.
  { apply ask_all_true. intros dn q Hd. destruct (Hs dn q Hd) as ((ratio & -> & ->) & _). done. }
  destruct (ask_all _ _ t nodes p) as [p1 b]. cbn [snd] in E. subst b.
  match goal with |- context [ask_all ?c ?f t nodes p1] => assert (E : (ask_all c f t nodes p1).2 = true) end.
  { apply ask_all_true. intros dn q Hd. by apply Hs. }
  destruct (ask_all _ _ t nodes p1) as [p2 b]. cbn [snd] in E. subst b.
  assert (E : (commit_all t vid nodes p2).2 = true).
  { apply ask_all_true. intros dn q Hd. by rewrite (proj2 (proj2 (Hs dn q Hd))). }
  destruct (commit_all t vid nodes p2) as [p3 b]. cbn [snd] in E. subst b.
  exists p3. by destruct set_all_available.
Qed.

(** With the lock of the entry's shard held, writing the entry waits for ever... *)
Lemma set_all_available_locked held vid nodes l : nodes <> [] -> shard_of vid ∈ held ->
  set_all_available held t vid nodes l = None.
Proof.
  intros Hne Hin. destruct nodes as [|dn nodes]; [done|]. cbn. unfold set_available, get_mut.
  by rewrite bool_decide_true.
Qed.

(** ... and without it does not. *)
Lemma set_node_same_addrs locations dn : (exists r, r ∈ locations /\ same_server t r dn = true) ->
  map (dn_addr t) (Layout.set_node t locations dn) = map (dn_addr t) locations.
Proof.
  induction locations as [|r rest IH]; intros (x & Hx & Hs); [by apply not_elem_of_nil in Hx|]. cbn.
  destruct (same_server t r dn) eqn:E; cbn.
  - f_equal. symmetry. by apply bool_decide_eq_true in E.
  - f_equal. apply IH. apply elem_of_cons in Hx as [->|Hx]; [congruence|by exists x].
Qed.

Lemma set_all_available_unlocked vid nodes l locations : vl_locations l !! vid = Some locations ->
  (forall dn, dn ∈ nodes -> dn_addr t dn ∈ map (dn_addr t) locations) ->
  nodes <> [] -> len locations = Replica.copy_count (vl_rp l) ->
  exists l', set_all_available [] t vid nodes l = Some l' /\ vid ∈ vl_writable l'.
Proof.
  intros Hl Ha Hne Hc.
  assert (K : forall l locations, vl_locations l !! vid = Some locations ->
    (forall dn, dn ∈ nodes -> dn_addr t dn ∈ map (dn_addr t) locations) ->
    len locations = Replica.copy_count (vl_rp l) -> nodes <> [] \/ vid ∈ vl_writable l ->
    exists l', set_all_available [] t vid nodes l = Some l' /\ vid ∈ vl_writable l'); [|by eapply K; eauto].
  clear. induction nodes as [|dn nodes IH]; intros l locations Hl Ha Hc Hw.
  { exists l. split; [done|]. by destruct Hw. }
  cbn. unfold set_available, get_mut. rewrite bool_decide_false by apply not_elem_of_nil.
  assert (Hm : map (dn_addr t) (Layout.set_node t locations dn) = map (dn_addr t) locations).
  { apply set_node_same_addrs. specialize (Ha dn ltac:(left)). apply list_elem_of_fmap in Ha as (r & E & Hr).
    exists r. split; [done|]. by apply bool_decide_eq_true. }
  assert (Hn : len (Layout.set_node t locations dn) = len locations).
  { unfold len. f_equal. rewrite <- (length_map (dn_addr t)), Hm. by rewrite length_map. }
  unfold Layout.set_volume_available. rewrite Hl. cbn [Layout.with_locations vl_rp]. rewrite Hn, Hc, Z.eqb_refl.
  apply IH with (Layout.set_node t locations dn).
  - unfold Layout.set_volume_writable. destruct bool_decide; cbn; by rewrite lookup_insert_eq.
  - intros x Hx. rewrite Hm. apply Ha. by right.
  - unfold Layout.set_volume_writable. rewrite Hn, Hc. by destruct bool_decide.
  - right. unfold Layout.set_volume_writable. destruct (bool_decide _) eqn:E; cbn in *.
    + by apply bool_decide_eq_true in E.
    + apply elem_of_app. right. by left.
Qed.

Lemma vacuum_volume_readonly held e l p l' p' : vacuum_volume held t threshold preallocate e (l, p) = Some (l', p') ->
  vl_readonly l' = vl_readonly l.
Proof.
  assert (K : forall vid nodes l l', set_all_available held t vid nodes l = Some l' -> vl_readonly l' = vl_readonly l).
  { intros vid nodes. induction nodes as [|dn nodes IH]; intros k k'; cbn; [by intros [= <-]|].
    unfold set_available. destruct get_mut; [|done]. intros H. rewrite (IH _ _ H).
    unfold Layout.set_volume_available. destruct (vl_locations k !! vid); [|done].
    destruct (_ =? _); [|done]. unfold Layout.set_volume_writable. by destruct bool_decide. }
  unfold vacuum_volume. destruct e as [vid nodes]. destruct (vl_readonly l !! vid); [by intros [= <- <-]|].
  destruct (batch_vacuum_volume_check t vid nodes threshold p) as [p1 [|]]; [|by intros [= <- <-]].
  unfold batch_vacuum_volume_compact.
  assert (Hr : vl_readonly (Layout.remove_from_writable vid l).1 = vl_readonly l)
    by (unfold Layout.remove_from_writable; by destruct Layout.last_index).
  destruct (ask_all _ _ t nodes p1) as [p2 [|]]; [|by intros [= <- <-]].
  unfold batch_vacuum_volume_commit. destruct (commit_all t vid nodes p2) as [p3 [|]]; [|by intros [= <- <-]].
  destruct (set_all_available held t vid nodes _) as [k|] eqn:E; [|done]. intros [= <- <-].
  by rewrite (K _ _ _ _ E).
Qed.

#[local] Notation vacuum_entries es start :=
  (fold_left (fun a e => a ≫= vacuum_volume (entry_guard e) t threshold preallocate e) es start).

Lemma vacuum_none es : vacuum_entries es None = None.
Proof. by induction es. Qed.

Lemma vacuum_entries_block es vid nodes : (vid, nodes) ∈ es -> vacuum_succeeds vid nodes ->
  forall l p, vl_readonly l !! vid = None -> vacuum_entries es (Some (l, p)) = None.
Proof.
  intros Hin Hs. induction es as [|e es IH]; intros l p Hr; [by apply not_elem_of_nil in Hin|].
  cbn [fold_left mbind option_bind]. apply elem_of_cons in Hin as [<-|Hin].
  - destruct (vacuum_volume_commits (entry_guard (vid, nodes)) vid nodes l p Hs Hr) as [p' ->].
    rewrite set_all_available_locked; [apply vacuum_none|apply Hs|]. by left.
  - destruct (vacuum_volume (entry_guard e) t threshold preallocate e (l, p)) as [[l' p']|] eqn:E; [|apply vacuum_none].
    apply IH; [done|]. by rewrite (vacuum_volume_readonly _ e l p l' p' E).
Qed.

Lemma vacuum_all_none {A} (f : A -> servers -> option (A * servers)) l k a : (k, a) ∈ l -> (forall p, f a p = None) ->
  forall p, vacuum_all f l p = None.
Proof.
  intros Hin Hf. induction l as [|[k' a'] l IH]; intros p; [by apply not_elem_of_nil in Hin|]. cbn.
  apply elem_of_cons in Hin as [[= -> ->]|Hin]; [by rewrite Hf|].
  destruct (f a' p) as [[a'' p']|]; [|done]. by rewrite IH.
Qed.

End vacuum_facts.

(** C40: a vacuum whose servers do what they are asked never returns.  As soon
    as the replicas of a volume that is not read-only report a garbage ratio above
    the threshold and compact and commit it, the master waits for the lock of the
    entry its own iterator holds.  It is that lock and nothing else: with no lock
    held the same step returns, and a volume with all its replicas is writable
    again. *)
Theorem vacuum_blocks : forall (R : Rng) (F : Flake) (P : Rpc) (Sh : Shards) order threshold preallocate s name c key l vid nodes,
  (forall m : gmap Z (list nref), order m ≡ₚ map_to_list m) ->
  (name, c) ∈ tp_collections s -> (key, l) ∈ cl_layouts c ->
  vl_locations l !! vid = Some nodes -> vl_readonly l !! vid = None ->
  vacuum_succeeds (tp_tree s) threshold preallocate vid nodes ->
  vacuum order threshold preallocate s = None
  /\ (len nodes = Replica.copy_count (vl_rp l) -> forall p, exists l' p',
        vacuum_volume [] (tp_tree s) threshold preallocate (vid, nodes) (l, p) = Some (l', p') /\ vid ∈ vl_writable l').
Proof.
  intros R F P Sh order threshold preallocate s name c key l vid nodes Ho Hc Hl Hv Hr Hs. split.
  - unfold vacuum. rewrite (vacuum_all_none _ _ name c Hc); [done|]. intros p. unfold vacuum_collection.
    rewrite (vacuum_all_none _ _ key l Hl); [done|]. intros q.
    unfold vacuum_layout. eapply vacuum_entries_block; [|exact Hs|exact Hr].
    rewrite Ho. by apply elem_of_map_to_list.
  - intros Hn p. destruct (vacuum_volume_commits (tp_tree s) threshold preallocate [] vid nodes l p Hs Hr) as [p' ->].
    assert (El : vl_locations (Layout.remove_from_writable vid l).1 = vl_locations l
      /\ vl_rp (Layout.remove_from_writable vid l).1 = vl_rp l)
      by (unfold Layout.remove_from_writable; by destruct Layout.last_index).
    destruct El as [El Er].
    destruct (set_all_available_unlocked (tp_tree s) vid nodes (Layout.remove_from_writable vid l).1 nodes)
      as (l' & -> & Hw); [by rewrite El|intros dn Hd; by apply list_elem_of_fmap_2|apply Hs|by rewrite Er|by eauto].
Qed.

Lemma vacuum_blocks_witness : vacuum (P := willing) (Sh := Z.to_nat) map_to_list 0 0 sample_loaded = None.
Proof.
  destruct (tp_collections sample_loaded) as [|[name c] cs] eqn:Ec; [vm_compute in Ec; discriminate Ec|].
  destruct (cl_layouts c) as [|[key l] ls] eqn:El.
  { vm_compute in Ec. injection Ec as <- <- <-. discriminate El. }
  apply (vacuum_blocks list_rng no_flake willing Z.to_nat map_to_list 0 0 sample_loaded name c key l 3 [4]).
  - intros m. reflexivity.
  - rewrite Ec. constructor.
  - rewrite El. constructor.
  - vm_compute in Ec. injection Ec as <- <- <-. injection El as <- <- <-. vm_compute. reflexivity.
  - vm_compute in Ec. injection Ec as <- <- <-. injection El as <- <- <-. vm_compute. reflexivity.
  - split; [discriminate|]. intros dn p _. repeat split; [exists 1; split; reflexivity|..]; reflexivity.
Defined.
