(* ===== verification/RaftLog.v ===== *)
(** * The log store of the raft node ([raft/store/log_store.rs])

    An in-memory log: entries by index, the last purged id, the committed id
    and the vote.  The types of ids, entries and votes are openraft's. *)

From stdpp Require Import sorting.
From S2P Require Import Prelude.
#[local] Open Scope list_scope.
#[local] Open Scope Z_scope.

(** [RaftTypeConfig] with the order of [LogId] the store uses. *)
Class RaftTypeConfig := {
  log_id : Type;
  index_of : log_id -> Z;
  log_id_leb : log_id -> log_id -> bool;
  vote : Type;
  entry : Type;
  get_log_id : entry -> log_id;
}.

(** [std::ops::Bound] *)
Inductive bound := Included (i : Z) | Excluded (i : Z) | Unbounded.

Section log_store.
Context {C : RaftTypeConfig}.

Record log_store := LogStore {
  ls_last_purged_log_id : option log_id;
  ls_log : gmap Z entry;
  ls_committed : option log_id;
  ls_vote : option vote;
}.

Definition log_store_default : log_store := LogStore None ∅ None None.

(** [BTreeMap] iterates in the order of the keys. *)
Definition entry_le (a b : Z * entry) : Prop := a.1 <= b.1.
#[global] Instance entry_le_dec : RelDecision entry_le.
Proof. intros a b. unfold entry_le. apply _. Defined.
Definition iter (m : gmap Z entry) : list (Z * entry) := merge_sort entry_le (map_to_list m).

Definition above (lo : bound) (k : Z) : bool :=
  match lo with Included i => i <=? k | Excluded i => i <? k | Unbounded => true end.
Definition below (hi : bound) (k : Z) : bool :=
  match hi with Included i => k <=? i | Excluded i => k <? i | Unbounded => true end.

(** [BTreeMap::range] panics on a range that starts after its end, and on an
    empty one with both ends excluded. *)
Definition range_panics (lo hi : bound) : bool :=
  match lo, hi with
  | Excluded a, Excluded b => b <=? a
  | Included a, Included b | Included a, Excluded b | Excluded a, Included b => b <? a
  | _, _ => false
  end.

Definition range (lo hi : bound) (m : gmap Z entry) : outcome Empty_set (list (Z * entry)) :=
  if range_panics lo hi then Panic
  else Ok (filter (fun e => above lo e.1 && below hi e.1 = true) (iter m)).

Definition try_get_log_entries (lo hi : bound) (s : log_store) : outcome Empty_set (list entry) :=
  let? es := range lo hi s.(ls_log) in Ok (map snd es).

(** [LogState]: the last purged id and the last id. *)
Definition get_log_state (s : log_store) : option log_id * option log_id :=
  let last := (fun e => get_log_id e.2) <$> last (iter s.(ls_log)) in
  (s.(ls_last_purged_log_id),
   match last with None => s.(ls_last_purged_log_id) | Some x => Some x end).

Definition with_log (m : gmap Z entry) (s : log_store) : log_store :=
  LogStore s.(ls_last_purged_log_id) m s.(ls_committed) s.(ls_vote).

Definition save_committed (committed : option log_id) (s : log_store) : log_store :=
  LogStore s.(ls_last_purged_log_id) s.(ls_log) committed s.(ls_vote).
Definition read_committed (s : log_store) : option log_id := s.(ls_committed).

Definition save_vote (v : vote) (s : log_store) : log_store :=
  LogStore s.(ls_last_purged_log_id) s.(ls_log) s.(ls_committed) (Some v).
Definition read_vote (s : log_store) : option vote := s.(ls_vote).

Definition append (entries : list entry) (s : log_store) : log_store :=
  with_log (fold_left (fun m e => <[index_of (get_log_id e) := e]> m) entries s.(ls_log)) s.

Definition remove_keys (keys : list Z) (m : gmap Z entry) : gmap Z entry :=
  fold_left (fun m k => delete k m) keys m.

Definition truncate (id : log_id) (s : log_store) : outcome Empty_set log_store :=
  let? es := range (Included (index_of id)) Unbounded s.(ls_log) in
  Ok (with_log (remove_keys (map fst es) s.(ls_log)) s).

(** The assertion of [purge]: purging backwards is a panic. *)
Definition purge (id : log_id) (s : log_store) : outcome Empty_set log_store :=
  if match s.(ls_last_purged_log_id) with None => true | Some ld => log_id_leb ld id end then
    let s := LogStore (Some id) s.(ls_log) s.(ls_committed) s.(ls_vote) in
    let? es := range Unbounded (Included (index_of id)) s.(ls_log) in
    Ok (with_log (remove_keys (map fst es) s.(ls_log)) s)
  else Panic.

(** ** The log as a sequence

    What openraft relies on: a sequence of entries with consecutive indexes,
    from [al_first] on. *)

Record alog := ALog {
  al_purged : option log_id;
  al_first : Z;
  al_entries : list entry;
  al_committed : option log_id;
  al_vote : option vote;
}.

Definition alog_default : alog := ALog None 0 [] None None.

Inductive log_op :=
| OAppend (es : list entry)
| OTruncate (id : log_id)
| OPurge (id : log_id)
| OCommitted (c : option log_id)
| OVote (v : vote).

Definition step (op : log_op) (s : log_store) : outcome Empty_set log_store :=
  match op with
  | OAppend es => Ok (append es s)
  | OTruncate id => truncate id s
  | OPurge id => purge id s
  | OCommitted c => Ok (save_committed c s)
  | OVote v => Ok (save_vote v s)
  end.

Fixpoint run (ops : list log_op) (s : log_store) : outcome Empty_set log_store :=
  match ops with
  | [] => Ok s
  | op :: ops' => let? s := step op s in run ops' s
  end.

Definition astep (op : log_op) (a : alog) : alog :=
  match op with
  | OAppend es => ALog a.(al_purged) a.(al_first) (a.(al_entries) ++ es) a.(al_committed) a.(al_vote)
  | OTruncate id =>
      ALog a.(al_purged) a.(al_first) (take (Z.to_nat (index_of id - a.(al_first))) a.(al_entries))
        a.(al_committed) a.(al_vote)
  | OPurge id =>
      ALog (Some id) (index_of id + 1) (drop (Z.to_nat (index_of id + 1 - a.(al_first))) a.(al_entries))
        a.(al_committed) a.(al_vote)
  | OCommitted c => ALog a.(al_purged) a.(al_first) a.(al_entries) c a.(al_vote)
  | OVote v => ALog a.(al_purged) a.(al_first) a.(al_entries) a.(al_committed) (Some v)
  end.

(** The contract of [RaftLogStorage]: entries continue the log, nothing before
    its start is truncated, and purging goes forward. *)
Definition legal (op : log_op) (a : alog) : Prop :=
  match op with
  | OAppend es => forall (i : nat) e, es !! i = Some e ->
      index_of (get_log_id e) = a.(al_first) + len a.(al_entries) + Z.of_nat i
  | OTruncate id => a.(al_first) <= index_of id
  | OPurge id => a.(al_first) <= index_of id + 1
      /\ forall ld, a.(al_purged) = Some ld -> log_id_leb ld id = true
  | OCommitted _ | OVote _ => True
  end.

Fixpoint legal_ops (ops : list log_op) (a : alog) : Prop :=
  match ops with
  | [] => True
  | op :: ops' => legal op a /\ legal_ops ops' (astep op a)
  end.

Definition arun (ops : list log_op) (a : alog) : alog := fold_left (fun a op => astep op a) ops a.

Definition entry_at (a : alog) (k : Z) : option entry :=
  if k <? a.(al_first) then None else a.(al_entries) !! Z.to_nat (k - a.(al_first)).

Record represents (s : log_store) (a : alog) : Prop := {
  rp_log : forall k, s.(ls_log) !! k = entry_at a k;
  rp_index : forall (i : nat) e, a.(al_entries) !! i = Some e ->
    index_of (get_log_id e) = a.(al_first) + Z.of_nat i;
  rp_purged : s.(ls_last_purged_log_id) = a.(al_purged);
  rp_committed : s.(ls_committed) = a.(al_committed);
  rp_vote : s.(ls_vote) = a.(al_vote);
}.

(** ** Reading the map in order *)

Definition indexed (a : alog) : list (Z * entry) :=
  imap (fun i e => (a.(al_first) + Z.of_nat i, e)) a.(al_entries).

Lemma indexed_lookup a i : indexed a !! i = (fun e => (a.(al_first) + Z.of_nat i, e)) <$> a.(al_entries) !! i.
Proof. unfold indexed. by rewrite list_lookup_imap. Qed.

Lemma elem_of_indexed a k e : (k, e) ∈ indexed a <-> entry_at a k = Some e.
Proof.
  rewrite list_elem_of_lookup. unfold entry_at. setoid_rewrite indexed_lookup. split.
  - intros [i Hi]. destruct (al_entries a !! i) as [x|] eqn:E; [|done]. cbn in Hi. injection Hi as <- <-.
    rewrite (proj2 (Z.ltb_ge _ _)) by lia. by replace (Z.to_nat _) with i by lia.
  - destruct (Z.ltb_spec k (al_first a)) as [|Hk]; [done|]. intros E. exists (Z.to_nat (k - al_first a)).
    rewrite E. cbn. f_equal. f_equal. lia.
Qed.

Lemma indexed_sorted a : StronglySorted entry_le (indexed a).
Proof.
  unfold indexed. generalize (al_first a). induction (al_entries a) as [|e es IH]; intros f; cbn; [constructor|].
  constructor.
  - erewrite imap_ext; [apply (IH (f + 1))|]. intros i x _. cbn. f_equal. lia.
  - apply Forall_forall. intros [k x] (i & y & E & _)%elem_of_lookup_imap. injection E as -> ->. unfold entry_le. cbn. lia.
Qed.

Lemma indexed_NoDup a : NoDup (indexed a).*1.
Proof.
  apply NoDup_alt. intros i j k Hi Hj. rewrite !list_lookup_fmap, !indexed_lookup in *.
  destruct (al_entries a !! i), (al_entries a !! j); cbn in *; try done. injection Hi. injection Hj. lia.
Qed.

#[local] Instance entry_le_trans : Transitive entry_le.
Proof. intros x y z. unfold entry_le. lia. Qed.
#[local] Instance entry_le_total : Total entry_le.
Proof. intros x y. unfold entry_le. lia. Qed.

(** The iterator of the map is the log. *)
Lemma iter_indexed s a : represents s a -> iter s.(ls_log) = indexed a.
Proof.
  intros Hr. assert (HP : iter (ls_log s) ≡ₚ indexed a).
  { unfold iter. rewrite merge_sort_Permutation. apply NoDup_Permutation.
    - apply NoDup_map_to_list.
    - eapply NoDup_fmap_1, indexed_NoDup.
    - intros [k e]. rewrite elem_of_map_to_list, (rp_log _ _ Hr). symmetry. apply elem_of_indexed. }
  apply (StronglySorted_unique_strong entry_le); [|by apply StronglySorted_merge_sort; apply _|apply indexed_sorted|done].
  intros [k1 e1] [k2 e2] H1 H2 Hle Hge. assert (k1 = k2) as -> by (unfold entry_le in *; cbn in *; lia).
  rewrite HP in H1. apply elem_of_indexed in H1, H2. congruence.
Qed.

(** *** Removing a range *)

Lemma remove_keys_lookup ks : forall m k, remove_keys ks m !! k = if decide (k ∈ ks) then None else m !! k.
Proof.
  unfold remove_keys. induction ks as [|x ks IH]; intros m k; cbn.
  { by rewrite decide_False by apply not_elem_of_nil. }
  rewrite IH. destruct (decide (k ∈ ks)); [by rewrite decide_True by by right|].
  destruct (decide (k = x)) as [->|Hne].
  - rewrite decide_True by by left. apply lookup_delete_eq.
  - rewrite decide_False by (rewrite elem_of_cons; naive_solver). by apply lookup_delete_ne.
Qed.

Lemma remove_range s a lo hi es : represents s a -> range lo hi s.(ls_log) = Ok es ->
  forall k, remove_keys (map fst es) s.(ls_log) !! k
            = if above lo k && below hi k then None else s.(ls_log) !! k.
Proof.
  unfold range. intros Hr. destruct (range_panics lo hi); [done|]. intros [= <-] k.
  rewrite remove_keys_lookup, (iter_indexed s a Hr).
  destruct (above lo k && below hi k) eqn:E; case_decide as Hin; try done.
  - destruct (ls_log s !! k) as [e|] eqn:Ek; [|done]. destruct Hin. apply list_elem_of_fmap.
    exists (k, e). split; [done|]. apply list_elem_of_filter. cbn. split; [done|].
    apply elem_of_indexed. by rewrite <- (rp_log _ _ Hr).
  - apply list_elem_of_fmap in Hin as ([k' e] & -> & [Hf _]%list_elem_of_filter). cbn in *. congruence.
Qed.

(** *** One operation *)

Lemma append_lookup es : forall (m : gmap Z entry) f, (forall (i : nat) e, es !! i = Some e -> index_of (get_log_id e) = f + Z.of_nat i) ->
  forall k, fold_left (fun m e => <[index_of (get_log_id e) := e]> m) es m !! k
            = match (if k <? f then None else es !! Z.to_nat (k - f)) with Some e => Some e | None => m !! k end.
Proof.
  induction es as [|e es IH]; intros m f Hi k; cbn [fold_left].
  { by destruct (k <? f). }
  rewrite (IH _ (f + 1)) by (intros i x Hx; rewrite (Hi (S i) x Hx); lia).
  pose proof (Hi O e eq_refl) as H0. rewrite H0.
  destruct (Z.ltb_spec k (f + 1)), (Z.ltb_spec k f); try lia.
  - by rewrite lookup_insert_ne by lia.
  - assert (k = f) as -> by lia. rewrite Z.sub_diag. cbn.
    replace (f + Z.of_nat 0) with f by lia. by rewrite lookup_insert_eq.
  - replace (Z.to_nat (k - f)) with (S (Z.to_nat (k - (f + 1)))) by lia. cbn.
    destruct (es !! _); [done|]. by rewrite lookup_insert_ne by lia.
Qed.

Lemma step_represents op s a : represents s a -> legal op a ->
  exists s', step op s = Ok s' /\ represents s' (astep op a).
Proof.
  intros Hr. pose proof Hr as [H1 H2 H3 H4 H5]. destruct op as [es|id|id|c|v]; cbn [step astep legal].
  - intros Hl. eexists. split; [done|]. split; cbn; try done.
    + intros k. rewrite (append_lookup es _ (al_first a + len (al_entries a)) Hl k), H1. unfold entry_at. cbn.
      destruct (Z.ltb_spec k (al_first a)) as [|Hk].
      { by rewrite (proj2 (Z.ltb_lt k _)) by (unfold len; lia). }
      destruct (Z.ltb_spec k (al_first a + len (al_entries a))) as [|Hk2]; unfold len in *.
      { by rewrite lookup_app_l by lia. }
      rewrite lookup_app_r by lia. replace (Z.to_nat (k - (al_first a + _))) with
        (Z.to_nat (k - al_first a) - length (al_entries a))%nat by lia.
      destruct (es !! _); [done|]. by rewrite lookup_ge_None_2 by lia.
    + intros i e [Hi|[Hle Hi]]%lookup_app_Some; [by apply H2|]. rewrite (Hl _ _ Hi). unfold len. lia.
  - intros Hl. unfold truncate. destruct (range _ _ _) as [es|[]|] eqn:Er; [|done].
    cbn [obind]. eexists. split; [done|]. split; cbn; try done.
    + intros k. rewrite (remove_range s a _ _ es Hr Er k), H1. unfold entry_at. cbn. rewrite andb_true_r.
      destruct (Z.ltb_spec k (al_first a)); [by destruct (_ <=? _)|].
      destruct (Z.leb_spec (index_of id) k).
      * by rewrite lookup_take_ge by lia.
      * by rewrite lookup_take_lt by lia.
    + intros i e [Hi _]%lookup_take_Some. by apply H2.
  - intros [Hl Hp]. unfold purge. rewrite H3.
    replace (match al_purged a with Some ld => log_id_leb ld id | None => true end) with true
      by (destruct (al_purged a); [symmetry; by apply Hp|done]).
    destruct (range _ _ _) as [es|[]|] eqn:Er; [|done]. cbn [obind]. eexists. split; [done|]. split; cbn; try done.
    + intros k. rewrite (remove_range s a _ _ es Hr Er k), H1. unfold entry_at. cbn.
      rewrite lookup_drop. destruct (Z.leb_spec k (index_of id)), (Z.ltb_spec k (index_of id + 1)); try lia; [done|].
      rewrite (proj2 (Z.ltb_ge k (al_first a))) by lia. f_equal. lia.
    + intros i e. rewrite lookup_drop. intros Hi. rewrite (H2 _ _ Hi). lia.
  - eexists. split; [done|]. split; cbn; try done.
  - eexists. split; [done|]. split; cbn; try done.
Qed.

Lemma run_represents ops : forall s a, represents s a -> legal_ops ops a ->
  exists s', run ops s = Ok s' /\ represents s' (arun ops a).
Proof.
  induction ops as [|op ops IH]; intros s a Hr Hl; cbn [run]; [by exists s|].
  destruct Hl as [Hl1 Hl2]. destruct (step_represents op s a Hr Hl1) as (s1 & -> & Hr1). cbn [obind].
  by apply IH.
Qed.

Lemma default_represents : represents log_store_default alog_default.
Proof.
  split; try done. intros k. unfold entry_at. cbn. rewrite lookup_empty. destruct (k <? 0); [done|].
  by rewrite lookup_nil.
Qed.

(** *** Reads *)

Lemma filter_imap_range (es : list entry) : forall f lo hi, lo <= hi ->
  map snd (filter (fun e : Z * entry => (lo <=? e.1) && (e.1 <? hi) = true) (imap (fun i e => (f + Z.of_nat i, e)) es))
  = drop (Z.to_nat (lo - f)) (take (Z.to_nat (hi - f)) es).
Proof.
  induction es as [|e es IH]; intros f lo hi Hle; cbn [imap].
  { by rewrite take_nil, drop_nil. }
  replace (imap _ es) with (imap (fun i e => (f + 1 + Z.of_nat i, e)) es)
    by (apply imap_ext; intros; cbn; f_equal; lia).
  rewrite filter_cons. cbn [fst]. replace (f + Z.of_nat 0) with f by lia.
  destruct (Z.leb_spec lo f), (Z.ltb_spec f hi); cbn [andb]; case_decide; try done.
  - cbn [map snd]. rewrite IH by done. replace (Z.to_nat (hi - f)) with (S (Z.to_nat (hi - (f + 1)))) by lia.
    cbn [take]. replace (Z.to_nat (lo - f)) with O by lia. by replace (Z.to_nat (lo - (f + 1))) with O by lia.
  - rewrite IH by done. replace (Z.to_nat (hi - f)) with O by lia. replace (Z.to_nat (hi - (f + 1))) with O by lia.
    by rewrite !take_0, !drop_nil.
  - rewrite IH by done. replace (Z.to_nat (hi - f)) with (S (Z.to_nat (hi - (f + 1)))) by lia.
    replace (Z.to_nat (lo - f)) with (S (Z.to_nat (lo - (f + 1)))) by lia. done.
  - rewrite IH by done. replace (Z.to_nat (hi - f)) with O by lia. replace (Z.to_nat (hi - (f + 1))) with O by lia.
    by rewrite !take_0, !drop_nil.
Qed.

Lemma last_indexed a : (fun e : Z * entry => get_log_id e.2) <$> last (indexed a) = get_log_id <$> last (al_entries a).
Proof.
  rewrite !last_lookup. replace (length (indexed a)) with (length (al_entries a))
    by (unfold indexed; by rewrite length_imap).
  rewrite indexed_lookup. by destruct (al_entries a !! _).
Qed.

End log_store.

(** C13: after any sequence of operations openraft may issue from the empty store
    on, none of which panics, the store is the log they describe: reading the
    indexes [lo..hi] gives exactly those entries in order, the log state is the
    last purged and the last id, and the committed id and the vote are the last
    ones saved. *)
Theorem log_store_refines_log : forall (C : RaftTypeConfig) ops lo hi,
  legal_ops ops alog_default -> lo <= hi ->
  let a := arun ops alog_default in
  exists s, run ops log_store_default = Ok s
    /\ try_get_log_entries (Included lo) (Excluded hi) s
       = Ok (drop (Z.to_nat (lo - a.(al_first))) (take (Z.to_nat (hi - a.(al_first))) a.(al_entries)))
    /\ get_log_state s = (a.(al_purged), match last a.(al_entries) with
                                          | Some e => Some (get_log_id e)
                                          | None => a.(al_purged)
                                          end)
    /\ read_committed s = a.(al_committed) /\ read_vote s = a.(al_vote).
Proof.
  intros C ops lo hi Hl Hle a.
  destruct (run_represents ops _ _ default_represents Hl) as (s & Hs & Hr). fold a in Hr.
  exists s. split; [done|]. pose proof Hr as [_ _ H3 H4 H5]. split; [|split; [|done]].
  - unfold try_get_log_entries, range. cbn [range_panics].
    rewrite (proj2 (Z.ltb_ge hi lo)) by lia. cbn [obind]. f_equal. rewrite (iter_indexed s a Hr).
    by apply filter_imap_range.
  - unfold get_log_state. rewrite (iter_indexed s a Hr), last_indexed, H3.
    by destruct (last (al_entries a)).
Qed.

(** Ids are indexes, entries are pairs of an index and a value. *)
#[local] Instance number_config : RaftTypeConfig := {
  log_id := Z; index_of := fun i => i; log_id_leb := Z.leb; vote := Z; entry := Z * string; get_log_id := fst;
}.

Lemma log_store_refines_log_witness :
  let ops := [OAppend [(0, "a"); (1, "b"); (2, "c"); (3, "d")]; OPurge 0; OTruncate 3; OAppend [(3, "e")]]%string in
  exists s, run ops log_store_default = Ok s
    /\ try_get_log_entries (Included 2) (Excluded 9) s = Ok [(2, "c"); (3, "e")]%string
    /\ get_log_state s = (Some 0, Some 3).
Proof.
  intros ops. destruct (log_store_refines_log number_config ops 2 9) as (s & H1 & H2 & H3 & _).
  - repeat split; cbn; try lia.
    + intros [|[|[|[|i]]]] e; cbn; intros [= <-]; done.
    + intros ld. done.
    + intros [|i] e; cbn; intros [= <-]; done.
  - lia.
  - exists s. split; [exact H1|]. split; [exact H2|exact H3].
Defined.
