(* ===== verification/Raft.v ===== *)
(** * The raft node of the master ([raft/mod.rs], [raft/store/mod.rs])

    openraft elects the leader and replicates entries; this file has the code
    around it: node ids, what the topology asks about the leader, and the state
    machine entries are applied to.  The requests are in [RaftNet]. *)

From S2P Require Import Prelude Types Text Ttl Replica Errors Fid Volume ShardBits Node NodeFacts.
From Stdlib Require Import Ascii.
#[local] Open Scope string_scope.
#[local] Open Scope list_scope.
#[local] Open Scope Z_scope.

(** ** Node ids *)

(** [str::char_indices]: positions and code points of valid UTF-8. *)
Fixpoint char_indices (i : Z) (s : list ascii) : list (Z * Z) :=
  match s with
  | [] => []
  | a :: s1 =>
      if zchar a <? 128 then (i, zchar a) :: char_indices (i + 1) s1
      else match s1 with
      | [] => []
      | b :: s2 =>
          if zchar a <? 224 then
            (i, Z.land (zchar a) 31 * 64 + Z.land (zchar b) 63) :: char_indices (i + 2) s2
          else match s2 with
          | [] => []
          | c :: s3 =>
              if zchar a <? 240 then
                (i, (Z.land (zchar a) 15 * 64 + Z.land (zchar b) 63) * 64 + Z.land (zchar c) 63)
                  :: char_indices (i + 3) s3
              else match s3 with
              | [] => []
              | d :: s4 =>
                  (i, ((Z.land (zchar a) 7 * 64 + Z.land (zchar b) 63) * 64 + Z.land (zchar c) 63) * 64
                      + Z.land (zchar d) 63) :: char_indices (i + 4) s4
              end
          end
      end
  end.

Definition compute_node_id (addr : string) : Z :=
  fold_left (fun node e => u64 (node + u64 (e.1 * e.2))) (char_indices 0 (chars addr)) 0.

Definition peer_with_node_id (peers : list string) : gmap Z string :=
  fold_left (fun m peer => <[compute_node_id peer := peer]> m) peers ∅.

(** [parse_raft_peer]: digits, a colon, the rest. *)
Inductive raft_error := RString | RParseInt (e : parse_int_error).

Definition parse_raft_peer (input : string) : outcome raft_error (Z * string) :=
  match Nom.digit1 (chars input) with
  | None => Err RString
  | Some (node_id, rest) =>
      match Nom.char_ ":" rest with
      | None => Err RString
      | Some rest => let? id := map_err RParseInt (parse_u64 (of_chars node_id)) in Ok (id, of_chars rest)
      end
  end.

(** ** The leader, as the topology sees it *)

(** A [RaftServer] with what openraft's metrics say at the moment: the current
    leader, and the nodes of the membership in the order of their ids. *)
Record raft_server := RaftServer {
  rs_id : Z;
  rs_current_leader : option Z;
  rs_nodes : list (Z * string);
}.

Module Server.

Fixpoint leader_address (leader : option Z) (nodes : list (Z * string)) : option string :=
  match nodes with
  | [] => None
  | (id, addr) :: nodes' => if bool_decide (leader = Some id) then Some addr else leader_address leader nodes'
  end.

Definition current_leader_address (r : raft_server) : option string :=
  leader_address r.(rs_current_leader) r.(rs_nodes).

Definition is_leader (r : raft_server) : bool := bool_decide (r.(rs_current_leader) = Some r.(rs_id)).

Definition peers (r : raft_server) : gmap Z string :=
  fold_left (fun m n => <[n.1 := n.2]> m) r.(rs_nodes) ∅.

End Server.

(** The topology has no raft server before [set_raft_server]. *)
Inductive topology_error := NoLeader.

Definition set_raft_server (r : raft_server) (raft : option raft_server) : option raft_server := Some r.
Definition current_leader_id (raft : option raft_server) : option Z := raft ≫= rs_current_leader.
Definition current_leader_address (raft : option raft_server) : option string :=
  raft ≫= Server.current_leader_address.
Definition current_leader (raft : option raft_server) : outcome topology_error string :=
  match raft with
  | Some r => match Server.current_leader_address r with Some leader => Ok leader | None => Err NoLeader end
  | None => Err NoLeader
  end.
Definition is_leader (raft : option raft_server) : bool :=
  match raft with Some r => Server.is_leader r | None => false end.
Definition peers (raft : option raft_server) : gmap Z string :=
  match raft with Some r => Server.peers r | None => ∅ end.

(** ** Errors of requests to other masters *)

(** [ForwardToLeader] *)
Record forward := Forward { fw_leader_id : option Z; fw_leader_node : option string }.

(** [RPCError]; a remote error carries the id of the node that was asked. *)
Inductive rpc_error := Network | RemoteError (target : Z) (f : option forward) | Unreachable.

Definition forward_to_leader (e : rpc_error) : option forward :=
  match e with RemoteError _ f => f | _ => None end.

(** ** The state machine *)

(** openraft's ids and memberships, how a leader id prints, and how the data of
    the machine is written to JSON and read back. *)
Class StateMachineTypes := {
  sm_log_id : Type;
  show_leader : sm_log_id -> string;
  sm_index : sm_log_id -> Z;
  membership : Type;
  default_membership : option sm_log_id * membership;
  to_json : option sm_log_id * (option sm_log_id * membership) -> list byte;
  from_json : list byte -> option (option sm_log_id * (option sm_log_id * membership));
}.

Inductive raft_request := MaxVolumeId (max_volume_id : Z).

Section state_machine.
Context {T : StateMachineTypes}.

Inductive payload := Blank | Normal (r : raft_request) | Membership (m : membership).
Record log_entry := Entry { en_log_id : sm_log_id; en_payload : payload }.

(** [StateMachineData]; the topology is a reference. *)
Record state_machine := StateMachine {
  sm_last_applied_log : option sm_log_id;
  sm_last_membership : option sm_log_id * membership;
  sm_topology : option nref;
}.

Record snapshot_meta := SnapshotMeta {
  me_last_log_id : option sm_log_id;
  me_last_membership : option sm_log_id * membership;
  me_snapshot_id : string;
}.
Record snapshot := Snapshot { sn_meta : snapshot_meta; sn_data : list byte }.

Record state_machine_store := StateMachineStore {
  ss_state_machine : state_machine;
  ss_snapshot_idx : Z;
  ss_current_snapshot : option snapshot;
}.

Definition store_default : state_machine_store :=
  StateMachineStore (StateMachine None default_membership None) 0 None.

Definition with_machine (m : state_machine) (s : state_machine_store) : state_machine_store :=
  StateMachineStore m s.(ss_snapshot_idx) s.(ss_current_snapshot).

Definition set_topology (topo : nref) (s : state_machine_store) : state_machine_store :=
  let m := s.(ss_state_machine) in
  with_machine (StateMachine m.(sm_last_applied_log) m.(sm_last_membership) (Some topo)) s.

Definition applied_state (s : state_machine_store) : option sm_log_id * (option sm_log_id * membership) :=
  (s.(ss_state_machine).(sm_last_applied_log), s.(ss_state_machine).(sm_last_membership)).

(** One entry; [topology()] without a topology is a panic. *)
Definition apply_entry (e : log_entry) : M (state_machine * tree) Empty_set unit :=
  fun '(m, t) =>
    let m := StateMachine (Some e.(en_log_id)) m.(sm_last_membership) m.(sm_topology) in
    match e.(en_payload) with
    | Blank => ((m, t), Ok tt)
    | Normal (MaxVolumeId vid) =>
        match m.(sm_topology) with
        | Some topo => ((m, adjust_max_volume_id vid topo t), Ok tt)
        | None => ((m, t), Panic)
        end
    | Membership mem =>
        ((StateMachine m.(sm_last_applied_log) (Some e.(en_log_id), mem) m.(sm_topology), t), Ok tt)
    end.

(** [apply]: one response per entry. *)
Fixpoint apply_entries (es : list log_entry) : M (state_machine * tree) Empty_set nat :=
  match es with
  | [] => mret O
  | e :: es' => let* _ := apply_entry e in let* n := apply_entries es' in mret (S n)
  end.

Definition apply (es : list log_entry) : M (state_machine_store * tree) Empty_set nat :=
  fun '(s, t) => let '((m, t), r) := apply_entries es (s.(ss_state_machine), t) in ((with_machine m s, t), r).

Definition snapshot_id (last : option sm_log_id) (idx : Z) : string :=
  match last with
  | Some l => show_leader l ++ "-" ++ fmt_dec (sm_index l) ++ "-" ++ fmt_dec idx
  | None => "--" ++ fmt_dec idx
  end.

Definition build_snapshot (s : state_machine_store) : state_machine_store * snapshot :=
  let m := s.(ss_state_machine) in
  let data := to_json (m.(sm_last_applied_log), m.(sm_last_membership)) in
  let idx := u64 (s.(ss_snapshot_idx) + 1) in
  let meta := SnapshotMeta m.(sm_last_applied_log) m.(sm_last_membership) (snapshot_id m.(sm_last_applied_log) idx) in
  (StateMachineStore m idx (Some (Snapshot meta data)), Snapshot meta data).

(** The data has no topology ([serde(skip)]): it is [None] after reading. *)
Definition install_snapshot (meta : snapshot_meta) (data : list byte) (s : state_machine_store)
  : state_machine_store * outcome unit unit :=
  match from_json data with
  | None => (s, Err tt)
  | Some (applied, mem) =>
      (StateMachineStore (StateMachine applied mem None) s.(ss_snapshot_idx) (Some (Snapshot meta data)), Ok tt)
  end.

Definition get_current_snapshot (s : state_machine_store) : option snapshot := s.(ss_current_snapshot).

End state_machine.

(** ** What holds *)

Lemma char_indices_cons i c s : zchar c < 128 -> char_indices i (c :: s) = (i, zchar c) :: char_indices (i + 1) s.
Proof. intros H. cbn [char_indices]. by rewrite (proj2 (Z.ltb_lt _ _)). Qed.

(** The id of a node does not depend on the first character of its address, so
    two peers that differ only there get one id, and the earlier one is not in
    the map the cluster is initialized with. *)
Theorem node_ids_collide : forall c1 c2 s, zchar c1 < 128 -> zchar c2 < 128 ->
  let a := String c1 s in let b := String c2 s in
  compute_node_id a = compute_node_id b /\ peer_with_node_id [a; b] = {[ compute_node_id b := b ]}.
Proof.
  intros c1 c2 s H1 H2 a b.
  assert (E : compute_node_id a = compute_node_id b).
  { unfold compute_node_id, a, b, chars. cbn [String.list_ascii_of_string].
    rewrite !char_indices_cons by done. cbn [fold_left fst snd]. by rewrite !Z.mul_0_l. }
  split; [done|]. unfold peer_with_node_id. cbn [fold_left]. rewrite E. apply insert_insert_eq.
Qed.

Lemma node_ids_collide_witness :
  compute_node_id "127.0.0.1:9333" = compute_node_id "227.0.0.1:9333"
  /\ peer_with_node_id ["127.0.0.1:9333"; "227.0.0.1:9333"]
     = {[ compute_node_id "227.0.0.1:9333" := "227.0.0.1:9333" ]}.
Proof. apply (node_ids_collide "1" "2" "27.0.0.1:9333"); reflexivity. Defined.

(** Addresses on one host collide too. *)
Example ports_collide : compute_node_id "127.0.0.1:9333" = compute_node_id "127.0.0.1:9414".
Proof. vm_compute. reflexivity. Qed.

(** *** Applying entries *)

Section state_machine_facts.
Context {T : StateMachineTypes}.

(** The largest id among the entries. *)
Fixpoint max_of (es : list log_entry) (vid : Z) : Z :=
  match es with
  | [] => vid
  | e :: es' => max_of es' (match en_payload e with Normal (MaxVolumeId v) => Z.max vid v | _ => vid end)
  end.

Fixpoint last_membership_of (es : list log_entry) (mem : option sm_log_id * membership)
  : option sm_log_id * membership :=
  match es with
  | [] => mem
  | e :: es' => last_membership_of es' (match en_payload e with Membership m => (Some (en_log_id e), m) | _ => mem end)
  end.

Lemma adjust_root vid r nd t : get_node t r = Some nd -> nd_parent nd = None ->
  exists nd', get_node (adjust_max_volume_id vid r t) r = Some nd' /\ nd_parent nd' = None
    /\ nd_max_volume_id nd' = Z.max (nd_max_volume_id nd) vid
    /\ forall x, x <> r -> get_node (adjust_max_volume_id vid r t) x = get_node t x.
Proof.
  intros E Hp. unfold adjust_max_volume_id, MAX_DEPTH. cbn [adjust_max_id_up]. rewrite E, Hp.
  destruct (Z.ltb_spec (nd_max_volume_id nd) vid).
  - exists (with_max_volume_id vid nd). rewrite get_upd, decide_True, E by done. repeat split; [done|cbn; lia|].
    intros x Hx. by rewrite get_upd, decide_False by done.
  - exists nd. repeat split; [done..|lia].
Qed.

Lemma apply_spec es : forall m topo nd t, sm_topology m = Some topo -> get_node t topo = Some nd -> nd_parent nd = None ->
  exists m' t', apply_entries es (m, t) = ((m', t'), Ok (length es))
    /\ sm_topology m' = Some topo
    /\ sm_last_applied_log m' = match last es with Some e => Some (en_log_id e) | None => sm_last_applied_log m end
    /\ sm_last_membership m' = last_membership_of es (sm_last_membership m)
    /\ (exists nd', get_node t' topo = Some nd' /\ nd_max_volume_id nd' = max_of es (nd_max_volume_id nd))
    /\ forall x, x <> topo -> get_node t' x = get_node t x.
Proof.
  induction es as [|e es IH]; intros m topo nd t Hm E Hp.
  { exists m, t. repeat split; try done. by exists nd. }
  assert (Hstep : exists m1 t1 nd1, apply_entry e (m, t) = ((m1, t1), Ok tt) /\ sm_topology m1 = Some topo
    /\ sm_last_applied_log m1 = Some (en_log_id e)
    /\ sm_last_membership m1 = match en_payload e with Membership k => (Some (en_log_id e), k) | _ => sm_last_membership m end
    /\ get_node t1 topo = Some nd1 /\ nd_parent nd1 = None
    /\ nd_max_volume_id nd1 = match en_payload e with Normal (MaxVolumeId v) => Z.max (nd_max_volume_id nd) v | _ => nd_max_volume_id nd end
    /\ forall x, x <> topo -> get_node t1 x = get_node t x).
  { unfold apply_entry. destruct (en_payload e) as [|[v]|k]; cbn.
    - by eexists _, t, nd.
    - rewrite Hm. destruct (adjust_root v topo nd t E Hp) as (nd' & H1 & H2 & H3 & H4). by eexists _, _, nd'.
    - by eexists _, t, nd. }
  destruct Hstep as (m1 & t1 & nd1 & H1 & H2 & H3 & H4 & H5 & H6 & H7 & H8).
  destruct (IH m1 topo nd1 t1 H2 H5 H6) as (m' & t' & J1 & J2 & J3 & J4 & J5 & J6).
  exists m', t'. cbn [apply_entries]. unfold mbind' at 1. rewrite H1. unfold mbind'. rewrite J1. cbn [mret length].
  split; [done|]. split; [done|]. split; [|split; [|split]].
  - rewrite J3. destruct es as [|e' es]; [done|]. change (last (e :: e' :: es)) with (last (e' :: es)).
    destruct (last (e' :: es)) eqn:El; [done|]. by apply last_None in El.
  - rewrite J4, H4. done.
  - destruct J5 as (nd' & K1 & K2). exists nd'. rewrite K2, H7. done.
  - intros x Hx. rewrite J6 by done. by apply H8.
Qed.

End state_machine_facts.

(** C36: a node whose topology is set applies any batch of entries: it answers once
    per entry, remembers the last id and membership, raises the largest volume
    id of the topology to the largest of the batch, and changes nothing else. *)
Theorem apply_raises_max_volume_id : forall (T : StateMachineTypes) es s t topo nd,
  sm_topology (ss_state_machine s) = Some topo -> get_node t topo = Some nd -> nd_parent nd = None ->
  exists s' t', apply es (s, t) = ((s', t'), Ok (length es))
    /\ applied_state s' = (match last es with Some e => Some (en_log_id e) | None => (applied_state s).1 end,
                           last_membership_of es (applied_state s).2)
    /\ (exists nd', get_node t' topo = Some nd' /\ nd_max_volume_id nd' = max_of es (nd_max_volume_id nd))
    /\ forall x, x <> topo -> get_node t' x = get_node t x.
Proof.
  intros T es s t topo nd Hm E Hp.
  destruct (apply_spec es (ss_state_machine s) topo nd t Hm E Hp) as (m' & t' & H1 & _ & H3 & H4 & H5 & H6).
  exists (with_machine m' s), t'. unfold apply. rewrite H1. split; [done|]. split; [|done].
  unfold applied_state. cbn. by rewrite H3, H4.
Qed.

(** Two ids, one membership, a byte per optional id. *)
Definition id_byte (o : option bool) : byte := z2b (match o with None => 0 | Some false => 1 | Some true => 2 end).
Definition byte_id (b : byte) : option bool :=
  if b2z b =? 0 then None else if b2z b =? 1 then Some false else Some true.
#[local] Instance plain_types : StateMachineTypes := {
  sm_log_id := bool; show_leader := fun _ => "1"; sm_index := fun b : bool => if b then 2 else 1; membership := unit;
  default_membership := (None, tt);
  to_json := fun p => [id_byte p.1; id_byte p.2.1];
  from_json := fun b => match b with [x; y] => Some (byte_id x, (byte_id y, tt)) | _ => None end;
}.

Lemma plain_json p : from_json (StateMachineTypes := plain_types) (to_json p) = Some p.
Proof. destruct p as [[[]|] [[[]|] []]]; vm_compute; reflexivity. Qed.

Definition grow_entry (id : bool) (vid : Z) : log_entry (T := plain_types) := Entry (T := plain_types) id (Normal (MaxVolumeId vid)).
Definition one_topology : tree := Tree 1 {[ 0 := node_new "topo" TTopology ]}.

Lemma apply_raises_max_volume_id_witness :
  exists s' t', apply [grow_entry false 7; grow_entry true 4] (set_topology 0 store_default, one_topology)
                = ((s', t'), Ok 2%nat)
    /\ (applied_state s').1 = Some true /\ exists nd', get_node t' 0 = Some nd' /\ nd_max_volume_id nd' = 7.
Proof.
  destruct (apply_raises_max_volume_id plain_types [grow_entry false 7; grow_entry true 4]
    (set_topology 0 store_default) one_topology 0 (node_new "topo" TTopology)) as (s' & t' & H1 & H2 & H3 & _);
    [reflexivity..|].
  exists s', t'. split; [exact H1|]. split; [by rewrite H2|exact H3].
Defined.

(** A snapshot brings the applied state of the node that built it to the node
    that installs it, but not the topology: the next volume id it is asked to
    apply panics. *)
Theorem snapshot_drops_topology : forall (T : StateMachineTypes) s s' e vid,
  (forall p, from_json (to_json p) = Some p) -> en_payload e = Normal (MaxVolumeId vid) ->
  let '(_, sn) := build_snapshot s in
  let '(s1, r) := install_snapshot sn.(sn_meta) sn.(sn_data) s' in
  r = Ok tt /\ applied_state s1 = applied_state s /\ get_current_snapshot s1 = Some sn
  /\ forall es t, (apply (e :: es) (s1, t)).2 = Panic.
Proof.
  intros T s s' e vid Hj He. unfold build_snapshot, install_snapshot. cbn [sn_meta sn_data]. rewrite Hj.
  split; [done|]. split; [done|]. split; [done|]. intros es t. unfold apply. cbn [ss_state_machine apply_entries].
  unfold mbind', apply_entry. by rewrite He.
Qed.

Lemma snapshot_drops_topology_witness :
  let sn := (build_snapshot (set_topology 0 store_default)).2 in
  let s1 := (install_snapshot sn.(sn_meta) sn.(sn_data) (set_topology 0 store_default)).1 in
  forall es t, (apply (grow_entry true 7 :: es) (s1, t)).2 = Panic.
Proof.
  pose proof (snapshot_drops_topology plain_types (set_topology 0 store_default) (set_topology 0 store_default)
    (grow_entry true 7) 7 plain_json eq_refl) as H.
  destruct H as (_ & _ & _ & H). exact H.
Defined.
