(* ===== verification/Client.v ===== *)
(** * The client of the master ([client/mod.rs], [client/location.rs])

    A client keeps the servers of every volume up to date from the messages
    the leader streams to it. *)

From S2P Require Import Prelude Messages Types Text Ttl Replica Errors Fid Rand.
From Stdlib Require Import Ascii.
#[local] Open Scope string_scope.
#[local] Open Scope list_scope.
#[local] Open Scope Z_scope.

Inductive ClientError :=
| CString
| CUnknownVolumeId (vid : string)
| CVolumeIdNotFound (vid : Z)
| CKeepConnected (master : string).

(** ** [LocationMap] *)

Abbreviation location_map := (gmap Z (list server_location)).

Module LocationMap.

Definition get_locations_by_vid (vid : Z) (m : location_map) : option (list server_location) := m !! vid.

Definition get_locations (vid : string) (m : location_map) : option (list server_location) :=
  match parse_u32 vid with Ok v => get_locations_by_vid v m | _ => None end.

Section lookup.
Context {R : Rng}.

Definition lookup_volume_server_url (vid : string) (m : location_map) : M rng ClientError string :=
  let* vid := mlift (map_err (fun _ => CUnknownVolumeId vid) (parse_u32 vid)) in
  match get_locations_by_vid vid m with
  | Some (l :: ls) =>
      let* idx := gen_range (len (l :: ls)) in
      let* loc := mlift (unwrap ((l :: ls) !! Z.to_nat idx)) in
      mret loc.(lc_url)
  | _ => mthrow (CVolumeIdNotFound vid)
  end.

Definition lookup_file_id (file_id : string) (m : location_map) : M rng ClientError string :=
  match Parser.parse_vid_fid (chars file_id) with
  | None => mthrow CString
  | Some (_, (vid, fid)) =>
      let* url := lookup_volume_server_url (of_chars vid) m in
      mret ("http://" ++ url ++ "/" ++ of_chars fid)%string
  end.

Definition lookup_volume_server (file_id : string) (m : location_map) : M rng ClientError string :=
  match Parser.parse_vid_fid (chars file_id) with
  | None => mthrow CString
  | Some (_, (vid, _)) => lookup_volume_server_url (of_chars vid) m
  end.

End lookup.

Definition add_location (vid : Z) (loc : server_location) (m : location_map) : location_map :=
  let locations := default [] (m !! vid) in
  <[vid := if existsb (fun l => bool_decide (l.(lc_url) = loc.(lc_url))) locations then locations
           else locations ++ [loc]]> m.

Definition delete_location (vid : Z) (loc : server_location) (m : location_map) : location_map :=
  <[vid := filter (fun l => l.(lc_url) <> loc.(lc_url)) (default [] (m !! vid))]> m.

Definition clear (m : location_map) : location_map := ∅.

End LocationMap.

(** ** [MasterClient] *)

Record master_client := MasterClient {
  mc_name : string;
  mc_current_master : string;
  mc_masters : list string;
  mc_locations : location_map;
}.

Definition master_client_new (name : string) (masters : list string) : master_client :=
  MasterClient name "" masters ∅.

Definition set_current (master : string) (c : master_client) : master_client :=
  MasterClient c.(mc_name) master c.(mc_masters) c.(mc_locations).
Definition on_locations (f : location_map -> location_map) (c : master_client) : master_client :=
  MasterClient c.(mc_name) c.(mc_current_master) c.(mc_masters) (f c.(mc_locations)).

(** A message without a leader: the new volumes, then the deleted ones. *)
Definition apply_location (m : volume_location) (ls : location_map) : location_map :=
  let loc := ServerLocation m.(lo_url) m.(lo_public_url) in
  let ls := fold_left (fun ls vid => LocationMap.add_location vid loc ls) m.(lo_new_vids) ls in
  fold_left (fun ls vid => LocationMap.delete_location vid loc ls) m.(lo_deleted_vids) ls.

(** The stream of a connection: messages, or an error; it may end. *)
Fixpoint read_stream (master : string) (stream : list (option volume_location)) (c : master_client)
  : master_client * outcome ClientError string :=
  match stream with
  | [] => (c, Ok "")
  | None :: _ => (c, Err (CKeepConnected master))
  | Some m :: stream' =>
      match m.(lo_leader) with
      | Some leader => (c, Ok leader)
      | None => read_stream master stream' (on_locations (apply_location m) c)
      end
  end.

(** [try_connect_to_master]; the master refuses the stream, or serves it. *)
Definition try_connect_to_master (master : string) (answer : option (list (option volume_location))) (c : master_client)
  : master_client * outcome ClientError string :=
  match answer with
  | None => (c, Err (CKeepConnected master))
  | Some stream => read_stream master stream (set_current master c)
  end.

(** The [while] loop over hinted leaders: [answers] are the connections the
    network still offers, and end it when they run out. *)
Fixpoint follow_hints (hint : string) (answers : list (option (list (option volume_location)))) (c : master_client)
  : master_client * outcome ClientError (list (option (list (option volume_location)))) :=
  if is_empty hint then (c, Ok answers)
  else match answers with
       | [] => (c, Err (CKeepConnected hint))
       | answer :: answers' =>
           let '(c, r) := try_connect_to_master hint answer c in
           match r with
           | Ok hint => follow_hints hint answers' c
           | Err e => (c, Err e)
           | Panic => (c, Panic)
           end
       end.

(** [try_all_masters] *)
Fixpoint try_masters (masters : list string) (answers : list (option (list (option volume_location)))) (c : master_client)
  : master_client * outcome ClientError unit :=
  match masters with
  | [] => (c, Ok tt)
  | master :: masters' =>
      let '(answer, answers) := match answers with a :: l => (a, l) | [] => (None, []) end in
      let '(c, r) := try_connect_to_master master answer c in
      match r with
      | Ok hint =>
          let '(c, r) := follow_hints hint answers c in
          match r with
          | Ok answers => try_masters masters' answers (on_locations LocationMap.clear (set_current "" c))
          | Err e => (c, Err e)
          | Panic => (c, Panic)
          end
      | Err e => (c, Err e)
      | Panic => (c, Panic)
      end
  end.

Definition try_all_masters (answers : list (option (list (option volume_location)))) (c : master_client)
  : master_client * outcome ClientError unit := try_masters c.(mc_masters) answers c.

(** [keep_connected_to_master]: what the network answers at each tick; errors are
    dropped. *)
Fixpoint keep_connected_to_master (ticks : list (list (option (list (option volume_location))))) (c : master_client)
  : master_client :=
  match ticks with
  | [] => c
  | answers :: ticks' => keep_connected_to_master ticks' (try_all_masters answers c).1
  end.

(** The other masters are only asked after a stream of the first one has ended:
    as long as the first master does not answer, a client has no master and
    learns nothing, whatever the others would tell it. *)
Theorem client_needs_first_master : forall ticks c, mc_masters c <> [] ->
  Forall (fun answers => head answers = Some None) ticks -> keep_connected_to_master ticks c = c.
Proof.
  intros ticks c Hm H. induction H as [|answers ticks Ha _ IH]; [done|]. cbn [keep_connected_to_master].
  assert (E : (try_all_masters answers c).1 = c); [|by rewrite E].
  unfold try_all_masters. destruct (mc_masters c) as [|master masters]; [done|]. destruct answers as [|a answers]; [done|].
  injection Ha as ->. done.
Qed.

Lemma client_needs_first_master_witness :
  keep_connected_to_master (replicate 3 [None; Some [Some volume_location_new]]) (master_client_new "c" ["a:9333"; "b:9333"])
  = master_client_new "c" ["a:9333"; "b:9333"].
Proof. apply client_needs_first_master; [discriminate|repeat constructor]. Defined.

(** ** What a client knows *)

(** The urls of a volume. *)
Definition urls (m : location_map) (vid : Z) : list string := map lc_url (default [] (m !! vid)).

Definition urls_distinct (m : location_map) : Prop := forall vid, NoDup (urls m vid).

Import LocationMap.

Lemma existsb_url loc ls :
  existsb (fun l => bool_decide (l.(lc_url) = loc.(lc_url))) ls = bool_decide (lc_url loc ∈ map lc_url ls).
Proof.
  induction ls as [|l ls IH]; cbn; [by rewrite bool_decide_false by apply not_elem_of_nil|].
  rewrite IH. repeat case_bool_decide; set_solver.
Qed.

Lemma urls_insert m vid ls w : urls (<[vid := ls]> m) w = if decide (w = vid) then map lc_url ls else urls m w.
Proof.
  unfold urls. case_decide as E; [subst; by rewrite lookup_insert_eq|by rewrite lookup_insert_ne].
Qed.

Lemma add_location_spec vid loc m w u : urls_distinct m ->
  urls_distinct (add_location vid loc m)
  /\ (u ∈ urls (add_location vid loc m) w <-> u ∈ urls m w \/ (w = vid /\ u = lc_url loc)).
Proof.
  intros Hd. unfold add_location. rewrite existsb_url. set (ls := default [] (m !! vid)).
  assert (Hls : forall w, urls (<[vid := if bool_decide (lc_url loc ∈ map lc_url ls) then ls else ls ++ [loc]]> m) w
    = if decide (w = vid) then (if bool_decide (lc_url loc ∈ map lc_url ls) then map lc_url ls else map lc_url ls ++ [lc_url loc])
      else urls m w).
  { intros x. rewrite urls_insert. case_decide; [|done]. case_bool_decide; [done|]. by rewrite map_app. }
  pose proof (Hd vid) as Hv. unfold urls at 1 in Hv. fold ls in Hv. split.
  - intros x. rewrite Hls. destruct (decide (x = vid)); [|apply Hd]. clear Hls. case_bool_decide as Hin; [done|].
    apply NoDup_app. repeat split; [done|set_solver|apply NoDup_singleton].
  - rewrite Hls. clear Hls. destruct (decide (w = vid)) as [->|]; [|naive_solver]. unfold urls. fold ls.
    case_bool_decide; set_solver.
Qed.

Lemma delete_location_spec vid loc m w u : urls_distinct m ->
  urls_distinct (delete_location vid loc m)
  /\ (u ∈ urls (delete_location vid loc m) w <-> u ∈ urls m w /\ ~ (w = vid /\ u = lc_url loc)).
Proof.
  intros Hd. unfold delete_location. set (ls := default [] (m !! vid)).
  assert (Hf : map lc_url (filter (fun l => lc_url l <> lc_url loc) ls) = filter (fun x => x <> lc_url loc) (map lc_url ls)).
  { clear. induction ls as [|l ls IH]; [done|]. cbn [map]. rewrite !filter_cons. cbn beta.
    repeat case_decide; try done. cbn [map]. by rewrite IH. }
  pose proof (Hd vid) as Hv. unfold urls at 1 in Hv. fold ls in Hv. split.
  - intros x. rewrite urls_insert. case_decide; [|apply Hd]. rewrite Hf. by apply NoDup_filter.
  - rewrite urls_insert. case_decide as E; [subst w|naive_solver]. rewrite Hf, list_elem_of_filter. unfold urls. fold ls.
    naive_solver.
Qed.

Lemma add_vids_spec vids : forall loc m w u, urls_distinct m ->
  let m' := fold_left (fun ls vid => add_location vid loc ls) vids m in
  urls_distinct m' /\ (u ∈ urls m' w <-> u ∈ urls m w \/ (w ∈ vids /\ u = lc_url loc)).
Proof.
  induction vids as [|v vids IH]; intros loc m w u Hd; cbn [fold_left].
  { split; [done|]. set_solver. }
  destruct (add_location_spec v loc m w u Hd) as [H1 H2]. destruct (IH loc (add_location v loc m) w u H1) as [H3 H4].
  split; [done|]. rewrite H4, H2, elem_of_cons. naive_solver.
Qed.

Lemma delete_vids_spec vids : forall loc m w u, urls_distinct m ->
  let m' := fold_left (fun ls vid => delete_location vid loc ls) vids m in
  urls_distinct m' /\ (u ∈ urls m' w <-> u ∈ urls m w /\ ~ (w ∈ vids /\ u = lc_url loc)).
Proof.
  induction vids as [|v vids IH]; intros loc m w u Hd; cbn [fold_left].
  { split; [done|]. set_solver. }
  destruct (delete_location_spec v loc m w u Hd) as [H1 H2]. destruct (IH loc (delete_location v loc m) w u H1) as [H3 H4].
  split; [done|]. rewrite H4, H2, elem_of_cons. naive_solver.
Qed.

Lemma apply_location_spec m ls w u : urls_distinct ls ->
  urls_distinct (apply_location m ls)
  /\ (u ∈ urls (apply_location m ls) w <->
      (u ∈ urls ls w \/ (w ∈ lo_new_vids m /\ u = lo_url m)) /\ ~ (w ∈ lo_deleted_vids m /\ u = lo_url m)).
Proof.
  intros Hd. unfold apply_location. set (loc := ServerLocation _ _).
  destruct (add_vids_spec (lo_new_vids m) loc ls w u Hd) as [H1 H2].
  destruct (delete_vids_spec (lo_deleted_vids m) loc _ w u H1) as [H3 H4].
  split; [done|]. rewrite H4, H2. done.
Qed.

(** What a sequence of messages says about server [u] and volume [w]: the last
    message that mentions the pair decides, a deletion before an addition. *)
Fixpoint announced (w : Z) (u : string) (ms : list volume_location) (known : bool) : bool :=
  match ms with
  | [] => known
  | m :: ms' =>
      announced w u ms'
        (if bool_decide (u = m.(lo_url)) then
           if bool_decide (w ∈ m.(lo_deleted_vids)) then false
           else if bool_decide (w ∈ m.(lo_new_vids)) then true else known
         else known)
  end.

Lemma stream_spec master ms : forall c, Forall (fun m => m.(lo_leader) = None) ms -> urls_distinct c.(mc_locations) ->
  let '(c', r) := read_stream master (map Some ms) c in
  r = Ok "" /\ urls_distinct c'.(mc_locations)
  /\ forall w u, bool_decide (u ∈ urls c'.(mc_locations) w)
                 = announced w u ms (bool_decide (u ∈ urls c.(mc_locations) w)).
Proof.
  induction ms as [|m ms IH]; intros c Hl Hd; cbn [map read_stream announced]; [done|].
  apply Forall_cons in Hl as [Hm Hl]. rewrite Hm.
  assert (Hs := fun w u => apply_location_spec m (mc_locations c) w u Hd).
  specialize (IH (on_locations (apply_location m) c) Hl (proj1 (Hs 0 ""))).
  destruct (read_stream _ _ _) as [c' r]. destruct IH as (H1 & H2 & H3). split; [done|]. split; [done|].
  intros w u. rewrite H3. cbn [on_locations mc_locations]. f_equal. destruct (Hs w u) as [_ H].
  rewrite (bool_decide_ext _ _ H). repeat case_bool_decide; naive_solver.
Qed.

(** C35: a client that reads a stream of the leader knows each server of a volume
    once, knows exactly the servers the messages last announced for it, and a
    lookup of the volume answers one of them, or that it is not found. *)
Theorem client_follows_stream : forall (R : Rng) c master ms g,
  Forall (fun m => m.(lo_leader) = None) ms -> urls_distinct c.(mc_locations) ->
  let '(c', r) := try_connect_to_master master (Some (map Some ms)) c in
  r = Ok "" /\ c'.(mc_current_master) = master /\ urls_distinct c'.(mc_locations)
  /\ (forall w u, bool_decide (u ∈ urls c'.(mc_locations) w)
                  = announced w u ms (bool_decide (u ∈ urls c.(mc_locations) w)))
  /\ forall w vid, parse_u32 vid = Ok w ->
       match (lookup_volume_server_url vid c'.(mc_locations) g).2 with
       | Ok u => u ∈ urls c'.(mc_locations) w
       | Err e => e = CVolumeIdNotFound w /\ urls c'.(mc_locations) w = []
       | Panic => False
       end.
Proof.
  intros R c master ms g Hl Hd. unfold try_connect_to_master.
  pose proof (stream_spec master ms (set_current master c) Hl Hd) as H.
  assert (Hc : forall st c0, (read_stream master st c0).1.(mc_current_master) = c0.(mc_current_master)).
  { induction st as [|[m|] st IH]; intros c0; cbn [read_stream]; [done| |done].
    destruct (lo_leader m); [done|]. by rewrite IH. }
  specialize (Hc (map Some ms) (set_current master c)). destruct (read_stream _ _ _) as [c' r].
  destruct H as (H1 & H2 & H3). split; [done|]. split; [done|]. split; [done|]. split; [done|].
  intros w vid Hw. unfold lookup_volume_server_url, mbind', mlift. rewrite Hw. cbn [map_err].
  unfold get_locations_by_vid, urls. destruct (mc_locations c' !! w) as [[|l ls]|] eqn:E; [done| |done].
  destruct (gen_range_spec (E := ClientError) (len (l :: ls)) g) as (x & g' & Eg & Hx); [rewrite len_cons; unfold len; lia|].
  rewrite Eg. destruct ((l :: ls) !! Z.to_nat x) as [loc|] eqn:El; cbn.
  - change (lc_url l :: map lc_url ls) with (map lc_url (l :: ls)). apply list_elem_of_fmap. exists loc.
    split; [done|]. by eapply list_elem_of_lookup_2.
  - apply lookup_ge_None in El. unfold len in Hx. lia.
Qed.

(** Server [a] announces volumes 1 and 2, server [b] volume 1; then [a] loses 1. *)
Lemma client_follows_stream_witness :
  let ms := [VolumeLocation "a" "a" [1; 2] [] None [] []; VolumeLocation "b" "b" [1] [] None [] [];
             VolumeLocation "a" "a" [] [1] None [] []] in
  let c' := (try_connect_to_master "m" (Some (map Some ms)) (master_client_new "c" ["m"])).1 in
  "a" ∉ urls c'.(mc_locations) 1 /\ "b" ∈ urls c'.(mc_locations) 1 /\ "a" ∈ urls c'.(mc_locations) 2.
Proof.
  intros ms c'.
  pose proof (client_follows_stream list_rng (master_client_new "c" ["m"]) "m" ms []
    ltac:(repeat constructor) ltac:(intros vid; constructor)) as H.
  subst c'. destruct (try_connect_to_master "m" _ _) as [c' r]. destruct H as (_ & _ & _ & H & _). cbn [fst].
  repeat split; [apply (bool_decide_eq_false_1 _)|apply (bool_decide_eq_true_1 _)..]; rewrite H; vm_compute; reflexivity.
Defined.
