(* ===== verification/Directory.v ===== *)
(** * The directory server of the master ([directory/server.rs],
      [directory/api.rs], [operation/assign.rs], [operation/lookup.rs])

    Heartbeats of volume servers, the stream of changes to clients, lookups and
    assignments, on top of the topology.  What raft knows about the leader is
    an argument of each request. *)

From S2P Require Import Prelude Messages Types Text Ttl Replica Errors Fid Volume ShardBits Node NodeFacts Rand VolumeLayout VolumeGrow EcShards Sequence Topology Raft.
From Stdlib Require Import Ascii.
#[local] Open Scope string_scope.
#[local] Open Scope list_scope.
#[local] Open Scope Z_scope.

Definition DEFAULT : string := "default".
Definition get_or_default (s : string) : string := if is_empty s then DEFAULT else s.

Definition public_url (r : nref) (t : tree) : string :=
  match get_node t r with
  | Some nd => match nd.(nd_type) with TDataNode d => d.(dn_public_url) | _ => "" end
  | None => ""
  end.

Section directory.
Context {R : Rng} {F : Flake} {P : Rpc}.

(** The topology, and the queue of every connected client. *)
Record directory := Directory {
  di_topology : topology;
  di_clients : list (string * list volume_location);
}.

Definition set_topo (t : topology) (d : directory) : directory := Directory t d.(di_clients).
Definition set_clients (cs : list (string * list volume_location)) (d : directory) : directory :=
  Directory d.(di_topology) cs.

Definition broadcast (m : volume_location) (d : directory) : directory :=
  set_clients (map (fun e => (e.1, e.2 ++ [m])) d.(di_clients)) d.

(** ** Heartbeats *)

Definition on_tree {A} (f : tree -> tree * outcome VolumeError A) : M topology VolumeError A :=
  fun s => let '(t, o) := f s.(tp_tree) in (set_tree t s, o).

Definition set_parent (r p : nref) : M topology VolumeError unit :=
  mmodify (fun s => set_tree (upd r (with_parent (Some p)) s.(tp_tree)) s).

(** [update_topology]: the data node of a new connection. *)
Definition update_topology (hb : heartbeat) (addr_ip : string) : M topology VolumeError nref :=
  let* _ := mmodify (set_max_sequence hb.(hb_max_file_key)) in
  let ip := if is_empty hb.(hb_ip) then addr_ip else hb.(hb_ip) in
  let* dc := on_tree (get_or_create_data_center TOPO (get_or_default hb.(hb_data_center))) in
  let* _ := set_parent dc TOPO in
  let* rack := on_tree (get_or_create_rack dc (get_or_default hb.(hb_rack))) in
  let* _ := set_parent rack dc in
  let node_addr := (ip ++ ":" ++ fmt_dec hb.(hb_port))%string in
  let* dn := on_tree (get_or_create_data_node rack node_addr ip (u16 hb.(hb_port)) hb.(hb_public_url)
                        hb.(hb_max_volume_count)) in
  let* _ := set_parent dn rack in
  mret dn.

(** The iteration orders of the two maps of a data node. *)
Record orders := Orders {
  by_volume : gmap Z volume_info -> list (Z * volume_info);
  by_shard : gmap Z ec_volume_info -> list (Z * ec_volume_info);
}.

(** The shard registry of the topology, as [EcShards] updates it. *)
Definition sync_ec (ord : orders) (shards : list ec_message) (dn : nref) (s : topology)
  : topology * outcome VolumeError (list ec_volume_info * list ec_volume_info) :=
  let '((t, h), o) := sync_data_node_ec_shards ord.(by_shard) shards dn s.(tp_tree) s.(tp_heap) s.(tp_ec_shards) in
  let s := set_heap h (set_tree t s) in
  match o with
  | Ok (m, r) => (set_ec m s, Ok r)
  | Err e => (s, Err e)
  | Panic => (s, Panic)
  end.

Definition incremental_sync_ec (news dels : list ec_message) (dn : nref) (s : topology)
  : option (topology * outcome VolumeError unit) :=
  match incremental_sync_data_node_ec_shards news dels dn s.(tp_tree) s.(tp_heap) s.(tp_ec_shards) with
  | None => None
  | Some ((t, h), o) =>
      let s := set_heap h (set_tree t s) in
      Some (match o with
            | Ok m => (set_ec m s, Ok tt)
            | Err e => (s, Err e)
            | Panic => (s, Panic)
            end)
  end.

Definition add_vids (news dels : list Z) (m : volume_location) : volume_location :=
  VolumeLocation m.(lo_url) m.(lo_public_url) (m.(lo_new_vids) ++ news) (m.(lo_deleted_vids) ++ dels)
    m.(lo_leader) m.(lo_new_ec_vids) m.(lo_deleted_ec_vids).
Definition add_ec_vids (news dels : list Z) (m : volume_location) : volume_location :=
  VolumeLocation m.(lo_url) m.(lo_public_url) m.(lo_new_vids) m.(lo_deleted_vids)
    m.(lo_leader) (m.(lo_new_ec_vids) ++ news) (m.(lo_deleted_ec_vids) ++ dels).

Definition is_nil {A} (l : list A) : bool := match l with [] => true | _ => false end.

(** The four parts of [update_volume_layout], each with the message it has
    gathered so far. *)
Definition layout_incremental (hb : heartbeat) (dn : nref) (m : volume_location) (s : topology)
  : topology * volume_location :=
  if negb (is_nil hb.(hb_new_volumes)) || negb (is_nil hb.(hb_deleted_volumes)) then
    (incremental_sync_data_node_registration hb.(hb_new_volumes) hb.(hb_deleted_volumes) dn s,
     add_vids (map vm_id hb.(hb_new_volumes)) (map vm_id hb.(hb_deleted_volumes)) m)
  else (s, m).

Definition layout_full (ord : orders) (hb : heartbeat) (dn : nref) (m : volume_location)
  : M topology VolumeError volume_location :=
  if negb (is_nil hb.(hb_volumes)) || hb.(hb_has_no_volumes) then
    let* _ := if negb (is_empty hb.(hb_ip)) then register_data_node hb.(hb_data_center) hb.(hb_rack) dn
              else mret tt in
    fun s => let '(s, (news, dels)) := sync_data_node_registration ord.(by_volume) hb.(hb_volumes) dn s in
             (s, Ok (add_vids (map vi_id news) (map vi_id dels) m))
  else mret m.

Definition ec_incremental (hb : heartbeat) (dn : nref) (m : volume_location) (s : topology)
  : option (topology * outcome VolumeError volume_location) :=
  if negb (is_nil hb.(hb_new_ec_shards)) || negb (is_nil hb.(hb_deleted_ec_shards)) then
    match incremental_sync_ec hb.(hb_new_ec_shards) hb.(hb_deleted_ec_shards) dn s with
    | None => None
    | Some (s, o) =>
        Some (s, let? _ := o in
                 Ok (add_ec_vids (map em_id hb.(hb_new_ec_shards))
                       (filter (fun vid => has_ec_shards dn vid s.(tp_tree) = false) (map em_id hb.(hb_deleted_ec_shards))) m))
    end
  else Some (s, Ok m).

Definition ec_full (ord : orders) (hb : heartbeat) (dn : nref) (m : volume_location)
  : M topology VolumeError volume_location :=
  if negb (is_nil hb.(hb_ec_shards)) || hb.(hb_has_no_ec_shards) then
    fun s => let '(s, o) := sync_ec ord hb.(hb_ec_shards) dn s in
             (s, let? '(news, dels) := o in
                 Ok (add_ec_vids (map ev_volume_id news)
                       (filter (fun vid => has_ec_shards dn vid s.(tp_tree) = false) (map ev_volume_id dels)) m))
  else mret m.

(** [update_volume_layout]; [None] when an incremental deletion of shards waits
    for its own lock. *)
Definition update_volume_layout (ord : orders) (hb : heartbeat) (dn : nref) (d : directory)
  : option (directory * outcome VolumeError unit) :=
  let s := d.(di_topology) in
  let m := VolumeLocation (url dn s.(tp_tree)) (public_url dn s.(tp_tree)) [] [] None [] [] in
  let '(s, m) := layout_incremental hb dn m s in
  match layout_full ord hb dn m s with
  | (s, Ok m) =>
      match ec_incremental hb dn m s with
      | None => None
      | Some (s, Ok m) =>
          match ec_full ord hb dn m s with
          | (s, Ok m) =>
              let d := set_topo s d in
              Some (if negb (is_nil m.(lo_new_vids)) || negb (is_nil m.(lo_deleted_vids))
                       || negb (is_nil m.(lo_new_ec_vids)) || negb (is_nil m.(lo_deleted_ec_vids))
                    then broadcast m d else d, Ok tt)
          | (s, Err e) => Some (set_topo s d, Err e)
          | (s, Panic) => Some (set_topo s d, Panic)
          end
      | Some (s, Err e) => Some (set_topo s d, Err e)
      | Some (s, Panic) => Some (set_topo s d, Panic)
      end
  | (s, Err e) => Some (set_topo s d, Err e)
  | (s, Panic) => Some (set_topo s d, Panic)
  end.

(** [remove_data_node]: when a connection ends. *)
Definition remove_data_node (ord : orders) (dn : option nref) (d : directory) : directory :=
  match dn with
  | None => d
  | Some dn =>
      let s := unregister_data_node ord.(by_volume) dn d.(di_topology) in
      let d := set_topo s d in
      let vids := map (fun e => e.2.(vi_id)) (ord.(by_volume) (volumes_of dn s.(tp_tree)))
                  ++ map (fun e => e.2.(ev_volume_id)) (ord.(by_shard) (shards_of dn s.(tp_tree))) in
      if negb (is_nil vids)
      then broadcast (VolumeLocation (url dn s.(tp_tree)) (public_url dn s.(tp_tree)) [] vids None [] []) d
      else d
  end.

(** [heartbeat_response] *)
Definition heartbeat_response (volume_size_limit : Z) (raft : option raft_server)
  : outcome topology_error heartbeat_reply :=
  let? leader := current_leader raft in Ok (HeartbeatReply volume_size_limit leader).

(** What the loop of [heartbeat] receives: a message or an error of the stream,
    with the state of raft, and whether the answers still have a reader. *)
Record heartbeat_event := HeartbeatEvent {
  he_message : option heartbeat;
  he_raft : option raft_server;
  he_open : bool;
}.

(** An answer: a response, or the error passed on. *)
Abbreviation answer := (option heartbeat_reply).

(** One turn: the directory, the data node of the connection, the answers, and
    whether the loop goes on. *)
Definition heartbeat_turn (ord : orders) (limit : Z) (addr_ip : string) (ev : heartbeat_event)
    (dn : option nref) (d : directory) : option (directory * outcome VolumeError (option nref * list answer * bool)) :=
  let respond d dn :=
    match heartbeat_response limit ev.(he_raft) with
    | Ok r => Some (d, Ok (dn, [Some r], true))
    | _ => Some (d, Ok (dn, [], false))
    end in
  match ev.(he_message) with
  | None => Some (d, Ok (dn, [None], ev.(he_open)))
  | Some hb =>
      if negb (is_leader ev.(he_raft)) then respond d dn
      else
        let d := set_topo (set_max_sequence hb.(hb_max_file_key) d.(di_topology)) d in
        match dn with
        | Some r =>
            match update_volume_layout ord hb r d with
            | None => None
            | Some (d, Panic) => Some (d, Panic)
            | Some (d, _) => respond d dn
            end
        | None =>
            match update_topology hb addr_ip d.(di_topology) with
            | (s, Ok r) => respond (set_topo s d) (Some r)
            | (s, Err _) => respond (set_topo s d) None
            | (s, Panic) => Some (set_topo s d, Panic)
            end
        end
  end.

(** The task of a connection; it removes its data node when it ends. *)
Fixpoint heartbeat_loop (ord : orders) (limit : Z) (addr_ip : string) (evs : list heartbeat_event)
    (dn : option nref) (d : directory) : option (directory * outcome VolumeError (list answer)) :=
  match evs with
  | [] => Some (remove_data_node ord dn d, Ok [])
  | ev :: evs' =>
      match heartbeat_turn ord limit addr_ip ev dn d with
      | None => None
      | Some (d, Ok (dn, out, true)) =>
          match heartbeat_loop ord limit addr_ip evs' dn d with
          | Some (d, Ok out') => Some (d, Ok (out ++ out'))
          | r => r
          end
      | Some (d, Ok (dn, out, false)) => Some (remove_data_node ord dn d, Ok out)
      | Some (d, Err e) => Some (d, Err e)
      | Some (d, Panic) => Some (d, Panic)
      end
  end.

(** ** Clients *)

Inductive status := InvalidArgument | NotFound | PermissionDenied | Internal.

(** [Topology::to_volume_locations]: a message per data node below the root. *)
Definition node_location (ord : orders) (t : tree) (r : nref) : option volume_location :=
  match get_node t r with
  | Some nd =>
      if is_data_node nd then
        Some (VolumeLocation (url r t) (public_url r t)
                (map (fun e => e.2.(vi_id)) (ord.(by_volume) (volumes_of r t))
                 ++ map (fun e => e.2.(ev_volume_id)) (ord.(by_shard) (shards_of r t))) [] None [] [])
      else None
  | None => None
  end.

Definition children_of (t : tree) (r : nref) : list nref :=
  match get_node t r with Some nd => map snd nd.(nd_children) | None => [] end.

Definition to_volume_locations (ord : orders) (t : tree) : list volume_location :=
  omap (node_location ord t) (flat_map (fun dc => flat_map (children_of t) (children_of t dc)) (children_of t TOPO)).

(** [inform_new_leader] *)
Definition inform_new_leader (raft : option raft_server) : list volume_location :=
  match current_leader raft with
  | Ok leader => [VolumeLocation "" "" [] [] (Some leader) [] []]
  | _ => []
  end.

(** [keep_connected] up to its two tasks: the first request registers the
    client and answers what is known. *)
Definition keep_connected (ord : orders) (raft : option raft_server) (addr : string)
    (first : option (option string)) (d : directory)
  : directory * outcome status (string * list volume_location) :=
  match first with
  | Some (Some name) =>
      if negb (is_leader raft) then (d, Err Internal)
      else
        let client_name := (name ++ "." ++ addr)%string in
        (set_clients (assoc_set client_name [] d.(di_clients)) d,
         Ok (client_name, to_volume_locations ord d.(di_topology).(tp_tree)))
  | _ => (d, Err Internal)
  end.

Definition remove_client (name : string) (d : directory) : directory :=
  set_clients (filter (fun e => e.1 <> name) d.(di_clients)) d.

(** A turn of the forwarding task: the tick of the interval, the end of the
    request stream, or a message of the queue; [true] while it goes on. *)
Inductive client_event := Tick (raft : option raft_server) | Stop | Forwarded (reader : bool).

Definition client_turn (name : string) (ev : client_event) (d : directory)
  : directory * list volume_location * bool :=
  match ev with
  | Tick raft => if is_leader raft then (d, [], true) else (remove_client name d, inform_new_leader raft, false)
  | Stop => (remove_client name d, [], false)
  | Forwarded reader =>
      match assoc name d.(di_clients) with
      | Some (m :: queue) =>
          let d := set_clients (assoc_set name queue d.(di_clients)) d in
          if reader then (d, [m], true) else (remove_client name d, [], false)
      | _ => (d, [], true)
      end
  end.

(** ** Lookups *)

Definition node_locations (t : tree) (nodes : list nref) : list server_location :=
  map (fun r => ServerLocation (url r t) (public_url r t)) nodes.

(** [lookup_volume] *)
Fixpoint lookup_volumes (collection : string) (ids : list string) (s : topology)
  : outcome status (list volume_id_location) :=
  match ids with
  | [] => Ok []
  | id :: ids' =>
      match Parser.parse_vid_fid (chars id) with
      | None => Err InvalidArgument
      | Some (_, (vid, _)) =>
          let? vid := map_err (fun _ => InvalidArgument) (parse_u32 (of_chars vid)) in
          let found :=
            match Topology.lookup collection vid s with
            | Some nodes => VolumeIdLocation id (node_locations s.(tp_tree) nodes) ""
            | None => VolumeIdLocation id [] ("volume " ++ fmt_dec vid ++ " is not found")
            end in
          let? rest := lookup_volumes collection ids' s in
          Ok (found :: rest)
      end
  end.

Definition lookup_volume (collection : string) (ids : list string) (s : topology)
  : outcome status (list volume_id_location) :=
  if is_nil ids then Err InvalidArgument else lookup_volumes collection ids s.

(** [lookup_ec_volume] *)
Definition lookup_ec_volume (raft : option raft_server) (vid : Z) (s : topology)
  : outcome status (list (Z * list server_location)) :=
  if negb (is_leader raft) then Err PermissionDenied
  else match s.(tp_ec_shards) !! vid with
       | None => Err NotFound
       | Some e => Ok (imap (fun i nodes => (Z.of_nat i, node_locations s.(tp_tree) nodes)) e.(es_locations))
       end.

(** ** The HTTP interface *)

Record assign_request := AssignRequest {
  ar_count : option Z;
  ar_replication : option string;
  ar_ttl : option string;
  ar_preallocate : option Z;
  ar_collection : option string;
  ar_data_center : option string;
  ar_rack : option string;
  ar_data_node : option string;
}.

Definition volume_grow_option (default_replication : string) (r : assign_request) : outcome VolumeError grow_option :=
  let replication := match r.(ar_replication) with
                     | Some s => if is_empty s then default_replication else s
                     | None => default_replication
                     end in
  let? rp := map_err of_replica_error (Replica.new replication) in
  let? t := match r.(ar_ttl) with Some s => map_err of_parse_ttl_error (Ttl.new s) | None => Ok Ttl.default end in
  Ok (VolumeGrowOption (default "" r.(ar_collection)) rp t (default 0 r.(ar_preallocate))
        (default "" r.(ar_data_center)) (default "" r.(ar_rack)) (default "" r.(ar_data_node))).

Record assignment := Assignment { as_fid : string; as_url : string; as_public_url : string; as_count : Z }.

(** [assign_handler] *)
Definition assign_handler (default_replication : string) (request : assign_request)
  : M topology VolumeError assignment :=
  let count := match request.(ar_count) with Some n => if 1 <? n then n else 1 | None => 1 end in
  let* option := mlift (volume_grow_option default_replication request) in
  let* writable := fun s => let '(s, b) := has_writable_volume option s in (s, Ok b) in
  let* _ := if writable then mret tt
            else
              let* s := mget in
              let* root := mlift (unwrap (get_node s.(tp_tree) TOPO)) in
              if free_space root <=? 0 then mthrow VNoFreeSpace
              else let* _ := grow_by_type option in mret tt in
  let* '(fid, count, node) := pick_for_write count option in
  let* s := mget in
  mret (Assignment (FileId.fmt fid) (url node s.(tp_tree)) (public_url node s.(tp_tree)) count).

(** [lookup_handler] *)
Definition lookup_handler (volume_id : string) (collection : option string) (s : topology)
  : outcome VolumeError (string * list server_location) :=
  if is_empty volume_id then Err VString
  else
    let? volume_id := match str_rfind "," volume_id with
                      | Some idx => unwrap (str_slice volume_id 0 idx)
                      | None => Ok volume_id
                      end in
    let? vid := map_err VParseInt (parse_u32 volume_id) in
    match Topology.lookup (default "" collection) vid s with
    | Some nodes => Ok (volume_id, node_locations s.(tp_tree) nodes)
    | None => Err VString
    end.

(** ** [Looker]

    The cache of lookups a volume server keeps; entries also expire, which
    looks like a miss. *)

Abbreviation looker := (gmap Z volume_id_location).

(** The loop over the answer: errors are what is cached. *)
Fixpoint looker_store (found : list volume_id_location) (acc : list volume_id_location) (c : looker)
  : looker * outcome status (list volume_id_location) :=
  match found with
  | [] => (c, Ok acc)
  | loc :: found' =>
      let acc := acc ++ [loc] in
      if is_empty loc.(vl_error) then looker_store found' acc c
      else match Parser.parse_vid_fid (chars loc.(vl_volume_or_file_id)) with
           | None => (c, Err Internal)
           | Some (_, (vid, _)) =>
               match parse_u32 (of_chars vid) with
               | Ok vid => looker_store found' acc (<[vid := loc]> c)
               | _ => (c, Err InvalidArgument)
               end
           end
  end.

(** [Looker::lookup], with the master's [lookup_volume] as the server. *)
Definition looker_lookup (serve : list string -> outcome status (list volume_id_location)) (vids : list Z) (c : looker)
  : looker * outcome status (list volume_id_location) :=
  let cached := omap (fun vid => c !! vid) vids in
  let missing := filter (fun vid => c !! vid = None) vids in
  match serve (map fmt_dec missing) with
  | Ok found => looker_store found cached c
  | Err e => (c, Err e)
  | Panic => (c, Panic)
  end.

End directory.
