(* ===== verification/DirectoryFacts.v ===== *)
(** * What the directory server guarantees

    Assignments name writable volumes, heartbeats bring the master's view in
    line with a volume server's, and what lookups and shard reports do not
    do. *)

From S2P Require Import Prelude Messages Types Text Ttl Replica Errors Fid Volume ShardBits Node NodeFacts Rand VolumeLayout VolumeLayoutFacts VolumeGrow VolumeGrowFacts EcShards Sequence Topology TopologyFacts Raft Directory.
From Stdlib Require Import Ascii.
#[local] Open Scope string_scope.
#[local] Open Scope list_scope.
#[local] Open Scope Z_scope.

(** ** Assignments *)

Section assign.
Context {R : Rng} {F : Flake} {P : Rpc}.

(** The master as far as requests with option [o] see it. *)
Record master_ok (o : grow_option) (s : topology) : Prop := {
  mo_tree : tree_ok (tp_tree s);
  mo_root : exists tn, get_node (tp_tree s) TOPO = Some tn /\ level tn = 3;
  mo_digits : Replica.digits_ok o.(go_replica_placement);
  mo_layout : layout_inv (tp_tree s) (option_layout_of o s);
  mo_rp : vl_rp (option_layout_of o s) = o.(go_replica_placement);
}.

Lemma master_ok_same o s s' : tp_tree s' = tp_tree s -> option_layout_of o s' = option_layout_of o s ->
  master_ok o s -> master_ok o s'.
Proof. intros Ht Hl [H1 H2 H3 H4 H5]. split; rewrite ?Ht, ?Hl; done. Qed.

(** Asking for a layout creates it, and does not change it. *)
Lemma option_layout_same o s :
  tp_tree (option_layout o s).1 = tp_tree s /\ option_layout_of o (option_layout o s).1 = option_layout_of o s
  /\ (option_layout o s).2 = option_layout_of o s.
Proof.
  unfold option_layout, option_layout_of. split; [apply get_layout_tree|]. split; [|done].
  destruct (get_layout_stored (go_collection o) (go_replica_placement o) (go_ttl o) s) as (c & Hc & Hl).
  by eapply stored_layout.
Qed.

Lemma root_is_no_data_node t r tn : get_node t TOPO = Some tn -> level tn = 3 -> is_dn t r -> TOPO <> r.
Proof. intros E Hl (nd & En & Hd) <-. rewrite E in En. injection En as ->. apply level_data_node in Hd. lia. Qed.

Lemma grow_one_ok vid o dn s : master_ok o s -> is_dn (tp_tree s) dn ->
  master_ok o (grow_one vid o dn s) /\ keeps_servers (tp_tree s) (tp_tree (grow_one vid o dn s)).
Proof.
  intros [H1 (tn & Et & El) H3 H4 H5] Hd. destruct (grow_one_layout vid o dn s) as [E1 E2].
  destruct (add_volume_data dn (new_volume vid o) (tp_tree s) Hd) as (_ & _ & Hk). rewrite <- E1 in Hk.
  assert (Hdn : is_dn (tp_tree (grow_one vid o dn s)) dn) by by apply Hk.
  split; [|done]. split; [rewrite E1; by apply add_volume_ok| |done|..].
  - pose proof (add_volume_types dn (new_volume vid o) (tp_tree s) TOPO (root_is_no_data_node _ _ _ Et El Hd)) as Hty.
    rewrite <- E1, Et in Hty. destruct (get_node (tp_tree (grow_one vid o dn s)) TOPO) as [tn'|]; [|done].
    exists tn'. split; [done|]. cbn in Hty. injection Hty as Hty. unfold level in *. by rewrite Hty.
  - rewrite E2. apply register_inv; [|done]. by eapply layout_inv_tree.
  - rewrite E2, <- H5.
    by apply (layout_step_rp (tp_tree (grow_one vid o dn s), option_layout_of o s) (tp_tree (grow_one vid o dn s), _)), ls_register.
Qed.

Lemma grow_ok vid o nodes : forall s, master_ok o s -> Forall (is_dn (tp_tree s)) nodes ->
  let '(s', r) := grow vid o nodes s in master_ok o s' /\ r <> Panic.
Proof.
  induction nodes as [|dn nodes IH]; intros s Hm Hd; cbn [grow]; [done|].
  apply Forall_cons in Hd as [Hd Hds]. destruct (rpc_allocate_volume _ _ _) as [p failed].
  assert (Hm0 : master_ok o (set_servers p s)) by (apply (master_ok_same o s); [done|apply layout_set_servers|done]).
  destruct failed; [done|].
  destruct (grow_one_ok vid o dn (set_servers p s) Hm0 Hd) as [Hm' Hk]. fold (grow_one vid o dn (set_servers p s)).
  apply IH; [done|]. eapply Forall_impl; [exact Hds|]. intros x Hx. by apply Hk.
Qed.

Lemma find_and_grow_ok o s : master_ok o s ->
  let '(s', r) := find_and_grow o s in master_ok o s' /\ r <> Panic.
Proof.
  intros Hm. pose proof Hm as [H1 (tn & Et & El) H3 H4 H5]. unfold find_and_grow.
  assert (Hnn : nonneg_fields o.(go_replica_placement)) by (unfold nonneg_fields; destruct H3 as (? & ? & ?); lia).
  pose proof (find_empty_slots_lemma o TOPO tn (tp_tree s) (tp_rng s) (ok_shape _ H1) Et El Hnn) as Hf.
  unfold mbind' at 1, with_rng.
  destruct (Grow.find_empty_slots o TOPO (tp_tree s) (tp_rng s)) as [g [nodes|e|]]; cbn [snd] in Hf; [| |done].
  - destruct Hf as (main & same & racks & centers & -> & Hp & _). set (nodes := main :: same ++ racks ++ centers).
    assert (Hdn : Forall (is_dn (tp_tree s)) nodes).
    { destruct Hp as (_ & _ & _ & _ & Hp). eapply Forall_impl; [exact Hp|]. by intros x [? _]. }
    unfold mbind' at 1, mget. unfold mbind'.
    pose proof (grow_ok (next_volume_id (set_rng g s)) o nodes (set_rng g s)
      (master_ok_same o s (set_rng g s) eq_refl (layout_set_rng _ _ _ g s) Hm) Hdn) as Hg.
    destruct (grow _ o nodes _) as [s' [[]|e|]]; cbn [mret]; destruct Hg; done.
  - split; [|done]. apply (master_ok_same o s (set_rng g s) eq_refl (layout_set_rng _ _ _ g s) Hm).
Qed.

Lemma grow_by_count_ok n o : forall s, master_ok o s ->
  let '(s', r) := grow_by_count_and_type n o s in master_ok o s' /\ r <> Panic.
Proof.
  induction n as [|n IH]; intros s Hm; cbn [grow_by_count_and_type]; [done|].
  unfold mbind' at 1. pose proof (find_and_grow_ok o s Hm) as H.
  destruct (find_and_grow o s) as [s1 [k|e|]]; destruct H as [H1 H2]; [|done..].
  unfold mbind'. pose proof (IH s1 H1) as H. destruct (grow_by_count_and_type n o s1) as [s2 [j|e|]]; destruct H; done.
Qed.

(** ** Picking *)

Lemma pick_ok count o s : master_ok o s ->
  match pick_for_write count o s with
  | (s', Ok (fid, n, r)) => n = count /\ tp_tree s' = tp_tree s
      /\ option_layout_of o s' = option_layout_of o s
      /\ volume_id fid ∈ vl_writable (option_layout_of o s)
      /\ exists others, Layout.lookup (volume_id fid) (option_layout_of o s) = Some (r :: others)
           /\ Replica.copy_count o.(go_replica_placement) <= len (r :: others)
           /\ NoDup (map (dn_addr (tp_tree s)) (r :: others))
           /\ (o.(go_data_center) <> "" -> exists x, x ∈ r :: others /\ Layout.node_matches o (tp_tree s) x = true)
  | (_, Err e) => e = VString \/ e = VNoWritableVolumes
  | (_, Panic) => False
  end.
Proof.
  intros Hm. unfold pick_for_write. destruct (Sequencer.next_file_id count (tp_sequencer s)) as [q id] eqn:Eq.
  assert (Hid : id <> Panic).
  { destruct (tp_sequencer s) as [c|f]; cbn in Eq; [by injection Eq as <- <-|].
    destruct (flake_next_id f) as [f' [i|]]; by injection Eq as <- <-. }
  destruct id as [key|e|]; [|by left|done].
  assert (Hs : option_layout_of o (set_sequencer q s) = option_layout_of o s).
  { unfold option_layout_of, layout_of, get_volume_layout. cbn. by destruct Coll.get_or_create_volume_layout. }
  destruct (option_layout_same o (set_sequencer q s)) as (L1 & L2 & L3).
  destruct (option_layout o (set_sequencer q s)) as [s1 vl]. cbn [fst snd] in *. subst vl. rewrite Hs in *.
  cbn [set_sequencer tp_tree] in L1. rewrite L1.
  pose proof (pick_for_write_lemma o (tp_tree s) (option_layout_of o s) (tp_rng s1) (mo_layout _ _ Hm)) as Hp.
  unfold mbind' at 1, with_rng at 1.
  destruct (Layout.pick_for_write o (tp_tree s) (option_layout_of o s) (tp_rng s1)) as [g [[vid nodes]|e|]];
    cbn [snd] in Hp; [|by destruct Hp as [-> _]; right|done].
  destruct Hp as (_ & Hw & Hl & Hc & Hn & Hdc). rewrite (mo_rp _ _ Hm) in Hc.
  pose proof (Replica.copy_count_digits _ (mo_digits _ _ Hm)) as Hcc. destruct (mo_digits _ _ Hm) as (? & ? & ?).
  destruct nodes as [|r others]; [rewrite len_nil in Hc; lia|].
  unfold mbind' at 1, mlift. cbn [list_lookup lookup unwrap].
  unfold mbind', with_rng. cbn [tp_rng set_rng].
  destruct (gen_range_spec (E := VolumeError) (2 ^ 32) g) as (h & g' & Eg & Hh); [done|]. rewrite Eg. cbn [mret].
  split; [done|]. split; [cbn; exact L1|]. split; [|split; [done|]].
  - unfold option_layout_of in *. rewrite !layout_set_rng. exact L2.
  - by exists others.
Qed.

Lemma has_writable_ok o s : master_ok o s ->
  master_ok o (has_writable_volume o s).1.
Proof.
  intros Hm. unfold has_writable_volume. destruct (option_layout_same o s) as (L1 & L2 & L3).
  destruct (option_layout o s) as [s1 vl]. by apply (master_ok_same o s).
Qed.

End assign.

Lemma from_str_radix_total radix bound s : from_str_radix radix bound s <> Panic.
Proof.
  unfold from_str_radix. assert (H : forall l acc, digits_value radix bound acc l <> Panic).
  { induction l as [|c l IH]; intros acc; cbn [digits_value]; [done|]. destruct (to_digit radix c); [|done].
    repeat case_match; try done. }
  repeat (case_match; try done).
Qed.

Lemma volume_grow_option_total dflt request : volume_grow_option dflt request <> Panic.
Proof.
  unfold volume_grow_option. set (rs := match ar_replication request with Some _ => _ | None => _ end).
  assert (Hr : Replica.new rs <> Panic) by (unfold Replica.new; repeat (case_match; try done)).
  destruct (Replica.new rs) as [rp|e|]; cbn [map_err obind]; [|done..].
  destruct (ar_ttl request) as [x|]; [|done]. assert (Ht : Ttl.new x <> Panic).
  { unfold Ttl.new, Ttl.parse_ttl. case_bool_decide; [done|].
    destruct (Ttl.span_digits (chars x)) as [[|d ds] rest]; [done|]. set (w := match rest with [] => _ | _ => _ end).
    pose proof (from_str_radix_total 10 (2 ^ 32) (String.string_of_list_ascii (d :: ds))) as Hp.
    unfold parse_u32. by destruct (from_str_radix _ _ _). }
  by destruct (Ttl.new x).
Qed.

(** C10: in a well-formed master ([master_ok]: the tree of nodes is consistent, the
    layout of the request satisfies its invariant, and its placement has single
    digits), whatever the volume servers answer, [assign_handler] never panics, and what
    it hands out is a file id in a volume that is writable in the layout of the
    request, has as many replicas as the placement asks for, on different
    servers, the first of which is the node of the answer; a requested data
    center has one of them. *)
Theorem assign_hands_out : forall (R : Rng) (F : Flake) (P : Rpc) default_replication request s,
  (forall o, volume_grow_option default_replication request = Ok o -> master_ok o s) ->
  match assign_handler default_replication request s with
  | (s', Ok a) => exists o fid r others,
      volume_grow_option default_replication request = Ok o
      /\ a = Assignment (FileId.fmt fid) (url r (tp_tree s')) (public_url r (tp_tree s'))
               (match ar_count request with Some n => Z.max 1 n | None => 1 end)
      /\ volume_id fid ∈ vl_writable (option_layout_of o s')
      /\ Layout.lookup (volume_id fid) (option_layout_of o s') = Some (r :: others)
      /\ Replica.copy_count o.(go_replica_placement) <= len (r :: others)
      /\ NoDup (map (dn_addr (tp_tree s')) (r :: others))
      /\ (o.(go_data_center) <> "" -> exists x, x ∈ r :: others /\ Layout.node_matches o (tp_tree s') x = true)
  | (_, Err _) => True
  | (_, Panic) => False
  end.
Proof.
  intros R F P dflt request s Hm. unfold assign_handler. unfold mbind' at 1, mlift at 1.
  destruct (volume_grow_option dflt request) as [o|e|] eqn:Eo; [|done|].
  2:{ by apply volume_grow_option_total in Eo. }
  specialize (Hm o eq_refl). pose proof (has_writable_ok o s Hm) as Hm1.
  unfold mbind' at 1. destruct (has_writable_volume o s) as [s1 w]. cbn [fst] in Hm1.
  set (grown := if w then _ else _ : M topology VolumeError unit).
  assert (Hg : let '(s2, r) := grown s1 in master_ok o s2 /\ r <> Panic).
  { unfold grown. destruct w; [done|]. unfold mbind' at 1, mget. unfold mbind' at 1, mlift.
    destruct (mo_root _ _ Hm1) as (tn & Et & _). rewrite Et. cbn [unwrap]. destruct (free_space tn <=? 0); [done|].
    unfold mbind', grow_by_type.
    pose proof (grow_by_count_ok (Z.to_nat (Grow.find_volume_count (Replica.copy_count (go_replica_placement o)))) o s1 Hm1) as H.
    destruct (grow_by_count_and_type _ o s1) as [s2 [k|e|]]; destruct H; done. }
  unfold mbind' at 1. destruct (grown s1) as [s2 [[]|e|]]; destruct Hg as [Hm2 Hg]; [|done..].
  set (count := match ar_count request with Some n => if 1 <? n then n else 1 | None => 1 end).
  pose proof (pick_ok count o s2 Hm2) as Hp. unfold mbind' at 1.
  destruct (pick_for_write count o s2) as [s3 [[[fid n] r]|e|]]; [|done..].
  destruct Hp as (-> & Ht & Hl & Hw & others & H1 & H2 & H3 & H4). unfold mbind', mget. cbn [mret].
  exists o, fid, r, others. rewrite Ht, Hl. split; [done|]. split; [|done]. f_equal. unfold count.
  destruct (ar_count request) as [k|]; [|done]. destruct (Z.ltb_spec 1 k); lia.
Qed.

#[local] Existing Instance list_rng.
#[local] Existing Instance no_flake.
#[local] Existing Instance willing.

Definition sample_request : assign_request :=
  AssignRequest (Some 3) (Some "010") None None (Some "pics") (Some "dc") (Some "r2") None.

Lemma sample_master_ok : master_ok sample_option sample_master.
Proof.
  destruct sample_master_ready as [H1 H2 _ _ H5 H6 H7 _ _].
  constructor; [exact H1|exact H2|exact H5|exact H6|exact H7].
Qed.

(** After one volume was grown, three keys are handed out for it. *)
Lemma assign_hands_out_witness :
  let s := (find_and_grow sample_option sample_master).1 in
  let '(s', r) := assign_handler "000" sample_request s in
  r = Ok (Assignment "1,100000000" "10.0.0.2:80" "n2" 3)
  /\ exists vid r' others, vid ∈ vl_writable (option_layout_of sample_option s')
     /\ Layout.lookup vid (option_layout_of sample_option s') = Some (r' :: others) /\ 2 <= len (r' :: others).
Proof.
  intros s.
  assert (E : (assign_handler "000" sample_request s).2 = Ok (Assignment "1,100000000" "10.0.0.2:80" "n2" 3))
    by (vm_compute; reflexivity).
  pose proof (assign_hands_out list_rng no_flake willing "000" sample_request s) as H.
  destruct (assign_handler "000" sample_request s) as [s' r]. cbn [snd] in E. subst r. split; [reflexivity|].
  destruct H as (o & fid & r & others & Eo & _ & H1 & H2 & H3 & _).
  - intros o [= <-]. pose proof (find_and_grow_ok sample_option sample_master sample_master_ok) as H.
    subst s. destruct (find_and_grow sample_option sample_master) as [s1 r1]. exact (proj1 H).
  - injection Eo as <-. exists (volume_id fid), r, others. split; [exact H1|]. split; [exact H2|exact H3].
Defined.

(** ** Lookups of volume servers *)

(** A decimal number is not a file id. *)
Lemma parse_vid_fid_number v : in_u32 v -> Parser.parse_vid_fid (chars (fmt_dec v)) = None.
Proof.
  intros Hv. unfold Parser.parse_vid_fid, fmt_dec. rewrite chars_fmt_digits.
  assert (Hd : Forall (fun c => Nom.is_dec_digit c = true) (map from_digit (digits 10 64 v))).
  { apply List.Forall_map. eapply Forall_impl; [apply digits_range; int_solve|]. intros d Hd. by apply Nom.digit_is_dec_digit. }
  assert (Hs := Nom.span_app Nom.is_dec_digit _ [] Hd I). rewrite app_nil_r in Hs.
  unfold Nom.digit1, Nom.span1. rewrite Hs. by destruct (map from_digit (digits 10 64 v)).
Qed.

(** What [Looker] asks is not what [lookup_volume] accepts. *)
Lemma looker_fails {R : Rng} {F : Flake} {P : Rpc} s collection vids c : Forall in_u32 vids ->
  looker_lookup (fun ids => lookup_volume collection ids s) vids c = (c, Err InvalidArgument).
Proof.
  intros Hv. unfold looker_lookup, lookup_volume.
  assert (Hm : Forall in_u32 (filter (fun vid => c !! vid = None) vids)).
  { apply Forall_forall. intros v [_ Hin]%list_elem_of_filter. by apply (proj1 (Forall_forall _ _) Hv). }
  destruct (filter (fun vid => c !! vid = None) vids) as [|v missing]; [done|].
  apply Forall_cons in Hm as [Hv0 _]. cbn [map is_nil lookup_volumes]. by rewrite parse_vid_fid_number.
Qed.

(** A volume server cannot look up where a volume is: [Looker] asks the master
    for plain volume ids, which [lookup_volume] does not accept, so the answer is
    an error for every request and every state of the master, and nothing is
    cached. *)
Theorem looker_never_answers : forall (R : Rng) (F : Flake) (P : Rpc) s collection vids c,
  Forall in_u32 vids ->
  looker_lookup (fun ids => lookup_volume collection ids s) vids c = (c, Err InvalidArgument).
Proof. intros R F P s collection vids c. apply looker_fails. Qed.

Lemma looker_never_answers_witness :
  looker_lookup (fun ids => lookup_volume "" ids sample_loaded) [3] ∅ = (∅, Err InvalidArgument).
Proof.
  apply (looker_never_answers list_rng no_flake willing sample_loaded "" [3] ∅).
  constructor; [split; [discriminate|reflexivity]|constructor].
Defined.
