(* ===== verification/MasterFacts.v ===== *)
(** * The master as a state machine

    Every request, heartbeat and committed raft entry that reaches the tree of
    the topology, one after the other, and what holds of the tree after any
    sequence of them. *)

From S2P Require Import Prelude Messages Types Text Ttl Replica Errors Fid Files Fs Needle NeedleMap Volume.
From S2P Require Import ShardBits Node NodeFacts Rand VolumeLayout VolumeGrow VolumeGrowFacts EcShards Sequence Topology TopologyFacts.
From S2P Require Import Raft Directory DirectoryFacts.
#[local] Open Scope string_scope.
#[local] Open Scope list_scope.
#[local] Open Scope Z_scope.

(** ** What an operation leaves alone *)

(** A part of the nodes that is the same in both trees. *)
Definition frame {A} (proj : node -> A) (t t' : tree) : Prop :=
  forall x, proj <$> get_node t' x = proj <$> get_node t x.

Section frames.
Context {A : Type} (proj : node -> A).

#[export] Instance frame_preorder : PreOrder (frame proj).
Proof. split; [by intros t x|]. intros t1 t2 t3 H1 H2 x. by rewrite H2, H1. Qed.

Lemma frame_upd r f t : (forall nd, proj (f nd) = proj nd) -> frame proj t (upd r f t).
Proof. intros Hf x. rewrite get_upd. case_decide; [|done]. destruct (get_node t x); [|done]. cbn. by rewrite Hf. Qed.

Lemma frame_adjust c d r t : (forall nd, proj (add_count c d nd) = proj nd) -> frame proj t (adjust c d r t).
Proof.
  intros Hf. unfold adjust. generalize MAX_DEPTH as fuel. intros fuel. revert r t.
  induction fuel as [|fuel IH]; intros r t; cbn [adjust_up]; [done|].
  destruct (get_node t r) as [nd|]; [|done]. destruct (nd_parent nd); [|by apply frame_upd].
  etransitivity; [by apply frame_upd|apply IH].
Qed.

Lemma frame_max vid r t : (forall nd, proj (with_max_volume_id vid nd) = proj nd) ->
  frame proj t (adjust_max_volume_id vid r t).
Proof.
  intros Hf. unfold adjust_max_volume_id. generalize MAX_DEPTH as fuel. intros fuel. revert r t.
  induction fuel as [|fuel IH]; intros r t; cbn [adjust_max_id_up]; [done|].
  destruct (get_node t r) as [nd|]; [|done]. destruct (_ <? vid); [|done].
  destruct (nd_parent nd); [|by apply frame_upd]. etransitivity; [by apply frame_upd|apply IH].
Qed.

Lemma frame_get t t' x nd : frame proj t t' -> get_node t x = Some nd ->
  exists nd', get_node t' x = Some nd' /\ proj nd' = proj nd.
Proof.
  intros Hf Hx. specialize (Hf x). rewrite Hx in Hf. destruct (get_node t' x) as [nd'|]; [|done].
  exists nd'. split; [done|]. by injection Hf.
Qed.

(** The walks of [link_child_node] before the node is attached. *)
Lemma frame_counts cn p t : (forall c d nd, proj (add_count c d nd) = proj nd) ->
  (forall v nd, proj (with_max_volume_id v nd) = proj nd) ->
  frame proj t (adjust_active_volume_count (cnt CActive cn) p (adjust_ec_shard_count (cnt CEcShard cn) p
    (adjust_volume_count (cnt CVolume cn) p (adjust_max_volume_id (nd_max_volume_id cn) p
      (adjust_max_volume_count (cnt CMax cn) p t))))).
Proof.
  intros Ha Hm. unfold adjust_active_volume_count, adjust_ec_shard_count, adjust_volume_count, adjust_max_volume_count.
  repeat first [apply frame_adjust; intros; by apply Ha|apply frame_max; intros; by apply Hm
               |etransitivity; [|first [apply frame_adjust; intros; by apply Ha|apply frame_max; intros; by apply Hm]]].
Qed.
End frames.

(** A node's place in the tree, and its own data. *)
Definition links (nd : node) : string * option nref * list (string * nref) := (nd.(nd_id), nd.(nd_parent), nd.(nd_children)).
Definition core (nd : node) : string * node_type := (nd.(nd_id), nd.(nd_type)).

(** ** Linking *)

Lemma link_frame p c t : frame core t (link_child_node p c t).
Proof.
  unfold link_child_node. destruct (get_node t p) as [pn|]; [|done]. destruct (get_node t c) as [cn|]; [|done].
  destruct (find_child _ _); [done|].
  etransitivity; [by apply (frame_counts core cn p)|]. etransitivity; by apply frame_upd.
Qed.

Lemma unlink_frame p id t : frame core t (unlink_child_node p id t).
Proof.
  unfold unlink_child_node. destruct (get_node t p) as [pn|]; [|done]. destruct (find_child _ _) as [c|]; [|done].
  destruct (get_node t c) as [cn|]; [|done]. cbv zeta.
  unfold adjust_active_volume_count, adjust_ec_shard_count, adjust_volume_count, adjust_max_volume_count.
  do 4 (etransitivity; [|by apply frame_adjust]). etransitivity; by apply frame_upd.
Qed.

Lemma set_parent_id c p t : parent_of c t = Some p -> upd c (with_parent (Some p)) t = t.
Proof.
  unfold parent_of, get_node, upd. intros H. destruct t as [n m]. cbn in *. f_equal.
  apply alter_id. intros nd Hnd. rewrite Hnd in H. cbn in H. destruct nd. cbn in *. by subst.
Qed.

(** ** Trees of a master *)

Record good (t : tree) : Prop := { gd_tree : tree_ok t; gd_root : has_level t TOPO 3 }.

(** A change after which the tree is still good and nothing has gone away. *)
Definition evolves (t t' : tree) : Prop := good t' /\ forall x l, has_level t x l -> has_level t' x l.

Lemma evolves_refl t : good t -> evolves t t.
Proof. done. Qed.
Lemma evolves_trans t1 t2 t3 : evolves t1 t2 -> evolves t2 t3 -> evolves t1 t3.
Proof. intros [_ H1] [H2 H3]. split; [done|]. auto. Qed.

Lemma is_dn_level t r : is_dn t r <-> has_level t r 0.
Proof. split; intros (nd & Hr & Hd); exists nd; by rewrite level_data_node in *. Qed.
Lemma evolves_dn t t' r : evolves t t' -> is_dn t r -> is_dn t' r.
Proof. intros [_ H]. rewrite !is_dn_level. auto. Qed.

Lemma frame_levels t t' : frame level t t' -> forall x l, has_level t x l -> has_level t' x l.
Proof. intros Hf x l (nd & Hx & <-). destruct (frame_get level t t' x nd Hf Hx) as (nd' & Hx' & E). by exists nd'. Qed.

Lemma evolves_frame t t' : good t -> tree_ok t' -> frame level t t' -> evolves t t'.
Proof.
  intros [_ Hr] Ht Hf. pose proof (frame_levels t t' Hf) as Hl. split; [|done]. split; [done|]. by apply Hl.
Qed.

Lemma core_level t t' : frame core t t' -> frame level t t'.
Proof.
  intros H x. specialize (H x). destruct (get_node t' x), (get_node t x); try done. cbn in *. unfold core, level in *.
  by injection H as _ ->.
Qed.

(** A sequence of changes on one data node. *)
Lemma evolves_fold {A} (f : tree -> A -> tree) r l : (forall t x, good t -> is_dn t r -> evolves t (f t x)) ->
  forall t, good t -> is_dn t r -> evolves t (fold_left f l t).
Proof.
  intros Hf. induction l as [|x l IH]; intros t Hg Hd; cbn [fold_left]; [by apply evolves_refl|].
  pose proof (Hf t x Hg Hd) as He. eapply evolves_trans; [exact He|].
  apply IH; [apply He|by eapply evolves_dn].
Qed.

(** ** The operations on one data node *)

(** An update of the data of nodes that keeps everything else. *)
Lemma upd_data_ok r f t : keeps_shape f ->
  (forall nd, nd_counts (f nd) = nd_counts nd /\ nd_max_volume_id (f nd) = nd_max_volume_id nd) ->
  tree_ok t -> tree_ok (upd r f t).
Proof.
  intros Hk Hc [H1 H2 H3]. split.
  - auto with helyim.
  - intros k. apply gsums_upd; [done| |apply H2]. intros nd. unfold cnt. by rewrite (proj1 (Hc nd)).
  - intros c cn p pn (cn0 & E1 & ->)%get_upd_Some Hp (pn0 & E2 & ->)%get_upd_Some.
    assert (nd_max_volume_id cn0 <= nd_max_volume_id pn0).
    { apply (H3 c cn0 p pn0); [done| |done]. case_decide; [|done]. destruct (Hk cn0) as (_ & _ & E & _). by rewrite <- E. }
    repeat case_decide; rewrite ?(proj2 (Hc _)); done.
Qed.

Lemma keeps_shards m : keeps_shape (set_shards m).
Proof. intros nd. unfold set_shards, level. destruct (nd_type nd) eqn:E; cbn; by rewrite ?E. Qed.

Lemma shards_evolve m r t : good t -> evolves t (upd r (set_shards m) t).
Proof.
  intros Hg. apply evolves_frame; [done| |].
  - apply upd_data_ok; [apply keeps_shards| |apply Hg]. intros nd. unfold set_shards. by destruct (nd_type nd).
  - apply frame_upd. intros nd. apply keeps_shards.
Qed.

Lemma volumes_evolve vs r t : good t -> evolves t (upd r (set_volumes vs) t).
Proof.
  intros Hg. apply evolves_frame; [done|apply set_volumes_ok, Hg|]. apply frame_upd. intros nd. apply keeps_volumes.
Qed.

Lemma adjust_evolve c d r t : good t -> is_dn t r -> evolves t (adjust c d r t).
Proof. intros Hg Hd. apply evolves_frame; [done|by apply adjust_dn; [apply Hg|]|by apply frame_adjust]. Qed.

Lemma add_volume_evolve r v t : good t -> is_dn t r -> evolves t (add_or_update_volume r v t).1.
Proof.
  intros Hg Hd. apply evolves_frame; [done|apply add_volume_ok; [apply Hg|done]|].
  unfold add_or_update_volume. destruct (volumes_of r t !! vi_id v); cbn [fst].
  - apply frame_upd. intros nd. apply keeps_volumes.
  - etransitivity; [|apply frame_upd; intros nd; apply keeps_volumes]. etransitivity; [|by apply frame_max].
    destruct (vi_read_only v); [by apply frame_adjust|]. etransitivity; by apply frame_adjust.
Qed.

Lemma drop_volume_evolve r id ro t : good t -> is_dn t r -> evolves t (drop_volume r id ro t).
Proof.
  intros Hg Hd. apply evolves_frame; [done|apply drop_volume_ok; [apply Hg|done]|].
  unfold drop_volume. etransitivity; [apply (frame_upd level r (set_volumes (delete id (volumes_of r t))));
    intros nd; apply keeps_volumes|].
  destruct ro; [by apply frame_adjust|]. etransitivity; by apply frame_adjust.
Qed.

Lemma delta_update_evolve r news dels t : good t -> is_dn t r -> evolves t (delta_update_volumes r news dels t).
Proof.
  intros Hg Hd. unfold delta_update_volumes. set (t1 := fold_left _ dels t).
  assert (H1 : evolves t t1).
  { apply evolves_fold with r; [|done..]. intros t0 v H0 H0'. destruct (volumes_of r t0 !! vi_id v);
    [by apply drop_volume_evolve|by apply evolves_refl]. }
  eapply evolves_trans; [exact H1|]. apply evolves_fold with r; [|apply H1|by eapply evolves_dn].
  intros t0 v H0 H0'. by apply add_volume_evolve.
Qed.

Lemma update_volumes_evolve order r infos t : good t -> is_dn t r -> evolves t (update_volumes order r infos t).1.
Proof.
  intros Hg Hd. unfold update_volumes. set (ids := filter _ _). clearbody ids.
  assert (H1 : forall infos t acc, good t -> is_dn t r ->
    evolves t (fold_left (fun '(t, acc) v => let '(t', is_new) := add_or_update_volume r v t in
                                  (t', if is_new then acc ++ [v] else acc)) infos (t, acc)).1).
  { clear. induction infos as [|v infos IH]; intros t acc Hg Hd; cbn [fold_left]; [by apply evolves_refl|].
    pose proof (add_volume_evolve r v t Hg Hd) as He. destruct (add_or_update_volume r v t) as [t1 b]. cbn [fst] in He.
    eapply evolves_trans; [exact He|]. apply IH; [apply He|by eapply evolves_dn]. }
  specialize (H1 infos t [] Hg Hd). destruct (fold_left _ infos (t, [])) as [t1 news]. cbn [fst] in H1.
  assert (H2 : forall ids t acc, good t -> is_dn t r ->
    evolves t (fold_left (fun '(t, acc) id => match volumes_of r t !! id with
                                   | Some v => (drop_volume r id v.(vi_read_only) t, acc ++ [v])
                                   | None => (t, acc)
                                   end) ids (t, acc)).1).
  { clear. induction ids as [|id ids IH]; intros t acc Hg Hd; cbn [fold_left]; [by apply evolves_refl|].
    destruct (volumes_of r t !! id) as [v|]; [|by apply IH].
    pose proof (drop_volume_evolve r id (vi_read_only v) t Hg Hd) as He.
    eapply evolves_trans; [exact He|]. apply IH; [apply He|by eapply evolves_dn]. }
  specialize (H2 ids t1 [] ltac:(apply H1) ltac:(by eapply evolves_dn)).
  destruct (fold_left _ ids (t1, [])) as [t2 dels]. cbn [fst] in *. by eapply evolves_trans.
Qed.

(** ** Shards *)

Lemma add_shards_evolve r v t h : good t -> is_dn t r -> evolves t (EcNode.add_or_update_ec_shards r v (t, h)).1.
Proof.
  intros Hg Hd. unfold EcNode.add_or_update_ec_shards.
  assert (K : forall m d, evolves t (adjust_ec_shard_count d r (upd r (set_shards m) t))).
  { intros m d. pose proof (shards_evolve m r t Hg) as He. eapply evolves_trans; [exact He|].
    apply adjust_evolve; [apply He|by eapply evolves_dn]. }
  destruct (shards_of r t !! _).
  - repeat case_match; apply K.
  - repeat case_match; apply K.
Qed.

Lemma delete_shard_evolve r v t h s : good t -> is_dn t r -> EcNode.delete_ec_shard r v (t, h) = Some s -> evolves t s.1.
Proof.
  intros Hg Hd. unfold EcNode.delete_ec_shard. destruct (shards_of r t !! _); [|intros [= <-]; by apply evolves_refl].
  repeat case_match; try done. intros [= <-]. cbn [fst].
  match goal with |- evolves t (adjust_ec_shard_count _ r (upd r (set_shards ?m) t)) => pose proof (shards_evolve m r t Hg) as He end.
  eapply evolves_trans; [exact He|]. apply adjust_evolve; [apply He|by eapply evolves_dn].
Qed.

Lemma delta_shards_evolve r news dels t h s : good t -> is_dn t r ->
  EcNode.delta_update_ec_shards r news dels (t, h) = Some s -> evolves t s.1.
Proof.
  intros Hg Hd. unfold EcNode.delta_update_ec_shards.
  assert (H1 : forall vs s, good s.1 -> is_dn s.1 r ->
    evolves s.1 (fold_left (fun s v => EcNode.add_or_update_ec_shards r v s) vs s).1).
  { clear. induction vs as [|v vs IH]; intros [t h] Hg Hd; cbn [fold_left]; [by apply evolves_refl|].
    pose proof (add_shards_evolve r v t h Hg Hd) as He. eapply evolves_trans; [exact He|].
    apply IH; [apply He|by eapply evolves_dn]. }
  specialize (H1 news (t, h) Hg Hd). cbn [fst] in H1. set (s1 := fold_left _ news _) in *. clearbody s1.
  assert (H2 : forall vs s s', good s.1 -> is_dn s.1 r ->
    fold_left (fun s v => s ≫= EcNode.delete_ec_shard r v) vs (Some s) = Some s' -> evolves s.1 s'.1).
  { clear. induction vs as [|v vs IH]; intros [t h] s' Hg Hd; cbn [fold_left mbind option_bind].
    { intros [= <-]. by apply evolves_refl. }
    destruct (EcNode.delete_ec_shard r v (t, h)) as [s2|] eqn:E.
    - pose proof (delete_shard_evolve r v t h s2 Hg Hd E) as He. intros H. eapply evolves_trans; [exact He|].
      apply (IH s2 s'); [apply He|by eapply evolves_dn|done].
    - intros H. exfalso. clear -H. induction vs; by cbn in H. }
  intros H. eapply evolves_trans; [exact H1|]. apply (H2 dels s1 s); [apply H1|by eapply evolves_dn|done].
Qed.

Lemma update_shards_evolve order r actual t h : good t -> is_dn t r ->
  evolves t (EcNode.update_ec_shards order r actual (t, h)).1.1.
Proof.
  intros Hg Hd. unfold EcNode.update_ec_shards.
  destruct (fold_left (EcNode.compare_known _) _ _) as [h1 a1]. destruct (fold_left (EcNode.compare_actual _) _ _) as [h2 a].
  destruct (_ && _); cbn [fst]; [by apply evolves_refl|].
  pose proof (shards_evolve (fold_left (fun m v => <[ev_volume_id v := v]> m) actual ∅) r t Hg) as He.
  eapply evolves_trans; [exact He|]. apply adjust_evolve; [apply He|by eapply evolves_dn].
Qed.

(** ** Finding and creating nodes *)

(** The child of a node with some id. *)
Definition child_named (t : tree) (p : nref) (id : string) : option nref :=
  get_node t p ≫= fun pn => find_child id pn.(nd_children).

Lemma link_parents p c t x : x <> c -> parent_of x (link_child_node p c t) = parent_of x t.
Proof.
  intros Hx. unfold link_child_node. destruct (get_node t p) as [pn|]; [|done]. destruct (get_node t c) as [cn|]; [|done].
  destruct (find_child _ _); [done|]. cbv zeta.
  pose proof (frame_counts nd_parent cn p t ltac:(done) ltac:(done) x) as Hp.
  set (t5 := adjust_active_volume_count _ _ _) in *.
  assert (E : nd_parent <$> get_node (upd p (fun nd => with_children (nd_children nd ++ [(nd_id cn, c)]) nd)
    (upd c (with_parent (Some p)) t5)) x = nd_parent <$> get_node t x).
  { rewrite get_upd, (get_upd c), (decide_False (P := c = x)) by done. rewrite <- Hp.
    case_decide; [|done]. by destruct (get_node t5 x). }
  unfold parent_of. destruct (get_node (upd p _ _) x), (get_node t x); try done. cbn in *. by injection E.
Qed.

(** [c] is the child [id] of [p] in [t'], found in [t] or new and without
    children; everything else is as in [t]. *)
Record found (t : tree) (p : nref) (id : string) (l : Z) (t' : tree) (c : nref) : Prop := {
  fo_evolves : evolves t t';
  fo_level : has_level t' c l;
  fo_parent : parent_of c t' = Some p;
  fo_child : (t' = t /\ child_named t p id = Some c)
             \/ (child_named t p id = None /\ get_node t c = None /\ (forall i, child_named t' c i = None)
                 /\ forall k, k <> CMax -> node_cnt k t' c = 0);
  fo_others : forall x, x <> c -> core <$> get_node t' x = core <$> get_node t x;
  fo_parents : forall x, x <> c -> parent_of x t' = parent_of x t;
  fo_volumes : forall x, volumes_of x t' = volumes_of x t;
}.

Arguments fo_evolves {_ _ _ _ _ _}.
Arguments fo_level {_ _ _ _ _ _}.
Arguments fo_parent {_ _ _ _ _ _}.
Arguments fo_child {_ _ _ _ _ _}.
Arguments fo_others {_ _ _ _ _ _}.
Arguments fo_parents {_ _ _ _ _ _}.
Arguments fo_volumes {_ _ _ _ _ _}.

Lemma fo_good {t p id l t' c} : found t p id l t' c -> good t'.
Proof. intros H. apply (fo_evolves H). Qed.

Lemma find_found t p pn id c : good t -> get_node t p = Some pn -> find_child id pn.(nd_children) = Some c ->
  found t p id (level pn - 1) t c.
Proof.
  intros Hg Hp Hf. apply find_child_In in Hf as Hin.
  destruct (sh_child t (ok_shape t (gd_tree t Hg)) p pn id c Hp Hin) as (cn & Hc & Hcp & _ & Hl).
  split; [by apply evolves_refl|exists cn; split; [done|lia]|by unfold parent_of; rewrite Hc|left|done..].
  split; [done|]. unfold child_named. by rewrite Hp.
Qed.

Lemma create_found t p pn nd : good t -> get_node t p = Some pn -> find_child nd.(nd_id) pn.(nd_children) = None ->
  nd.(nd_parent) = None -> nd.(nd_children) = [] -> (forall k, k <> CMax -> cnt k nd = 0) ->
  (is_data_node nd = false -> cnt CMax nd = 0) ->
  (forall d, nd.(nd_type) = TDataNode d -> dn_volumes d = ∅) -> level pn = level nd + 1 ->
  let '(t1, c) := alloc nd t in found t p nd.(nd_id) (level nd) (link_child_node p c t1) c.
Proof.
  intros Hg Hp Hf H1 H2 H3 H3' H4 Hl.
  assert (H0 : forall c, is_data_node nd = false -> cnt c nd = 0).
  { intros c Hd. destruct (decide (c = CMax)) as [->|]; [by apply H3'|by apply H3]. }
  pose proof (alloc_ok nd t (gd_tree t Hg) H1 H2 H0) as Ha. pose proof (create_ok p pn nd t (gd_tree t Hg) Hp H1 H2 H0 Hl) as Hok.
  destruct (alloc nd t) as [t1 c] eqn:E. destruct Ha as (A1 & A2 & A3).
  assert (Hn : get_node t c = None).
  { destruct (get_node t c) as [x|] eqn:Ex; [|done]. apply (sh_next t (ok_shape t (gd_tree t Hg))) in Ex.
    injection E as _ <-. lia. }
  assert (Hpc : p <> c) by (intros ->; congruence). assert (Hp1 : get_node t1 p = Some pn) by by rewrite A3.
  pose proof (link_get p c pn nd t1 A1 Hp1 A2 ltac:(lia) Hf) as Hc. pose proof (link_frame p c t1) as Hk.
  set (t' := link_child_node p c t1) in *.
  assert (Ho : forall x, x <> c -> core <$> get_node t' x = core <$> get_node t x) by (intros x Hx; by rewrite Hk, A3).
  assert (Hlev : forall x l, has_level t x l -> has_level t' x l).
  { intros x l (xn & Hx & <-). assert (x <> c) by congruence. specialize (Ho x ltac:(done)). rewrite Hx in Ho.
    destruct (get_node t' x) as [xn'|] eqn:Ex; [|done]. exists xn'. split; [done|]. cbn in Ho. unfold core in Ho.
    injection Ho as _ Ho. unfold level. by rewrite Ho. }
  split.
  - split; [split; [done|apply Hlev, Hg]|done].
  - eexists. by split.
  - unfold parent_of. by rewrite Hc.
  - right. unfold child_named, node_cnt. rewrite Hp, Hc. cbn [mbind option_bind]. repeat split; [done|done| |].
    + intros i. cbn. by rewrite H2.
    + intros k Hne. by apply H3.
  - done.
  - intros x Hx. unfold t'. rewrite link_parents by done. unfold parent_of. by rewrite A3.
  - intros x. destruct (decide (x = c)) as [->|Hx].
    + unfold volumes_of. rewrite Hc, Hn. cbn. destruct (nd_type nd) eqn:Et; [done..|]. by apply H4.
    + unfold volumes_of. specialize (Ho x Hx). destruct (get_node t' x), (get_node t x); try done.
      cbn in Ho. unfold core in Ho. by injection Ho as _ ->.
Qed.

(** The three functions that find or create. *)
Lemma data_center_found id t : good t -> exists t' c,
  get_or_create_data_center TOPO id t = (t', Ok c) /\ found t TOPO id 2 t' c.
Proof.
  intros Hg. destruct (gd_root t Hg) as (pn & Hp & Hl). unfold get_or_create_data_center. rewrite Hp.
  destruct (find_child id (nd_children pn)) as [c|] eqn:Ef.
  - pose proof (find_found t TOPO pn id c Hg Hp Ef) as Hf. rewrite Hl in Hf. destruct (fo_level Hf) as (cn & -> & Hc).
    exists t, c. split; [|done]. unfold level in Hc. by destruct (nd_type cn).
  - pose proof (create_found t TOPO pn (node_new id TDataCenter) Hg Hp Ef eq_refl eq_refl) as Hf.
    destruct (alloc (node_new id TDataCenter) t) as [t1 c]. eexists _, c. split; [done|].
    apply Hf; [by intros []|done|done|done].
Qed.

Lemma rack_found dc id t : good t -> has_level t dc 2 -> exists t' c,
  get_or_create_rack dc id t = (t', Ok c) /\ found t dc id 1 t' c.
Proof.
  intros Hg (pn & Hp & Hl). unfold get_or_create_rack. rewrite Hp.
  destruct (find_child id (nd_children pn)) as [c|] eqn:Ef.
  - pose proof (find_found t dc pn id c Hg Hp Ef) as Hf. rewrite Hl in Hf. destruct (fo_level Hf) as (cn & -> & Hc).
    exists t, c. split; [|done]. unfold level in Hc. by destruct (nd_type cn).
  - pose proof (create_found t dc pn (node_new id TRack) Hg Hp Ef eq_refl eq_refl) as Hf.
    destruct (alloc (node_new id TRack) t) as [t1 c]. eexists _, c. split; [done|].
    apply Hf; [by intros []|done|done|done].
Qed.

Lemma data_node_found rack id ip port url max t : good t -> has_level t rack 1 -> exists t' c,
  get_or_create_data_node rack id ip port url max t = (t', Ok c) /\ found t rack id 0 t' c.
Proof.
  intros Hg (pn & Hp & Hl). unfold get_or_create_data_node. rewrite Hp.
  destruct (find_child id (nd_children pn)) as [c|] eqn:Ef.
  - pose proof (find_found t rack pn id c Hg Hp Ef) as Hf. rewrite Hl in Hf. destruct (fo_level Hf) as (cn & -> & Hc).
    exists t, c. split; [|done]. apply level_data_node in Hc. by rewrite Hc.
  - pose proof (create_found t rack pn (data_node_new id ip port url max) Hg Hp Ef eq_refl eq_refl) as Hf.
    destruct (alloc (data_node_new id ip port url max) t) as [t1 c]. eexists _, c. split; [done|].
    apply Hf; [by intros []|done|by intros d [= <-]|done].
Qed.

(** ** Handlers *)

Section handlers.
Context {R : Rng} {F : Flake} {P : Rpc}.

Lemma on_tree_bind {A B} (f : tree -> tree * outcome VolumeError A) (k : A -> M topology VolumeError B) s t a :
  f (tp_tree s) = (t, Ok a) -> mbind' (on_tree f) k s = k a (set_tree t s).
Proof. intros E. unfold mbind', on_tree. by rewrite E. Qed.

Lemma set_parent_bind {B} r p (k : unit -> M topology VolumeError B) s : parent_of r (tp_tree s) = Some p ->
  mbind' (set_parent r p) k s = k tt (set_tree (tp_tree s) s).
Proof. intros E. unfold mbind', set_parent, mmodify. by rewrite set_parent_id. Qed.

(** The data node of a new connection: it is in the tree, the master has the
    volumes it had, and for a node it did not know it has none. *)
Lemma update_topology_found hb ip s : good (tp_tree s) ->
  exists s' dn rack, update_topology hb ip s = (s', Ok dn) /\ evolves (tp_tree s) (tp_tree s')
    /\ is_dn (tp_tree s') dn /\ parent_of dn (tp_tree s') = Some rack
    /\ (forall x, volumes_of x (tp_tree s') = volumes_of x (tp_tree s))
    /\ (tp_tree s' = tp_tree s \/ (get_node (tp_tree s) dn = None /\ node_cnt CVolume (tp_tree s') dn = 0))
    /\ tp_ec_shards s' = tp_ec_shards s.
Proof.
  intros Hg. unfold update_topology. set (s0 := set_max_sequence (hb_max_file_key hb) s).
  change (tp_tree s) with (tp_tree s0) in *. change (tp_ec_shards s) with (tp_ec_shards s0).
  destruct (data_center_found (get_or_default (hb_data_center hb)) (tp_tree s0) Hg) as (t1 & dc & E1 & F1).
  destruct (rack_found dc (get_or_default (hb_rack hb)) t1) as (t2 & rack & E2 & F2); [apply (fo_good F1)|apply (fo_level F1)|].
  set (node_ip := if is_empty (hb_ip hb) then ip else hb_ip hb). set (addr := (node_ip ++ ":" ++ fmt_dec (hb_port hb))%string).
  destruct (data_node_found rack addr node_ip (u16 (hb_port hb)) (hb_public_url hb) (hb_max_volume_count hb) t2)
    as (t3 & dn & E3 & F3); [apply (fo_good F2)|apply (fo_level F2)|].
  exists (set_tree t3 (set_tree t3 (set_tree t2 (set_tree t2 (set_tree t1 (set_tree t1 s0)))))), dn, rack. split.
  { etransitivity; [apply (on_tree_bind _ _ s0 t1 dc E1)|]. cbv beta. rewrite set_parent_bind by apply (fo_parent F1).
    rewrite (on_tree_bind _ _ (set_tree t1 (set_tree t1 s0)) t2 rack E2), set_parent_bind by apply (fo_parent F2).
    rewrite (on_tree_bind _ _ (set_tree t2 (set_tree t2 (set_tree t1 (set_tree t1 s0)))) t3 dn E3), set_parent_bind by apply (fo_parent F3).
    done. }
  cbn [tp_tree set_tree tp_ec_shards].
  assert (He : evolves (tp_tree s0) t2) by (eapply evolves_trans; [apply (fo_evolves F1)|apply (fo_evolves F2)]).
  split; [eapply evolves_trans; [exact He|apply (fo_evolves F3)]|]. split; [apply is_dn_level, (fo_level F3)|].
  split; [apply (fo_parent F3)|].
  split; [intros x; by rewrite (fo_volumes F3), (fo_volumes F2), (fo_volumes F1)|].
  split; [|done]. destruct (fo_child F3) as [[-> Hc3]|(_ & Hn & _ & Hk)].
  - left. destruct (fo_child F2) as [[-> Hc2]|(_ & _ & Hc2 & _)]; [|by rewrite Hc2 in Hc3].
    destruct (fo_child F1) as [[-> _]|(_ & _ & Hc1 & _)]; [done|by rewrite Hc1 in Hc2].
  - right. split; [|by apply Hk]. destruct (get_node (tp_tree s0) dn) as [nd|] eqn:Ex; [|done].
    destruct (proj2 He dn (level nd)) as (nd' & Hd & _); [by exists nd|]. congruence.
Qed.

(** No other server has the id of [dn] where [register_data_node] would link it
    again. *)
Definition no_twin (dc_name rack_name : string) (dn : nref) (t : tree) : Prop :=
  parent_of dn t = None -> forall dc rack,
    child_named t TOPO dc_name = Some dc -> child_named t dc rack_name = Some rack ->
    child_named t rack (id_of (Some dn) t) = None.

Lemma register_data_node_evolve dc_name rack_name dn s : good (tp_tree s) -> is_dn (tp_tree s) dn ->
  no_twin dc_name rack_name dn (tp_tree s) ->
  evolves (tp_tree s) (tp_tree (register_data_node dc_name rack_name dn s).1).
Proof.
  intros Hg Hd Ht. unfold register_data_node. destruct (parent_of dn (tp_tree s)) eqn:Hp; [by apply evolves_refl|].
  destruct (data_center_found dc_name (tp_tree s) Hg) as (t1 & dc & E1 & F1). rewrite E1.
  destruct (rack_found dc rack_name t1) as (t2 & rack & E2 & F2); [apply (fo_good F1)|apply (fo_level F1)|]. rewrite E2. cbn [fst tp_tree set_tree].
  assert (He : evolves (tp_tree s) t2) by (eapply evolves_trans; [apply (fo_evolves F1)|apply (fo_evolves F2)]).
  assert (D1 : is_dn t1 dn) by (eapply evolves_dn; [apply (fo_evolves F1)|done]). assert (D2 : is_dn t2 dn) by (by eapply evolves_dn).
  assert (N : forall t c l, is_dn t dn -> has_level t c l -> l <> 0 -> dn <> c).
  { intros t c l (x & Hx & Hxd) (y & Hy & <-) Hl ->. apply level_data_node in Hxd. congruence. }
  pose proof (N _ _ _ D1 (fo_level F1) ltac:(done)) as N1.
  pose proof (N _ _ _ D2 (fo_level F2) ltac:(done)) as N2.
  destruct D2 as (nd & Hnd & Hdn). destruct (fo_level F2) as (rn & Hr & Hl).
  assert (Hpn : nd_parent nd = None).
  { pose proof (fo_parents F2 dn N2) as Q. rewrite (fo_parents F1 dn N1), Hp in Q.
    unfold parent_of in Q. by rewrite Hnd in Q. }
  assert (Hid : id_of (Some dn) (tp_tree s) = nd_id nd).
  { pose proof (fo_others F2 dn N2) as Q. rewrite (fo_others F1 dn N1), Hnd in Q.
    unfold id_of. cbn. destruct (get_node (tp_tree s) dn) as [x|]; [|done]. cbn in Q. unfold core in Q. by injection Q as ->. }
  assert (Hfree : find_child (nd_id nd) (nd_children rn) = None).
  { assert (Q : child_named t2 rack (nd_id nd) = None); [|unfold child_named in Q; by rewrite Hr in Q].
    destruct (fo_child F2) as [[-> Hc2]|(_ & _ & Hc2 & _)]; [|done].
    destruct (fo_child F1) as [[-> Hc1]|(_ & _ & Hc1 & _)]; [|by rewrite Hc1 in Hc2].
    rewrite <- Hid. by apply (Ht Hp dc rack). }
  apply level_data_node in Hdn. assert (Ht2 : good t2) by apply He.
  rewrite (set_parent_id dn rack).
  2:{ unfold parent_of. rewrite (link_get rack dn rn nd t2 (gd_tree _ Ht2) Hr Hnd ltac:(lia) Hfree). done. }
  eapply evolves_trans; [exact He|]. apply evolves_frame; [done| |apply core_level, link_frame].
  apply (link_ok rack dn rn nd); [apply Ht2|done..|lia].
Qed.
(** *** Reports *)

Lemma update_layout_frame name rp t f s :
  tp_tree (update_layout name rp t f s) = tp_tree s /\ tp_ec_shards (update_layout name rp t f s) = tp_ec_shards s.
Proof.
  split; [apply update_layout_spec|]. unfold update_layout, get_volume_layout.
  destruct (Coll.get_or_create_volume_layout _ _ _) as [c vl]. unfold put_layout. by destruct (assoc _ _).
Qed.

Lemma layouts_frame (f : volume_info -> topology -> topology) vs : forall s,
  (forall v s, tp_tree (f v s) = tp_tree s /\ tp_ec_shards (f v s) = tp_ec_shards s) ->
  tp_tree (fold_left (fun s v => f v s) vs s) = tp_tree s
  /\ tp_ec_shards (fold_left (fun s v => f v s) vs s) = tp_ec_shards s.
Proof.
  induction vs as [|v vs IH]; intros s Hf; cbn [fold_left]; [done|].
  destruct (IH (f v s) Hf) as [-> ->]. apply Hf.
Qed.

Lemma sync_registration_frame order volumes dn s :
  tp_tree (sync_data_node_registration order volumes dn s).1
    = (update_volumes order dn (omap volume_info_new volumes) (tp_tree s)).1
  /\ tp_ec_shards (sync_data_node_registration order volumes dn s).1 = tp_ec_shards s.
Proof.
  unfold sync_data_node_registration.
  destruct (update_volumes order dn _ (tp_tree s)) as [t [news dels]]. cbn [fst].
  destruct (layouts_frame (fun v s => register_volume_layout v dn s) news (set_tree t s)) as [H1 H2];
    [intros; apply update_layout_frame|].
  set (s1 := fold_left _ news _) in *.
  destruct (layouts_frame (fun v s => unregister_volume_layout v dn s) dels s1) as [H3 H4];
    [intros; apply update_layout_frame|]. by rewrite H3, H4, H1, H2.
Qed.

Lemma delta_registration_tree news dels dn s :
  tp_tree (incremental_sync_data_node_registration news dels dn s)
  = delta_update_volumes dn (omap volume_info_new_from_short news) (omap volume_info_new_from_short dels) (tp_tree s).
Proof.
  unfold incremental_sync_data_node_registration. set (s0 := set_tree _ s).
  destruct (layouts_frame (fun v s => unregister_volume_layout v dn s) (omap volume_info_new_from_short dels)
    (fold_left (fun s v => register_volume_layout v dn s) (omap volume_info_new_from_short news) s0)) as [-> _];
    [intros; apply update_layout_frame|].
  by destruct (layouts_frame (fun v s => register_volume_layout v dn s) (omap volume_info_new_from_short news) s0) as [-> _];
    [intros; apply update_layout_frame|].
Qed.

(** Reports of volumes leave the links alone. *)
Lemma delta_links r news dels t : frame links t (delta_update_volumes r news dels t).
Proof.
  assert (Hs : forall vs t, frame links t (upd r (set_volumes vs) t))
    by (intros; apply frame_upd; intros nd; unfold set_volumes; by destruct (nd_type nd)).
  assert (Hf : forall {A} (f : tree -> A -> tree) l, (forall t x, frame links t (f t x)) ->
    forall t, frame links t (fold_left f l t)).
  { intros A f l Hf. induction l as [|x l IH]; intros t0; cbn [fold_left]; [done|]. etransitivity; [apply Hf|apply IH]. }
  unfold delta_update_volumes. etransitivity; [apply Hf|apply Hf].
  - intros t0 v. cbv beta. destruct (volumes_of r t0 !! vi_id v); [|reflexivity]. unfold drop_volume.
    etransitivity; [apply (Hs (delete (vi_id v) (volumes_of r t0)))|].
    destruct (vi_read_only v); [by apply frame_adjust|]. etransitivity; by apply frame_adjust.
  - intros t0 v. unfold add_or_update_volume. destruct (volumes_of r t0 !! vi_id v); cbn [fst]; [apply Hs|].
    etransitivity; [|apply Hs]. etransitivity; [|by apply frame_max].
    destruct (vi_read_only v); [by apply frame_adjust|]. etransitivity; by apply frame_adjust.
Qed.

Lemma no_twin_frame a b dn t t' : frame links t t' -> no_twin a b dn t -> no_twin a b dn t'.
Proof.
  intros Hf. assert (Hp : parent_of dn t' = parent_of dn t /\ id_of (Some dn) t' = id_of (Some dn) t).
  { specialize (Hf dn). unfold parent_of, id_of, links in *. cbn.
    destruct (get_node t' dn), (get_node t dn); try done. cbn in *. by injection Hf as -> -> _. }
  assert (Hc : forall p id, child_named t' p id = child_named t p id).
  { intros p id. specialize (Hf p). unfold child_named, links in *.
    destruct (get_node t' p), (get_node t p); try done. cbn in *. by injection Hf as _ _ ->. }
  destruct Hp as [Hp Hi]. unfold no_twin. rewrite Hp, Hi. setoid_rewrite Hc. done.
Qed.

Lemma update_volume_layout_evolve ord hb dn d d' o : good (tp_tree (di_topology d)) -> is_dn (tp_tree (di_topology d)) dn ->
  no_twin hb.(hb_data_center) hb.(hb_rack) dn (tp_tree (di_topology d)) ->
  update_volume_layout ord hb dn d = Some (d', o) -> evolves (tp_tree (di_topology d)) (tp_tree (di_topology d')).
Proof.
  intros Hg Hd Ht. unfold update_volume_layout. set (s0 := di_topology d) in *. set (m0 := VolumeLocation _ _ _ _ _ _ _).
  assert (H1 : evolves (tp_tree s0) (tp_tree (layout_incremental hb dn m0 s0).1)
    /\ no_twin (hb_data_center hb) (hb_rack hb) dn (tp_tree (layout_incremental hb dn m0 s0).1)).
  { unfold layout_incremental. destruct (_ || _); cbn [fst]; [|split; [by apply evolves_refl|done]].
    rewrite delta_registration_tree. split; [by apply delta_update_evolve|]. by eapply no_twin_frame; [apply delta_links|]. }
  destruct (layout_incremental hb dn m0 s0) as [s1 m1]. cbn [fst] in H1. destruct H1 as [H1 Ht1].
  assert (H2 : evolves (tp_tree s1) (tp_tree (layout_full ord hb dn m1 s1).1)).
  { unfold layout_full. destruct (_ || _); [|apply evolves_refl, H1]. unfold mbind'.
    set (reg := if negb (is_empty (hb_ip hb)) then _ else _).
    assert (Hr : evolves (tp_tree s1) (tp_tree (reg s1).1)).
    { unfold reg. destruct (negb _); [|apply evolves_refl, H1].
      apply register_data_node_evolve; [apply H1|by eapply evolves_dn|done]. }
    destruct (reg s1) as [s2 [[]|e|]]; cbn [fst] in *; [|done..].
    destruct (sync_registration_frame (by_volume ord) (hb_volumes hb) dn s2) as [Es _].
    destruct (sync_data_node_registration _ _ _ _) as [s3 [news dels]]. cbn [fst] in *. rewrite Es.
    eapply evolves_trans; [exact Hr|]. apply update_volumes_evolve; [apply Hr|].
    eapply evolves_dn; [exact Hr|by eapply evolves_dn]. }
  pose proof (evolves_trans _ _ _ H1 H2) as H12.
  destruct (layout_full ord hb dn m1 s1) as [s2 [m2|e|]]; cbn [fst] in *; [|by intros [= <- <-]..].
  assert (D2 : is_dn (tp_tree s2) dn) by by eapply evolves_dn.
  assert (H3 : forall s3 o3, ec_incremental hb dn m2 s2 = Some (s3, o3) -> evolves (tp_tree s2) (tp_tree s3)).
  { intros s3 o3. unfold ec_incremental. destruct (_ || _); [|intros [= <- <-]; apply evolves_refl, H12].
    unfold incremental_sync_ec, incremental_sync_data_node_ec_shards.
    destruct (ec_infos _ _) as [h1 n1]. destruct (ec_infos _ _) as [h2 n2].
    destruct (EcNode.delta_update_ec_shards dn n1 n2 _) as [[t3 h3]|] eqn:Ed; [|done].
    pose proof (delta_shards_evolve _ _ _ _ _ _ (proj1 H12) D2 Ed) as He. cbn [fst] in He.
    destruct (let? m := register_all _ _ _ _ _ in _) as [m3|e|]; intros [= <- <-]; exact He. }
  destruct (ec_incremental hb dn m2 s2) as [[s3 o3]|]; [|done]. specialize (H3 s3 o3 eq_refl).
  pose proof (evolves_trans _ _ _ H12 H3) as H13. destruct o3 as [m3|e|]; [|by intros [= <- <-]..].
  assert (D3 : is_dn (tp_tree s3) dn) by by eapply evolves_dn.
  assert (H4 : evolves (tp_tree s3) (tp_tree (ec_full ord hb dn m3 s3).1)).
  { unfold ec_full. destruct (_ || _); [|apply evolves_refl, H13].
    unfold sync_ec, sync_data_node_ec_shards. destruct (ec_infos _ _) as [h1 n1].
    pose proof (update_shards_evolve (by_shard ord) dn n1 (tp_tree s3) h1 (proj1 H13) D3) as He.
    destruct (EcNode.update_ec_shards _ dn n1 _) as [[t4 h4] [news dels]]. cbn [fst] in He.
    destruct (let? m := register_all _ _ _ _ _ in _) as [[m4 r4]|e|]; exact He. }
  pose proof (evolves_trans _ _ _ H13 H4) as H14.
  destruct (ec_full ord hb dn m3 s3) as [s4 [m4|e|]]; cbn [fst] in *; [|by intros [= <- <-]..].
  destruct (_ || _); by intros [= <- <-].
Qed.

(** *** Turns and ends of heartbeat streams *)

Lemma heartbeat_turn_evolve ord limit ip ev dn d d' o : good (tp_tree (di_topology d)) ->
  (forall r, dn = Some r -> is_dn (tp_tree (di_topology d)) r) ->
  (forall r hb, dn = Some r -> he_message ev = Some hb ->
     no_twin hb.(hb_data_center) hb.(hb_rack) r (tp_tree (di_topology d))) ->
  heartbeat_turn ord limit ip ev dn d = Some (d', o) ->
  evolves (tp_tree (di_topology d)) (tp_tree (di_topology d'))
  /\ forall r out go, o = Ok (Some r, out, go) -> is_dn (tp_tree (di_topology d')) r.
Proof.
  intros Hg Hdn Ht. unfold heartbeat_turn.
  assert (Hsame : evolves (tp_tree (di_topology d)) (tp_tree (di_topology d))) by by apply evolves_refl.
  destruct (he_message ev) as [hb|]; [|intros [= <- <-]; split; [done|intros r out go [= E _ _]; by apply Hdn]].
  destruct (negb (is_leader (he_raft ev))).
  { destruct (heartbeat_response limit (he_raft ev)); intros [= <- <-]; (split; [done|intros r out go [= E _ _]; by apply Hdn]). }
  set (d1 := set_topo _ d). change (tp_tree (di_topology d)) with (tp_tree (di_topology d1)) in *.
  destruct dn as [r|].
  - destruct (update_volume_layout ord hb r d1) as [[d2 o2]|] eqn:Eu; [|done].
    pose proof (update_volume_layout_evolve ord hb r d1 d2 o2 Hg (Hdn r eq_refl) (Ht r hb eq_refl eq_refl) Eu) as He.
    assert (Hr : is_dn (tp_tree (di_topology d2)) r) by (eapply evolves_dn; [exact He|by apply Hdn]).
    destruct o2; [destruct (heartbeat_response limit (he_raft ev))..|]; intros [= <- <-];
      (split; [done|by intros r' out go [= <- _ _]]).
  - destruct (update_topology_found hb ip (di_topology d1) Hg) as (s2 & dn & rack & Eu & He & Hd & _). rewrite Eu.
    destruct (heartbeat_response limit (he_raft ev)); intros [= <- <-]; (split; [done|by intros r' out go [= <- _ _]]).
Qed.

Lemma fold_tree {A} (f : topology -> A -> topology) l : (forall s x, tp_tree (f s x) = tp_tree s) ->
  forall s, tp_tree (fold_left f l s) = tp_tree s.
Proof. intros Hf. induction l as [|x l IH]; intros s; cbn [fold_left]; [done|]. by rewrite IH. Qed.

Lemma remove_data_node_evolve ord r d : good (tp_tree (di_topology d)) -> is_dn (tp_tree (di_topology d)) r ->
  evolves (tp_tree (di_topology d)) (tp_tree (di_topology (remove_data_node ord (Some r) d))).
Proof.
  intros Hg Hd.
  assert (E : tp_tree (di_topology (remove_data_node ord (Some r) d))
    = tp_tree (unregister_data_node (by_volume ord) r (di_topology d))).
  { unfold remove_data_node. set (s := unregister_data_node _ _ _). cbv zeta. case_match; reflexivity. }
  rewrite E. unfold unregister_data_node. set (s := di_topology d) in *.
  set (s1 := fold_left _ _ s). assert (E1 : tp_tree s1 = tp_tree s).
  { apply fold_tree. intros s' e. apply update_layout_frame. }
  rewrite E1. cbn [tp_tree set_tree]. cbv zeta.
  unfold adjust_max_volume_count, adjust_active_volume_count, adjust_volume_count.
  set (t1 := adjust CVolume _ r _). set (t2 := adjust CActive _ r t1). set (t3 := adjust CMax _ r t2).
  assert (H1 : evolves (tp_tree s) t1) by by apply adjust_evolve.
  assert (H2 : evolves (tp_tree s) t2).
  { eapply evolves_trans; [exact H1|]. apply adjust_evolve; [apply H1|by eapply evolves_dn]. }
  assert (H3 : evolves (tp_tree s) t3).
  { eapply evolves_trans; [exact H2|]. apply adjust_evolve; [apply H2|by eapply evolves_dn]. }
  destruct (parent_of r t3) as [rack|]; [|done]. eapply evolves_trans; [exact H3|].
  apply evolves_frame; [apply H3|apply unlink_ok, H3|apply core_level, unlink_frame].
Qed.

(** *** Assignments *)

Lemma grow_option_nonneg dflt request o : volume_grow_option dflt request = Ok o -> nonneg_fields o.(go_replica_placement).
Proof.
  unfold volume_grow_option. set (rs := match ar_replication request with Some _ => _ | None => _ end).
  destruct (Replica.new rs) as [rp|e|] eqn:E; cbn [map_err obind]; [|done..]. intros H.
  assert (Hrp : nonneg_fields rp).
  { unfold Replica.new in E. destruct (chars rs) as [|b0 [|b1 [|b2 [|]]]]; try done. injection E as <-.
    unfold nonneg_fields. cbn. unfold u8. repeat split; by apply Z.mod_pos_bound. }
  destruct (match ar_ttl request with Some _ => _ | None => _ end); cbn [obind] in H; [|done..]. by injection H as <-.
Qed.

Lemma grow_evolve vid o nodes : forall s, good (tp_tree s) -> Forall (is_dn (tp_tree s)) nodes ->
  evolves (tp_tree s) (tp_tree (grow vid o nodes s).1).
Proof.
  induction nodes as [|dn nodes IH]; intros s Hg Hd; cbn [grow]; [by apply evolves_refl|].
  apply Forall_cons in Hd as [Hd Hds]. destruct (rpc_allocate_volume _ _ _) as [p [e|]]; [by apply evolves_refl|].
  set (s1 := register_volume_layout _ _ _). pose proof (add_volume_evolve dn (new_volume vid o) (tp_tree s) Hg Hd) as He.
  assert (E1 : tp_tree s1 = (add_or_update_volume dn (new_volume vid o) (tp_tree s)).1) by apply update_layout_frame.
  rewrite <- E1 in He. eapply evolves_trans; [exact He|]. apply IH; [apply He|].
  eapply Forall_impl; [exact Hds|]. intros x Hx. by eapply evolves_dn.
Qed.

Lemma find_and_grow_evolve o s : nonneg_fields o.(go_replica_placement) -> good (tp_tree s) ->
  evolves (tp_tree s) (tp_tree (find_and_grow o s).1).
Proof.
  intros Ho Hg. destruct (gd_root _ Hg) as (tn & Et & El). unfold find_and_grow, with_rng.
  pose proof (find_empty_slots_lemma o TOPO tn (tp_tree s) (tp_rng s) (ok_shape _ (gd_tree _ Hg)) Et El Ho) as Hf.
  unfold mbind' at 1. destruct (Grow.find_empty_slots o TOPO (tp_tree s) (tp_rng s)) as [g [nodes|e|]]; cbn [snd] in Hf;
    [|by apply evolves_refl..].
  destruct Hf as (main & same & racks & centers & -> & Hp & _).
  assert (Hdn : Forall (is_dn (tp_tree s)) (main :: same ++ racks ++ centers)).
  { destruct Hp as (_ & _ & _ & _ & Hp). eapply Forall_impl; [exact Hp|]. by intros x [? _]. }
  unfold mbind' at 1, mget. pose proof (grow_evolve (next_volume_id (set_rng g s)) o _ (set_rng g s) Hg Hdn) as He.
  unfold mbind'. by destruct (grow _ o _ _) as [s1 [[]|e|]].
Qed.

Lemma grow_by_count_evolve n o : nonneg_fields o.(go_replica_placement) -> forall s, good (tp_tree s) ->
  evolves (tp_tree s) (tp_tree (grow_by_count_and_type n o s).1).
Proof.
  intros Ho. induction n as [|n IH]; intros s Hg; cbn [grow_by_count_and_type]; [by apply evolves_refl|].
  unfold mbind' at 1. pose proof (find_and_grow_evolve o s Ho Hg) as He.
  destruct (find_and_grow o s) as [s1 [k|e|]]; cbn [fst] in *; [|done..].
  eapply evolves_trans; [exact He|]. unfold mbind'. pose proof (IH s1 (proj1 He)) as H2.
  by destruct (grow_by_count_and_type n o s1) as [s2 [j|e|]].
Qed.

Lemma pick_for_write_tree count o s : tp_tree (Topology.pick_for_write count o s).1 = tp_tree s.
Proof.
  unfold Topology.pick_for_write. destruct (Sequencer.next_file_id count (tp_sequencer s)) as [q [key|e|]]; [|done..].
  unfold option_layout. pose proof (get_layout_tree (go_collection o) (go_replica_placement o) (go_ttl o) (set_sequencer q s)) as E.
  destruct (get_volume_layout _ _ _ _) as [s1 vl]. cbn [fst] in E. change (tp_tree (set_sequencer q s)) with (tp_tree s) in E.
  rewrite <- E. unfold mbind', with_rng, mlift.
  destruct (Layout.pick_for_write o (tp_tree s1) vl (tp_rng s1)) as [g [[vid nodes]|e|]]; [|done..].
  destruct (unwrap (nodes !! 0%nat)) as [node|e|]; [|done..].
  by destruct (gen_range (2 ^ 32) (tp_rng (set_rng g s1))) as [g' [h|e|]].
Qed.

Lemma assign_evolve dflt request s : good (tp_tree s) -> evolves (tp_tree s) (tp_tree (assign_handler dflt request s).1).
Proof.
  intros Hg. unfold assign_handler. unfold mbind' at 1, mlift at 1.
  destruct (volume_grow_option dflt request) as [o|e|] eqn:Eo; [|by apply evolves_refl..].
  apply grow_option_nonneg in Eo as Ho. unfold mbind' at 1.
  assert (E1 : tp_tree (has_writable_volume o s).1 = tp_tree s).
  { unfold has_writable_volume, option_layout.
    pose proof (get_layout_tree (go_collection o) (go_replica_placement o) (go_ttl o) s) as E.
    by destruct (get_volume_layout _ _ _ s). }
  destruct (has_writable_volume o s) as [s1 w]. cbn [fst] in E1. rewrite <- E1 in *.
  set (grown := if w then _ else _ : M topology VolumeError unit).
  assert (Hgr : evolves (tp_tree s1) (tp_tree (grown s1).1)).
  { unfold grown. destruct w; [by apply evolves_refl|]. unfold mbind' at 1, mget. unfold mbind' at 1, mlift.
    destruct (unwrap (get_node (tp_tree s1) TOPO)) as [root|e|]; [|by apply evolves_refl..].
    destruct (free_space root <=? 0); [by apply evolves_refl|]. unfold mbind', grow_by_type.
    pose proof (grow_by_count_evolve (Z.to_nat (Grow.find_volume_count (Replica.copy_count (go_replica_placement o)))) o Ho s1 Hg) as H.
    by destruct (grow_by_count_and_type _ o s1) as [s2 [k|e|]]. }
  unfold mbind' at 1. destruct (grown s1) as [s2 [[]|e|]]; cbn [fst] in *; [|done..].
  set (count := match ar_count request with Some _ => _ | None => _ end).
  pose proof (pick_for_write_tree count o s2) as E2. unfold mbind' at 1.
  destruct (Topology.pick_for_write count o s2) as [s3 [[[fid n] r]|e|]]; cbn [fst] in E2; rewrite <- E2 in Hgr; exact Hgr.
Qed.

End handlers.

(** *** Committed entries *)

Lemma apply_evolve {T : StateMachineTypes} es : forall m t, m.(sm_topology) <> None -> default TOPO m.(sm_topology) = TOPO -> good t ->
  evolves t (apply_entries es (m, t)).1.2.
Proof.
  assert (K : forall t vid, good t -> evolves t (adjust_max_volume_id vid TOPO t)).
  { intros t vid Hg. destruct (gd_root t Hg) as (tn & Et & _).
    apply evolves_frame; [done|by eapply adjust_max_id_ok; [apply Hg|]|by apply frame_max]. }
  induction es as [|e es IH]; intros m t Hm Ht Hg; cbn [apply_entries]; [by apply evolves_refl|].
  unfold mbind' at 1.
  assert (He : exists m' o, apply_entry e (m, t) = ((m', (apply_entry e (m, t)).1.2), o) /\ m'.(sm_topology) = m.(sm_topology)
    /\ evolves t (apply_entry e (m, t)).1.2).
  { unfold apply_entry. destruct (en_payload e) as [|[vid]|mem]; cbn.
    - eexists _, _. split; [done|]. split; [done|by apply evolves_refl].
    - destruct (sm_topology m) as [topo|] eqn:Em; [|done]. cbn in Ht. subst topo. eexists _, _. split; [done|].
      split; [done|by apply K].
    - eexists _, _. split; [done|]. split; [done|by apply evolves_refl]. }
  destruct He as (m' & o & E & Em & He). rewrite E. destruct o as [[]|e'|]; [|done..].
  eapply evolves_trans; [exact He|]. unfold mbind'.
  pose proof (IH m' (apply_entry e (m, t)).1.2 ltac:(by rewrite Em) ltac:(by rewrite Em) (proj1 He)) as H2.
  by destruct (apply_entries es _) as [s2 [n|e'|]].
Qed.

(** ** Histories *)

Section machine.
Context {R : Rng} {F : Flake} {P : Rpc} {Sh : Shards} {T : StateMachineTypes}.

(** The master, with the data nodes that heartbeat streams have been given. *)
Record master := Master { ms_directory : directory; ms_nodes : list nref }.

Definition tree_of (m : master) : tree := tp_tree (di_topology (ms_directory m)).

(** What reaches the master, in any order and from any number of connections: a
    turn or the end of a heartbeat stream, an assignment, a vacuum, committed raft
    entries, and whatever only concerns the clients.  The condition on turns is
    that a server which lost its place is not linked again while another
    connection has a new node of the same id there. *)
Inductive master_step : master -> master -> Prop :=
| StepTurn ord limit ip ev dn d nodes d' o :
    (forall r, dn = Some r -> r ∈ nodes) ->
    (forall r hb, dn = Some r -> he_message ev = Some hb ->
       no_twin hb.(hb_data_center) hb.(hb_rack) r (tp_tree (di_topology d))) ->
    heartbeat_turn ord limit ip ev dn d = Some (d', o) ->
    master_step (Master d nodes) (Master d' (match o with Ok (Some r, _, _) => r :: nodes | _ => nodes end))
| StepClosed ord r d nodes : r ∈ nodes -> master_step (Master d nodes) (Master (remove_data_node ord (Some r) d) nodes)
| StepAssign default_replication request d nodes :
    master_step (Master d nodes)
      (Master (set_topo (assign_handler default_replication request (di_topology d)).1 d) nodes)
| StepVacuum order threshold preallocate d nodes s : vacuum order threshold preallocate (di_topology d) = Some s ->
    master_step (Master d nodes) (Master (set_topo s d) nodes)
| StepRaft es st d nodes : sm_topology (ss_state_machine st) = Some TOPO ->
    master_step (Master d nodes)
      (Master (set_topo (set_tree (Raft.apply es (st, tp_tree (di_topology d))).1.2 (di_topology d)) d) nodes)
| StepClients cs d nodes : master_step (Master d nodes) (Master (set_clients cs d) nodes).

(** The masters a new one can become. *)
Inductive reachable : master -> Prop :=
| ReachNew q limit g p : reachable (Master (Directory (topology_new q limit g p) []) [])
| ReachStep m m' : reachable m -> master_step m m' -> reachable m'.

Lemma master_step_ok m m' : master_step m m' -> good (tree_of m) -> Forall (is_dn (tree_of m)) (ms_nodes m) ->
  evolves (tree_of m) (tree_of m') /\ Forall (is_dn (tree_of m')) (ms_nodes m').
Proof.
  assert (K : forall (m m' : master), evolves (tree_of m) (tree_of m') -> ms_nodes m' = ms_nodes m ->
    Forall (is_dn (tree_of m)) (ms_nodes m) ->
    evolves (tree_of m) (tree_of m') /\ Forall (is_dn (tree_of m')) (ms_nodes m')).
  { intros x x' He -> Hn. split; [done|]. eapply Forall_impl; [exact Hn|]. intros r Hr. by eapply evolves_dn. }
  intros Hs Hg Hn. destruct Hs as [ord limit ip ev dn d nodes d' o Hin Ht Hturn|ord r d nodes Hr|dflt req d nodes
    |order threshold preallocate d nodes s Hv|es st d nodes Hst|cs d nodes].
  - unfold tree_of in *. cbn [ms_directory ms_nodes] in *.
    destruct (heartbeat_turn_evolve ord limit ip ev dn d d' o Hg) as [He Hr]; [|done|done|].
    { intros r E. eapply Forall_forall; [exact Hn|by apply Hin]. }
    assert (Hn' : Forall (is_dn (tp_tree (di_topology d'))) nodes)
      by (eapply Forall_impl; [exact Hn|]; intros r Hd; by eapply evolves_dn).
    split; [done|]. destruct o as [[[[r|] out] go]|e|]; [|done..]. constructor; [by eapply Hr|done].
  - apply K; [|done|done]. apply remove_data_node_evolve; [done|]. by eapply Forall_forall.
  - apply K; [|done|done]. apply (assign_evolve dflt req (di_topology d) Hg).
  - apply K; [|done|done]. unfold vacuum in Hv. destruct (vacuum_all _ _ _) as [[cs p]|]; [|done].
    injection Hv as <-. by apply evolves_refl.
  - apply K; [|done|done]. unfold tree_of in *. cbn [ms_directory di_topology set_topo tp_tree set_tree] in *.
    pose proof (apply_evolve es (ss_state_machine st) (tp_tree (di_topology d)) ltac:(by rewrite Hst) ltac:(by rewrite Hst) Hg) as He.
    unfold Raft.apply. destruct (apply_entries es _) as [[m t] o]. exact He.
  - apply K; [|done|done]. by apply evolves_refl.
Qed.

Lemma reachable_good m : reachable m -> good (tree_of m) /\ Forall (is_dn (tree_of m)) (ms_nodes m).
Proof.
  induction 1 as [q limit g p|m m' _ [Hg Hn] Hs].
  - split; [|constructor]. split; [apply tree_ok_new|by eexists].
  - destruct (master_step_ok m m' Hs Hg Hn) as [He Hn']. split; [apply He|done].
Qed.

End machine.

(** C28: after any history of a master each data center, rack and the root carry
    the sums of their children's counters (volumes, active volumes, shards and
    slots, in [i64] arithmetic), parent and child references agree, and the
    largest volume id never decreases towards the root.  Histories are heartbeats
    on any number of streams, their ends, assignments, vacuums, committed raft
    entries and client requests in any order, as long as no server is linked again
    beside a new node of its own id. *)
Theorem topology_counts : forall (R : Rng) (F : Flake) (P : Rpc) (Sh : Shards) (T : StateMachineTypes) m,
  reachable m ->
  (forall p pn c, get_node (tree_of m) p = Some pn -> is_data_node pn = false ->
     i64 (cnt c pn) = i64 (sum_counts c (tree_of m) pn.(nd_children)))
  /\ (forall p pn id c, get_node (tree_of m) p = Some pn -> (id, c) ∈ pn.(nd_children) ->
       exists cn, get_node (tree_of m) c = Some cn /\ cn.(nd_parent) = Some p /\ cn.(nd_id) = id
                  /\ cn.(nd_max_volume_id) <= pn.(nd_max_volume_id)).
Proof.
  intros R F P Sh T m Hm. destruct (reachable_good m Hm) as [[[H1 H2 H3] _] _]. split.
  - intros p pn c Hp Hd. by rewrite <- (H2 c p pn Hp Hd), Z.add_0_r.
  - intros p pn id c Hp Hin. destruct (sh_child _ H1 p pn id c Hp Hin) as (cn & Hc & Hcp & Hid & _).
    exists cn. split; [done|]. split; [done|]. split; [done|]. by apply (H3 c cn p pn).
Qed.

#[local] Existing Instance list_rng.
#[local] Existing Instance no_flake.
#[local] Existing Instance willing.
#[local] Existing Instance plain_types.
#[local] Instance sample_shards : Shards := Z.to_nat.

Definition sample_raft : option raft_server := Some (RaftServer 1 (Some 1) [(1, "m:9333")]).
Definition sample_orders : orders := Orders map_to_list map_to_list.

(** Heartbeats of one server, and what the master is after each of a few. *)
Definition sample_beat (volumes : list volume_message) : heartbeat :=
  Heartbeat "10.0.0.1" 80 "n1" 7 0 "dc" "r1" volumes [] [] (is_nil volumes) [] [] [] false.
Definition sample_turn (dn : option nref) (volumes : list volume_message) (d : directory) :=
  heartbeat_turn sample_orders 1000 "10.0.0.1" (HeartbeatEvent (Some (sample_beat volumes)) sample_raft true) dn d.
Definition after (dn : option nref) (volumes : list volume_message) (d : directory) : directory :=
  match sample_turn dn volumes d with Some (d, _) => d | None => d end.
Definition sample_start : directory :=
  Directory (topology_new (R := list_rng) (F := no_flake) (P := willing) (SMemory 1) 1000 [0] tt) [].
Definition sample_joined : directory := after None [] sample_start.
Definition sample_reporting : directory := after (Some 3) [VolumeMessage 3 "" 0 3 0 100 1 0 0 false] sample_joined.

(** A new stream of the server. *)
Lemma join_reachable d d' nodes r out go : sample_turn None [] d = Some (d', Ok (Some r, out, go)) ->
  reachable (Master d nodes) -> reachable (Master d' (r :: nodes)).
Proof.
  intros E H. eapply ReachStep; [exact H|].
  by apply (StepTurn sample_orders 1000 "10.0.0.1" (HeartbeatEvent (Some (sample_beat [])) sample_raft true) None d nodes
    d' (Ok (Some r, out, go))).
Qed.

Definition sample_answer (r : nref) : outcome VolumeError (option nref * list (option heartbeat_reply) * bool) :=
  Ok (Some r, [Some (HeartbeatReply 1000 "m:9333")], true).

Lemma sample_joined_reachable : reachable (Master sample_joined [3]).
Proof.
  apply (join_reachable sample_start sample_joined [] 3 [Some (HeartbeatReply 1000 "m:9333")] true); [vm_compute; reflexivity|].
  apply ReachNew.
Qed.

Lemma topology_counts_witness : exists pn,
  get_node (tree_of (Master sample_reporting [3; 3])) 1 = Some pn /\ cnt CVolume pn = 1
  /\ i64 (cnt CVolume pn) = i64 (sum_counts CVolume (tree_of (Master sample_reporting [3; 3])) pn.(nd_children)).
Proof.
  assert (Hr : reachable (Master sample_reporting [3; 3])).
  { eapply ReachStep; [apply sample_joined_reachable|].
    apply (StepTurn sample_orders 1000 "10.0.0.1" (HeartbeatEvent (Some (sample_beat [VolumeMessage 3 "" 0 3 0 100 1 0 0 false]))
      sample_raft true) (Some 3) sample_joined [3] sample_reporting (Ok (Some 3, [Some (HeartbeatReply 1000 "m:9333")], true))).
    - intros r [= <-]. left.
    - intros r hb [= <-] _ Hp. vm_compute in Hp. discriminate Hp.
    - vm_compute. reflexivity. }
  destruct (topology_counts list_rng no_flake willing sample_shards plain_types _ Hr) as [H _].
  destruct (get_node (tree_of (Master sample_reporting [3; 3])) 1) as [pn|] eqn:E; [|vm_compute in E; discriminate E].
  exists pn. split; [reflexivity|]. split; [|apply (H 1 pn CVolume E)]; vm_compute in E; injection E as <-; reflexivity.
Defined.

(** The condition on histories is needed: two streams of one server share its
    node; when the first one ends and a third one has made a new node, the next
    report of the second one gives the old node its parent back without making it
    a child, and its volumes are counted above but not below. *)
Theorem twin_breaks_counts :
  let d := after None [] (remove_data_node sample_orders (Some 3) (after None [] sample_joined)) in
  let d' := after (Some 3) [VolumeMessage 3 "" 0 3 0 100 1 0 0 false] d in
  reachable (Master d [4; 3; 3])
  /\ exists rack, get_node (tree_of (Master d' [])) 2 = Some rack /\ is_data_node rack = false
       /\ cnt CVolume rack = 1 /\ sum_counts CVolume (tree_of (Master d' [])) rack.(nd_children) = 0.
Proof.
  intros d d'. split.
  - assert (E1 : sample_turn None [] sample_joined = Some (after None [] sample_joined, sample_answer 3)) by (vm_compute; reflexivity).
    assert (E2 : sample_turn None [] (remove_data_node sample_orders (Some 3) (after None [] sample_joined)) = Some (d, sample_answer 4))
      by (vm_compute; reflexivity).
    apply (join_reachable _ _ _ _ _ _ E2). eapply ReachStep; [|apply StepClosed; left].
    exact (join_reachable _ _ _ _ _ _ E1 sample_joined_reachable).
  - destruct (get_node (tree_of (Master d' [])) 2) as [rack|] eqn:E; [|vm_compute in E; discriminate E].
    exists rack. vm_compute in E. injection E as <-. repeat split; vm_compute; reflexivity.
Qed.
