(* ===== verification/HeartbeatFacts.v ===== *)
(** * Heartbeats, from the store of a volume server to the master

    What [collect_heartbeat] and [collect_erasure_coding_heartbeat] report, and
    what the master knows after it has handled the two messages of a pulse. *)

From S2P Require Import Prelude Messages Types Text Ttl Replica Errors Fid Files Fs Needle NeedleMap Volume Store.
From S2P Require Import EcVolume ShardBits Node NodeFacts Rand VolumeLayout EcShards Sequence Topology TopologyFacts Raft Directory MasterFacts.
#[local] Open Scope string_scope.
#[local] Open Scope list_scope.
#[local] Open Scope Z_scope.

(** ** What a store reports *)

(** The unexpired volumes of a store, with the location they are in. *)
Definition reported (now : Z) (st : store) (vid : Z) (v : volume) : Prop :=
  (exists l, l ∈ st_locations st /\ dl_volumes l !! vid = Some v)
  /\ expired now (st_volume_size_limit st) v = false.

Lemma collect_volumes_spec now limit s vs : forall acc,
  (collect_volumes now limit s vs acc).1.1
  = acc.1.1 ++ map (fun e => volume_report s e.1 e.2) (filter (fun e => expired now limit e.2 = false) vs).
Proof.
  induction vs as [|[vid v] vs IH]; intros [[msgs key] dels]; cbn [collect_volumes].
  { by rewrite app_nil_r. }
  rewrite IH, filter_cons. cbn [snd fst]. destruct (expired now limit v) eqn:E; cbn [negb].
  - rewrite decide_False by done. by destruct (expired_long_enough _ _ _).
  - rewrite decide_True by done. cbn [map fst snd]. by rewrite <- app_assoc.
Qed.

Section collecting.
Context (order : gmap Z volume -> list (Z * volume)) (Ho : forall m, order m ≡ₚ map_to_list m).

(** One location of the loop, seen from the messages. *)
Lemma collect_locations_cons now limit l ls s msgs key count :
  exists s1 key1 count1,
    (collect_locations order now limit (l :: ls) s msgs key count).1.1.2
    = (collect_locations order now limit ls s1
         (msgs ++ map (fun e => volume_report s e.1 e.2)
                    (filter (fun e => expired now limit e.2 = false) (order (dl_volumes l)))) key1 count1).1.1.2.
Proof.
  cbn [collect_locations].
  pose proof (collect_volumes_spec now limit s (order (dl_volumes l)) (msgs, key, [])) as Hv.
  destruct (collect_volumes now limit s (order (dl_volumes l)) (msgs, key, [])) as [[msgs1 key1] dels].
  cbn [fst] in Hv. subst msgs1. destruct (delete_expired dels l s) as [l' s1].
  exists s1, key1, (i64 (count + dl_max_volume_count l')). by destruct (collect_locations _ _ _ ls _ _ _ _) as [[[[? ?] ?] ?] ?].
Qed.

Lemma collect_locations_from now limit ls : forall s msgs key count m,
  m ∈ (collect_locations order now limit ls s msgs key count).1.1.2 ->
  m ∈ msgs \/ exists s' l vid v, l ∈ ls /\ dl_volumes l !! vid = Some v /\ expired now limit v = false
                                 /\ m = volume_report s' vid v.
Proof.
  induction ls as [|l ls IH]; intros s msgs key count m; [by left|].
  destruct (collect_locations_cons now limit l ls s msgs key count) as (s1 & key1 & count1 & ->). intros Hin.
  destruct (IH _ _ _ _ _ Hin) as [H1|(s' & l0 & vid & v & H1 & H2 & H3 & ->)].
  - apply elem_of_app in H1 as [H1|H1]; [by left|]. right.
    apply list_elem_of_fmap in H1 as ([vid v] & -> & [He Hx]%list_elem_of_filter). cbn [fst snd] in *.
    rewrite Ho, elem_of_map_to_list in Hx. exists s, l, vid, v. repeat split; try done. by left.
  - right. exists s', l0, vid, v. repeat split; try done. by right.
Qed.

Lemma collect_locations_keeps now limit ls : forall s msgs key count m,
  m ∈ msgs -> m ∈ (collect_locations order now limit ls s msgs key count).1.1.2.
Proof.
  induction ls as [|l ls IH]; intros s msgs key count m Hm; [done|].
  destruct (collect_locations_cons now limit l ls s msgs key count) as (s1 & key1 & count1 & ->).
  apply IH, elem_of_app. by left.
Qed.

(** Every unexpired volume is reported. *)
Lemma collect_locations_all now limit ls : forall s msgs key count l vid v,
  l ∈ ls -> dl_volumes l !! vid = Some v -> expired now limit v = false ->
  exists s', volume_report s' vid v ∈ (collect_locations order now limit ls s msgs key count).1.1.2.
Proof.
  induction ls as [|l0 ls IH]; intros s msgs key count l vid v Hl Hv He; [by apply not_elem_of_nil in Hl|].
  destruct (collect_locations_cons now limit l0 ls s msgs key count) as (s1 & key1 & count1 & ->).
  apply elem_of_cons in Hl as [->|Hl]; [|by eapply IH].
  exists s. apply collect_locations_keeps, elem_of_app. right. apply list_elem_of_fmap. exists (vid, v).
  split; [done|]. apply list_elem_of_filter. split; [done|]. rewrite Ho. by apply elem_of_map_to_list.
Qed.

Lemma heartbeat_volumes now st s :
  (forall m, m ∈ hb_volumes (collect_heartbeat order now (st, s)).2 ->
     exists s' vid v, reported now st vid v /\ m = volume_report s' vid v)
  /\ (forall vid v, reported now st vid v ->
     exists s', volume_report s' vid v ∈ hb_volumes (collect_heartbeat order now (st, s)).2).
Proof.
  unfold collect_heartbeat. cbn [fst snd].
  pose proof (collect_locations_from now (st_volume_size_limit st) (st_locations st) s [] 0 0) as H1.
  pose proof (collect_locations_all now (st_volume_size_limit st) (st_locations st) s [] 0 0) as H2.
  destruct (collect_locations _ _ _ _ _ _ _ _) as [[[[ls s'] msgs] key] count]. cbn [fst snd hb_volumes] in *. split.
  - intros m Hm. apply H1 in Hm as [Hm|(s1 & l & vid & v & Hl & Hv & He & ->)]; [by apply not_elem_of_nil in Hm|].
    exists s1, vid, v. split; [|done]. split; [by exists l|done].
  - intros vid v [(l & Hl & Hv) He]. by apply (H2 l).
Qed.

End collecting.

(** ** What the master makes of a report *)

(** A volume whose data fits the message. *)
Record reportable (v : volume) : Prop := {
  re_digits : Replica.digits_ok (sb_replica_placement (v_super_block v));
  re_byte : let rp := sb_replica_placement (v_super_block v) in
    rp.(diff_data_center_count) * 100 + rp.(diff_rack_count) * 10 + rp.(same_rack_count) < 256;
  re_ttl : Ttl.wf (sb_ttl (v_super_block v));
  re_version : in_u8 (version v);
  re_files : 0 <= file_count_of v < 2 ^ 63;
  re_deleted : 0 <= deleted_count_of v < 2 ^ 63;
}.

(** The master's view of a volume, up to its size. *)
Definition views (vid : Z) (v : volume) (i : volume_info) : Prop :=
  vi_id i = vid /\ vi_collection i = v_collection v /\ vi_version i = version v
  /\ vi_replica_placement i = sb_replica_placement (v_super_block v) /\ vi_ttl i = sb_ttl (v_super_block v)
  /\ vi_file_count i = file_count_of v /\ vi_delete_count i = deleted_count_of v
  /\ vi_delete_bytes i = deleted_bytes_of v /\ vi_read_only i = v_no_write_or_delete v.

Lemma report_read s vid v : reportable v -> exists i, volume_info_new (volume_report s vid v) = Some i /\ views vid v i.
Proof.
  intros [H1 H2 H3 H4 H5 H6]. unfold volume_info_new, volume_report.
  cbn [vm_id vm_collection vm_replica_placement vm_version vm_ttl vm_size vm_file_count vm_delete_count
       vm_deleted_bytes vm_read_only].
  rewrite u8_id by (unfold Replica.into_u8; int_solve). rewrite Replica.into_from_u8 by done.
  rewrite Ttl.from_into_u32 by done. eexists. split; [done|]. unfold views.
  cbn [vi_id vi_collection vi_version vi_replica_placement vi_ttl vi_file_count vi_delete_count vi_delete_bytes vi_read_only].
  repeat split; [by apply u8_id|int_solve..].
Qed.

Lemma apply_infos_from infos vid i : apply_infos ∅ infos !! vid = Some i -> i ∈ infos /\ vi_id i = vid.
Proof.
  rewrite apply_infos_lookup. destruct (list_find _ _) as [[k v]|] eqn:E; [|by rewrite lookup_empty].
  intros [= <-]. apply list_find_Some in E as (Hl & Hid & _). split; [|done].
  apply list_elem_of_lookup_2 in Hl. by rewrite elem_of_reverse in Hl.
Qed.

Lemma apply_infos_has infos vid : Exists (fun v => vi_id v = vid) infos -> is_Some (apply_infos ∅ infos !! vid).
Proof.
  intros H. rewrite apply_infos_lookup. destruct (list_find _ _) as [[k v]|] eqn:E; [by eexists|].
  apply list_find_None in E. apply Exists_exists in H as (v & Hin & Hid).
  eapply Forall_forall in E; [done|]. by apply elem_of_reverse.
Qed.

(** ** The shard part of a message *)

(** Every entry of the registry has a list per shard. *)
Definition registry_sized (m : ec_registry) : Prop :=
  map_Forall (fun _ e => length (es_locations e) = Z.to_nat TOTAL_SHARDS_COUNT) m.

Lemma delete_shards_total t dn ids : Forall (fun i => 0 <= i < TOTAL_SHARDS_COUNT) ids -> forall e,
  length (es_locations e) = Z.to_nat TOTAL_SHARDS_COUNT ->
  exists e', EcLocations.for_shards (fun i e => EcLocations.delete_ec_shard t i dn e) ids e = Ok e'
             /\ length (es_locations e') = Z.to_nat TOTAL_SHARDS_COUNT.
Proof.
  induction 1 as [|i ids Hi _ IH]; intros e He; cbn [EcLocations.for_shards]; [by exists e|].
  unfold EcLocations.delete_ec_shard at 1.
  destruct (lookup_lt_is_Some_2 (es_locations e) (Z.to_nat i)) as [nodes ->]; [lia|].
  destruct (EcLocations.index_of t dn nodes) as [k|]; cbn [obind fst]; apply IH; [|done].
  cbn [es_locations]. by rewrite length_insert.
Qed.

Lemma unregister_all_total t h dn vs : forall m, registry_sized m ->
  exists m', unregister_all t h dn vs m = Ok m' /\ registry_sized m'.
Proof.
  induction vs as [|v vs IH]; intros m Hm; cbn [unregister_all]; [by exists m|].
  unfold EcLocations.unregister_ec_shards.
  destruct (m !! ShardBits.ev_volume_id v) as [e|] eqn:E; cbn [obind]; [|by apply IH].
  destruct (delete_shards_total t dn (ShardBits.ShardBits.shard_ids (ev_shard_bits v) h)) with (e := e) as (e' & -> & He').
  - apply Forall_forall. intros i. apply shard_ids_range.
  - by apply (Hm _ _ E).
  - cbn [obind]. apply IH. by apply map_Forall_insert_2.
Qed.

(** The data node after a report without shards. *)
Lemma compare_known_empty es : forall h a,
  (fold_left (EcNode.compare_known ∅) es (h, a)).2.(EcNode.ua_new) = a.(EcNode.ua_new)
  /\ (fold_left (EcNode.compare_known ∅) es (h, a)).2.(EcNode.ua_deleted) = a.(EcNode.ua_deleted) ++ map snd es.
Proof.
  induction es as [|[vid known] es IH]; intros h a; cbn [fold_left map]; [by rewrite app_nil_r|].
  unfold EcNode.compare_known at 2 4. rewrite lookup_empty. destruct (ShardBits.ShardBits.shard_id_count _ h) as [h1 c].
  destruct (IH h1 (EcNode.UpdateAcc (EcNode.ua_new_count a) (u64 (EcNode.ua_deleted_count a + c)) (EcNode.ua_new a)
    (EcNode.ua_deleted a ++ [known]))) as [H1 H2].
  rewrite H1, H2. cbn. by rewrite <- app_assoc.
Qed.

Lemma set_no_shards r t : shards_of r (upd r (set_shards ∅) t) = ∅.
Proof.
  unfold shards_of. rewrite get_upd, decide_True by done. destruct (get_node t r) as [nd|]; [|done]. cbn.
  unfold set_shards. by destruct (nd_type nd) eqn:E; cbn; rewrite ?E.
Qed.

Lemma adjust_shards_of c d r x t : shards_of x (adjust c d r t) = shards_of x t.
Proof.
  pose proof (adjust_types c d r t x) as H. unfold shards_of.
  destruct (get_node (adjust c d r t) x), (get_node t x); try done. cbn in H. by injection H as ->.
Qed.

Lemma sync_no_shards order dn t h m :
  (forall k : gmap Z ec_volume_info, order k ≡ₚ map_to_list k) -> registry_sized m ->
  exists t' h' m' dels, sync_data_node_ec_shards order [] dn t h m = ((t', h'), Ok (m', ([], dels)))
    /\ shards_of dn t' = ∅ /\ volumes_of dn t' = volumes_of dn t /\ registry_sized m'
    /\ (t' = t \/ exists d, t' = adjust_ec_shard_count d dn (upd dn (set_shards ∅) t)).
Proof.
  intros Ho Hm. unfold sync_data_node_ec_shards. cbn [ec_infos hret]. unfold EcNode.update_ec_shards. cbn [fold_left].
  destruct (compare_known_empty (order (shards_of dn t)) h (EcNode.UpdateAcc 0 0 [] [])) as [H1 H2].
  destruct (fold_left (EcNode.compare_known ∅) _ _) as [h1 a]. cbn [snd EcNode.ua_new EcNode.ua_deleted app] in H1, H2.
  rewrite H1, H2. destruct (order (shards_of dn t)) as [|e es] eqn:E; cbn [map len_nil].
  - cbn. exists t, h1, m, []. split; [done|]. split; [|by auto].
    pose proof (Ho (shards_of dn t)) as Hp. rewrite E in Hp. symmetry in Hp. apply Permutation_nil_r in Hp.
    by apply map_to_list_empty_iff.
  - rewrite len_nil, len_cons. replace (1 + len (map snd es) =? 0) with false
      by (symmetry; apply Z.eqb_neq; pose proof (len_nonneg (map snd es)); lia). cbn [andb Z.eqb].
    set (t' := adjust_ec_shard_count _ dn _).
    destruct (unregister_all_total t' h1 dn (e.2 :: map snd es) m Hm) as (m' & Hu & Hm').
    exists t', h1, m', (e.2 :: map snd es). cbn [register_all obind]. rewrite Hu. split; [done|].
    split; [unfold t', adjust_ec_shard_count; rewrite adjust_shards_of; apply set_no_shards|].
    split; [|split; [done|right; by eexists]]. unfold t', adjust_ec_shard_count.
    erewrite (proj1 (volumes_of_type _ _ _ (adjust_types _ _ _ _ _))).
    unfold volumes_of. rewrite get_upd, decide_True by done. destruct (get_node t dn) as [nd|]; [|done]. cbn.
    unfold set_shards. by destruct (nd_type nd) eqn:En; cbn; rewrite ?En.
Qed.

(** ** A pulse *)

Section pulse.
Context {R : Rng} {F : Flake} {P : Rpc}.

(** A message that only lists volumes. *)
Record volumes_only (hb : heartbeat) : Prop := {
  vo_new : hb_new_volumes hb = []; vo_deleted : hb_deleted_volumes hb = [];
  vo_full : negb (is_nil (hb_volumes hb)) || hb_has_no_volumes hb = true;
  vo_shards : hb_ec_shards hb = []; vo_no_shards : hb_has_no_ec_shards hb = true;
  vo_new_shards : hb_new_ec_shards hb = []; vo_deleted_shards : hb_deleted_ec_shards hb = [];
}.

Lemma collected_volumes_only order now st : volumes_only (collect_heartbeat order now st).2.
Proof.
  unfold collect_heartbeat. destruct (collect_locations _ _ _ _ _ _ _ _) as [[[[ls s] msgs] key] count].
  split; try done. cbn. by destruct msgs.
Qed.

Context (ord : orders) (limit : Z) (ip : string) (raft : option raft_server) (reply : heartbeat_reply).
Context (Hlead : is_leader raft = true) (Hreply : heartbeat_response limit raft = Ok reply).
Context (Hv : forall m, by_volume ord m ≡ₚ map_to_list m) (Hs : forall m, by_shard ord m ≡ₚ map_to_list m).

(** A master whose stream has its data node [dn]. *)
Record ready (dn : nref) (d : directory) : Prop := {
  rd_good : good (tp_tree (di_topology d));
  rd_node : dn_inv (tp_tree (di_topology d)) dn;
  rd_linked : parent_of dn (tp_tree (di_topology d)) <> None;
  rd_registry : registry_sized (tp_ec_shards (di_topology d));
}.

Lemma shards_cleared c dn t : dn_inv t dn -> parent_of dn t <> None ->
  let t' := adjust_ec_shard_count c dn (upd dn (set_shards ∅) t) in dn_inv t' dn /\ parent_of dn t' <> None.
Proof.
  intros [H1 H2 H3] Hp t'.
  assert (Hk : tree_ok (upd dn (set_shards ∅) t)).
  { apply upd_data_ok; [apply keeps_shards| |done]. intros nd. unfold set_shards. by destruct (nd_type nd). }
  assert (Hw : forall x, volumes_of x (upd dn (set_shards ∅) t) = volumes_of x t /\ parent_of x (upd dn (set_shards ∅) t) = parent_of x t
    /\ node_cnt CVolume (upd dn (set_shards ∅) t) x = node_cnt CVolume t x).
  { intros x. unfold volumes_of, parent_of, node_cnt. rewrite get_upd. case_decide; [|done].
    destruct (get_node t x) as [nd|]; [|done]. cbn. unfold set_shards. by destruct (nd_type nd) eqn:E; cbn; rewrite ?E. }
  assert (Hd : is_dn (upd dn (set_shards ∅) t) dn).
  { destruct H2 as (nd & Hn & Hd). eexists. split; [by apply get_upd_of|]. rewrite decide_True by done.
    apply level_data_node. apply level_data_node in Hd. by rewrite (proj1 (proj2 (keeps_shards ∅ nd))). }
  destruct (adjust_dn CEcShard c dn _ Hk Hd) as (A1 & A2 & A3 & A4). destruct (Hw dn) as (V1 & V2 & V3). split.
  - split; [done|done|]. unfold t', adjust_ec_shard_count. rewrite A4, A3, V1. by rewrite decide_False, V3 by done.
  - unfold t', adjust_ec_shard_count. by rewrite adjust_parent, V2.
Qed.

Lemma update_volumes_parent order r infos t x : parent_of x (update_volumes order r infos t).1 = parent_of x t.
Proof.
  unfold update_volumes. set (ids := filter _ _). clearbody ids.
  assert (H1 : forall infos t acc, parent_of x (fold_left (fun '(t, acc) v => let '(t', is_new) := add_or_update_volume r v t in
      (t', if is_new then acc ++ [v] else acc)) infos (t, acc)).1 = parent_of x t).
  { clear. induction infos as [|v infos IH]; intros t acc; cbn [fold_left]; [done|].
    pose proof (add_volume_parent r v t x) as E. destruct (add_or_update_volume r v t) as [t1 b]. by rewrite IH. }
  specialize (H1 infos t []). destruct (fold_left _ infos (t, [])) as [t1 news]. cbn [fst] in H1. rewrite <- H1. clear H1.
  assert (H2 : forall ids t acc, parent_of x (fold_left (fun '(t, acc) id => match volumes_of r t !! id with
      | Some v => (drop_volume r id v.(vi_read_only) t, acc ++ [v]) | None => (t, acc) end) ids (t, acc)).1 = parent_of x t).
  { clear. induction ids as [|id ids IH]; intros t acc; cbn [fold_left]; [done|].
    destruct (volumes_of r t !! id) as [v|]; [|done]. rewrite IH. unfold drop_volume.
    destruct (vi_read_only v); unfold adjust_active_volume_count, adjust_volume_count; rewrite !adjust_parent;
      apply upd_volumes_parent. }
  specialize (H2 ids t1 []). by destruct (fold_left _ ids (t1, [])) as [t2 dels].
Qed.

Lemma volumes_turn hb dn d :
  volumes_only hb -> parent_of dn (tp_tree (di_topology d)) <> None -> registry_sized (tp_ec_shards (di_topology d)) ->
  exists d', heartbeat_turn ord limit ip (HeartbeatEvent (Some hb) raft true) (Some dn) d
             = Some (d', Ok (Some dn, [Some reply], true))
    /\ volumes_of dn (tp_tree (di_topology d'))
       = volumes_of dn (update_volumes (by_volume ord) dn (omap volume_info_new (hb_volumes hb)) (tp_tree (di_topology d))).1
    /\ shards_of dn (tp_tree (di_topology d')) = ∅ /\ registry_sized (tp_ec_shards (di_topology d'))
    /\ ((forall m, by_volume ord m ≡ₚ map_to_list m) -> ready dn d -> ready dn d').
Proof.
  intros [V1 V2 V3 V4 V5 V6 V7] Hp Hm. destruct (parent_of dn (tp_tree (di_topology d))) as [p|] eqn:Hp'; [clear Hp|done].
  rename Hp' into Hp. unfold heartbeat_turn. cbn [he_message he_raft]. rewrite Hlead. cbn [negb].
  set (s0 := set_max_sequence _ _).
  assert (E0 : tp_tree s0 = tp_tree (di_topology d) /\ tp_ec_shards s0 = tp_ec_shards (di_topology d)) by done.
  destruct E0 as [E0 E0'].
  unfold update_volume_layout. cbn [di_topology set_topo]. unfold layout_incremental. rewrite V1, V2. cbn [is_nil negb orb].
  unfold layout_full. rewrite V3.
  assert (Hr : forall (k : unit -> M topology VolumeError volume_location),
    mbind' (if negb (is_empty (hb_ip hb)) then register_data_node (hb_data_center hb) (hb_rack hb) dn else mret tt) k s0
    = k tt s0).
  { intros k. unfold mbind'. destruct (negb (is_empty (hb_ip hb))); [|done]. unfold register_data_node.
    by rewrite E0, Hp. }
  rewrite Hr. destruct (sync_registration_frame (by_volume ord) (hb_volumes hb) dn s0) as [F1 F2].
  destruct (sync_data_node_registration _ _ _ _) as [s1 [news dels]]. cbn [fst] in F1, F2.
  unfold ec_incremental. rewrite V6, V7. cbn [is_nil negb orb]. unfold ec_full. rewrite V4, V5. cbn [is_nil negb orb].
  unfold sync_ec.
  destruct (sync_no_shards (by_shard ord) dn (tp_tree s1) (tp_heap s1) (tp_ec_shards s1)) as (t2 & h2 & m2 & dels2 & E2 & S1 & S2 & S3 & S4);
    [done|by rewrite F2, E0'|]. rewrite E2. cbn [obind]. rewrite Hreply.
  set (m := add_ec_vids _ _ _). set (b := negb (is_nil (lo_new_vids m)) || _ || _ || _).
  eexists. split; [reflexivity|]. match goal with |- context [if b then ?x else ?y] => set (d' := if b then x else y) end.
  assert (Ed : tp_tree (di_topology d') = t2 /\ tp_ec_shards (di_topology d') = m2)
    by (unfold d'; by destruct b). clearbody d'. destruct Ed as [Ed Em]. rewrite Ed, Em, S1, S2, F1, E0.
  split; [done|]. split; [done|]. split; [done|]. intros Hbv [G1 G2 G3 _].
  pose proof (update_volumes_spec (by_volume ord) dn (omap volume_info_new (hb_volumes hb)) (tp_tree (di_topology d)) Hbv G2) as Hup.
  pose proof (update_volumes_evolve (by_volume ord) dn (omap volume_info_new (hb_volumes hb)) _ G1 (di_dn _ _ G2)) as Hev.
  pose proof (update_volumes_parent (by_volume ord) dn (omap volume_info_new (hb_volumes hb)) (tp_tree (di_topology d)) dn) as Hpar.
  rewrite E0 in F1. destruct (update_volumes _ _ _ _) as [t1 [n1 l1]]. cbn [fst] in *. subst t1. destruct Hup as (Hi & _ & _).
  assert (Hi2 : dn_inv t2 dn /\ parent_of dn t2 <> None).
  { destruct S4 as [->|[c ->]]; [by rewrite Hpar|]. apply shards_cleared; [done|by rewrite Hpar]. }
  split; rewrite ?Ed, ?Em; [|apply Hi2|apply Hi2|done].
  destruct S4 as [->|[c ->]]; [apply Hev|]. pose proof (shards_evolve ∅ dn _ (proj1 Hev)) as He2.
  apply (adjust_evolve CEcShard c dn _ (proj1 He2)). eapply evolves_dn; [exact He2|apply Hi].
Qed.

Lemma shards_turn shards dn d : shards_of dn (tp_tree (di_topology d)) = ∅ ->
  let hb := Heartbeat "" 0 "" 0 0 "" "" [] [] [] false shards [] [] (match shards with [] => true | _ => false end) in
  exists d', heartbeat_turn ord limit ip (HeartbeatEvent (Some hb) raft true) (Some dn) d
             = Some (d', Ok (Some dn, [Some reply], true))
    /\ tp_tree (di_topology d') = tp_tree (di_topology d)
    /\ tp_ec_shards (di_topology d') = tp_ec_shards (di_topology d).
Proof.
  intros He hb. unfold heartbeat_turn. cbn [he_message he_raft]. rewrite Hlead. cbn [negb].
  set (s0 := set_max_sequence _ _). unfold update_volume_layout. cbn [di_topology set_topo].
  unfold layout_incremental. cbn [hb hb_new_volumes hb_deleted_volumes is_nil negb orb].
  unfold layout_full. cbn [hb hb_volumes hb_has_no_volumes is_nil negb orb mret].
  unfold ec_incremental. cbn [hb hb_new_ec_shards hb_deleted_ec_shards is_nil negb orb].
  unfold ec_full. cbn [hb hb_ec_shards hb_has_no_ec_shards].
  replace (negb (is_nil shards) || match shards with [] => true | _ :: _ => false end) with true by by destruct shards.
  unfold sync_ec. cbn [hb hb_max_file_key].
  destruct (full_ec_report_ignored (by_shard ord) shards dn (tp_tree s0) (tp_heap s0) (tp_ec_shards s0) Hs He) as [h' ->].
  cbn [obind map]. rewrite Hreply. eexists. split; [reflexivity|]. done.
Qed.

End pulse.

(** The report of a store, on a stream that has its data node. *)
Lemma report_turn {R : Rng} {F : Flake} {P : Rpc} ord limit ip raft reply order now st s dn d :
  is_leader raft = true -> heartbeat_response limit raft = Ok reply ->
  (forall m, by_volume ord m ≡ₚ map_to_list m) -> (forall m, by_shard ord m ≡ₚ map_to_list m) ->
  (forall m, order m ≡ₚ map_to_list m) -> ready dn d ->
  (forall vid v, reported now st vid v -> reportable v) ->
  (forall vid v w, reported now st vid v -> reported now st vid w -> v = w) ->
  let hb := (collect_heartbeat order now (st, s)).2 in
  exists d', heartbeat_turn ord limit ip (HeartbeatEvent (Some hb) raft true) (Some dn) d
             = Some (d', Ok (Some dn, [Some reply], true)) /\ ready dn d'
    /\ forall vid, match volumes_of dn (tp_tree (di_topology d')) !! vid with
                   | Some i => exists v, reported now st vid v /\ views vid v i
                   | None => forall v, ~ reported now st vid v
                   end.
Proof.
  intros Hl Hr Hv Hs Ho Hd Hw Hu hb.
  destruct (volumes_turn ord limit ip raft reply Hl Hr Hs hb dn d (collected_volumes_only order now (st, s))
    (rd_linked _ _ Hd) (rd_registry _ _ Hd)) as (d' & Ed & Ev & _ & _ & Hd'). exists d'. split; [done|]. split; [by apply Hd'|]. intros vid.
  destruct (heartbeat_volumes order Ho now st s) as [Hfrom Hall]. fold hb in Hfrom, Hall.
  pose proof (update_volumes_spec (by_volume ord) dn (omap volume_info_new (hb_volumes hb)) (tp_tree (di_topology d)) Hv
    (rd_node _ _ Hd)) as Hup.
  destruct (update_volumes _ _ _ _) as [t' [news dels]]. destruct Hup as (_ & Hvol & _). cbn [fst] in Ev. rewrite Ev, Hvol.
  destruct (apply_infos ∅ (omap volume_info_new (hb_volumes hb)) !! vid) as [i|] eqn:E.
  - apply apply_infos_from in E as [Hin Hid]. apply list_elem_of_omap in Hin as (m & Hm' & Ei).
    destruct (Hfrom m Hm') as (s' & vid' & v & Hrep & ->). exists v.
    destruct (report_read s' vid' v (Hw _ _ Hrep)) as (i' & Ei' & Hview). rewrite Ei in Ei'. injection Ei' as <-.
    assert (vid' = vid) as -> by (rewrite <- Hid; symmetry; apply Hview). done.
  - intros v Hrep. destruct (Hall vid v Hrep) as (s' & Hin). destruct (report_read s' vid v (Hw _ _ Hrep)) as (i & Ei & Hview).
    assert (is_Some (apply_infos ∅ (omap volume_info_new (hb_volumes hb)) !! vid)) as [j Hj].
    { apply apply_infos_has, Exists_exists. exists i. split; [|apply Hview]. apply list_elem_of_omap. by eexists. }
    congruence.
Qed.

(** The first message of a stream only finds or makes the data node. *)
Lemma first_turn {R : Rng} {F : Flake} {P : Rpc} ord limit ip raft reply hb d :
  is_leader raft = true -> heartbeat_response limit raft = Ok reply ->
  good (tp_tree (di_topology d)) -> registry_sized (tp_ec_shards (di_topology d)) ->
  (forall r, is_dn (tp_tree (di_topology d)) r -> parent_of r (tp_tree (di_topology d)) <> None ->
     dn_inv (tp_tree (di_topology d)) r) ->
  exists d' dn, heartbeat_turn ord limit ip (HeartbeatEvent (Some hb) raft true) None d
             = Some (d', Ok (Some dn, [Some reply], true)) /\ ready dn d'
    /\ forall x, volumes_of x (tp_tree (di_topology d')) = volumes_of x (tp_tree (di_topology d)).
Proof.
  intros Hl Hr Hg Hm Hi. unfold heartbeat_turn. cbn [he_message he_raft]. rewrite Hl. cbn [negb di_topology set_topo].
  set (s0 := set_max_sequence _ _). change (tp_tree (di_topology d)) with (tp_tree s0) in *.
  change (tp_ec_shards (di_topology d)) with (tp_ec_shards s0) in *.
  destruct (update_topology_found hb ip s0 Hg) as (s1 & dn & rack & -> & He & Hd & Hp & Hvol & Hnew & Hec). rewrite Hr.
  eexists _, dn. split; [reflexivity|]. cbn [di_topology set_topo]. split; [|done].
  split; cbn [di_topology set_topo]; [apply He| |by rewrite Hp|by rewrite Hec].
  destruct Hnew as [E|[Hn Hc]]; [rewrite E in *; apply Hi; [done|by rewrite Hp]|].
  split; [apply He|done|]. rewrite Hc, Hvol. unfold volumes_of. by rewrite Hn.
Qed.

(** C11: the reports of a volume server to the leader.  The first message of a
    stream only finds or makes its data node: whatever volumes it lists, the master
    knows of the same ones as before.  From then on every report a store collects
    leaves the data node with exactly the unexpired volumes of the store, with their
    id, collection, placement, TTL, version, counts and read-only mark. *)
Theorem heartbeat_reports_store : forall (R : Rng) (F : Flake) (P : Rpc) ord limit ip raft reply hb1 d,
  is_leader raft = true -> heartbeat_response limit raft = Ok reply ->
  (forall m, by_volume ord m ≡ₚ map_to_list m) -> (forall m, by_shard ord m ≡ₚ map_to_list m) ->
  good (tp_tree (di_topology d)) -> registry_sized (tp_ec_shards (di_topology d)) ->
  (forall r, is_dn (tp_tree (di_topology d)) r -> parent_of r (tp_tree (di_topology d)) <> None ->
     dn_inv (tp_tree (di_topology d)) r) ->
  exists d1 dn,
    heartbeat_turn ord limit ip (HeartbeatEvent (Some hb1) raft true) None d = Some (d1, Ok (Some dn, [Some reply], true))
    /\ (forall x, volumes_of x (tp_tree (di_topology d1)) = volumes_of x (tp_tree (di_topology d)))
    /\ ready dn d1
    /\ forall d2 order now st s, ready dn d2 -> (forall m, order m ≡ₚ map_to_list m) ->
         (forall vid v, reported now st vid v -> reportable v) ->
         (forall vid v w, reported now st vid v -> reported now st vid w -> v = w) ->
         let hb := (collect_heartbeat order now (st, s)).2 in
         exists d3, heartbeat_turn ord limit ip (HeartbeatEvent (Some hb) raft true) (Some dn) d2
                    = Some (d3, Ok (Some dn, [Some reply], true)) /\ ready dn d3
           /\ forall vid, match volumes_of dn (tp_tree (di_topology d3)) !! vid with
                          | Some i => exists v, reported now st vid v /\ views vid v i
                          | None => forall v, ~ reported now st vid v
                          end.
Proof.
  intros R F P ord limit ip raft reply hb1 d Hl Hr Hv Hs Hg Hm Hi.
  destruct (first_turn ord limit ip raft reply hb1 d Hl Hr Hg Hm Hi) as (d1 & dn & E1 & Hd & Hsame).
  exists d1, dn. split; [done|]. split; [done|]. split; [done|]. intros d2 order now st s Hd2 Ho Hw Hu. by apply report_turn.
Qed.

(** C38: the two messages of a pulse leave the master with no shard of the server,
    whatever its store holds: the first says that there are no shards, and a
    full list of shards is ignored for a node that has none. *)
Theorem pulse_forgets_shards : forall (R : Rng) (F : Flake) (P : Rpc) ord limit ip raft reply order eorder now st s dn p d,
  is_leader raft = true -> heartbeat_response limit raft = Ok reply ->
  (forall m, by_shard ord m ≡ₚ map_to_list m) ->
  parent_of dn (tp_tree (di_topology d)) = Some p -> registry_sized (tp_ec_shards (di_topology d)) ->
  let hb1 := (collect_heartbeat order now (st, s)).2 in
  let hb2 := collect_erasure_coding_heartbeat eorder st in
  exists d1 d2,
    heartbeat_turn ord limit ip (HeartbeatEvent (Some hb1) raft true) (Some dn) d = Some (d1, Ok (Some dn, [Some reply], true))
    /\ heartbeat_turn ord limit ip (HeartbeatEvent (Some hb2) raft true) (Some dn) d1 = Some (d2, Ok (Some dn, [Some reply], true))
    /\ shards_of dn (tp_tree (di_topology d2)) = ∅
    /\ tp_ec_shards (di_topology d2) = tp_ec_shards (di_topology d1).
Proof.
  intros R F P ord limit ip raft reply order eorder now st s dn p d Hl Hr Hs Hp Hm hb1 hb2.
  destruct (volumes_turn ord limit ip raft reply Hl Hr Hs hb1 dn d (collected_volumes_only order now (st, s)) ltac:(by rewrite Hp) Hm)
    as (d1 & E1 & _ & S1 & _).
  destruct (shards_turn ord limit ip raft reply Hl Hr Hs (hb_ec_shards hb2) dn d1 S1) as (d2 & E2 & T2 & M2).
  exists d1, d2. split; [done|]. split; [exact E2|]. by rewrite T2, M2.
Qed.

#[local] Existing Instance list_rng.
#[local] Existing Instance no_flake.
#[local] Existing Instance willing.

Definition sample_volume : volume :=
  Volume 3 "/a" "pics" (Some "/a/pics_3.dat") None
    (SuperBlock CURRENT_VERSION (ReplicaPlacement 0 1 0) (Ttl 5 Day) 0) false false false 0 0 0.
(** A store with a volume, and a shard of another one. *)
Definition sample_ec : ec_volume :=
  EcVolume.EcVolume 5 "/b" "pics" [] 0 [EcShard 2 5 "pics" "/b" [] 0] ∅ 0 CURRENT_VERSION [].
Definition sample_store : store :=
  Store "10.0.0.1" 80 "n1" [DiskLocation "/a" 7 {[ 3 := sample_volume ]} ∅; DiskLocation "/b" 7 ∅ {[ 5 := sample_ec ]}]
    "dc" "r1" 1000 [] "".
Definition sample_directory : directory := Directory sample_master [("client.a", [])].

Lemma sample_reported vid v : reported 0 sample_store vid v -> vid = 3 /\ v = sample_volume.
Proof.
  intros [(l & Hl & Hv) _]. apply elem_of_cons in Hl as [->|Hl].
  - cbn [dl_volumes] in Hv. by apply lookup_singleton_Some in Hv as [<- <-].
  - apply list_elem_of_singleton in Hl as ->. cbn [dl_volumes] in Hv. by rewrite lookup_empty in Hv.
Qed.

Lemma sample_reportable : reportable sample_volume.
Proof. split; vm_compute; repeat split; congruence. Qed.

(** A server that joins an empty cluster: its first report is forgotten, its second
    one is not. *)
Lemma heartbeat_reports_store_witness :
  exists d1 dn d3 i,
    heartbeat_turn sample_orders 1000 "10.0.0.1"
      (HeartbeatEvent (Some (collect_heartbeat map_to_list 0 (sample_store, ∅)).2) sample_raft true) None sample_start
      = Some (d1, Ok (Some dn, [Some (HeartbeatReply 1000 "m:9333")], true))
    /\ volumes_of dn (tp_tree (di_topology d1)) = ∅
    /\ heartbeat_turn sample_orders 1000 "10.0.0.1"
      (HeartbeatEvent (Some (collect_heartbeat map_to_list 0 (sample_store, ∅)).2) sample_raft true) (Some dn) d1
      = Some (d3, Ok (Some dn, [Some (HeartbeatReply 1000 "m:9333")], true))
    /\ volumes_of dn (tp_tree (di_topology d3)) !! 3 = Some i /\ views 3 sample_volume i.
Proof.
  assert (Hn : forall r, is_dn (tp_tree (di_topology sample_start)) r -> False).
  { intros r (nd & Hr & Hd). unfold get_node in Hr. cbn in Hr. apply lookup_singleton_Some in Hr as [_ <-]. discriminate Hd. }
  destruct (heartbeat_reports_store list_rng no_flake willing sample_orders 1000 "10.0.0.1" sample_raft
    (HeartbeatReply 1000 "m:9333") (collect_heartbeat map_to_list 0 (sample_store, ∅)).2 sample_start)
    as (d1 & dn & E1 & Hv & Hd & H).
  - reflexivity.
  - reflexivity.
  - intros m. reflexivity.
  - intros m. reflexivity.
  - split; [apply tree_ok_new|eexists; split; [reflexivity|reflexivity]].
  - apply map_Forall_empty.
  - intros r Hr. destruct (Hn r Hr).
  - destruct (H d1 map_to_list 0 sample_store ∅ Hd) as (d3 & E3 & _ & H3).
    + intros m. reflexivity.
    + intros vid v [-> ->]%sample_reported. exact sample_reportable.
    + intros vid v w [-> ->]%sample_reported [_ ->]%sample_reported. reflexivity.
    + specialize (H3 3). assert (Hr : reported 0 sample_store 3 sample_volume).
      { split; [|vm_compute; reflexivity]. eexists. split; [apply elem_of_cons; left; reflexivity|apply lookup_singleton_eq]. }
      destruct (volumes_of dn (tp_tree (di_topology d3)) !! 3) as [i|] eqn:Ev; [|destruct (H3 sample_volume Hr)].
      destruct H3 as (v & [_ ->]%sample_reported & Hview). exists d1, dn, d3, i. split; [exact E1|]. split; [|by split].
      rewrite Hv. unfold volumes_of. destruct (get_node (tp_tree (di_topology sample_start)) dn) as [nd|] eqn:En; [|reflexivity].
      unfold get_node in En. cbn in En. apply lookup_singleton_Some in En as [_ <-]. reflexivity.
Defined.

Lemma pulse_forgets_shards_witness :
  hb_ec_shards (collect_erasure_coding_heartbeat map_to_list sample_store) = [EcMessage 5 "pics" 4]
  /\ exists d1 d2,
    heartbeat_turn sample_orders 1000 "10.0.0.1"
      (HeartbeatEvent (Some (collect_heartbeat map_to_list 0 (sample_store, ∅)).2) sample_raft true) (Some 4) sample_directory
      = Some (d1, Ok (Some 4, [Some (HeartbeatReply 1000 "m:9333")], true))
    /\ heartbeat_turn sample_orders 1000 "10.0.0.1"
         (HeartbeatEvent (Some (collect_erasure_coding_heartbeat map_to_list sample_store)) sample_raft true) (Some 4) d1
       = Some (d2, Ok (Some 4, [Some (HeartbeatReply 1000 "m:9333")], true))
    /\ shards_of 4 (tp_tree (di_topology d2)) = ∅.
Proof.
  split; [vm_compute; reflexivity|].
  destruct (pulse_forgets_shards list_rng no_flake willing sample_orders 1000 "10.0.0.1" sample_raft
    (HeartbeatReply 1000 "m:9333") map_to_list map_to_list 0 sample_store ∅ 4 2 sample_directory)
    as (d1 & d2 & H1 & H2 & H3 & _).
  - reflexivity.
  - reflexivity.
  - intros m. reflexivity.
  - vm_compute. reflexivity.
  - apply map_Forall_empty.
  - exists d1, d2. split; [exact H1|]. split; [exact H2|exact H3].
Defined.
