(* ===== verification/Api.v ===== *)
(** * The HTTP API of a volume server ([storage/api/mod.rs],
      [operation/upload.rs])

    Uploads, downloads and deletions of needles, with replication to the other
    servers of a volume.  What the [http], [multer], [mime_guess], [chrono],
    [libflate], [serde_json] and [bincode] crates do is the class [Web]. *)

From S2P Require Import Prelude Messages Types Text Ttl Replica Errors Fid Files Fs Needle Volume EcCodec EcVolume Store EcDisk Directory.
From Stdlib Require Import Ascii.
#[local] Open Scope string_scope.
#[local] Open Scope list_scope.
#[local] Open Scope Z_scope.

(** ** Strings *)

Definition str_bytes (s : string) : list byte := String.list_byte_of_string s.
Definition bytes_str (b : list byte) : string := String.string_of_list_byte b.

(** [String::from_utf8] accepts well-formed UTF-8: the lead byte fixes the
    number of continuation bytes and the range of the first of them. *)
Definition utf8_lead (z : Z) : option (nat * (Z * Z)) :=
  if z <? 128 then Some (0%nat, (128, 191))
  else if (194 <=? z) && (z <=? 223) then Some (1%nat, (128, 191))
  else if z =? 224 then Some (2%nat, (160, 191))
  else if z =? 237 then Some (2%nat, (128, 159))
  else if (225 <=? z) && (z <=? 239) then Some (2%nat, (128, 191))
  else if z =? 240 then Some (3%nat, (144, 191))
  else if (241 <=? z) && (z <=? 243) then Some (3%nat, (128, 191))
  else if z =? 244 then Some (3%nat, (128, 143))
  else None.
Fixpoint utf8_from (pending : nat) (range : Z * Z) (b : list byte) : bool :=
  match b with
  | [] => Nat.eqb pending 0
  | x :: b' =>
      match pending with
      | O => match utf8_lead (b2z x) with Some (k, r) => utf8_from k r b' | None => false end
      | S k => (range.1 <=? b2z x) && (b2z x <=? range.2) && utf8_from k (128, 191) b'
      end
  end.
Definition from_utf8 (b : list byte) : outcome Error string :=
  if utf8_from 0 (128, 191) b then Ok (bytes_str b) else Err EUtf8.

(** ** Requests and responses *)

(** [HeaderMap]: lower-case names with their values, in order. *)
Definition headers := list (string * string).
Definition header (name : string) (hs : headers) : option string :=
  snd <$> List.find (fun h => bool_decide (h.1 = name)) hs.

Record storage_query := StorageQuery {
  sq_type : option string;
  sq_cm : option bool;
  sq_ttl : option string;
  sq_ts : option Z;
}.

Record post_extractor := PostExtractor {
  po_path : string;
  po_headers : headers;
  po_query : storage_query;
  po_body : list byte;
}.
Record delete_extractor := DeleteExtractor { de_path : string; de_query : storage_query }.
Record get_or_head_extractor := GetOrHeadExtractor { ge_path : string; ge_headers : headers }.

Record response := Response { rp_status : Z; rp_headers : gmap string string; rp_body : list byte }.
Definition OK : Z := 200.
Definition ACCEPTED : Z := 202.
Definition NOT_MODIFIED : Z := 304.
Definition NOT_FOUND : Z := 404.

Record upload := Upload { up_name : string; up_size : Z; up_error : string }.

Record parsed_upload := ParseUpload {
  pu_filename : string;
  pu_data : list byte;
  pu_mime_type : string;
  pu_pair_map : gmap string string;
  pu_modified_time : Z;
  pu_ttl : ttl;
  pu_is_chunked_file : bool;
}.

(** A part of a multipart body: its file name, the type and subtype of its
    content type, and its bytes ([None]: the body is cut off). *)
Record field := Field {
  fd_file_name : option string;
  fd_content_type : option (string * string);
  fd_bytes : option (list byte);
}.

Class Web := {
  (* [HeaderValue::to_str], [HeaderName::from_str], [HeaderValue::from_str] accept it *)
  header_text : string -> bool;
  header_name_ok : string -> bool;
  header_value_ok : string -> bool;
  (* the parts up to the end of the body or its first error *)
  multipart : list byte -> string -> list field;
  (* [mime_guess::from_ext(..).first_or_octet_stream()] *)
  from_ext : string -> string * string;
  (* [serde_json] on the pairs: [None] is an error, [Some None] not an object, and
     a value that is not a string is [None] *)
  pairs_to_json : gmap string string -> list byte;
  pairs_from_json : list byte -> option (option (list (string * option string)));
  (* [libflate::gzip::Decoder] *)
  gunzip : list byte -> option (list byte);
  (* [chrono]: milliseconds to text, text to seconds *)
  http_date : Z -> option string;
  parse_http_date : string -> option Z;
  (* [bincode] *)
  serialize : needle -> list byte;
  deserialize : list byte -> option needle;
}.

(** ** The server

    Its store and files, the cache of [Looker], and the requests sent to other
    servers, whose answers are only logged.  Times are in milliseconds. *)
Inductive method := Post | Delete.
Record server := Server {
  sv_store : store * fs;
  sv_looker : gmap Z volume_id_location;
  sv_sent : list (method * string * list byte);
}.
Definition AM := M server Error.

Definition on_store {A} (m : SM A) : AM A := fun s =>
  let '(st, r) := m s.(sv_store) in (Server st s.(sv_looker) s.(sv_sent), r).

Section api.
Context {W : Web} {CL : EcCluster} {RI : ReedSolomonInverse}.
Context (crc : list byte -> Z).

(** The master's [lookup_volume]. *)
Context (master : list string -> outcome status (list volume_id_location)).

Definition look_up (vid : Z) : AM (list volume_id_location) := fun s =>
  let '(c, r) := looker_lookup master [vid] s.(sv_looker) in
  (Server s.(sv_store) c s.(sv_sent), map_err (fun _ => ETonicStatus) r).

(** The requests to the replicas other than this server. *)
Definition send_replicas (m : method) (path : string) (body : list byte) (loc : volume_id_location) : AM unit :=
  fun s =>
    let local_url := (s.(sv_store).1.(st_ip) ++ ":" ++ fmt_dec s.(sv_store).1.(st_port))%string in
    let others := filter (fun l => l.(lc_url) <> local_url) loc.(vl_found) in
    (Server s.(sv_store) s.(sv_looker)
       (s.(sv_sent) ++ map (fun l => (m, ("http://" ++ l.(lc_url) ++ path ++ "?type=replicate")%string, body)) others), Ok tt).

(** What [replicate_write] and [replicate_delete] do after the local change. *)
Definition replicate (m : method) (path : string) (vid : Z) (body : list byte) (is_replicate : bool) : AM unit :=
  if is_replicate then mret tt
  else
    let* s := mget in
    if match find_volume vid s.(sv_store).1 with Some (_, v) => need_to_replicate v | None => true end then
      let* ls := look_up vid in
      match last ls with Some loc => send_replicas m path body loc | None => mret tt end
    else mret tt.

(** ** Deletion *)

Definition is_replicate (q : storage_query) : bool := bool_decide (q.(sq_type) = Some "replicate").

Definition replicate_delete (flt iflt : fault) (path : string) (vid : Z) (n : needle) (replica : bool) : AM Z :=
  let* r := on_store (lift_volume (delete_volume_needle flt iflt vid n)) in
  let* _ := replicate Delete path vid [] replica in
  mret r.2.

Definition delete_handler (flt iflt : fault) (now_ms : Z) (ex : delete_extractor) : AM Z :=
  let* p := mlift (map_err EVolume (Parser.parse_url_path ex.(de_path))) in
  let '(vid, fid, _, _) := p in
  let* n := mlift (map_err ENeedle (new_with_fid fid)) in
  let* r := on_store (read_volume_needle crc (now_ms / 1000) vid n) in
  if negb (n.(n_cookie) =? r.1.(n_cookie)) then mthrow (ENeedle (NCookieNotMatch r.1.(n_cookie) n.(n_cookie)))
  else replicate_delete flt iflt ex.(de_path) vid r.1 (is_replicate ex.(de_query)).

(** ** Upload *)

Fixpoint pair_headers (hs : headers) (m : gmap string string) : outcome Error (gmap string string) :=
  match hs with
  | [] => Ok m
  | (name, value) :: hs' =>
      if String.prefix "helyim-" name then
        let? v := from_utf8 (str_bytes value) in pair_headers hs' (<[name := v]> m)
      else pair_headers hs' m
  end.

(** The first occurrence of a text. *)
Definition str_find_str (pat s : string) : option Z := option_map Z.of_nat (String.index 0 pat s).

Definition get_boundary (hs : headers) : outcome Error string :=
  match header "content-type" hs with
  | Some ct =>
      if header_text ct then
        match str_find_str "boundary=" ct with
        | Some idx => unwrap (str_slice ct (idx + 9) (str_len ct))
        | None => Err EBox
        end
      else Err EToStr
  | None => Err EBox
  end.

(** The first part with a file name: name, content type and bytes. *)
Fixpoint first_file (fs : list field) : outcome Error (string * string * list byte) :=
  match fs with
  | [] => Ok ("", "", [])
  | f :: fs' =>
      match f.(fd_file_name) with
      | Some name =>
          if is_empty name then first_file fs'
          else
            let mtype := match f.(fd_content_type) with
                         | Some (t, sub) => (t ++ "/" ++ sub)%string
                         | None => ""
                         end in
            match f.(fd_bytes) with
            | Some data => Ok (name, mtype, data)
            | None => Err EMulter
            end
      | None => first_file fs'
      end
  end.

(** The extension given to [mime_guess] starts with the dot. *)
Definition guess_mime (filename : string) : outcome Error string :=
  match str_find "." filename with
  | Some idx =>
      let? ext := unwrap (str_slice filename idx (str_len filename)) in
      let '(t, sub) := from_ext ext in
      Ok (if bool_decide (t = "application") && bool_decide (sub = "octet-stream") then ""
          else (t ++ "/" ++ sub)%string)
  | None => Ok ""
  end.

Definition parse_upload (ex : post_extractor) : outcome Error parsed_upload :=
  let? pair_map := pair_headers ex.(po_headers) ∅ in
  let? boundary := get_boundary ex.(po_headers) in
  let? f := first_file (multipart ex.(po_body) boundary) in
  let '(filename, post_mtype, data) := f in
  let is_chunked_file := default false ex.(po_query).(sq_cm) in
  let? mtype := if is_chunked_file then Ok ""
                else
                  let? guess := guess_mime filename in
                  Ok (if negb (is_empty post_mtype) && negb (bool_decide (guess = post_mtype)) then post_mtype else guess) in
  let t := match ex.(po_query).(sq_ttl) with
           | Some s => match Ttl.new s with Ok t => t | _ => Ttl.default end
           | None => Ttl.default
           end in
  Ok (ParseUpload filename data mtype pair_map (default 0 ex.(po_query).(sq_ts)) t is_chunked_file).

(** The needle of an upload before its id is parsed, at [now_ms]. *)
Definition upload_needle (now_ms : Z) (pu : parsed_upload) : needle :=
  let n := set_data 0 pu.(pu_data) 0 needle_default in
  let n := if bool_decide (pu.(pu_pair_map) = ∅) then n
           else set_pairs_fields 0 (pairs_to_json pu.(pu_pair_map)) (set_flag FLAG_HAS_PAIRS n) in
  let n := if is_empty pu.(pu_filename) then n
           else set_flag FLAG_HAS_NAME (set_name_fields 0 (str_bytes pu.(pu_filename)) n) in
  let n := if str_len pu.(pu_mime_type) <? 256
           then set_flag FLAG_HAS_MIME (set_mime_fields 0 (str_bytes pu.(pu_mime_type)) n) else n in
  let modified_time := if pu.(pu_modified_time) =? 0 then u64 now_ms else pu.(pu_modified_time) in
  let n := set_flag FLAG_HAS_LAST_MODIFIED_DATE (Needle.set_last_modified modified_time n) in
  let n := if Ttl.minutes pu.(pu_ttl) =? 0 then n else set_flag FLAG_HAS_TTL (set_ttl pu.(pu_ttl) n) in
  let n := if pu.(pu_is_chunked_file) then set_flag FLAG_IS_CHUNK_MANIFEST n else n in
  set_checksum (crc n.(n_data)) n.

Definition new_needle_from_request (now_ms : Z) (ex : post_extractor) : outcome Error needle :=
  let? pu := parse_upload ex in
  let path := ex.(po_path) in
  let start := match str_find "," path with Some idx => idx + 1 | None => 0 end in
  let end_ := default (str_len path) (str_rfind "." path) in
  let? fid := unwrap (str_slice path start end_) in
  let? kc := map_err ENeedle (KeyHash.parse_path fid) in
  Ok (set_header kc.2 kc.1 0 (upload_needle now_ms pu)).

Definition replicate_write (flt iflt : fault) (path : string) (vid : Z) (n : needle) (replica : bool) : AM (needle * Z) :=
  let* r := on_store (write_volume_needle flt iflt vid n) in
  let* _ := replicate Post path vid (serialize r.1) replica in
  mret r.

Definition post_handler (flt iflt : fault) (now_ms : Z) (ex : post_extractor) : AM upload :=
  let* p := mlift (map_err EVolume (Parser.parse_url_path ex.(po_path))) in
  let '(vid, _, _, _) := p in
  let replica := is_replicate ex.(po_query) in
  let* n := mlift (if replica then match deserialize ex.(po_body) with Some n => Ok n | None => Err EBincode end
                   else new_needle_from_request now_ms ex) in
  let* r := replicate_write flt iflt ex.(po_path) vid n replica in
  let* name := mlift (if has_name r.1 then from_utf8 r.1.(n_name) else Ok "") in
  mret (Upload name r.2 "").

(** ** Download *)

(** [Store::read_ec_shard_needle]: in the first location with the volume. *)
Definition read_ec_volume_needle (now vid : Z) (n : needle) : SM (needle * Z) := fun st =>
  match find_ec_volume vid st.1 with
  | None => (st, Err (EEcVolume (EvShardNotFound vid 0)))
  | Some (i, v) =>
      let '(v', r) := read_ec_shard_needle crc now vid n v in
      ((put_ec_volume i vid v' st.1, st.2), map_err EEcVolume r)
  end.

Definition empty_response (status : Z) (hs : gmap string string) : response := Response status hs [].

(** The headers for the stored pairs; only text values are used. *)
Fixpoint pair_response (kvs : list (string * option string)) (hs : gmap string string)
  : outcome Error (gmap string string) :=
  match kvs with
  | [] => Ok hs
  | (k, Some v) :: kvs' =>
      if negb (header_name_ok k) then Err EInvalidHeaderName
      else if negb (header_value_ok v) then Err EInvalidHeaderValue
      else pair_response kvs' (<[k := v]> hs)
  | (_, None) :: kvs' => pair_response kvs' hs
  end.

(** [If-Modified-Since] and [Last-Modified]: [None] to go on with the headers,
    [Some] to answer. *)
Definition check_modified (req : headers) (n : needle) (hs : gmap string string)
  : outcome Error (gmap string string * bool) :=
  if n.(n_last_modified) =? 0 then Ok (hs, false)
  else
    let? last_modified := unwrap (http_date (i64 n.(n_last_modified))) in
    if negb (header_value_ok last_modified) then Err EInvalidHeaderValue
    else
      let hs := <["last-modified" := last_modified]> hs in
      match header "if-modified-since" req with
      | None => Ok (hs, false)
      | Some since =>
          if is_empty since then Ok (hs, false)
          else if negb (header_text since) then Err EToStr
          else match parse_http_date since with
               | None => Err EChronoParse
               | Some t => Ok (hs, t <=? i64 n.(n_last_modified))
               end
      end.

Definition etag_text (n : needle) : string := String.concat "" (map fmt_dec (etag n)).

(** [value.contains("gzip")] *)
Definition contains (pat s : string) : bool := match String.index 0 pat s with Some _ => true | None => false end.

(** The body and its encoding. *)
Definition encode_body (req : headers) (n : needle) (hs : gmap string string)
  : outcome Error (list byte * gmap string string) :=
  if negb (is_gzipped n) then Ok (n.(n_data), hs)
  else
    match header "accept-encoding" req with
    | Some value =>
        if negb (header_text value) then Err EToStr
        else Ok (n.(n_data), if contains "gzip" value then <["content-encoding" := "gzip"]> hs else hs)
    | None => match gunzip n.(n_data) with Some d => Ok (d, hs) | None => Err EIo end
    end.

(** What [get_or_head_handler] answers once the needle is read. *)
Definition respond (req : headers) (n : needle) : outcome Error response :=
  let? m := check_modified req n ∅ in
  let '(hs, not_modified) := m in
  if not_modified then Ok (empty_response NOT_MODIFIED hs)
  else if bool_decide (header "if-none-match" req = Some (etag_text n)) then Ok (empty_response NOT_MODIFIED hs)
  else if negb (header_value_ok (etag_text n)) then Err EInvalidHeaderValue
  else
    let hs := <["etag" := etag_text n]> hs in
    let? hs := if has_pairs n then
                 match pairs_from_json n.(n_pairs) with
                 | None => Err ESerdeJson
                 | Some None => Ok hs
                 | Some (Some kvs) => pair_response kvs hs
                 end
               else Ok hs in
    let? b := encode_body req n hs in
    let '(data, hs) := b in
    Ok (Response ACCEPTED (<["accept-ranges" := "bytes"]> (<["content-length" := fmt_dec (len data)]> hs)) data).

Definition get_or_head_handler (read_redirect : bool) (now_ms : Z) (ex : get_or_head_extractor) : AM response :=
  let* p := mlift (map_err EVolume (Parser.parse_url_path ex.(ge_path))) in
  let '(vid, fid, _, _) := p in
  let* s := mget in
  let has_volume := has_volume vid s.(sv_store).1 in
  let has_ec_volume := bool_decide (is_Some (find_ec_volume vid s.(sv_store).1)) in
  if negb has_volume && negb has_ec_volume && negb read_redirect then mret (empty_response NOT_FOUND ∅)
  else
    let* n := mlift (map_err ENeedle (new_with_fid fid)) in
    let* r := if has_volume then on_store (read_volume_needle crc (now_ms / 1000) vid n)
              else if has_ec_volume then on_store (read_ec_volume_needle now_ms vid n)
              else mret (n, 0) in
    if r.2 =? 0 then mret (empty_response NOT_FOUND ∅)
    else if negb (r.1.(n_cookie) =? n.(n_cookie)) then mthrow (ENeedle (NCookieNotMatch r.1.(n_cookie) n.(n_cookie)))
    else mlift (respond ex.(ge_headers) r.1).

End api.
