(* ===== verification/ApiFacts.v ===== *)
(** * Uploads and downloads

    A file posted under an assigned file id is served back with its data and
    headers; a request with another cookie gets nothing.  Where the handlers
    depart from what they mean to do - TTLs, conditional requests, replication -
    the theorems state what happens. *)

From S2P Require Import Prelude Messages Types Text Ttl Replica Errors Fid Files Fs Needle NeedleCodec NeedleMap Volume VolumeFacts VacuumFacts EcCodec EcVolume Store StoreFacts EcDisk EcDiskFacts Rand Sequence Topology TopologyFacts Directory DirectoryFacts Api.
From Stdlib Require Import Ascii.
#[local] Open Scope string_scope.
#[local] Open Scope list_scope.
#[local] Open Scope Z_scope.

(** ** The path of an upload *)

Lemma digit_neither d : 0 <= d < 16 -> from_digit d <> ","%char /\ from_digit d <> "."%char.
Proof.
  intros Hd. split; intros E; apply (f_equal zchar) in E; rewrite zchar_from_digit in E by done; revert E;
    change (zchar ",") with 44; change (zchar ".") with 46; bool_cases; lia.
Qed.

Lemma fmt_digits_plain ds : Forall (fun d => 0 <= d < 16) ds ->
  Forall (fun c => c <> ","%char) (chars (fmt_digits ds)) /\ Forall (fun c => c <> "."%char) (chars (fmt_digits ds)).
Proof.
  intros H. rewrite chars_fmt_digits. split; apply List.Forall_map;
    (eapply Forall_impl; [exact H|]; intros d Hd; by apply digit_neither).
Qed.

(** The part between the comma and the dot is the file id. *)
Lemma upload_fid f : FileId.wf f ->
  let path := ("/" ++ FileId.fmt f)%string in
  str_slice path (match str_find "," path with Some idx => idx + 1 | None => 0 end)
    (default (str_len path) (str_rfind "." path))
  = Some (FileId.fmt_key_hash f.(key) f.(hash)).
Proof.
  intros (Hv & Hk & Hh) path. unfold path, FileId.fmt. set (d := fmt_dec (volume_id f)).
  set (kh := FileId.fmt_key_hash _ _).
  assert (Hd16 : Forall (fun x => 0 <= x < 16) (digits 10 64 (volume_id f))).
  { eapply Forall_impl; [apply digits_range; unfold in_u32 in *; lia|]. cbn. lia. }
  destruct (fmt_digits_plain _ Hd16) as [Dc Dd]. fold (fmt_dec (volume_id f)) in Dc, Dd. fold d in Dc, Dd.
  destruct (fmt_digits_plain _ (proj2 (key_hash_digits_ok _ _ Hk Hh))) as [_ Kd].
  rewrite <- fmt_key_hash_digits in Kd. fold kh in Kd.
  change ("/" ++ d ++ "," ++ kh)%string with (("/" ++ d) ++ String.String "," kh)%string.
  rewrite str_find_app by (cbn; constructor; [done|exact Dc]).
  rewrite str_rfind_none.
  2:{ unfold lacks. rewrite chars_app. apply Forall_app. split; cbn; constructor; done. }
  cbn [default]. replace (str_len ("/" ++ d) + 1) with (str_len (("/" ++ d) ++ ",")) by (rewrite str_len_app; done).
  change (("/" ++ d) ++ String.String "," kh)%string with (("/" ++ d) ++ ("," ++ kh))%string.
  rewrite <- append_assoc'. apply str_slice_app_r.
  rewrite !chars_app. apply Forall_app. split; [apply Forall_app; split; [apply Forall_app; split|]|].
  - repeat constructor.
  - apply fmt_digits_ascii. exact Hd16.
  - repeat constructor.
  - unfold kh. rewrite fmt_key_hash_digits. apply fmt_digits_ascii. by apply key_hash_digits_ok.
Qed.

Lemma new_with_fid_ok f : FileId.wf f ->
  new_with_fid (FileId.fmt_key_hash f.(key) f.(hash)) = Ok (set_header f.(hash) f.(key) 0 needle_default).
Proof. intros (_ & Hk & Hh). unfold new_with_fid. by rewrite KeyHash.parse_path_fmt. Qed.

(** ** Strings as bytes *)

Lemma bytes_str_bytes s : bytes_str (str_bytes s) = s.
Proof. apply String.string_of_list_byte_of_string. Qed.

Lemma len_str_bytes s : len (str_bytes s) = str_len s.
Proof.
  unfold len, str_bytes, String.list_byte_of_string, str_len. rewrite length_map. f_equal.
  induction s as [|c s IH]; [done|]. cbn. by rewrite IH.
Qed.

(** ** The uploaded needle *)

(** What the format can store. *)
Record uploadable {W : Web} (pu : parsed_upload) : Prop := {
  up_nonempty : pu.(pu_data) <> [];
  up_small : len pu.(pu_data) < MAX_DATA;
  up_filename : str_len pu.(pu_filename) < 256;
  up_utf8 : utf8_from 0 (128, 191) (str_bytes pu.(pu_filename)) = true;
  up_pairs : len (pairs_to_json pu.(pu_pair_map)) < 2 ^ 16;
  up_modified : in_u64 pu.(pu_modified_time);
  up_ttl : Ttl.wf pu.(pu_ttl);
}.

Definition modified_at (now_ms : Z) (pu : parsed_upload) : Z :=
  if pu.(pu_modified_time) =? 0 then u64 now_ms else pu.(pu_modified_time).

Record uploaded {W : Web} (crc : list byte -> Z) (now_ms : Z) (pu : parsed_upload) (f : file_id) (n : needle) : Prop := {
  ud_id : n.(n_id) = f.(key);
  ud_cookie : n.(n_cookie) = f.(hash);
  ud_data : n.(n_data) = pu.(pu_data);
  ud_gzip : is_gzipped n = false;
  ud_name : has_name n = negb (is_empty pu.(pu_filename));
  ud_name_bytes : n.(n_name) = str_bytes pu.(pu_filename);
  ud_pairs : has_pairs n = negb (bool_decide (pu.(pu_pair_map) = ∅));
  ud_pairs_bytes : has_pairs n = true -> n.(n_pairs) = pairs_to_json pu.(pu_pair_map);
  ud_dated : has_last_modified_date n = true;
  ud_modified : n.(n_last_modified) = modified_at now_ms pu;
  ud_ttl : has_ttl n = negb (Ttl.minutes pu.(pu_ttl) =? 0);
  ud_ttl_value : has_ttl n = true -> n.(n_ttl) = pu.(pu_ttl);
  ud_storable : storable crc n;
}.

Lemma modified_range now_ms pu : in_u64 pu.(pu_modified_time) -> in_u64 (modified_at now_ms pu).
Proof. unfold modified_at. destruct (_ =? _); int_solve. Qed.

Lemma upload_needle_spec {W : Web} crc now_ms pu f :
  (forall d, in_u32 (crc d)) -> FileId.wf f -> uploadable pu ->
  uploaded crc now_ms pu f (set_header f.(hash) f.(key) 0 (upload_needle crc now_ms pu)).
Proof.
  intros Hc (Hv & Hk & Hh) [Hne Hs Hf Hu Hp Hm Ht].
  pose proof (modified_range now_ms pu Hm) as Hmr.
  assert (Hname : len (str_bytes (pu_filename pu)) < 256) by by rewrite len_str_bytes.
  assert (Hempty : is_empty (pu_filename pu) = true -> pu_filename pu = "").
  { unfold is_empty. intros H. by apply bool_decide_eq_true in H. }
  unfold upload_needle, modified_at in *.
  destruct (bool_decide (pu_pair_map pu = ∅)) eqn:Eb; destruct (is_empty (pu_filename pu)) eqn:Ee;
    destruct (str_len (pu_mime_type pu) <? 256) eqn:El; destruct (Ttl.minutes (pu_ttl pu) =? 0) eqn:Et;
    destruct (pu_is_chunked_file pu);
    (split; rewrite ?Eb, ?Ee, ?Et; first [reflexivity | discriminate | (intros _; reflexivity) | (by rewrite (Hempty eq_refl))
      | (split; [split; cbn; first [done | assumption | (unfold in_u8; lia) | (apply Hc)
                  | (apply Z.ltb_lt in El; rewrite len_str_bytes; lia)]|reflexivity])]).
Qed.

(** ** The store behind the handlers *)

Lemma some_result_inv r x : some_result r = Ok (Some x) -> r = Ok x.
Proof. destruct r; cbn; congruence. Qed.

Lemma write_needle_super flt iflt n v s : (write_needle flt iflt n (v, s)).1.1.(v_super_block) = v.(v_super_block).
Proof.
  unfold write_needle, get_volume, mbind', mget, mret, mlift, mmodify, mthrow, mpanic. cbn [fst snd].
  destruct (readonly v); [done|]. cbn [fst snd]. destruct (data_file v s) as [[name f]|e|]; [|done..].
  destruct (append flt n f (append_needle_at f) (version v)) as [[n' f'] [[]|e|]]; [|done..]. cbn [fst snd].
  unfold set_index, with_nm. cbn [fst snd]. destruct (needle_mapper_of v) as [nm|e|]; [|done..].
  destruct (mapper_set _ _ _ _) as [[nm' s'] [o|e|]]; [|done..]. destruct (_ <? _); done.
Qed.

Lemma delete_needle_super flt iflt n v s : (delete_needle flt iflt n (v, s)).1.1.(v_super_block) = v.(v_super_block).
Proof.
  unfold delete_needle, get_volume, mbind', mget, mret, mlift, mmodify, mthrow, mpanic. cbn [fst snd].
  destruct (readonly v); [done|]. destruct (get_index v (n_id n)) as [[nv|]|e|]; [|done..]. cbn [fst snd].
  destruct (data_file v s) as [[name f]|e|]; [|done..].
  destruct (append flt n f (append_needle_at f) (version v)) as [[n' f'] [[]|e|]]; [|done..]. cbn [fst snd map_err].
  unfold delete_index, with_nm. cbn [fst snd]. destruct (needle_mapper_of v) as [nm|e|]; [|done..].
  by destruct (mapper_delete _ _ _) as [[nm' s'] [o|e|]].
Qed.

Section store_steps.
Context (crc : list byte -> Z).
Context (st : store * fs) (a : astore) (vid : Z) (av : avol).
Context (Hinv : store_inv crc st a) (Hav : a.(as_volumes) !! vid = Some av) (Hroom : av.(av_bytes) + 8 < 2 ^ 32).

Lemma store_found : exists i v, find_volume vid st.1 = Some (i, v).
Proof.
  destruct (find_volume vid st.1) as [[i v]|] eqn:E; [by exists i, v|].
  pose proof (si_none _ _ _ Hinv vid E). congruence.
Qed.

Lemma store_write n i v : find_volume vid st.1 = Some (i, v) -> av.(av_readonly) = false -> storable crc n ->
  exists st' v', write_volume_needle None None vid n st = (st', Ok (with_sizes (len (body n)) n, data_size n))
    /\ store_inv crc st' (set_avol vid (AVol (<[n.(n_id) := n]> av.(av_map)) false (av.(av_bytes) + (8 + len (encode n)))) a)
    /\ find_volume vid st'.1 = Some (i, v') /\ v'.(v_super_block) = v.(v_super_block).
Proof.
  intros Hf Hro Hs. destruct (sexec_sim crc (SWrite None None vid n) st a Hinv Hs) as (st' & E & Hinv').
  { intros w Hw. cbn [sop_vid] in Hw. congruence. }
  unfold spec_sop in E, Hinv'. cbn [sop_vid] in E, Hinv'. rewrite Hav in E, Hinv'. unfold on_avol in E, Hinv'.
  rewrite Hro in E, Hinv'. cbn [spec_write stored_result fst snd map_err some_result] in E, Hinv'. cbn [sexec] in E.
  destruct (write_volume_needle None None vid n st) as [st0 r] eqn:Ew.
  injection E as -> Hr. apply some_result_inv in Hr as ->.
  unfold write_volume_needle, mbind', mget, lift_volume, on_volume_at in Ew. rewrite Hf in Ew.
  destruct (readonly v); [done|]. pose proof (write_needle_super None None n v st.2) as Hsup.
  destruct (write_needle None None n (v, st.2)) as [[v' s'] r]. cbn [fst snd] in *. injection Ew as <- Hr.
  exists (put_volume i vid v' st.1, s'), v'. destruct r; try discriminate. injection Hr as ->.
  split; [done|]. split; [done|]. split; [|done]. by apply (find_in_put_eq vid v' v).
Qed.

Lemma store_delete n i v : find_volume vid st.1 = Some (i, v) -> av.(av_readonly) = false -> needle_wf n ->
  is_Some (av.(av_map) !! n.(n_id)) ->
  exists st' v', delete_volume_needle None None vid n st = (st', Ok (with_sizes (len (body n)) n, data_size n))
    /\ store_inv crc st' (set_avol vid (AVol (delete n.(n_id) av.(av_map)) false (av.(av_bytes) + (8 + len (encode n)))) a)
    /\ find_volume vid st'.1 = Some (i, v') /\ v'.(v_super_block) = v.(v_super_block).
Proof.
  intros Hf Hro Hs [old Hold]. destruct (sexec_sim crc (SDelete None None vid n) st a Hinv Hs) as (st' & E & Hinv').
  { intros w Hw. cbn [sop_vid] in Hw. congruence. }
  unfold spec_sop in E, Hinv'. cbn [sop_vid] in E, Hinv'. rewrite Hav in E, Hinv'. unfold on_avol in E, Hinv'.
  rewrite Hro in E, Hinv'. unfold spec_delete in E, Hinv'. rewrite Hold in E, Hinv'.
  cbn [stored_result fst snd map_err some_result] in E, Hinv'. cbn [sexec] in E.
  destruct (delete_volume_needle None None vid n st) as [st0 r] eqn:Ew.
  injection E as -> Hr. apply some_result_inv in Hr. destruct r as [x| |]; [|discriminate..].
  cbn [map_err] in Hr. injection Hr as ->.
  unfold delete_volume_needle, mbind', mget, on_volume_at, mthrow in Ew. rewrite Hf in Ew.
  destruct (v_no_write_or_delete v); [done|]. destruct (_ <=? _); [|done].
  pose proof (delete_needle_super None None n v st.2) as Hsup.
  destruct (delete_needle None None n (v, st.2)) as [[v' s'] r]. cbn [fst snd] in *. injection Ew as <- ->.
  exists (put_volume i vid v' st.1, s'), v'. split; [done|]. split; [done|]. split; [|done].
  by apply (find_in_put_eq vid v' v).
Qed.

Lemma store_read now m : m.(n_data) = [] ->
  read_volume_needle crc now vid m st = (st, map_err EVolume (spec_read vid now m av.(av_map))).
Proof.
  intros Hm. destruct (sexec_sim crc (SRead now vid m) st a Hinv Hm) as (st' & E & _).
  { intros w Hw. cbn [sop_vid] in Hw. congruence. }
  unfold spec_sop in E. cbn [sop_vid] in E. rewrite Hav in E. cbn [snd sexec] in E.
  unfold read_volume_needle, mbind', mget, mlift, mthrow in *.
  destruct store_found as (i & v & Hf). rewrite Hf in *.
  injection E as _ E. f_equal. destruct (read_needle _ _ _ _ _), (spec_read _ _ _ _); cbn in *; congruence.
Qed.

End store_steps.

(** ** What is stored is what is served *)

(** The parts of the crates' documentation the handlers rely on: pairs survive
    JSON in some order, and dates and numbers are header values. *)
Record web_ok (W : Web) : Prop := {
  wk_pairs : forall m, exists kvs, kvs ≡ₚ map_to_list m
    /\ pairs_from_json (pairs_to_json m) = Some (Some (map (fun kv => (kv.1, Some kv.2)) kvs));
  wk_dates : forall ms d, http_date ms = Some d -> header_value_ok d = true;
  wk_digits : forall s, Forall (fun c => is_digit c = true) (chars s) -> header_value_ok s = true;
}.

Lemma decode_served n m : n.(n_data) <> [] ->
  let d := decode n m in
  d.(n_data) = n.(n_data) /\ d.(n_flags) = n.(n_flags) /\ d.(n_cookie) = n.(n_cookie)
  /\ (has_pairs n = true -> d.(n_pairs) = n.(n_pairs))
  /\ (has_last_modified_date n = true -> d.(n_last_modified) = n.(n_last_modified))
  /\ (has_ttl n = true -> d.(n_ttl) = n.(n_ttl)).
Proof.
  intros Hne d. assert (E : len (n_data n) <> 0) by (unfold len; destruct (n_data n); [done|cbn; lia]).
  destruct (decode_fields n m E) as (H1 & H2 & H3 & H4 & _). destruct (decode_options n m E) as (_ & _ & G3 & G4 & G5).
  split; [done|]. split; [done|]. split; [done|]. split; [|split]; intros Hx; rewrite Hx in *; done.
Qed.

Lemma pair_headers_from hs : forall m m', pair_headers hs m = Ok m' ->
  forall k v, m' !! k = Some v -> m !! k = Some v \/ ((k, v) ∈ hs /\ String.prefix "helyim-" k = true).
Proof.
  induction hs as [|[name value] hs IH]; intros m m'; cbn [pair_headers]; [intros [= <-]; by left|].
  destruct (String.prefix "helyim-" name) eqn:Ep.
  - unfold from_utf8. destruct (utf8_from _ _ _); [|done]. cbn [obind]. rewrite bytes_str_bytes. intros E k v Hk.
    destruct (IH _ _ E k v Hk) as [H|[H1 H2]]; [|right; split; [by right|done]].
    destruct (decide (k = name)) as [->|Hne]; [|left; by rewrite lookup_insert_ne in H by done].
    rewrite lookup_insert_eq in H. injection H as ->. right. split; [by left|done].
  - intros E k v Hk. destruct (IH _ _ E k v Hk) as [H|[H1 H2]]; [by left|]. right. split; [by right|done].
Qed.

Lemma pair_response_spec {W : Web} kvs : forall hs,
  Forall (fun kv => header_name_ok kv.1 = true /\ header_value_ok kv.2 = true) kvs -> NoDup (map fst kvs) ->
  exists hs', pair_response (map (fun kv => (kv.1, Some kv.2)) kvs) hs = Ok hs'
    /\ (forall k v, (k, v) ∈ kvs -> hs' !! k = Some v) /\ (forall k, k ∉ map fst kvs -> hs' !! k = hs !! k).
Proof.
  induction kvs as [|[k v] kvs IH]; intros hs Hok Hnd.
  { exists hs. split; [done|]. split; [|done]. intros k v H. by apply not_elem_of_nil in H. }
  apply Forall_cons in Hok as [[Hk Hv] Hok]. cbn [map fst snd] in *. apply NoDup_cons in Hnd as [Hni Hnd].
  cbn [pair_response]. rewrite Hk, Hv. cbn [negb]. destruct (IH (<[k:=v]> hs) Hok Hnd) as (hs' & E & Hin & Hout).
  exists hs'. split; [done|]. split.
  - intros k' v' [[= -> ->]|H]%elem_of_cons; [|by apply Hin]. rewrite Hout by done. apply lookup_insert_eq.
  - intros k' Hk'. apply not_elem_of_cons in Hk' as [Hne Hk']. rewrite Hout by done. by apply lookup_insert_ne.
Qed.

(** A download without conditions. *)
Definition unconditional (req : headers) : Prop :=
  header "if-modified-since" req = None /\ header "if-none-match" req = None.

(** Headers as the server receives them. *)
Definition received {W : Web} (hs : headers) : Prop :=
  Forall (fun h => header_name_ok h.1 = true /\ header_value_ok h.2 = true) hs.

Lemma pairs_answer {W : Web} hs m : web_ok W ->
  (forall k v, m !! k = Some v -> header_name_ok k = true /\ header_value_ok v = true) ->
  exists hs', match pairs_from_json (pairs_to_json m) with
              | None => Err ESerdeJson
              | Some None => Ok hs
              | Some (Some kvs) => pair_response kvs hs
              end = Ok hs'
    /\ (forall k v, m !! k = Some v -> hs' !! k = Some v) /\ (forall k, m !! k = None -> hs' !! k = hs !! k).
Proof.
  intros [Hj _ _] Hm. destruct (Hj m) as (kvs & Hp & ->).
  assert (Hin : forall k v, (k, v) ∈ kvs <-> m !! k = Some v) by (intros k v; rewrite Hp; apply elem_of_map_to_list).
  destruct (pair_response_spec kvs hs) as (hs' & E & H1 & H2).
  - apply Forall_forall. intros [k v] Hkv. apply Hm. by apply Hin.
  - pose proof (NoDup_fst_map_to_list m) as Hnd. change (NoDup (kvs.*1)). by rewrite Hp.
  - exists hs'. split; [done|]. split; [intros k v Hk; by apply H1, Hin|].
    intros k Hk. apply H2. intros Hx. apply list_elem_of_fmap in Hx as ([k' v] & -> & Hkv).
    apply Hin in Hkv. cbn in Hk. congruence.
Qed.

Lemma respond_uploaded {W : Web} crc now pu f n m req d : web_ok W -> uploaded crc now pu f n -> pu.(pu_data) <> [] ->
  unconditional req ->
  (forall k v, pu.(pu_pair_map) !! k = Some v ->
     header_name_ok k = true /\ header_value_ok v = true /\ String.prefix "helyim-" k = true) ->
  modified_at now pu <> 0 -> http_date (i64 (modified_at now pu)) = Some d ->
  exists hs, respond req (decode n m) = Ok (Response ACCEPTED hs pu.(pu_data))
    /\ hs !! "content-length" = Some (fmt_dec (len pu.(pu_data))) /\ hs !! "last-modified" = Some d
    /\ forall k v, pu.(pu_pair_map) !! k = Some v -> hs !! k = Some v.
Proof.
  intros Hw Hu Hne [Hc1 Hc2] Hp Hm Hd. pose proof Hu as []. rewrite <- ud_data0 in Hne.
  destruct (decode_served n m Hne) as (Dd & Df & _ & Dp & Dm & _). specialize (Dm ud_dated0).
  assert (Hkeys : forall k, String.prefix "helyim-" k = false -> pu_pair_map pu !! k = None).
  { intros k Hk. destruct (pu_pair_map pu !! k) eqn:E; [|done]. destruct (Hp _ _ E) as (_ & _ & H). congruence. }
  unfold respond, check_modified. rewrite Dm, ud_modified0. rewrite (proj2 (Z.eqb_neq _ _)) by done.
  rewrite Hd. cbn [unwrap obind]. rewrite (wk_dates _ Hw _ _ Hd). cbn [negb]. rewrite Hc1. cbn [obind].
  rewrite Hc2. rewrite bool_decide_eq_false_2 by done.
  change (etag_text (decode n m)) with "0000". rewrite (wk_digits _ Hw "0000") by (repeat constructor). cbn [negb].
  set (hs0 := <["etag":="0000"]> (<["last-modified":=d]> ∅)).
  assert (Hh : forall n', n'.(n_flags) = n.(n_flags) -> has_pairs n' = has_pairs n /\ is_gzipped n' = is_gzipped n)
    by (intros n' E; unfold has_pairs, is_gzipped; rewrite E; done).
  destruct (Hh _ Df) as [-> Hg].
  assert (exists hs1, (if has_pairs n then match pairs_from_json (n_pairs (decode n m)) with
      | None => Err ESerdeJson | Some None => Ok hs0 | Some (Some kvs) => pair_response kvs hs0 end else Ok hs0) = Ok hs1
    /\ (forall k v, pu_pair_map pu !! k = Some v -> hs1 !! k = Some v)
    /\ (forall k, pu_pair_map pu !! k = None -> hs1 !! k = hs0 !! k)) as (hs1 & -> & H1 & H2).
  { destruct (has_pairs n) eqn:Ep.
    - rewrite (Dp eq_refl), (ud_pairs_bytes0 eq_refl). apply pairs_answer; [done|]. intros k v Hk.
      destruct (Hp k v Hk) as (? & ? & _). done.
    - exists hs0. split; [done|]. split; [|done]. intros k v Hk. exfalso. symmetry in ud_pairs0.
      apply negb_false_iff, bool_decide_eq_true in ud_pairs0. rewrite ud_pairs0 in Hk. by rewrite lookup_empty in Hk. }
  cbn [obind]. unfold encode_body. rewrite Hg, ud_gzip0. cbn [negb obind]. rewrite Dd, ud_data0.
  eexists. split; [reflexivity|]. split; [|split].
  - rewrite lookup_insert_ne by done. apply lookup_insert_eq.
  - rewrite !lookup_insert_ne by done. rewrite H2 by by apply Hkeys. unfold hs0.
    rewrite lookup_insert_ne by done. apply lookup_insert_eq.
  - intros k v Hk. destruct (Hp k v Hk) as (_ & _ & Hpre).
    rewrite !lookup_insert_ne by (intros <-; discriminate Hpre). by apply H1.
Qed.

(** ** Posting *)

Section upload.
Context {W : Web} {CL : EcCluster} {RI : ReedSolomonInverse}.
Context (crc : list byte -> Z) (Hcrc : forall d, in_u32 (crc d)) (Hweb : web_ok W).
Context (master : list string -> outcome status (list volume_id_location)).
Context (s : server) (a : astore) (f : file_id) (i : nat) (v : volume) (av : avol).
Context (Hinv : store_inv crc s.(sv_store) a) (Hfind : find_volume f.(volume_id) s.(sv_store).1 = Some (i, v)).
Context (Hav : a.(as_volumes) !! f.(volume_id) = Some av) (Hro : av.(av_readonly) = false).
Context (Hfid : FileId.wf f).

(** The bytes a volume has to have left. *)
Definition room_for (n : needle) : Prop := av.(av_bytes) + (16 + len (encode n)) < 2 ^ 32.

Context (now_ms : Z) (Hnow : 0 < now_ms < 2 ^ 63) (ex : post_extractor) (pu : parsed_upload).
Context (Hpath : ex.(po_path) = ("/" ++ FileId.fmt f)%string) (Hrepl : is_replicate ex.(po_query) = false).
Context (Hparse : parse_upload ex = Ok pu) (Hup : uploadable pu) (Hrec : received ex.(po_headers)).

Definition posted : needle := set_header f.(hash) f.(key) 0 (upload_needle crc now_ms pu).
Context (Hroom : room_for posted).

Lemma posted_uploaded : uploaded crc now_ms pu f posted.
Proof. by apply upload_needle_spec. Qed.

Lemma request_needle : new_needle_from_request crc now_ms ex = Ok posted.
Proof.
  unfold new_needle_from_request. rewrite Hparse. cbn [obind]. rewrite Hpath.
  rewrite (upload_fid f Hfid). cbn [unwrap obind]. destruct Hfid as (_ & Hk & Hh). by rewrite KeyHash.parse_path_fmt.
Qed.

Lemma pairs_received k w : pu.(pu_pair_map) !! k = Some w ->
  header_name_ok k = true /\ header_value_ok w = true /\ String.prefix "helyim-" k = true.
Proof.
  intros Hk. unfold parse_upload in Hparse. destruct (pair_headers (po_headers ex) ∅) as [m|e|] eqn:Em; [|done..].
  cbn [obind] in Hparse. destruct (get_boundary _); [|done..]. cbn [obind] in Hparse.
  destruct (first_file _) as [[[fn mt] d]|e|]; [|done..]. cbn [obind] in Hparse.
  destruct (if default false (sq_cm (po_query ex)) then _ else _); [|done..]. cbn [obind] in Hparse.
  injection Hparse as <-. cbn [pu_pair_map] in Hk.
  destruct (pair_headers_from _ _ _ Em _ _ Hk) as [He|[Hin Hp]]; [by rewrite lookup_empty in He|].
  destruct (proj1 (Forall_forall _ _) Hrec _ Hin). done.
Qed.

(** The local write of an upload. *)
Lemma post_writes : exists st' v',
  on_store (write_volume_needle None None f.(volume_id) posted) s
  = (Server st' s.(sv_looker) s.(sv_sent), Ok (with_sizes (len (body posted)) posted, len pu.(pu_data)))
  /\ store_inv crc st' (set_avol f.(volume_id)
       (AVol (<[f.(key) := posted]> av.(av_map)) false (av.(av_bytes) + (8 + len (encode posted)))) a)
  /\ find_volume f.(volume_id) st'.1 = Some (i, v') /\ v'.(v_super_block) = v.(v_super_block).
Proof.
  pose proof posted_uploaded as []. unfold room_for in Hroom. pose proof (len_nonneg (encode posted)).
  destruct (store_write crc _ a _ av Hinv Hav ltac:(lia) posted i v Hfind Hro ud_storable0) as (st' & v' & E & H1 & H2 & H3).
  exists st', v'. unfold on_store. rewrite E. rewrite ud_id0 in H1. split; [|done]. unfold data_size. by rewrite ud_data0.
Qed.

(** The handler: replication is all that can fail after the local write. *)
Lemma post_stored : exists st' v',
  post_handler crc master None None now_ms ex s
  = (if need_to_replicate v' then
       let '(c, r) := looker_lookup master [f.(volume_id)] s.(sv_looker) in
       let s1 := Server st' c s.(sv_sent) in
       match r with
       | Ok ls => let s2 := match last ls with
                            | Some loc => (send_replicas Post ex.(po_path) (serialize (with_sizes (len (body posted)) posted)) loc s1).1
                            | None => s1
                            end in (s2, Ok (Upload pu.(pu_filename) (len pu.(pu_data)) ""))
       | Err _ => (s1, Err ETonicStatus)
       | Panic => (s1, Panic)
       end
     else (Server st' s.(sv_looker) s.(sv_sent), Ok (Upload pu.(pu_filename) (len pu.(pu_data)) "")))
  /\ store_inv crc st' (set_avol f.(volume_id)
       (AVol (<[f.(key) := posted]> av.(av_map)) false (av.(av_bytes) + (8 + len (encode posted)))) a)
  /\ v'.(v_super_block) = v.(v_super_block).
Proof.
  destruct post_writes as (st' & v' & E & Hst & Hf' & Hsup). exists st', v'. split; [|done].
  unfold post_handler, mbind' at 1, mlift at 1. rewrite Hpath, (parse_fid_path f Hfid). cbn [map_err].
  unfold mbind' at 1, mlift at 1. rewrite Hrepl, request_needle.
  unfold mbind' at 1, replicate_write, mbind' at 1. rewrite E. unfold mbind' at 1, replicate, mbind' at 1, mget. cbn [sv_store].
  rewrite Hf'. cbn [fst snd].
  assert (Hname : forall s0, (let* name := mlift (if has_name (with_sizes (len (body posted)) posted)
                                 then from_utf8 (n_name (with_sizes (len (body posted)) posted)) else Ok "") in
                       mret (Upload name (len (pu_data pu)) "")) s0
                  = ((s0 : server), Ok (Upload (pu_filename pu) (len (pu_data pu)) ""))).
  { intros s0. pose proof posted_uploaded as []. change (has_name (with_sizes _ posted)) with (has_name posted).
    change (n_name (with_sizes _ posted)) with (n_name posted). rewrite ud_name0, ud_name_bytes0.
    destruct (is_empty (pu_filename pu)) eqn:Ee; cbn [negb].
    - apply bool_decide_eq_true in Ee. by rewrite Ee.
    - unfold from_utf8. rewrite (up_utf8 _ Hup), bytes_str_bytes. done. }
  destruct (need_to_replicate v'); [|apply Hname].
  unfold mbind' at 1, look_up. cbn [sv_store sv_looker sv_sent].
  destruct (looker_lookup master [volume_id f] (sv_looker s)) as [c [ls|e|]]; [|done..]. cbn [map_err].
  destruct (last ls) as [loc|]; [unfold send_replicas; cbn [fst]|]; apply Hname.
Qed.

(** Reading it back. *)
Lemma get_posted st' rr now' req d l sent : let n := posted in
  store_inv crc st' (set_avol f.(volume_id)
       (AVol (<[f.(key) := n]> av.(av_map)) false (av.(av_bytes) + (8 + len (encode n)))) a) ->
  unconditional req -> http_date (i64 (modified_at now_ms pu)) = Some d ->
  Ttl.minutes pu.(pu_ttl) = 0 \/ now' / 1000 < u64 (modified_at now_ms pu + u64 (Ttl.minutes pu.(pu_ttl) * 60)) ->
  exists hs, get_or_head_handler crc rr now' (GetOrHeadExtractor ex.(po_path) req) (Server st' l sent)
             = (Server st' l sent, Ok (Response ACCEPTED hs pu.(pu_data)))
    /\ hs !! "content-length" = Some (fmt_dec (len pu.(pu_data))) /\ hs !! "last-modified" = Some d
    /\ forall k w, pu.(pu_pair_map) !! k = Some w -> hs !! k = Some w.
Proof.
  intros n Hst Hreq Hd Hlive. pose proof posted_uploaded as Hu. fold n in Hu. pose proof Hu as [].
  set (a' := set_avol _ _ a) in Hst. set (av' := AVol _ _ _) in a'.
  assert (Hav' : as_volumes a' !! volume_id f = Some av') by apply lookup_insert_eq.
  pose proof Hroom as Hr. unfold room_for in Hr. fold n in Hr.
  set (m := set_header (hash f) (key f) 0 needle_default).
  assert (Hr' : av_bytes av' + 8 < 2 ^ 32) by (cbn [av_bytes av']; lia).
  pose proof (store_read crc st' a' _ av' Hst Hav' Hr' (now' / 1000) m eq_refl) as Hread.
  pose proof (up_nonempty _ Hup) as Hne. assert (Hne' : n_data n <> []) by by rewrite ud_data0.
  destruct (decode_served n m Hne') as (Dd & Df & Dc & _ & Dm & Dt). specialize (Dm ud_dated0).
  assert (Hfl : has_ttl (decode n m) = has_ttl n /\ has_last_modified_date (decode n m) = has_last_modified_date n)
    by (unfold has_ttl, has_last_modified_date; by rewrite Df).
  assert (Hsp : spec_read (volume_id f) (now' / 1000) m (av_map av') = Ok (decode n m, len (pu_data pu))).
  { unfold spec_read. change (n_id m) with (key f). cbn [av_map av']. rewrite lookup_insert_eq.
    unfold data_size. rewrite Dd, ud_data0. replace (live _ _) with true; [done|]. symmetry. unfold live.
    destruct Hfl as [-> ->]. destruct (has_ttl n) eqn:Et; [|done]. cbn [negb orb].
    rewrite (Dt eq_refl), (ud_ttl_value0 eq_refl), Dm, ud_modified0, ud_dated0. cbn [negb].
    destruct Hlive as [->|Hlt]; [done|]. rewrite (proj2 (Z.ltb_lt _ _)) by done. by rewrite orb_true_r. }
  rewrite Hsp in Hread. cbn [map_err] in Hread.
  assert (Hmod : modified_at now_ms pu <> 0).
  { unfold modified_at. destruct (Z.eqb_spec (pu_modified_time pu) 0); [|done]. rewrite u64_id by (unfold in_u64; lia). lia. }
  destruct (respond_uploaded crc now_ms pu f n m req d Hweb Hu Hne Hreq pairs_received Hmod Hd) as (hs & E & Hhs).
  exists hs. split; [|done]. unfold get_or_head_handler, mbind', mlift, mget, mret, mthrow. cbn [ge_path ge_headers].
  rewrite Hpath, (parse_fid_path f Hfid). cbn [map_err sv_store].
  destruct (store_found crc st' a' _ av' Hst Hav') as (j & w & Hjw).
  unfold has_volume. rewrite Hjw. rewrite bool_decide_eq_true_2 by done. cbn [negb andb].
  rewrite (new_with_fid_ok f Hfid). cbn [map_err]. unfold on_store. cbn [sv_store sv_looker sv_sent]. fold m. rewrite Hread.
  cbn [fst snd]. assert (len (pu_data pu) =? 0 = false) as ->
    by (apply Z.eqb_neq; unfold len; destruct (pu_data pu); [done|cbn; lia]).
  rewrite Dc, ud_cookie0. change (n_cookie m) with (hash f). rewrite Z.eqb_refl. cbn [negb]. by rewrite E.
Qed.

End upload.

Lemma posted_is_served : forall (W : Web) (CL : EcCluster) (RI : ReedSolomonInverse) crc master s a f i v av now_ms ex pu,
  (forall d, in_u32 (crc d)) -> web_ok W ->
  store_inv crc s.(sv_store) a -> find_volume f.(volume_id) s.(sv_store).1 = Some (i, v) ->
  a.(as_volumes) !! f.(volume_id) = Some av -> av.(av_readonly) = false -> need_to_replicate v = false ->
  FileId.wf f -> 0 < now_ms < 2 ^ 63 ->
  ex.(po_path) = ("/" ++ FileId.fmt f)%string -> is_replicate ex.(po_query) = false ->
  parse_upload ex = Ok pu -> uploadable pu -> received ex.(po_headers) -> room_for av (posted crc f now_ms pu) ->
  exists s', post_handler crc master None None now_ms ex s = (s', Ok (Upload pu.(pu_filename) (len pu.(pu_data)) ""))
    /\ s'.(sv_sent) = s.(sv_sent)
    /\ forall rr now' req d, unconditional req -> http_date (i64 (modified_at now_ms pu)) = Some d ->
       Ttl.minutes pu.(pu_ttl) = 0 \/ now' / 1000 < u64 (modified_at now_ms pu + u64 (Ttl.minutes pu.(pu_ttl) * 60)) ->
       exists hs, get_or_head_handler crc rr now' (GetOrHeadExtractor ex.(po_path) req) s'
                  = (s', Ok (Response ACCEPTED hs pu.(pu_data)))
         /\ hs !! "content-length" = Some (fmt_dec (len pu.(pu_data))) /\ hs !! "last-modified" = Some d
         /\ forall k w, pu.(pu_pair_map) !! k = Some w -> hs !! k = Some w.
Proof.
  intros W CL RI crc master s a f i v av now_ms ex pu Hcrc Hweb Hinv Hfind Hav Hro Hrep Hfid Hnow Hpath Hq Hparse Hup Hrec Hroom.
  destruct (post_stored crc Hcrc master s a f i v av Hinv Hfind Hav Hro Hfid now_ms ex pu Hpath Hq Hparse Hup Hroom)
    as (st' & v' & E & Hst & Hsup).
  exists (Server st' s.(sv_looker) s.(sv_sent)). rewrite E. unfold need_to_replicate in *. rewrite Hsup, Hrep.
  split; [done|]. split; [done|]. intros rr now' req d.
  by apply (get_posted crc Hcrc Hweb a f av Hfid now_ms Hnow ex pu Hpath Hparse Hup Hrec Hroom).
Qed.

(** C4: a non-empty file whose name and headers fit the needle format ([uploadable]:
    a name below 256 bytes, pairs below 64 KiB), posted under an assigned file id to a
    volume that is not read-only, has no replicas and has room below 4 GiB, is
    stored, and any later unconditional download before its TTL has passed is
    answered with its data, its length, its date and the custom headers it was
    posted with; downloads change nothing. *)
Theorem upload_download : forall (W : Web) (CL : EcCluster) (RI : ReedSolomonInverse) crc master s a f i v av now_ms ex pu,
  (forall d, in_u32 (crc d)) -> web_ok W ->
  store_inv crc s.(sv_store) a -> find_volume f.(volume_id) s.(sv_store).1 = Some (i, v) ->
  a.(as_volumes) !! f.(volume_id) = Some av -> av.(av_readonly) = false -> need_to_replicate v = false ->
  FileId.wf f -> 0 < now_ms < 2 ^ 63 ->
  ex.(po_path) = ("/" ++ FileId.fmt f)%string -> is_replicate ex.(po_query) = false ->
  parse_upload ex = Ok pu -> uploadable pu -> received ex.(po_headers) -> room_for av (posted crc f now_ms pu) ->
  exists s', post_handler crc master None None now_ms ex s = (s', Ok (Upload pu.(pu_filename) (len pu.(pu_data)) ""))
    /\ s'.(sv_sent) = s.(sv_sent)
    /\ forall rr now' req d, unconditional req -> http_date (i64 (modified_at now_ms pu)) = Some d ->
       Ttl.minutes pu.(pu_ttl) = 0 \/ now' / 1000 < u64 (modified_at now_ms pu + u64 (Ttl.minutes pu.(pu_ttl) * 60)) ->
       exists hs, get_or_head_handler crc rr now' (GetOrHeadExtractor ex.(po_path) req) s'
                  = (s', Ok (Response ACCEPTED hs pu.(pu_data)))
         /\ hs !! "content-length" = Some (fmt_dec (len pu.(pu_data))) /\ hs !! "last-modified" = Some d
         /\ forall k w, pu.(pu_pair_map) !! k = Some w -> hs !! k = Some w.
Proof. intros W CL RI crc master s a f i v av now_ms ex pu. apply posted_is_served. Qed.

Lemma minutes_range t : Ttl.wf t -> in_u32 (Ttl.minutes t).
Proof.
  intros Hw. rewrite Ttl.minutes_no_overflow by done. destruct t as [c []]; unfold Ttl.wf in Hw; cbn in *; int_solve.
Qed.

(** A TTL has no effect on an upload that does not give its own date: the date
    is taken in milliseconds and compared in seconds, so the file is still
    served at any time after the TTL has passed. *)
Theorem upload_ttl_ignored : forall (W : Web) (CL : EcCluster) (RI : ReedSolomonInverse) crc master s a f i v av now_ms ex pu,
  (forall d, in_u32 (crc d)) -> web_ok W ->
  store_inv crc s.(sv_store) a -> find_volume f.(volume_id) s.(sv_store).1 = Some (i, v) ->
  a.(as_volumes) !! f.(volume_id) = Some av -> av.(av_readonly) = false -> need_to_replicate v = false ->
  FileId.wf f -> 0 < now_ms < 2 ^ 62 ->
  ex.(po_path) = ("/" ++ FileId.fmt f)%string -> is_replicate ex.(po_query) = false ->
  parse_upload ex = Ok pu -> uploadable pu -> received ex.(po_headers) -> room_for av (posted crc f now_ms pu) ->
  pu.(pu_modified_time) = 0 ->
  exists s' u, post_handler crc master None None now_ms ex s = (s', Ok u)
    /\ forall now' d, now_ms + Ttl.minutes pu.(pu_ttl) * 60 * 1000 < now' -> now' / 1000 < now_ms ->
       http_date (i64 now_ms) = Some d ->
       exists hs, get_or_head_handler crc false now' (GetOrHeadExtractor ex.(po_path) []) s'
                  = (s', Ok (Response ACCEPTED hs pu.(pu_data))).
Proof.
  intros W CL RI crc master s a f i v av now_ms ex pu Hcrc Hweb Hinv Hfind Hav Hro Hrep Hfid Hnow Hpath Hq Hparse Hup Hrec Hroom Hts.
  destruct (post_stored crc Hcrc master s a f i v av Hinv Hfind Hav Hro Hfid now_ms ex pu Hpath Hq Hparse Hup Hroom)
    as (st' & v' & E & Hst & Hsup).
  exists (Server st' s.(sv_looker) s.(sv_sent)), (Upload pu.(pu_filename) (len pu.(pu_data)) "").
  rewrite E. unfold need_to_replicate in *. rewrite Hsup, Hrep. split; [done|]. intros now' d _ Hlt Hd.
  assert (Hmod : modified_at now_ms pu = now_ms)
    by (unfold modified_at; rewrite Hts, Z.eqb_refl; apply u64_id; unfold in_u64; lia).
  destruct (get_posted crc Hcrc Hweb a f av Hfid now_ms ltac:(lia) ex pu Hpath Hparse Hup Hrec Hroom st' false now' [] d
    s.(sv_looker) s.(sv_sent) Hst) as (hs & Hg & _); [done|by rewrite Hmod| |by exists hs].
  right. rewrite Hmod. pose proof (minutes_range _ (up_ttl _ Hup)) as Hmin. unfold in_u32 in Hmin.
  rewrite (u64_id (Ttl.minutes _ * 60)) by (unfold in_u64; lia). rewrite u64_id by (unfold in_u64; lia). lia.
Qed.

(** C39: an upload to a volume that has replicas is answered with an error, because
    the lookup of the replicas is rejected by the master; the needle is stored
    all the same, and no replica is asked to store it. *)
Theorem replicated_upload_fails : forall (W : Web) (CL : EcCluster) (RI : ReedSolomonInverse) (R : Rng) (F : Flake) (P : Rpc)
  crc collection topo s a f i v av now_ms ex pu,
  (forall d, in_u32 (crc d)) ->
  store_inv crc s.(sv_store) a -> find_volume f.(volume_id) s.(sv_store).1 = Some (i, v) ->
  a.(as_volumes) !! f.(volume_id) = Some av -> av.(av_readonly) = false -> need_to_replicate v = true ->
  FileId.wf f -> ex.(po_path) = ("/" ++ FileId.fmt f)%string -> is_replicate ex.(po_query) = false ->
  parse_upload ex = Ok pu -> uploadable pu -> room_for av (posted crc f now_ms pu) ->
  exists st', post_handler crc (fun ids => lookup_volume collection ids topo) None None now_ms ex s
              = (Server st' s.(sv_looker) s.(sv_sent), Err ETonicStatus)
    /\ store_inv crc st' (set_avol f.(volume_id)
         (AVol (<[f.(key) := posted crc f now_ms pu]> av.(av_map)) false
            (av.(av_bytes) + (8 + len (encode (posted crc f now_ms pu))))) a).
Proof.
  intros W CL RI R F P crc collection topo s a f i v av now_ms ex pu Hcrc Hinv Hfind Hav Hro Hrep Hfid Hpath Hq Hparse Hup Hroom.
  destruct (post_stored crc Hcrc (fun ids => lookup_volume collection ids topo) s a f i v av Hinv Hfind Hav Hro Hfid now_ms ex pu Hpath Hq Hparse Hup Hroom)
    as (st' & v' & E & Hst & Hsup).
  exists st'. split; [|done]. rewrite E. unfold need_to_replicate in *. rewrite Hsup, Hrep.
  rewrite looker_fails by (constructor; [apply Hfid|constructor]). done.
Qed.

(** ** Cookies and deletion *)

Lemma replicate_local master m path vid b repl s i v : find_volume vid s.(sv_store).1 = Some (i, v) ->
  need_to_replicate v = false -> replicate master m path vid b repl s = (s, Ok tt).
Proof.
  intros Hf Hn. unfold replicate. destruct repl; [done|]. unfold mbind' at 1, mget. rewrite Hf. by rewrite Hn.
Qed.

Section stored.
Context {W : Web} {CL : EcCluster} {RI : ReedSolomonInverse}.
Context (crc : list byte -> Z) (s : server) (a : astore) (f : file_id) (av : avol) (n : needle).
Context (Hinv : store_inv crc s.(sv_store) a) (Hav : a.(as_volumes) !! f.(volume_id) = Some av).
Context (Hroom : av.(av_bytes) + 8 < 2 ^ 32) (Hfid : FileId.wf f).

(** The request of a path, and reading it. *)
Definition asked : needle := set_header f.(hash) f.(key) 0 needle_default.

Lemma get_reads rr now_ms req :
  get_or_head_handler crc rr now_ms (GetOrHeadExtractor ("/" ++ FileId.fmt f)%string req) s
  = (s, match spec_read f.(volume_id) (now_ms / 1000) asked av.(av_map) with
        | Ok r => if r.2 =? 0 then Ok (empty_response NOT_FOUND ∅)
                  else if negb (r.1.(n_cookie) =? f.(hash)) then Err (ENeedle (NCookieNotMatch r.1.(n_cookie) f.(hash)))
                  else respond req r.1
        | Err e => Err (EVolume e)
        | Panic => Panic
        end).
Proof.
  unfold get_or_head_handler, mbind', mlift, mget, mret, mthrow. cbn [ge_path ge_headers].
  rewrite (parse_fid_path f Hfid). cbn [map_err]. destruct (store_found crc _ a _ av Hinv Hav) as (j & w & Hjw).
  unfold has_volume. rewrite Hjw. rewrite bool_decide_eq_true_2 by done. cbn [negb andb].
  rewrite (new_with_fid_ok f Hfid). cbn [map_err]. unfold on_store.
  fold asked. rewrite (store_read crc _ a _ av Hinv Hav Hroom (now_ms / 1000) asked eq_refl).
  destruct s as [st l sent]. cbn [sv_store sv_looker sv_sent].
  destruct (spec_read _ _ _ _) as [r|e|]; cbn [map_err]; [|done..].
  destruct (r.2 =? 0); [done|]. change (n_cookie asked) with (hash f). by destruct (negb _).
Qed.

Lemma delete_reads master flt iflt now_ms q :
  delete_handler crc master flt iflt now_ms (DeleteExtractor ("/" ++ FileId.fmt f)%string q) s
  = match spec_read f.(volume_id) (now_ms / 1000) asked av.(av_map) with
    | Ok r => if negb (f.(hash) =? r.1.(n_cookie)) then (s, Err (ENeedle (NCookieNotMatch r.1.(n_cookie) f.(hash))))
              else replicate_delete master flt iflt ("/" ++ FileId.fmt f)%string f.(volume_id) r.1 (is_replicate q) s
    | Err e => (s, Err (EVolume e))
    | Panic => (s, Panic)
    end.
Proof.
  unfold delete_handler, mbind' at 1 2 3, mlift, mthrow. cbn [de_path de_query].
  rewrite (parse_fid_path f Hfid). cbn [map_err]. rewrite (new_with_fid_ok f Hfid). cbn [map_err]. unfold on_store.
  fold asked. rewrite (store_read crc _ a _ av Hinv Hav Hroom (now_ms / 1000) asked eq_refl).
  destruct s as [st l sent]. cbn [sv_store sv_looker sv_sent].
  destruct (spec_read _ _ _ _) as [r|e|]; cbn [map_err]; [|done..]. change (n_cookie asked) with (hash f). by destruct (negb _).
Qed.

End stored.

(** C6: a request whose cookie is not the one of the stored needle neither reads
    nor deletes it: both are answered with an error and nothing changes. *)
Theorem cookie_guards : forall (W : Web) (CL : EcCluster) (RI : ReedSolomonInverse) crc master s a f av n rr now_ms req flt iflt q,
  store_inv crc s.(sv_store) a -> a.(as_volumes) !! f.(volume_id) = Some av -> av.(av_bytes) + 8 < 2 ^ 32 ->
  FileId.wf f -> av.(av_map) !! f.(key) = Some n -> n.(n_data) <> [] -> n.(n_cookie) <> f.(hash) ->
  let path := ("/" ++ FileId.fmt f)%string in
  (exists e, get_or_head_handler crc rr now_ms (GetOrHeadExtractor path req) s = (s, Err e))
  /\ (exists e, delete_handler crc master flt iflt now_ms (DeleteExtractor path q) s = (s, Err e)).
Proof.
  intros W CL RI crc master s a f av n rr now_ms req flt iflt q Hinv Hav Hroom Hfid Hn Hne Hc path. unfold path.
  rewrite (get_reads crc s a f av Hinv Hav Hroom Hfid), (delete_reads crc s a f av Hinv Hav Hroom Hfid).
  unfold spec_read. change (n_id (asked f)) with (key f). rewrite Hn.
  destruct (decode_served n (asked f) Hne) as (Dd & _ & Dc & _).
  destruct (live _ _); [|split; by eexists]. cbn [fst snd]. unfold data_size. rewrite Dd, Dc.
  assert (len (n_data n) =? 0 = false) as -> by (apply Z.eqb_neq; unfold len; destruct (n_data n); [done|cbn; lia]).
  rewrite (proj2 (Z.eqb_neq (n_cookie n) _)), (proj2 (Z.eqb_neq _ (n_cookie n))) by congruence. cbn [negb].
  split; by eexists.
Qed.

(** C7: in a volume that is not read-only, has no replicas and has room below 4 GiB,
    deleting a stored needle with data, under its cookie and before its TTL has
    passed, answers its size; afterwards the needle is not found, and downloads of
    the other needles of the volume are answered as before. *)
Theorem delete_removes : forall (W : Web) (CL : EcCluster) (RI : ReedSolomonInverse) crc master s a f i v av n now_ms q,
  store_inv crc s.(sv_store) a -> find_volume f.(volume_id) s.(sv_store).1 = Some (i, v) ->
  a.(as_volumes) !! f.(volume_id) = Some av -> av.(av_readonly) = false -> need_to_replicate v = false ->
  room_for av n -> FileId.wf f ->
  av.(av_map) !! f.(key) = Some n -> needle_wf n -> n.(n_id) = f.(key) -> n.(n_data) <> [] -> n.(n_cookie) = f.(hash) ->
  live (now_ms / 1000) (decode n (asked f)) = true ->
  let path := ("/" ++ FileId.fmt f)%string in
  exists s', delete_handler crc master None None now_ms (DeleteExtractor path q) s = (s', Ok (len n.(n_data)))
    /\ (forall rr now' req, get_or_head_handler crc rr now' (GetOrHeadExtractor path req) s'
                            = (s', Err (EVolume (VNeedle (NNotFound f.(key))))))
    /\ forall rr now' req g, FileId.wf g -> volume_id g = volume_id f -> key g <> key f ->
         (get_or_head_handler crc rr now' (GetOrHeadExtractor ("/" ++ FileId.fmt g)%string req) s').2
         = (get_or_head_handler crc rr now' (GetOrHeadExtractor ("/" ++ FileId.fmt g)%string req) s).2.
Proof.
  intros W CL RI crc master s a f i v av n now_ms q Hinv Hfind Hav Hro Hrep Hroom Hfid Hn Hwf Hid Hne Hc Hl path.
  unfold room_for in Hroom. pose proof (len_nonneg (encode n)) as Hlen.
  assert (Hr : av_bytes av + 8 < 2 ^ 32) by lia. assert (Hz : len (n_data n) <> 0) by (unfold len; destruct (n_data n); [done|cbn; lia]).
  unfold path. rewrite (delete_reads crc s a f av Hinv Hav Hr Hfid).
  unfold spec_read. change (n_id (asked f)) with (key f). rewrite Hn, Hl. cbn [fst snd].
  set (d := decode n (asked f)) in *. destruct (decode_served n (asked f) Hne) as (Dd & _ & Dc & _). fold d in Dd, Dc.
  rewrite Dc, Hc, Z.eqb_refl. cbn [negb].
  destruct (decode_fields n (asked f) Hz) as (_ & Di & _). fold d in Di. rewrite Hid in Di.
  destruct (store_delete crc _ a _ av Hinv Hav Hr d i v Hfind Hro) as (st' & v' & E & Hst & Hf' & Hsup).
  { change d with (decode n needle_default). by apply decode_wf. }
  { rewrite Di, Hn. by eexists. }
  unfold replicate_delete, mbind' at 1, on_store, lift_volume. rewrite E. cbn [map_err]. unfold mbind' at 1.
  rewrite (replicate_local master Delete _ _ [] _ (Server st' _ _) i v' Hf') by (unfold need_to_replicate in *; by rewrite Hsup).
  unfold mret. cbn [fst snd]. unfold data_size. rewrite Dd. eexists. split; [done|].
  set (a' := set_avol _ _ a) in Hst. set (av' := AVol _ _ _) in a'.
  assert (Hav' : as_volumes a' !! volume_id f = Some av') by apply lookup_insert_eq.
  assert (Henc : encode d = encode n) by by apply encode_decode.
  assert (Hr' : av_bytes av' + 8 < 2 ^ 32) by (cbn [av_bytes av']; rewrite Henc; lia).
  split.
  - intros rr now' req. rewrite (get_reads crc (Server st' _ _) a' f av' Hst Hav' Hr' Hfid).
    unfold spec_read. change (n_id (asked f)) with (key f). cbn [av_map av']. by rewrite Di, lookup_delete_eq.
  - intros rr now' req g Hg Hvg Hkg. rewrite <- Hvg in Hav, Hav'.
    rewrite (get_reads crc (Server st' _ _) a' g av' Hst Hav' Hr' Hg), (get_reads crc s a g av Hinv Hav Hr Hg). cbn [snd].
    unfold spec_read. change (n_id (asked g)) with (key g). cbn [av_map av']. by rewrite Di, lookup_delete_ne by congruence.
Qed.

(** Conditional downloads are told that nothing has changed: always when the
    file has changed since the date the client asks about, and always for the
    one entity tag the server gives out. *)
Theorem conditional_requests_stale : forall (W : Web) req n d,
  n.(n_last_modified) <> 0 -> 0 <= n.(n_last_modified) < 2 ^ 63 ->
  http_date n.(n_last_modified) = Some d -> header_value_ok d = true ->
  (forall since t, header "if-modified-since" req = Some since -> since <> "" -> header_text since = true ->
     parse_http_date since = Some t -> 0 <= t -> t * 1000 < n.(n_last_modified) ->
     respond req n = Ok (Response NOT_MODIFIED {[ "last-modified" := d ]} []))
  /\ (header "if-modified-since" req = None -> header "if-none-match" req = Some "0000" ->
      respond req n = Ok (Response NOT_MODIFIED {[ "last-modified" := d ]} [])).
Proof.
  intros W req n d Hz Hr Hd Hok. assert (Hi : i64 (n_last_modified n) = n_last_modified n) by int_solve.
  unfold respond, check_modified. rewrite (proj2 (Z.eqb_neq _ _)) by done. rewrite Hi, Hd. cbn [unwrap obind]. rewrite Hok. cbn [negb].
  split.
  - intros since t -> Hne Htx -> Ht Hlt. unfold is_empty. rewrite bool_decide_eq_false_2 by done. rewrite Htx. cbn [negb obind].
    rewrite (proj2 (Z.leb_le _ _)) by lia. done.
  - intros -> ->. done.
Qed.

(** ** Examples *)

(** A web that accepts every header, knows one date, and writes pairs as the
    bits of their number. *)
Fixpoint bits_of (p : positive) : list byte :=
  match p with xH => [] | xO p => Byte.x00 :: bits_of p | xI p => Byte.x01 :: bits_of p end.
Fixpoint of_bits (b : list byte) : positive :=
  match b with [] => xH | Byte.x00 :: b => xO (of_bits b) | _ :: b => xI (of_bits b) end.
Lemma of_bits_of p : of_bits (bits_of p) = p.
Proof. induction p as [p IH|p IH|]; cbn; by rewrite ?IH. Qed.

#[local] Instance plain_web : Web := {
  header_text _ := true; header_name_ok _ := true; header_value_ok _ := true;
  multipart body _ := [Field (Some "a.txt") (Some ("text", "plain")) (Some body)];
  from_ext _ := ("application", "octet-stream");
  pairs_to_json m := bits_of (countable.encode m);
  pairs_from_json b := match countable.decode (of_bits b) with
                       | Some m => Some (Some (map (fun kv => (kv.1, Some kv.2)) (map_to_list (m : gmap string string))))
                       | None => None
                       end;
  gunzip _ := None;
  http_date _ := Some "Thu, 01 Jan 1970 00:00:05 GMT"; parse_http_date _ := Some 4;
  serialize _ := []; deserialize _ := None;
}.
Lemma plain_web_ok : web_ok plain_web.
Proof.
  split; [|done..]. intros m. exists (map_to_list m). split; [done|].
  cbn [pairs_from_json pairs_to_json plain_web]. by rewrite of_bits_of, decode_encode.
Qed.

#[local] Instance no_cluster : EcCluster := {
  lookup_ec_volume _ := Err EvTonic; volume_ec_shard_read _ _ _ _ _ _ := Err EvTonic;
}.
#[local] Instance no_decoder : ReedSolomonInverse := { rs_reconstruct _ := None }.

(** A server after some requests. *)
Definition empty_astore : astore := AStore ∅ (map (fun l => i64 l.(dl_max_volume_count)) two_dirs.(st_locations)).
Definition server_after (os : list sop) : server := Server (sexec_all sum_crc os (two_dirs, ∅)).1 ∅ [].
Definition astore_after (os : list sop) : astore := (spec_sop_all os empty_astore).1.
Lemma server_after_inv os : Forall (sop_ok sum_crc) os -> (forall vid, 8 + cost_of vid os < 2 ^ 32 - 8) ->
  store_inv sum_crc (server_after os).(sv_store) (astore_after os).
Proof.
  intros Hok Hc. destruct (sexec_all_sim sum_crc os (two_dirs, ∅) empty_astore) as (st' & E & H); [|done| |done|].
  - apply store_inv_new. repeat constructor.
  - intros vid av Hav. cbn [empty_astore as_volumes] in Hav. by rewrite lookup_empty in Hav.
  - unfold server_after. cbn [sv_store]. rewrite E. exact H.
Qed.

(** One new volume. *)
Definition new_server (rp : replica_placement) : server := server_after [SAdd 5 3 "" rp Ttl.default].
Definition new_astore : astore := AStore {[ 3 := AVol ∅ false 8 ]} [1; 6].

Lemma new_server_inv rp : store_inv sum_crc (new_server rp).(sv_store) new_astore.
Proof.
  apply (server_after_inv [SAdd 5 3 "" rp Ttl.default]).
  - repeat constructor; done.
  - intros vid. unfold cost_of. cbn [fold_right sop_cost sop_vid]. destruct (3 =? vid); lia.
Qed.

Lemma sum_crc_range d : in_u32 (sum_crc d).
Proof. apply u32_range. Qed.

Definition sample_fid : file_id := FileId 3 42 7.
Definition sample_post : post_extractor :=
  PostExtractor "/3,2a00000007" [("content-type", "multipart/form-data; boundary=x"); ("helyim-color", "red")]
    (StorageQuery None None (Some "1d") None) hello.
Definition sample_pu : parsed_upload :=
  ParseUpload "a.txt" hello "text/plain" {[ "helyim-color" := "red" ]} 0 (Ttl 1 Day) false.

Lemma sample_uploadable : uploadable sample_pu.
Proof. split; cbn [sample_pu pu_data pu_filename pu_modified_time pu_ttl]; [done|done|done|done|done| |]; vm_compute; split; congruence. Qed.

Lemma sample_room : room_for (AVol ∅ false 8) (posted sum_crc sample_fid 5000 sample_pu).
Proof. vm_compute. reflexivity. Qed.

Lemma sample_received : received sample_post.(po_headers).
Proof. repeat constructor. Qed.

Lemma sample_fid_wf : FileId.wf sample_fid.
Proof. unfold FileId.wf, in_u32, in_u64. cbn. lia. Qed.

Lemma upload_download_witness : exists s' hs,
  post_handler sum_crc (fun _ => Err NotFound) None None 5000 sample_post (new_server Replica.default)
    = (s', Ok (Upload "a.txt" 5 ""))
  /\ get_or_head_handler sum_crc false 5000 (GetOrHeadExtractor "/3,2a00000007" []) s' = (s', Ok (Response ACCEPTED hs hello))
  /\ hs !! "content-length" = Some "5" /\ hs !! "helyim-color" = Some "red".
Proof.
  assert (exists v, find_volume 3 (sv_store (new_server Replica.default)).1 = Some (1%nat, v) /\ need_to_replicate v = false)
    as (v & Hf & Hr) by (eexists; split; [vm_compute; reflexivity|reflexivity]).
  destruct (upload_download plain_web no_cluster no_decoder sum_crc (fun _ => Err NotFound) (new_server Replica.default)
    new_astore sample_fid 1 v (AVol ∅ false 8) 5000 sample_post sample_pu sum_crc_range plain_web_ok
    (new_server_inv _) Hf eq_refl eq_refl Hr sample_fid_wf ltac:(lia) eq_refl eq_refl eq_refl sample_uploadable
    sample_received sample_room) as (s' & H1 & _ & H2).
  destruct (H2 false 5000 [] "Thu, 01 Jan 1970 00:00:05 GMT") as (hs & H3 & H4 & _ & H5);
    [split; reflexivity|reflexivity|right; reflexivity|].
  exists s', hs. split; [exact H1|]. split; [exact H3|]. split; [exact H4|]. apply H5. reflexivity.
Defined.

Lemma upload_ttl_ignored_witness : exists s' u hs,
  post_handler sum_crc (fun _ => Err NotFound) None None 5000000 sample_post (new_server Replica.default) = (s', Ok u)
  /\ get_or_head_handler sum_crc false 1000000000 (GetOrHeadExtractor "/3,2a00000007" []) s' = (s', Ok (Response ACCEPTED hs hello)).
Proof.
  assert (exists v, find_volume 3 (sv_store (new_server Replica.default)).1 = Some (1%nat, v) /\ need_to_replicate v = false)
    as (v & Hf & Hr) by (eexists; split; [vm_compute; reflexivity|reflexivity]).
  destruct (upload_ttl_ignored plain_web no_cluster no_decoder sum_crc (fun _ => Err NotFound) (new_server Replica.default)
    new_astore sample_fid 1 v (AVol ∅ false 8) 5000000 sample_post sample_pu sum_crc_range plain_web_ok
    (new_server_inv _) Hf eq_refl eq_refl Hr sample_fid_wf ltac:(lia) eq_refl eq_refl eq_refl sample_uploadable
    sample_received ltac:(vm_compute; reflexivity) eq_refl) as (s' & u & H1 & H2).
  destruct (H2 1000000000 "Thu, 01 Jan 1970 00:00:05 GMT") as (hs & H3); [reflexivity|reflexivity|reflexivity|].
  exists s', u, hs. split; [exact H1|exact H3].
Defined.

#[local] Existing Instance list_rng.
#[local] Existing Instance no_flake.
#[local] Existing Instance willing.

Lemma replicated_upload_fails_witness : exists st',
  post_handler sum_crc (fun ids => lookup_volume "" ids sample_loaded) None None 5000 sample_post (new_server (ReplicaPlacement 1 0 0))
  = (Server st' ∅ [], Err ETonicStatus).
Proof.
  assert (exists v, find_volume 3 (sv_store (new_server (ReplicaPlacement 1 0 0))).1 = Some (1%nat, v) /\ need_to_replicate v = true)
    as (v & Hf & Hr) by (eexists; split; [vm_compute; reflexivity|reflexivity]).
  destruct (replicated_upload_fails plain_web no_cluster no_decoder list_rng no_flake willing sum_crc "" sample_loaded
    (new_server (ReplicaPlacement 1 0 0)) new_astore sample_fid 1 v (AVol ∅ false 8) 5000 sample_post sample_pu sum_crc_range
    (new_server_inv _) Hf eq_refl eq_refl Hr sample_fid_wf eq_refl eq_refl eq_refl sample_uploadable sample_room) as (st' & H & _).
  exists st'. exact H.
Defined.

(** A volume with a needle. *)
Definition uploaded_needle : needle := posted sum_crc sample_fid 5000 sample_pu.
Definition load : list sop := [SAdd 5 3 "" Replica.default Ttl.default; SWrite None None 3 uploaded_needle].

Definition loaded_avol : avol := AVol {[ 42 := uploaded_needle ]} false (16 + len (encode uploaded_needle)).

Lemma load_inv : store_inv sum_crc (server_after load).(sv_store) (astore_after load).
Proof.
  apply server_after_inv.
  - pose proof (upload_needle_spec sum_crc 5000 sample_pu sample_fid sum_crc_range sample_fid_wf sample_uploadable) as [].
    constructor; [split; done|]. constructor; [done|constructor].
  - intros vid. unfold cost_of, load. cbn [fold_right sop_vid sop_cost].
    assert (len (encode uploaded_needle) < 1000) by (vm_compute; reflexivity). destruct (3 =? vid); lia.
Qed.

Lemma cookie_guards_witness :
  (exists e, get_or_head_handler sum_crc false 6000 (GetOrHeadExtractor "/3,2a00000008" []) (server_after load) = (server_after load, Err e))
  /\ (exists e, delete_handler sum_crc (fun _ => Err NotFound) None None 6000
                 (DeleteExtractor "/3,2a00000008" (StorageQuery None None None None)) (server_after load) = (server_after load, Err e)).
Proof.
  apply (cookie_guards plain_web no_cluster no_decoder sum_crc (fun _ => Err NotFound) (server_after load) (astore_after load)
    (FileId 3 42 8) loaded_avol uploaded_needle
    false 6000 [] None None (StorageQuery None None None None) load_inv);
    [vm_compute; reflexivity|reflexivity|unfold FileId.wf, in_u32, in_u64; cbn; lia|reflexivity|discriminate|discriminate].
Defined.

Lemma delete_removes_witness : exists s',
  delete_handler sum_crc (fun _ => Err NotFound) None None 6000
    (DeleteExtractor "/3,2a00000007" (StorageQuery None None None None)) (server_after load) = (s', Ok 5)
  /\ get_or_head_handler sum_crc false 6000 (GetOrHeadExtractor "/3,2a00000007" []) s'
     = (s', Err (EVolume (VNeedle (NNotFound 42)))).
Proof.
  assert (exists v, find_volume 3 (sv_store (server_after load)).1 = Some (1%nat, v) /\ need_to_replicate v = false)
    as (v & Hf & Hr) by (eexists; split; [vm_compute; reflexivity|reflexivity]).
  pose proof (upload_needle_spec sum_crc 5000 sample_pu sample_fid sum_crc_range sample_fid_wf sample_uploadable) as [].
  destruct (delete_removes plain_web no_cluster no_decoder sum_crc (fun _ => Err NotFound) (server_after load) (astore_after load)
    sample_fid 1 v loaded_avol uploaded_needle
    6000 (StorageQuery None None None None) load_inv Hf ltac:(vm_compute; reflexivity) eq_refl Hr ltac:(vm_compute; reflexivity)
    sample_fid_wf eq_refl (proj1 ud_storable0) eq_refl ltac:(discriminate) eq_refl ltac:(vm_compute; reflexivity))
    as (s' & H1 & H2 & _).
  exists s'. split; [exact H1|exact (H2 false 6000 [])].
Defined.

Lemma conditional_requests_stale_witness :
  respond [("if-modified-since", "x")] (Needle.set_last_modified 5000 needle_default)
  = Ok (Response NOT_MODIFIED {[ "last-modified" := "Thu, 01 Jan 1970 00:00:05 GMT" ]} []).
Proof.
  apply (proj1 (conditional_requests_stale plain_web [("if-modified-since", "x")] (Needle.set_last_modified 5000 needle_default)
    "Thu, 01 Jan 1970 00:00:05 GMT" ltac:(discriminate) ltac:(cbn; lia) eq_refl eq_refl) "x" 4);
    [reflexivity|discriminate|reflexivity|reflexivity|lia|cbn; lia].
Defined.
