(* ===== verification/Server.v ===== *)
(** * The volume server ([storage/server.rs])

    The gRPC handlers as operations on the store and its files, and the task
    that keeps a heartbeat stream to the leader of the masters. *)

From S2P Require Import Prelude Messages Types Text Ttl Replica Errors Fid Files Fs Needle NeedleMap Volume EcCodec EcIndex EcVolume Store EcDisk.
From Stdlib Require Import Strings.Byte Strings.Ascii.
#[local] Open Scope list_scope.
#[local] Open Scope Z_scope.

Definition BUFFER_SIZE_LIMIT : Z := 2 * 1024 * 1024.

(** The codes of [tonic::Status] the handlers answer with. *)
Inductive status := Internal | NotFoundStatus | InvalidArgument.

Definition GM := M (store * fs) status.

(** [?] on an error of the storage: every [From] to [Status] is [internal]. *)
Definition internal {E A} (m : M (store * fs) E A) : GM A := fun st =>
  let '(st, r) := m st in (st, map_err (fun _ => Internal) r).
Definition on_files {E A} (m : M fs E A) : GM A := fun st =>
  let '(s, r) := m st.2 in ((st.1, s), map_err (fun _ => Internal) r).

(** Open shard and index files show what the handler has written. *)
Definition sync (st : store * fs) : store * fs :=
  (set_locations (map (fun l => set_ec_volumes (Disk.view st.2 <$> l.(dl_ec_volumes)) l) st.1.(st_locations)) st.1, st.2).
Definition synced {A} (m : GM A) : GM A := fun st => let '(st, r) := m st in (sync st, r).

(** ** Volumes *)

Section volumes.
Context (crc : list byte -> Z).

Definition allocate_volume (flt : fault) (mtime vid : Z) (collection replication ttl : string) : GM unit :=
  internal (add_volume crc flt mtime vid collection replication ttl).

(** [None]: the store waits for itself. *)
Definition volume_delete (vid : Z) (st : store * fs) : option ((store * fs) * outcome status unit) :=
  match delete_volume vid st with
  | Some (st, r) => Some (st, map_err (fun _ => Internal) r)
  | None => None
  end.

Definition volume_mark_readonly (vid : Z) : GM unit := internal (mark_volume_readonly vid).

Definition vacuum_volume_check (vid : Z) : GM (Z * Z) :=
  let* st := mget in internal (mlift (check_compact_volume vid st.1)).
Definition vacuum_volume_compact (fuel : nat) (mtime now vid : Z) : GM unit :=
  internal (compact_volume crc fuel mtime now vid).
Definition vacuum_volume_commit (order : gmap Z needle_value -> list (Z * needle_value)) (mtime vid : Z) : GM unit :=
  internal (commit_compact_volume crc order mtime vid).
Definition vacuum_volume_cleanup (vid : Z) : GM unit := internal (commit_cleanup_volume vid).

End volumes.

(** ** Shards *)

Section shards.
Context {VI : VolumeInfoJson} {RS : ReedSolomon} {RI : ReedSolomonInverse}.

Definition volume_ec_shards_generate (vid : Z) (collection : string) : GM unit := synced (
  let* st := mget in
  match find_volume vid st.1 with
  | Some (_, v) =>
      let base := filename v in
      if negb (bool_decide (v.(v_collection) = collection)) then mthrow InvalidArgument
      else
        let* _ := on_files (Disk.write_sorted_file_from_index base ".ecx") in
        let* _ := on_files (Disk.write_ec_files base) in
        on_files (save_volume_info (base ++ ".vif")%string (VolumeInfo [] (version v) ""))
  | None => mthrow NotFoundStatus
  end).

(** The first location that has the sorted index. *)
Fixpoint rebuild_in (base : string) (ls : list disk_location) : M fs status (list Z) :=
  match ls with
  | [] => mret []
  | l :: ls' =>
      let* s := mget in
      let path := (l.(dl_directory) ++ "/" ++ base)%string in
      let* found := mlift (map_err (fun _ => Internal) (file_exists (path ++ ".ecx")%string s)) in
      if found then
        let* ids := (fun s => let '(s, r) := Disk.rebuild_ec_files path s in (s, map_err (fun _ => Internal) r)) in
        let* _ := (fun s => let '(s, r) := rebuild_ecx_file path s in (s, map_err (fun _ => Internal) r)) in
        mret ids
      else rebuild_in base ls'
  end.

Definition volume_ec_shards_rebuild (vid : Z) (collection : string) : GM (list Z) := synced (
  let* st := mget in
  on_files (rebuild_in (ec_shard_base_filename collection vid) st.1.(st_locations))).

(** [todo!()] *)
Definition volume_ec_shards_copy (vid : Z) (collection : string) (shard_ids : list Z) : GM unit := mpanic.
Definition volume_ec_shards_mount (vid : Z) (collection : string) (shard_ids : list Z) : GM unit := mpanic.
Definition volume_ec_shards_unmount (vid : Z) (shard_ids : list Z) : GM unit := mpanic.

(** [volume_ec_shards_delete]; [listing] are the names in a directory. *)
Definition remove (name : string) : M fs status unit := fun s =>
  let '(s, r) := fs_remove name s in (s, map_err (fun _ => Internal) r).

Fixpoint remove_shards (base : string) (shard_ids : list Z) : M fs status unit :=
  match shard_ids with
  | [] => mret tt
  | id :: ids => let* _ := remove (shard_path base (u8 id)) in remove_shards base ids
  end.

(** The path is the directory and the name without a separator; the answer is
    the path of the first location that has the sorted index. *)
Fixpoint delete_in (base : string) (shard_ids : list Z) (ls : list disk_location) : M fs status (option string) :=
  match ls with
  | [] => mret None
  | l :: ls' =>
      let* s := mget in
      let path := (l.(dl_directory) ++ base)%string in
      let* found := mlift (map_err (fun _ => Internal) (file_exists (path ++ ".ecx")%string s)) in
      if found then let* _ := remove_shards path shard_ids in mret (Some path)
      else delete_in base shard_ids ls'
  end.

(** [Path::file_name] of a path that does not end in a separator *)
Definition file_name (path : string) : string :=
  match str_rfind "/" path with
  | Some i => default path (str_slice path (i + 1) (str_len path))
  | None => path
  end.

(** Whether there is a sorted index or a journal, whether there is an index, and
    how many other files start like a shard. *)
Fixpoint count_files (name : string) (entries : list string) (acc : bool * bool * Z) : bool * bool * Z :=
  match entries with
  | [] => acc
  | e :: entries' =>
      let '(has_ecx, has_idx, shards) := acc in
      count_files name entries'
        (if bool_decide (e = (name ++ ".ecx")%string) || bool_decide (e = (name ++ ".ecj")%string)
         then (true, has_idx, shards)
         else if bool_decide (e = (name ++ ".idx")%string) then (has_ecx, true, shards)
         else if String.prefix (name ++ ".ec") e then (has_ecx, has_idx, shards + 1)
         else acc)
  end.

Definition volume_ec_shards_delete (listing : string -> fs -> list string) (vid : Z) (collection : string)
    (shard_ids : list Z) : GM unit := synced (
  let* st := mget in
  on_files (
    let* found := delete_in (ec_shard_base_filename collection vid) shard_ids st.1.(st_locations) in
    match found with
    | None => mret tt
    | Some base =>
        let* s := mget in
        let '(has_ecx, has_idx, shards) :=
          count_files (file_name base) (flat_map (fun l => listing l.(dl_directory) s) st.1.(st_locations)) (false, false, 0) in
        let* _ := (if has_ecx && (shards =? 0) then
                     let* _ := remove (base ++ ".ecx")%string in remove (base ++ ".ecj")%string
                   else mret tt) in
        if negb has_idx then remove (base ++ ".vif")%string else mret tt
    end)).

(** The task behind [volume_ec_shard_read]: the chunks it sends and whether the
    stream ends.  A read at the end of the file leaves the loop where it is, for
    ever.  Every other turn advances in the file, so its length is enough fuel. *)
Fixpoint shard_read_loop (fuel : nat) (f : file) (buf_size start_offset bytes_to_read : Z) : list (list byte) * bool :=
  if bytes_to_read <=? 0 then ([], true)
  else
    match fuel with
    | O => ([], false)
    | S fuel' =>
        let buffer := read_at f start_offset (Z.min buf_size bytes_to_read) in
        if len buffer =? 0 then ([], false)
        else
          let '(chunks, ends) :=
            shard_read_loop fuel' f buf_size (start_offset + len buffer) (bytes_to_read - len buffer) in
          (buffer :: chunks, ends)
    end.

Definition shard_read_task (f : file) (offset size : Z) : list (list byte) * bool :=
  shard_read_loop (S (length f)) f (Z.min (u64 size) BUFFER_SIZE_LIMIT) (u64 offset) (u64 size).

(** The messages of the stream, as data and deletion mark, and whether it ends. *)
Definition volume_ec_shard_read (vid shard_id offset size file_key : Z) : GM (list (list byte * bool) * bool) :=
  let* st := mget in
  match find_ec_volume vid st.1 with
  | Some (_, v) =>
      match EcVolume.find_ec_shard (u8 shard_id) v with
      | Some sh =>
          let* deleted :=
            (if file_key =? 0 then mret false
             else let* nv := internal (mlift (find_needle_from_ecx file_key v)) in
                  mret (Size.is_deleted nv.(nv_size))) in
          if deleted then mret ([([], true)], true)
          else let '(chunks, ends) := shard_read_task sh.(ecd_file) offset size in
               mret (map (fun c => (c, false)) chunks, ends)
      | None => mthrow NotFoundStatus
      end
  | None => mthrow NotFoundStatus
  end.

(** What was written through the open index and journal files. *)
Definition write_through (v : ec_volume) (s : fs) : fs :=
  let put name f s := if bool_decide (is_Some (s !! name)) then fs_put name f s else s in
  let base := Disk.volume_filename v in
  put (base ++ ".ecj")%string v.(ecj_file) (put (base ++ ".ecx")%string v.(ecx_file) s).

Definition volume_ec_blob_delete (vid file_key : Z) : GM unit := synced (
  let* st := mget in
  match find_ec_volume vid st.1 with
  | Some (i, v) =>
      let* located := internal (mlift (locate_ec_shard_needle file_key v)) in
      if Size.is_deleted located.1.(nv_size) then mret tt
      else internal (fun st =>
        let '(v, r) := delete_needle_from_ecx file_key v in
        ((put_ec_volume i vid v st.1, write_through v st.2), r))
  | None => mret tt
  end).

Definition volume_ec_shards_to_volume (vid : Z) (collection : string) : GM unit :=
  let* st := mget in
  match find_ec_volume vid st.1 with
  | Some (_, v) =>
      if negb (bool_decide (v.(ev_collection) = collection)) then mthrow InvalidArgument
      else
        let base := Disk.volume_filename v in
        let* data_filesize := on_files (let* s := mget in mlift (Disk.find_data_filesize base s)) in
        let* _ := on_files (Disk.write_data_file base (i64 data_filesize)) in
        on_files (Disk.write_index_file_from_ec_index base)
  | None => mthrow NotFoundStatus
  end.

End shards.

(** ** Heartbeats *)

(** What the request stream of [do_heartbeat] sends when its timer ticks and
    when the store has announced a change. *)
Definition tick_requests (volume_order : gmap Z volume -> list (Z * volume))
    (ec_order : gmap Z ec_volume -> list (Z * ec_volume)) (now : Z) (st : store * fs) : (store * fs) * list heartbeat :=
  let '(st, beat) := collect_heartbeat volume_order now st in
  (st, [beat; collect_erasure_coding_heartbeat ec_order st.1]).

Definition delta_request (d : delta) : heartbeat :=
  match d with
  | NewVolume m => Heartbeat "" 0 "" 0 0 "" "" [] [m] [] false [] [] [] false
  | DeletedVolume m => Heartbeat "" 0 "" 0 0 "" "" [] [] [m] false [] [] [] false
  | NewEcShard m => Heartbeat "" 0 "" 0 0 "" "" [] [] [] false [] [m] [] false
  | DeletedEcShard m => Heartbeat "" 0 "" 0 0 "" "" [] [] [] false [] [] [m] false
  end.

(** What becomes of a connection to a master: the address is not one, the call
    fails, or replies arrive until the stream ends, [None] for an error. *)
Inductive connection :=
| BadAddress
| Refused
| Replies (rs : list (option heartbeat_reply)).

Fixpoint read_replies (master : string) (rs : list (option heartbeat_reply)) (s : store) : store * outcome VolumeError unit :=
  match rs with
  | [] => (s, Ok tt)
  | Some r :: rs' =>
      let old_leader := s.(st_current_master) in
      if negb (is_empty r.(hr_leader)) && negb (bool_decide (r.(hr_leader) = old_leader))
      then (set_current_master r.(hr_leader) s, Err (VLeaderChanged r.(hr_leader) old_leader))
      else read_replies master rs' (set_volume_size_limit r.(hr_volume_size_limit) s)
  | None :: _ => (s, Err (VSendHeartbeat master))
  end.

Definition do_heartbeat (master : string) (c : connection) (s : store) : store * outcome VolumeError unit :=
  match c with
  | BadAddress => (s, Err VTonicTransport)
  | Refused => (s, Err VStartHeartbeat)
  | Replies rs => read_replies master rs s
  end.

(** The loop of [heartbeat] until the server stops: [conns] says what becomes of
    the successive connections, [contacted] are the masters it has called. *)
Record beat_state := BeatState {
  bs_store : store;
  new_leader : string;
  contacted : list string;
}.

Definition visit_master (conns : nat -> connection) (st : beat_state) (master : string) : beat_state :=
  if negb (is_empty st.(new_leader)) && negb (bool_decide (st.(new_leader) = master)) then st
  else
    let '(s, r) := do_heartbeat master (conns (length st.(contacted))) (set_current_master master st.(bs_store)) in
    let calls := st.(contacted) ++ [master] in
    match r with
    | Err (VLeaderChanged new _) => BeatState s (if is_empty new then st.(new_leader) else new) calls
    | Err VStartHeartbeat | Err (VSendHeartbeat _) => BeatState (set_current_master "" s) "" calls
    | _ => BeatState s st.(new_leader) calls
    end.

Definition heartbeat_round (conns : nat -> connection) (seed_masters : list string) (st : beat_state) : beat_state :=
  fold_left (visit_master conns) seed_masters st.

Definition heartbeat_rounds (conns : nat -> connection) (seed_masters : list string) (n : nat) (st : beat_state) : beat_state :=
  Nat.iter n (heartbeat_round conns seed_masters) st.
