(* ===== verification/ServerFacts.v ===== *)
(** * What the volume server guarantees

    Streams of shard data between volume servers, and the heartbeat task. *)

From S2P Require Import Prelude Messages Types Text Ttl Replica Errors Fid Files Fs Needle NeedleMap Volume EcCodec EcIndex EcVolume Store EcDisk Server.
From Stdlib Require Import Strings.Byte.
#[local] Open Scope list_scope.
#[local] Open Scope Z_scope.

(** ** Streams of shard data *)

Lemma len_read_at f off n : 0 <= off -> 0 <= n -> len (read_at f off n) = Z.max 0 (Z.min n (len f - off)).
Proof. intros. unfold read_at, len. rewrite length_take, length_drop. lia. Qed.

Lemma read_at_split f off a b : 0 <= off -> 0 <= a -> 0 <= b ->
  read_at f off (a + b) = read_at f off a ++ read_at f (off + a) b.
Proof.
  intros. unfold read_at. rewrite !Z2Nat.inj_add by lia.
  by rewrite <- drop_drop, take_take_drop.
Qed.

Lemma read_at_nil f off n : 0 <= off -> len f <= off -> read_at f off n = [].
Proof. intros. unfold read_at. rewrite drop_len by done. apply take_nil. Qed.

Lemma read_at_short f off m n : 0 <= off -> len f <= off + m -> m <= n -> read_at f off m = read_at f off n.
Proof.
  intros. unfold read_at.
  assert (Hd : (length (drop (Z.to_nat off) f) <= Z.to_nat m)%nat) by (rewrite length_drop; unfold len in *; lia).
  rewrite !take_ge by lia. done.
Qed.

Definition chunk_ok (buf : Z) (c : list byte) : Prop := 0 < len c <= buf.

(** The loop sends the range, as far as the file has it, in chunks of the
    buffer; it ends exactly when the file has all of it. *)
Lemma shard_read_loop_spec f buf : 0 < buf -> forall fuel off n, 0 <= off -> len f - off < Z.of_nat fuel ->
  exists chunks, shard_read_loop fuel f buf off n = (chunks, (n <=? 0) || (off + n <=? len f))
    /\ concat chunks = read_at f off n /\ Forall (chunk_ok buf) chunks.
Proof.
  intros Hb fuel. induction fuel as [|fuel IH]; intros off n Ho Hf; cbn [shard_read_loop];
    destruct (Z.leb_spec n 0) as [Hn|Hn]; cbn [orb].
  - exists []. split; [done|]. split; [|constructor]. unfold read_at. by replace (Z.to_nat n) with O by lia.
  - exists []. destruct (Z.leb_spec (off + n) (len f)); [lia|].
    split; [done|]. split; [|constructor]. rewrite read_at_nil by lia. done.
  - exists []. split; [done|]. split; [|constructor]. unfold read_at. by replace (Z.to_nat n) with O by lia.
  - set (b := read_at f off (Z.min buf n)).
    assert (Hl : len b = Z.max 0 (Z.min (Z.min buf n) (len f - off))) by (apply len_read_at; lia).
    destruct (Z.eqb_spec (len b) 0) as [E|E].
    + exists []. destruct (Z.leb_spec (off + n) (len f)); [lia|]. split; [done|]. split; [|constructor].
      rewrite read_at_nil by lia. done.
    + destruct (IH (off + len b) (n - len b)) as (cs & -> & Hc & Hk); [lia..|].
      exists (b :: cs). split; [|split].
      * f_equal. replace (off + len b + (n - len b)) with (off + n) by lia.
        destruct (Z.leb_spec (n - len b) 0), (Z.leb_spec (off + n) (len f)); cbn [orb]; lia || done.
      * cbn [concat]. rewrite Hc. replace n with (len b + (n - len b)) at 2 by lia.
        rewrite read_at_split by lia. f_equal.
        destruct (Z.le_gt_cases (Z.min buf n) (len f - off)).
        -- by replace (len b) with (Z.min buf n) by lia.
        -- symmetry. apply read_at_short; lia.
      * constructor; [unfold chunk_ok; lia|done].
Qed.

Lemma shard_read_task_spec f offset size : 0 <= offset < 2 ^ 63 -> 0 <= size < 2 ^ 63 ->
  exists chunks, shard_read_task f offset size = (chunks, (size <=? 0) || (offset + size <=? len f))
    /\ concat chunks = read_at f offset size /\ Forall (chunk_ok BUFFER_SIZE_LIMIT) chunks.
Proof.
  intros Ho Hs. unfold shard_read_task. rewrite !u64_id by (unfold in_u64; lia).
  destruct (Z.eq_dec size 0) as [->|].
  - exists []. split; [done|]. split; [done|constructor].
  - destruct (shard_read_loop_spec f (Z.min size BUFFER_SIZE_LIMIT) ltac:(unfold BUFFER_SIZE_LIMIT; lia)
      (S (length f)) offset size) as (cs & -> & Hc & Hk); [lia|unfold len; lia|].
    exists cs. split; [done|]. split; [done|]. eapply Forall_impl; [exact Hk|]. unfold chunk_ok. lia.
Qed.

(** The reader's side: chunks that fill the buffer exactly. *)
Lemma pwrite_fill a b c : len c <= len b -> pwrite (a ++ b) (len a) c = a ++ c ++ drop (Z.to_nat (len c)) b.
Proof.
  intros H. unfold pwrite. destruct c as [|x c]; [by rewrite drop_0|].
  set (d := x :: c) in *. rewrite zeros_nonpos by (rewrite len_app; pose proof (len_nonneg b); lia).
  rewrite app_nil_r. unfold len in *. rewrite Nat2Z.id, take_app_length. do 2 f_equal.
  rewrite Z2Nat.inj_add, !Nat2Z.id by lia. rewrite <- drop_drop, drop_app_length. done.
Qed.

Lemma copy_chunks_fill {CL : EcCluster} chunks : forall a b del, len (concat chunks) = len b ->
  copy_chunks (map (fun c => (c, false)) chunks) (a ++ b) (len a) del = Ok (a ++ concat chunks, len a + len b, del).
Proof.
  induction chunks as [|c cs IH]; intros a b del Hl; cbn [map concat copy_chunks].
  - cbn in Hl. assert (b = []) as ->.
    { destruct b as [|x b]; [done|]. rewrite len_cons in Hl. pose proof (len_nonneg b). change (len []) with 0 in Hl. lia. }
    by rewrite app_nil_r, Z.add_0_r.
  - cbn [concat] in Hl. rewrite len_app in Hl. pose proof (len_nonneg (concat cs)).
    rewrite (proj2 (Z.leb_le _ _)) by (rewrite len_app; lia).
    rewrite pwrite_fill by lia. rewrite orb_false_r, app_assoc.
    replace (len a + len c) with (len (a ++ c)) by apply len_app.
    rewrite IH.
    + rewrite <- app_assoc, len_app. f_equal. do 2 f_equal.
      unfold len in *. rewrite length_drop. lia.
    + unfold len in *. rewrite length_drop. lia.
Qed.

(** A cluster whose volume servers are the stores [peers]: their streams are
    those of the handler; a stream that does not end keeps its reader waiting. *)
Definition peer_cluster (peers : string -> option store) (lookup : Z -> outcome EcVolumeError (list (Z * list string)))
  : EcCluster := {|
  lookup_ec_volume := lookup;
  EcVolume.volume_ec_shard_read node vid shard_id offset size key :=
    match peers node with
    | None => Err EvTonic
    | Some s =>
        match (volume_ec_shard_read vid shard_id offset size key (s, ∅)).2 with
        | Ok (chunks, true) => Ok chunks
        | Ok (_, false) => Panic
        | Err _ => Err EvTonic
        | Panic => Panic
        end
    end;
|}.

(** The shard and the index entry a server answers a read with. *)
Record serves (s : store) (vid shard_id key : Z) (f : file) : Prop := {
  serves_shard : exists i v sh, find_ec_volume vid s = Some (i, v)
    /\ EcVolume.find_ec_shard shard_id v = Some sh /\ sh.(ecd_file) = f
    /\ (key <> 0 -> exists nv, find_needle_from_ecx key v = Ok nv /\ Size.is_deleted nv.(nv_size) = false);
  serves_id : in_u8 shard_id;
}.

Lemma serve_stream s vid shard_id key f offset size : serves s vid shard_id key f ->
  volume_ec_shard_read vid shard_id offset size key (s, ∅)
  = ((s, ∅), Ok (map (fun c => (c, false)) (shard_read_task f offset size).1, (shard_read_task f offset size).2)).
Proof.
  intros [(i & v & sh & Hv & Hs & <- & Hk) Hid]. unfold volume_ec_shard_read, internal, mbind', mget, mlift, mret.
  cbn [fst snd]. rewrite Hv, u8_id, Hs by done.
  destruct (Z.eqb_spec key 0) as [|Hne]; [by destruct (shard_read_task _ _ _)|].
  destruct (Hk Hne) as (nv & Hn & Hd). rewrite Hn. cbn [map_err]. rewrite Hd. by destruct (shard_read_task _ _ _).
Qed.

Lemma copy_whole_stream {CL : EcCluster} f offset size :
  0 <= offset < 2 ^ 63 -> 0 < size < 2 ^ 63 -> offset + size <= len f ->
  exists chunks, shard_read_task f offset size = (chunks, true)
    /\ copy_chunks (map (fun c => (c, false)) chunks) (zeros size) 0 false = Ok (read_at f offset size, size, false).
Proof.
  intros Ho Hs Hl. destruct (shard_read_task_spec f offset size Ho) as (cs & -> & Hc & _); [lia|].
  exists cs. rewrite (proj2 (Z.leb_gt size 0)), (proj2 (Z.leb_le (offset + size) _)) by lia. split; [done|].
  assert (Hz : len (read_at f offset size) = size) by (rewrite len_read_at; lia).
  pose proof (copy_chunks_fill cs [] (zeros size) false) as H. cbn [app] in H. change (len []) with 0 in H.
  rewrite H; rewrite Hc, ?len_zeros, ?Hz by lia; done.
Qed.

(** C17: a volume server reads a range of a shard from another one: the handler
    of the other server streams exactly that range in chunks of at most two
    megabytes and ends, and the reader has the bytes of the shard in its buffer,
    after any number of servers that do not answer or do not have the shard.  The
    range is within the shard, and the key is not deleted there. *)
Theorem remote_shard_read : forall peers lookup (failing : list string) node nodes s vid shard_id key f offset size,
  (forall n, n ∈ failing -> peers n = None
     \/ exists s', peers n = Some s' /\ find_ec_volume vid s' = None) ->
  peers node = Some s -> serves s vid shard_id key f ->
  0 <= offset < 2 ^ 63 -> 0 < size < 2 ^ 63 -> offset + size <= len f ->
  (exists chunks, volume_ec_shard_read vid shard_id offset size key (s, ∅)
                  = ((s, ∅), Ok (map (fun c => (c, false)) chunks, true))
     /\ Forall (fun c => 0 < len c <= BUFFER_SIZE_LIMIT) chunks)
  /\ read_remote_ec_shard_interval (CL := peer_cluster peers lookup) (failing ++ node :: nodes) key vid shard_id
       (zeros size) offset
     = Ok (read_at f offset size, size, false).
Proof.
  intros peers lookup failing node nodes s vid shard_id key f offset size Hf Hn Hs Ho Hz Hl.
  pose (CL := peer_cluster peers lookup).
  pose proof (serve_stream s vid shard_id key f offset size Hs) as Hr.
  destruct (copy_whole_stream f offset size Ho Hz Hl) as (cs & E & Hc).
  destruct (shard_read_task_spec f offset size Ho) as (cs' & E' & _ & Hk); [lia|].
  rewrite E in E', Hr. injection E' as <- _. split; [by exists cs|].
  assert (Hloop : read_remote_loop (CL := CL) (failing ++ node :: nodes) key vid shard_id (zeros size) offset
    = Ok (read_at f offset size, size, false)).
  { induction failing as [|n ns IH]; cbn [app read_remote_loop EcVolume.volume_ec_shard_read CL peer_cluster].
    - rewrite Hn, len_zeros by lia. rewrite Hr. cbn [fst snd obind]. by rewrite Hc.
    - destruct (Hf n) as [->|(s' & -> & Hv)]; [by left|cbn [obind]; apply IH; intros m Hm; apply Hf; by right|].
      unfold volume_ec_shard_read at 1, mbind', mget, mthrow. cbn [fst snd]. rewrite Hv. cbn [obind].
      apply IH. intros m Hm. apply Hf. by right. }
  unfold read_remote_ec_shard_interval. by destruct failing.
Qed.

(** A server [b] with shard 3 of volume 7, five bytes long, and the needle 9. *)
Definition shard_bytes : list byte := [Byte.x01; Byte.x02; Byte.x03; Byte.x04; Byte.x05].
Definition serving_store : store :=
  let v := EcVolume 7 "/d" "" (as_bytes (NeedleValue 1 5) 9) 16 [EcShard 3 7 "" "/d" shard_bytes 5] ∅ 0 2 [] in
  Store "b" 80 "b:80" [DiskLocation "/d" 7 ∅ {[ 7 := v ]}] "" "" 0 [] "".

Lemma serving_store_serves : serves serving_store 7 3 9 shard_bytes.
Proof.
  split; [|done]. do 3 eexists. split; [vm_compute; reflexivity|].
  split; [vm_compute; reflexivity|]. split; [reflexivity|].
  intros _. eexists. split; vm_compute; reflexivity.
Qed.

Definition two_servers (node : string) : option store :=
  if bool_decide (node = "b") then Some serving_store else None.

Lemma remote_shard_read_witness :
  read_remote_ec_shard_interval (CL := peer_cluster two_servers (fun _ => Ok [])) ["a"; "b"; "c"] 9 7 3 (zeros 3) 1
  = Ok ([Byte.x02; Byte.x03; Byte.x04], 3, false).
Proof.
  eapply (remote_shard_read two_servers (fun _ => Ok []) ["a"] "b" ["c"] serving_store 7 3 9 shard_bytes 1 3).
  - intros n ->%list_elem_of_singleton. left. reflexivity.
  - reflexivity.
  - apply serving_store_serves.
  - lia.
  - lia.
  - vm_compute. discriminate.
Defined.

(** Reading past the end of a shard never ends: the handler sends what there is
    and then reads zero bytes for ever, and the reader gets no answer. *)
Theorem shard_read_past_end_hangs : forall peers lookup node nodes s vid shard_id key f offset size,
  peers node = Some s -> serves s vid shard_id key f ->
  0 <= offset < 2 ^ 63 -> 0 < size < 2 ^ 63 -> len f < offset + size ->
  (exists chunks, volume_ec_shard_read vid shard_id offset size key (s, ∅)
                  = ((s, ∅), Ok (map (fun c => (c, false)) chunks, false)) /\ concat chunks = read_at f offset size)
  /\ read_remote_ec_shard_interval (CL := peer_cluster peers lookup) (node :: nodes) key vid shard_id (zeros size) offset
     = Panic.
Proof.
  intros peers lookup node nodes s vid shard_id key f offset size Hn Hs Ho Hz Hl.
  pose proof (serve_stream s vid shard_id key f offset size Hs) as Hr.
  destruct (shard_read_task_spec f offset size Ho) as (cs & E & Hc & _); [lia|].
  rewrite (proj2 (Z.leb_gt size 0)), (proj2 (Z.leb_gt (offset + size) _)) in E by lia. rewrite E in Hr.
  split; [by exists cs|]. cbn [read_remote_ec_shard_interval read_remote_loop EcVolume.volume_ec_shard_read peer_cluster].
  rewrite Hn, len_zeros by lia. by rewrite Hr.
Qed.

(** ** The heartbeat task *)

Section beats.
Context (conns : nat -> connection).

Lemma visit_skips st m : new_leader st <> "" -> new_leader st <> m -> visit_master conns st m = st.
Proof.
  intros H1 H2. unfold visit_master, is_empty. by rewrite !bool_decide_false.
Qed.

Lemma visit_contacts st m : exists k, contacted (visit_master conns st m) = contacted st ++ k.
Proof.
  unfold visit_master. destruct (_ && _); [exists []; by rewrite app_nil_r|].
  exists [m]. destruct (do_heartbeat _ _ _) as [s [u|e|]]; [done| |done]. by destruct e.
Qed.

Lemma visit_leader st m : new_leader st = m ->
  contacted (visit_master conns st m) = contacted st ++ [m].
Proof.
  intros H. unfold visit_master. rewrite (bool_decide_true (new_leader st = m)) by done. rewrite andb_false_r.
  destruct (do_heartbeat _ _ _) as [s [u|e|]]; [done| |done]. by destruct e.
Qed.

Lemma round_skips seeds st : new_leader st <> "" -> new_leader st ∉ seeds -> heartbeat_round conns seeds st = st.
Proof.
  unfold heartbeat_round. revert st. induction seeds as [|m seeds IH]; intros st H1 H2; [done|].
  apply not_elem_of_cons in H2 as [H2 H3]. cbn [fold_left]. rewrite visit_skips by done. by apply IH.
Qed.

Lemma rounds_skip seeds n st : new_leader st <> "" -> new_leader st ∉ seeds -> heartbeat_rounds conns seeds n st = st.
Proof.
  intros H1 H2. induction n as [|n IH]; [done|].
  unfold heartbeat_rounds in *. change (Nat.iter (S n) ?f st) with (f (Nat.iter n f st)). rewrite IH. by apply round_skips.
Qed.

Lemma round_contacts seeds st : exists k, contacted (heartbeat_round conns seeds st) = contacted st ++ k.
Proof.
  unfold heartbeat_round. revert st. induction seeds as [|m seeds IH]; intros st; [exists []; by rewrite app_nil_r|].
  cbn [fold_left]. destruct (IH (visit_master conns st m)) as [k ->]. destruct (visit_contacts st m) as [k' ->].
  exists (k' ++ k). by rewrite app_assoc.
Qed.

Lemma round_reaches seeds st : new_leader st <> "" -> new_leader st ∈ seeds ->
  exists rest, contacted (heartbeat_round conns seeds st) = contacted st ++ new_leader st :: rest.
Proof.
  intros H1 H2. apply list_elem_of_split_l in H2 as (a & b & -> & Ha).
  unfold heartbeat_round. rewrite fold_left_app. fold (heartbeat_round conns a st).
  rewrite round_skips by done. cbn [fold_left].
  destruct (round_contacts b (visit_master conns st (new_leader st))) as [k E]. unfold heartbeat_round in E. rewrite E.
  rewrite visit_leader by done. exists k. by rewrite <- app_assoc.
Qed.

(** Replies that name no other leader are taken until one does. *)
Definition agrees (master : string) (r : option heartbeat_reply) : Prop :=
  exists x, r = Some x /\ (hr_leader x = "" \/ hr_leader x = master).

Lemma read_until_change master ok r rs s : st_current_master s = master ->
  Forall (agrees master) ok -> hr_leader r <> "" -> hr_leader r <> master ->
  exists s', read_replies master (ok ++ Some r :: rs) s = (s', Err (VLeaderChanged (hr_leader r) master))
    /\ st_current_master s' = hr_leader r.
Proof.
  intros Hm Hok H1 H2. revert s Hm. induction Hok as [|x ok (y & -> & Hy) Hok IH]; intros s Hm; cbn [app read_replies].
  - rewrite Hm. unfold is_empty. rewrite !bool_decide_false by done. cbn. by eexists.
  - assert (negb (is_empty (hr_leader y)) && negb (bool_decide (hr_leader y = st_current_master s)) = false) as ->.
    { unfold is_empty. rewrite Hm. destruct Hy as [->| ->]; [done|]. by rewrite (bool_decide_true (master = master)), andb_false_r. }
    by apply IH.
Qed.
End beats.

(** C18: a volume server follows the leader it is told: when the connection to a
    master brings a reply that names another leader, the server takes it for its
    master, and if the leader is one of the seed masters it is the next one that
    is called; if it is not, no master is ever called again. *)
Theorem heartbeat_follows_leader : forall conns seeds st master ok r rs,
  new_leader st = "" \/ new_leader st = master ->
  conns (length (contacted st)) = Replies (ok ++ Some r :: rs) -> Forall (agrees master) ok ->
  hr_leader r <> "" -> hr_leader r <> master ->
  let st' := visit_master conns st master in
  contacted st' = contacted st ++ [master] /\ st_current_master (bs_store st') = hr_leader r
  /\ (hr_leader r ∈ seeds -> exists rest,
        contacted (heartbeat_round conns seeds st') = contacted st' ++ hr_leader r :: rest)
  /\ (hr_leader r ∉ seeds -> forall n, heartbeat_rounds conns seeds n st' = st').
Proof.
  intros conns seeds st master ok r rs Hst Hc Hok H1 H2 st'.
  destruct (read_until_change master ok r rs (set_current_master master (bs_store st))) as (s' & E & Hs'); [done..|].
  assert (E' : st' = BeatState s' (hr_leader r) (contacted st ++ [master])).
  { unfold st', visit_master.
    assert (negb (is_empty (new_leader st)) && negb (bool_decide (new_leader st = master)) = false) as ->.
    { destruct Hst as [->|Hst]; [done|]. by rewrite (bool_decide_true (new_leader st = master)), andb_false_r. }
    rewrite Hc. cbn [do_heartbeat]. rewrite E. unfold is_empty. by rewrite bool_decide_false. }
  rewrite E'. split; [done|]. split; [done|]. split; intros Hin.
  - exact (round_reaches conns seeds (BeatState s' (hr_leader r) (contacted st ++ [master])) H1 Hin).
  - intros n. by apply rounds_skip.
Qed.

Definition idle_server : beat_state := BeatState serving_store "" [].
Definition moved_leader (n : nat) : connection :=
  match n with
  | O => Replies [Some (HeartbeatReply 30 ""); Some (HeartbeatReply 30 "m3"); None]
  | _ => Replies []
  end.

Lemma heartbeat_follows_leader_witness :
  let st := visit_master moved_leader idle_server "m1" in
  (exists rest, contacted (heartbeat_round moved_leader ["m1"; "m2"; "m3"] st) = ["m1"; "m3"] ++ rest)
  /\ forall n, contacted (heartbeat_rounds moved_leader ["m1"; "m2"] n st) = ["m1"].
Proof.
  pose proof (heartbeat_follows_leader moved_leader ["m1"; "m2"; "m3"] idle_server "m1" [Some (HeartbeatReply 30 "")]
    (HeartbeatReply 30 "m3") [None]) as H.
  pose proof (heartbeat_follows_leader moved_leader ["m1"; "m2"] idle_server "m1" [Some (HeartbeatReply 30 "")]
    (HeartbeatReply 30 "m3") [None]) as H'.
  assert (Hok : Forall (agrees "m1") [Some (HeartbeatReply 30 "")]).
  { constructor; [|constructor]. eexists. split; [reflexivity|]. by left. }
  destruct H as (_ & _ & H & _); [by left|reflexivity|exact Hok|done|done|].
  destruct H' as (_ & _ & _ & H'); [by left|reflexivity|exact Hok|done|done|].
  split.
  - destruct H as [rest E]; [set_solver|]. exists rest. exact E.
  - intros n. rewrite H' by set_solver. reflexivity.
Defined.
