(* ===== verification/SealFacts.v ===== *)
(** * Sealing a volume

    From the operations on a volume to its shards: what the index file holds, what
    [volume_ec_shards_generate] writes, and what is read after a restart. *)

From stdpp Require Import sorting.
From S2P Require Import Prelude Messages Types Text Ttl Replica Errors Fid Files Fs Needle NeedleCodec NeedleMap NeedleMapFacts Volume VolumeFacts Vacuum VacuumFacts ShardBits EcCodec EcCodecFacts EcIndex EcVolume Store StoreFacts EcDisk EcDiskFacts Directory Api Server.
From Stdlib Require Import Strings.Byte Strings.Ascii.
#[local] Open Scope list_scope.
#[local] Open Scope Z_scope.

(** ** The index file *)

(** The needles that were ever written, each in its last version. *)
Definition write_of (W : gmap Z needle) (o : op) : gmap Z needle :=
  match o with OpWrite _ _ n => <[n.(n_id) := n]> W | _ => W end.
Definition written (os : list op) : gmap Z needle := foldl write_of ∅ os.

Definition entry_at (a : list needle) (n : needle) : needle_value :=
  NeedleValue (Offset.from_u64 (pos a)) (len (body n)).

(** The index file describes the last versions that were written, of deleted
    needles too, and the volume's index is a part of it. *)
Definition indexed (i : string) (s : fs) (ix : gmap Z needle_value) (W : gmap Z needle) (ns : list needle) : Prop :=
  exists es, fs_bytes s i = Some (entries_bytes es) /\ Forall entry_wf es
    /\ (forall k nv, ix !! k = Some nv -> replay es !! k = Some nv)
    /\ forall k, match W !! k with
                 | Some n => exists a b, ns = a ++ n :: b /\ n.(n_id) = k /\ replay es !! k = Some (entry_at a n)
                 | None => replay es !! k = None
                 end.

Section index.
Context (crc : list byte -> Z).

Lemma entry_at_ok a n : loggable crc n -> pos a < 2 ^ 32 ->
  entry_wf (n.(n_id), entry_at a n) /\ is_tombstone (entry_at a n) = false.
Proof.
  intros [[Hwf _] _] Hp. pose proof (len_body_bound n Hwf) as Hb. pose proof (pos_ge a). split.
  - split; [apply Hwf|]. cbn [snd entry_at]. split; cbn.
    + pose proof (Offset.from_u64_range (pos a)). unfold in_u32. lia.
    + unfold Size.valid in Hb. unfold in_i32. lia.
  - unfold is_tombstone, entry_at. cbn [nv_offset nv_size]. rewrite Size.valid_not_deleted by done.
    rewrite (proj2 (Z.eqb_neq _ _)); [done|]. apply Offset.from_nonzero. unfold SUPER_BLOCK_SIZE in *. lia.
Qed.

Lemma replay_live es k v : is_tombstone v = false -> replay (es ++ [(k, v)]) = <[k := v]> (replay es).
Proof. intros H. rewrite replay_snoc. unfold apply_entry. cbn [snd]. by rewrite H. Qed.

Lemma indexed_log i s ix W ns more : indexed i s ix W ns -> indexed i s ix W (ns ++ more).
Proof.
  intros (es & H1 & H2 & H3 & H4). exists es. do 3 (split; [done|]). intros k. specialize (H4 k).
  destruct (W !! k); [|done]. destruct H4 as (a & b & -> & R). exists a, (b ++ more). by rewrite <- app_assoc.
Qed.

Lemma op_indexed i s s' ix W ns o A : indexed i s ix W ns -> log_op crc o -> pos ns < 2 ^ 32 ->
  (forall h, fs_bytes s i = Some h -> fs_bytes s' i = Some (h ++ entries_bytes (op_index o ns ix).2)) ->
  match o with OpWrite _ _ n => op_log o A = [n] | _ => True end ->
  indexed i s' (op_index o ns ix).1 (write_of W o) (ns ++ op_log o A).
Proof.
  intros Hi Ho Hp Hs Hlog. pose proof Hi as (es & H1 & H2 & H3 & H4). specialize (Hs _ H1).
  destruct o as [[|] [|] n|[|] [|] n|now m]; try done; cbn [op_index fst snd write_of] in *.
  - destruct (entry_at_ok ns n Ho Hp) as [Hw Ht]. fold (entry_at ns n) in *.
    exists (es ++ [(n_id n, entry_at ns n)]). rewrite entries_bytes_app, Hs, replay_live by done.
    split; [done|]. split; [apply Forall_app; split; [done|by apply Forall_singleton]|]. split.
    + intros k nv. rewrite !lookup_insert. case_decide; [done|]. apply H3.
    + intros k. rewrite !lookup_insert. case_decide as E; [subst k; exists ns, []; by rewrite Hlog|].
      specialize (H4 k). destruct (W !! k); [|done]. destruct H4 as (a & b & -> & R).
      exists a, (b ++ op_log (OpWrite None None n) A). by rewrite <- app_assoc.
  - destruct (ix !! n_id n) as [nv|] eqn:E; cbn [fst snd] in *.
    + pose proof (H3 _ _ E) as Hr.
      apply indexed_log. exists (es ++ [(n_id n, nv)]). rewrite entries_bytes_app, Hs.
      rewrite replay_live by (by eapply replay_no_tombstone). rewrite insert_id by done.
      split; [done|]. split; [apply Forall_app; split; [done|apply Forall_singleton]|]. 
      { eapply replay_wf_from; [exact H2| |exact Hr]. intros ? ?. by rewrite lookup_empty. }
      split; [|done]. intros k x [_ Hk]%lookup_delete_Some. by apply H3.
    + apply indexed_log. exists es. rewrite Hs. change (entries_bytes []) with (@nil byte). by rewrite app_nil_r.
  - apply indexed_log. exists es. rewrite Hs. change (entries_bytes []) with (@nil byte). by rewrite app_nil_r.
Qed.
End index.

Lemma op_log_write o A : match o with OpWrite _ _ n => op_log o A = [n] | _ => True end.
Proof. by destruct o. Qed.

Lemma op_log_cost o A ns : pos (ns ++ op_log o A) <= pos ns + op_cost o.
Proof.
  unfold pos. rewrite encodes_app, len_app. pose proof (op_cost_nonneg o).
  destruct o as [? ? n|? ? n|]; simpl; [| destruct (A !! n_id n)|];
    rewrite ?(encodes_cons n []), ?len_app; change (len (encodes [])) with 0;
    try pose proof (len_nonneg (encode n)); simpl in *; lia.
Qed.

(** A volume with its log and its index file after any fault-free operations. *)
Lemma exec_all_indexed crc os : forall v s f nm ix A sb ns W,
  vol_log crc v s f nm ix A sb ns -> indexed (index_filename v) s ix W ns ->
  Forall (log_op crc) os -> pos ns + total_cost os + 8 < 2 ^ 32 ->
  exists v' s' f' nm' ix' ns',
    (exec_all crc os (v, s)).1 = (v', s') /\ identity v' = identity v
    /\ vol_log crc v' s' f' nm' ix' (spec_exec_all v.(v_id) os A).1 sb ns'
    /\ indexed (index_filename v') s' ix' (foldl write_of W os) ns'
    /\ pos ns' <= pos ns + total_cost os.
Proof.
  induction os as [|o os IH]; intros v s f nm ix A sb ns W Hv Hi Hok Hb; cbn [total_cost fold_right] in *.
  - exists v, s, f, nm, ix, ns. do 4 (split; [done|]). lia.
  - apply Forall_cons in Hok as [Ho Hok]. pose proof (total_cost_nonneg os). pose proof (op_cost_nonneg o).
    unfold total_cost in *.
    destruct (exec_log crc o v s f nm ix A sb ns Hv Ho) as (v1 & s1 & f1 & nm1 & ix1 & E1 & Hid1 & Hv1 & -> & Hf1); [lia|].
    destruct (identity_names _ _ Hid1) as (I1 & _ & _ & I4).
    pose proof (op_indexed crc _ _ _ _ _ _ o A Hi Ho ltac:(lia) Hf1 (op_log_write o A)) as Hi1. rewrite <- I4 in Hi1.
    pose proof (op_log_cost o A ns).
    destruct (IH v1 s1 f1 nm1 _ _ sb _ _ Hv1 Hi1 Hok) as (v2 & s2 & f2 & nm2 & ix2 & ns2 & E2 & Hid2 & Hv2 & Hi2 & Hp2); [lia|].
    rewrite I1 in Hv2. exists v2, s2, f2, nm2, ix2, ns2. cbn [exec_all foldl]. rewrite E1.
    assert ((spec_exec_all (v_id v) (o :: os) A).1 = (spec_exec_all (v_id v) os (spec_exec (v_id v) o A).1).1) as ->.
    { cbn [spec_exec_all]. destruct (spec_exec (v_id v) o A) as [A1 r]. cbn [fst]. by destruct (spec_exec_all (v_id v) os A1). }
    destruct (exec_all crc os (v1, s1)) as [st2 rs]. cbn [fst] in *. split; [done|]. split; [congruence|].
    split; [done|]. split; [done|lia].
Qed.

Lemma new_indexed crc mtime dir collection id rp t s :
  let sb := SuperBlock CURRENT_VERSION rp t 0 in
  let v0 := Volume id dir collection None None sb false false false 0 0 0 in
  s !! data_filename v0 = None -> SuperBlock.wf sb ->
  exists v s' f nm ix,
    volume_new crc None mtime dir collection id rp t s = (s', Ok v)
    /\ identity v = identity v0 /\ vol_log crc v s' f nm ix ∅ sb [] /\ indexed (index_filename v) s' ix ∅ []
    /\ forall n, n <> data_filename v0 -> n <> index_filename v0 -> s' !! n = s !! n.
Proof.
  intros sb v0 Hd Hwf.
  destruct (vol_log_new crc mtime dir collection id rp t s Hd Hwf) as (v & s' & f & nm & ix & E & Hid & Hv).
  destruct (volume_new_spec crc mtime dir collection id rp t s Hd) as (v' & s'' & E' & _ & _ & _ & _ & _ & Hidx & Hrest).
  rewrite E in E'. injection E' as <- <-. destruct (identity_names _ _ Hid) as (_ & _ & _ & I4).
  exists v, s', f, nm, ix. do 3 (split; [done|]). split; [|done].
  exists []. rewrite I4. split; [done|]. split; [constructor|]. split.
  - intros k nv Hk. pose proof (at_dom _ _ _ _ _ _ _ _ _ _ (vl_at _ _ _ _ _ _ _ _ _ Hv) k) as Hx.
    rewrite lookup_empty in Hx. by rewrite Hx in Hk.
  - intros k. by rewrite lookup_empty.
Qed.

(** ** What generating shards writes *)

Lemma shard_path_dotted base id : shard_path base id = dotted base (shard_ext id).
Proof. reflexivity. Qed.

Lemma shard_path_inj base i j : i ∈ shard_ids -> j ∈ shard_ids -> shard_path base i = shard_path base j -> i = j.
Proof.
  rewrite !shard_path_dotted. intros Hi Hj E. destruct (shard_ext_ok i Hi) as [[Li _] _], (shard_ext_ok j Hj) as [[Lj _] _].
  apply dotted_inj in E as [_ E]; [|done..].
  destruct (shard_digits i Hi) as (d & D1 & D2 & _), (shard_digits j Hj) as (d' & D1' & D2' & _).
  rewrite E in D1. congruence.
Qed.

(** Files whose extension is not that of a shard. *)
Lemma shard_path_other base b e id : id ∈ shard_ids -> lacks "." e -> (forall i, i ∈ shard_ids -> shard_ext i <> e) ->
  shard_path base id <> dotted b e.
Proof.
  rewrite shard_path_dotted. intros Hi He Hn E. destruct (shard_ext_ok id Hi) as [[Li _] _].
  apply dotted_inj in E as [_ E]; [|done..]. by apply (Hn id).
Qed.

Lemma create_shards_other base n ids s : (forall i, i ∈ ids -> shard_path base i <> n) ->
  Disk.create_shards base ids s !! n = s !! n.
Proof.
  unfold Disk.create_shards. revert s. induction ids as [|i ids IH]; intros s H; [done|]. cbn [fold_left].
  rewrite IH by (intros j Hj; apply H; by right). apply fs_put_lookup_ne. intros ->. by apply (H i); [left|].
Qed.

Lemma put_shards_other base n shards : forall k s, (forall i, k <= i < k + len shards -> shard_path base i <> n) ->
  Disk.put_shards base k shards s !! n = s !! n.
Proof.
  induction shards as [|f shards IH]; intros k s H; [done|]. cbn [Disk.put_shards].
  rewrite len_cons in H. pose proof (len_nonneg shards).
  rewrite IH by (intros i Hi; apply H; lia). apply fs_put_lookup_ne. intros ->. by apply (H k); [lia|].
Qed.

Lemma all_shard_ids i : i ∈ shard_ids <-> 0 <= i < TOTAL_SHARDS_COUNT.
Proof. unfold shard_ids. rewrite elem_of_seqZ. lia. Qed.

Lemma put_shards_at base shards : forall k s j, 0 <= k -> k + len shards <= TOTAL_SHARDS_COUNT ->
  k <= j < k + len shards ->
  fs_bytes (Disk.put_shards base k shards s) (shard_path base j) = shards !! Z.to_nat (j - k).
Proof.
  induction shards as [|f shards IH]; intros k s j Hk Hl Hj; [change (len []) with 0 in Hj; lia|].
  cbn [Disk.put_shards]. rewrite len_cons in *. pose proof (len_nonneg shards). destruct (Z.eq_dec j k) as [->|Hne].
  - rewrite Z.sub_diag. unfold fs_bytes. rewrite put_shards_other; [apply fs_bytes_put_eq|].
    intros i Hi E. apply shard_path_inj in E; [lia|apply all_shard_ids; lia..].
  - rewrite IH by lia. replace (Z.to_nat (j - k)) with (S (Z.to_nat (j - (k + 1)))) by lia. done.
Qed.

Section generate.
Context {VI : VolumeInfoJson} {RS : ReedSolomon}.

(** The files of a sealed volume. *)
Record sealed (base : string) (es : list (Z * needle_value)) (data : list byte) (s s' : fs) : Prop := {
  se_ecx : exists ecx, EcIndex.write_sorted_file_from_index (entries_bytes es) = Ok ecx
    /\ fs_bytes s' (dotted base "ecx") = Some ecx;
  se_shards : exists shards, EcCodec.write_ec_files data = Ok shards
    /\ forall id, id ∈ shard_ids -> fs_bytes s' (shard_path base id) = shards !! Z.to_nat id;
  se_vif : s' !! dotted base "vif" = Some (FNode (vi_to_vec (VolumeInfo [] VERSION2 "")) false);
  se_rest : forall n, n <> dotted base "ecx" -> n <> dotted base "vif" ->
    (forall id, id ∈ shard_ids -> n <> shard_path base id) -> s' !! n = s !! n;
}.

Lemma fs_bytes_is_Some (s : fs) n f : fs_bytes s n = Some f -> is_Some (s !! n).
Proof. unfold fs_bytes. destruct (s !! n); [by eexists|done]. Qed.

Lemma sealed_files base es data s s' e : sealed base es data s s' -> e ∈ "ecx" :: "vif" :: map shard_ext shard_ids ->
  is_Some (s' !! dotted base e).
Proof.
  intros [(ecx & _ & Hx) (shards & Ew & Hs) Hv _]. rewrite !elem_of_cons. intros [->|[->|He]].
  - by eapply fs_bytes_is_Some.
  - by eexists.
  - apply list_elem_of_In, in_map_iff in He as (id & <- & Hid%list_elem_of_In). rewrite <- shard_path_dotted.
    specialize (Hs id Hid). apply all_shard_ids in Hid.
    destruct (lookup_lt_is_Some_2 shards (Z.to_nat id)) as [f Hf].
    { pose proof (write_ec_files_ok data) as X. rewrite Ew in X. injection X as ->. rewrite coded_length. lia. }
    rewrite Hf in Hs. by eapply fs_bytes_is_Some.
Qed.

Lemma write_sorted_ok base s es : fs_bytes s (dotted base "idx") = Some (entries_bytes es) -> Forall entry_wf es ->
  exists ecx, EcIndex.write_sorted_file_from_index (entries_bytes es) = Ok ecx
    /\ Disk.write_sorted_file_from_index base ".ecx" s = (fs_put (dotted base "ecx") ecx s, Ok tt).
Proof.
  intros Hi Hwf. destruct (sorted_file_spec es Hwf) as (sm & Ex & _). exists (entries_bytes sm). split; [done|].
  unfold Disk.write_sorted_file_from_index, mbind', mget, mlift, mmodify. apply fs_get_bytes in Hi.
  change (base ++ ".idx")%string with (dotted base "idx"). rewrite Hi. cbn [map_err]. by rewrite Ex.
Qed.

Lemma write_shards_ok base s data : fs_bytes s (dotted base "dat") = Some data ->
  exists shards, EcCodec.write_ec_files data = Ok shards /\ len shards = TOTAL_SHARDS_COUNT
    /\ Disk.write_ec_files base s = (Disk.put_shards base 0 shards (Disk.create_shards base shard_ids s), Ok tt).
Proof.
  intros Hd. pose proof (write_ec_files_ok data) as E. eexists. split; [exact E|]. split.
  - unfold len. rewrite coded_length. by rewrite Z2Nat.id by done.
  - unfold Disk.write_ec_files, mbind', mget, mlift, mmodify. apply fs_get_bytes in Hd.
    change (base ++ ".dat")%string with (dotted base "dat"). rewrite Hd. cbn [map_err]. by rewrite E.
Qed.

Lemma save_info_ok name info s : (forall nd, s !! name = Some nd -> nd.(f_readonly) = false) ->
  save_volume_info name info s = (fs_put name (vi_to_vec info) s, Ok tt).
Proof.
  intros Hro. unfold save_volume_info, mbind', mget, mlift, mmodify, check_file.
  destruct (s !! name) as [nd|] eqn:E; [|done]. cbn [map_err]. by rewrite (Hro nd eq_refl).
Qed.

Lemma not_shard_exts e : e ∈ ["ecx"; "vif"; "dat"; "idx"] -> lacks "." e /\ forall id, id ∈ shard_ids -> shard_ext id <> e.
Proof.
  revert e. apply Forall_forall. repeat constructor; cbn; try (intros X; discriminate X);
    apply Forall_forall; repeat constructor; intros X; discriminate X.
Qed.

Lemma shards_frame base n shards s : len shards = TOTAL_SHARDS_COUNT -> (forall id, id ∈ shard_ids -> shard_path base id <> n) ->
  Disk.put_shards base 0 shards (Disk.create_shards base shard_ids s) !! n = s !! n.
Proof.
  intros Hl Hn. rewrite put_shards_other; [by apply create_shards_other|].
  intros j Hj. apply Hn, all_shard_ids. lia.
Qed.

Lemma generate_spec vid st s i v es data :
  find_volume vid st = Some (i, v) -> version v = VERSION2 ->
  fs_bytes s (dotted (filename v) "idx") = Some (entries_bytes es) -> Forall entry_wf es ->
  fs_bytes s (dotted (filename v) "dat") = Some data ->
  (forall nd, s !! dotted (filename v) "vif" = Some nd -> nd.(f_readonly) = false) ->
  exists s', volume_ec_shards_generate vid v.(v_collection) (st, s) = (sync (st, s'), Ok tt)
    /\ sealed (filename v) es data s s'.
Proof.
  intros Hf Hv Hi Hwf Hd Hro. set (base := filename v) in *.
  assert (Hne : forall e e', e ∈ ["ecx"; "vif"; "dat"; "idx"] -> e' ∈ ["ecx"; "vif"; "dat"; "idx"] -> e <> e' ->
    dotted base e <> dotted base e').
  { intros e e' [L _]%not_shard_exts [L' _]%not_shard_exts N X. apply dotted_inj in X as [_ X]; done. }
  assert (Hsh : forall e, e ∈ ["ecx"; "vif"; "dat"; "idx"] -> forall id, id ∈ shard_ids -> shard_path base id <> dotted base e).
  { intros e [L N]%not_shard_exts id Hid. by apply shard_path_other. }
  destruct (write_sorted_ok base s es Hi Hwf) as (ecx & Ex & E1). set (s1 := fs_put (dotted base "ecx") ecx s) in *.
  destruct (write_shards_ok base s1 data) as (shards & Ew & Hl & E2).
  { unfold s1. rewrite fs_bytes_put_ne; [done|]. apply Hne; [by apply (bool_decide_unpack _)..|done]. }
  set (s2 := Disk.put_shards _ _ _ _) in *.
  assert (Hvif : s2 !! dotted base "vif" = s !! dotted base "vif").
  { unfold s2. rewrite shards_frame by (done || apply Hsh; by apply (bool_decide_unpack _)).
    apply fs_put_lookup_ne, Hne; [by apply (bool_decide_unpack _)..|done]. }
  pose proof (save_info_ok (dotted base "vif") (VolumeInfo [] VERSION2 "") s2 ltac:(by rewrite Hvif)) as E3.
  set (s3 := fs_put _ _ s2) in *.
  exists s3. split.
  { unfold volume_ec_shards_generate, synced, mbind', mget, on_files. cbn [fst snd]. rewrite Hf, bool_decide_true by done.
    cbn [negb]. unfold mbind'. cbn [fst snd]. fold base. rewrite E1. cbn [map_err fst snd]. rewrite E2. cbn [map_err fst snd].
    change (base ++ ".vif")%string with (dotted base "vif"). by rewrite Hv, E3. }
  split.
  - exists ecx. split; [done|]. unfold fs_bytes, s3. rewrite fs_put_lookup_ne by (apply Hne; [by apply (bool_decide_unpack _)..|done]).
    unfold s2. rewrite shards_frame by (done || apply Hsh; by apply (bool_decide_unpack _)). apply fs_bytes_put_eq.
  - exists shards. split; [done|]. intros id Hid. unfold fs_bytes, s3.
    rewrite fs_put_lookup_ne by (apply Hsh; [by apply (bool_decide_unpack _)|done]).
    change (fs_bytes s2 (shard_path base id) = shards !! Z.to_nat id). unfold s2. apply all_shard_ids in Hid.
    rewrite put_shards_at by lia. by rewrite Z.sub_0_r.
  - unfold s3, fs_put. rewrite Hvif. destruct (s !! dotted base "vif") as [nd|] eqn:En; [rewrite (Hro nd eq_refl)|];
      apply lookup_insert_eq.
  - intros n N1 N2 N3. unfold s3. rewrite fs_put_lookup_ne by done. unfold s2.
    rewrite shards_frame by (done || (intros id Hid X; by apply (N3 id Hid))). by apply fs_put_lookup_ne.
Qed.
End generate.

(** ** Reading a sealed volume *)

Lemma filename_path v g : ends_with_slash v.(v_dir) = false -> vf_collection g = v.(v_collection) -> vf_vid g = v.(v_id) ->
  filename v = vf_path v.(v_dir) g.
Proof.
  intros Hs Hc Hv. unfold filename, vf_path, vf_base, ec_shard_base_filename. rewrite Hs, Hc, Hv.
  case_bool_decide; by rewrite append_assoc'.
Qed.

(** Files below 4 GiB have room. *)
Lemma room_small data : len data < 2 ^ 32 -> room data.
Proof.
  intros H. unfold room, small_rows, large_rows. pose proof (len_nonneg data).
  unfold ERASURE_CODING_LARGE_BLOCK_SIZE, ERASURE_CODING_SMALL_BLOCK_SIZE, DATA_SHARDS_COUNT in *.
  assert ((len data - 1) / (1024 * 1024 * 1024 * 10) < 1) by (apply Z.div_lt_upper_bound; lia).
  rewrite Z.max_l by lia. Z.div_mod_to_equations. lia.
Qed.

Lemma opened_mounted now dir s g v shards : (10 <= length shards)%nat ->
  opened now dir s g (vf_shards g) v ->
  (forall id, id ∈ vf_shards g -> fs_bytes s (vf_file dir g (shard_ext id)) = shards !! Z.to_nat id) ->
  (forall id, id ∈ vf_shards g -> is_Some (fs_bytes s (vf_file dir g (shard_ext id)))) ->
  (forall id, 0 <= id < DATA_SHARDS_COUNT -> id ∈ vf_shards g) ->
  mounted shards v.
Proof.
  intros Hl Ho Hf His Hd. pose proof (op_shards _ _ _ _ _ _ Ho) as P. split.
  - intros sh Hsh. rewrite P in Hsh. apply list_elem_of_fmap in Hsh as (id & -> & Hid). cbn.
    rewrite <- Hf by done. destruct (His id Hid) as [f ->]. done.
  - intros id Hid Hnone. specialize (Hd id Hid). unfold EcVolume.find_ec_shard in Hnone.
    assert (Hin : disk_shard dir s g id ∈ ev_shards v) by (rewrite P; by apply list_elem_of_fmap_2).
    apply list_elem_of_In in Hin. pose proof (List.find_none _ _ Hnone _ Hin) as X. cbn in X.
    by rewrite Z.eqb_refl in X.
Qed.

Lemma slice_log sb a n b : slice (SuperBlock.as_bytes sb ++ encodes (a ++ n :: b)) (pos a) (pos a + len (encode n)) = Some (encode n).
Proof.
  rewrite encodes_app, encodes_cons, !app_assoc, <- app_assoc. apply slice_app_mid.
  - unfold pos. by rewrite len_app, SuperBlock.len_as_bytes.
  - unfold pos. rewrite len_app, SuperBlock.len_as_bytes. lia.
Qed.

Section seal.
Context {VI : VolumeInfoJson} {RS : ReedSolomon} {CL : EcCluster} {RI : ReedSolomonInverse} (crc : list byte -> Z).

(** Every needle that was written is read from the mounted shards. *)
Lemma read_sealed v s f nm ix A sb ns (W : gmap Z needle) es now vid w shards ecx k :
  vol_log crc v s f nm ix A sb ns -> pos ns < 2 ^ 32 ->
  Forall entry_wf es ->
  (forall k, match W !! k with
             | Some n => exists a b, ns = a ++ n :: b /\ n.(n_id) = k /\ replay es !! k = Some (entry_at a n)
             | None => replay es !! k = None
             end) ->
  EcIndex.write_sorted_file_from_index (entries_bytes es) = Ok ecx -> EcCodec.write_ec_files f = Ok shards ->
  mounted shards w -> w.(ecx_file) = ecx -> w.(ecx_filesize) = len ecx -> w.(shard_locations) = ∅ ->
  w.(ev_version) = VERSION2 -> ready now w ->
  (read_ec_shard_needle crc now vid (ask k) w).2
  = match W !! k with
    | Some n => Ok (decode n (ask k), len (encode n))
    | None => Err (EvNeedle (NNotFound k))
    end.
Proof.
  intros Hv Hp Hwf HW Hx Hs Hm Ex El Hu Hver Hr. specialize (HW k). destruct (W !! k) as [n|].
  - destruct HW as (a & b & -> & Hid & Hk). destruct Hv as [_ Hf _ Hl _].
    apply Forall_app in Hl as [Hla [[[Hwfn Hcrc] _] _]%Forall_cons].
    assert (Hpa : pos a < 2 ^ 32).
    { unfold pos in *. rewrite encodes_app, len_app in Hp. pose proof (len_nonneg (encodes (n :: b))). lia. }
    assert (Hoff : Offset.actual_offset (Offset.from_u64 (pos a)) = pos a).
    { apply Offset.actual_from; [pose proof (pos_ge a); unfold SUPER_BLOCK_SIZE in *; lia|].
      apply pos_aligned. eapply Forall_impl; [exact Hla|]. by intros x [[? ?] ?]. }
    apply (read_mounted_needle crc f es ecx shards w now vid n (ask k) (entry_at a n)); try done.
    + apply room_small. rewrite Hf, len_app, SuperBlock.len_as_bytes. exact Hp.
    + cbn [nv_offset entry_at]. rewrite Hoff, Hf. apply slice_log.
  - by apply (read_unknown_needle crc es ecx w now vid (ask k)).
Qed.

Lemma has_shard g id : vf_has g (shard_ext id) = true -> 0 <= id < TOTAL_SHARDS_COUNT -> id ∈ vf_shards g.
Proof. intros Hh Hi. apply list_elem_of_In, filter_In. split; [|done]. by apply list_elem_of_In, all_shard_ids. Qed.

Lemma fs_bytes_same (s s' : fs) n : s' !! n = s !! n -> fs_bytes s' n = fs_bytes s n.
Proof. unfold fs_bytes. by intros ->. Qed.

(** The files of a sealed volume, as a directory keeps them. *)
Record keeps (dir : string) (s s' : fs) (g : volume_files) : Prop := {
  ks_has : vf_has g "ecx" = true /\ vf_has g "vif" = true
    /\ forall id, 0 <= id < DATA_SHARDS_COUNT -> vf_has g (shard_ext id) = true;
  ks_files : forall e, e ∈ known_exts -> vf_has g e = true ->
    s' !! vf_file dir g e = s !! vf_file dir g e /\ is_Some (s' !! vf_file dir g e);
}.

Lemma keeps_on_disk dir base es data s0 s s' g : sealed base es data s0 s -> vf_path dir g = base ->
  vi_from_slice (vi_to_vec (VolumeInfo [] VERSION2 "")) = Some (VolumeInfo [] VERSION2 "") ->
  keeps dir s s' g -> on_disk dir s' g.
Proof.
  intros Hs Hb Hj [(_ & Hv & _) Hk]. split.
  - intros e He Hh. destruct (Hk e He Hh) as [_ [nd E]]. unfold fs_bytes. rewrite E. by eexists.
  - right. destruct (Hk "vif") as [E _]; [by apply (bool_decide_unpack _)|done|]. rewrite E.
    unfold vf_file. rewrite Hb, (se_vif _ _ _ _ _ Hs). do 2 eexists. split; [done|]. split; [exact Hj|done].
Qed.

(** Mounting what a directory kept. *)
Lemma remount dir max names now base es data s0 s s' g : sealed base es data s0 s -> vf_path dir g = base -> vf_ok g ->
  vi_from_slice (vi_to_vec (VolumeInfo [] VERSION2 "")) = Some (VolumeInfo [] VERSION2 "") ->
  keeps dir s s' g -> names ≡ₚ vf_names g ->
  exists l s'' w ecx shards, load_all_shards now names (Location.new dir max, s') = ((l, s''), Ok tt)
    /\ l.(dl_ec_volumes) !! vf_vid g = Some w
    /\ EcIndex.write_sorted_file_from_index (entries_bytes es) = Ok ecx /\ EcCodec.write_ec_files data = Ok shards
    /\ opened now dir s' g (vf_shards g) w /\ mounted shards w /\ ecx_file w = ecx.
Proof.
  intros Hs Hb Hg Hj Hk Hn. pose proof (keeps_on_disk dir base es data s0 s s' g Hs Hb Hj Hk) as Hd.
  destruct Hk as [(Hx & _ & Hsh) Hk].
  destruct (restart_loads now dir max [g] names s') as (l & s'' & E & H & _);
    [by apply Forall_singleton| |by apply Forall_singleton| |].
  { cbn. apply NoDup_singleton. }
  { cbn [map concat]. by rewrite app_nil_r. }
  destruct (se_ecx _ _ _ _ _ Hs) as (ecx & Ecx & Fx). destruct (se_shards _ _ _ _ _ Hs) as (shards & Ew & Fs).
  assert (Hall : forall id, 0 <= id < DATA_SHARDS_COUNT -> id ∈ vf_shards g).
  { intros id Hid. apply has_shard; [by apply Hsh|]. unfold TOTAL_SHARDS_COUNT, PARITY_SHARDS_COUNT, DATA_SHARDS_COUNT in *. lia. }
  specialize (H g ltac:(by left)). destruct (dl_ec_volumes l !! vf_vid g) as [w|] eqn:Ew'.
  2:{ specialize (Hall 0 ltac:(done)). destruct H as [H|H]; [congruence|]. rewrite H in Hall. by apply not_elem_of_nil in Hall. }
  destruct H as (_ & _ & Ho). exists l, s'', w, ecx, shards. do 5 (split; [done|]).
  assert (Hkept : forall id, id ∈ vf_shards g -> s' !! vf_file dir g (shard_ext id) = s !! vf_file dir g (shard_ext id)
    /\ is_Some (s' !! vf_file dir g (shard_ext id))).
  { intros id [Hid Hh]%list_elem_of_In%filter_In. apply list_elem_of_In in Hid.
    destruct (shard_ext_ok id Hid) as (_ & _ & _ & Hke). by apply Hk. }
  split.
  - apply (opened_mounted now dir s' g w shards); [|done| | |done].
    + pose proof (write_ec_files_ok data) as Ok'. rewrite Ew in Ok'. injection Ok' as ->. rewrite coded_length. vm_compute. lia.
    + intros id Hid. rewrite (fs_bytes_same s s') by apply (Hkept id Hid). unfold vf_file. rewrite Hb.
      rewrite <- shard_path_dotted. apply Fs. by apply (vf_shards_sub g).
    + intros id Hid. destruct (Hkept id Hid) as [_ [nd Hnd]]. unfold fs_bytes. rewrite Hnd. by eexists.
  - destruct (Hk "ecx") as [Ek _]; [by apply (bool_decide_unpack _)|done|]. pose proof (op_ecx _ _ _ _ _ _ Ho) as X.
    rewrite (fs_bytes_same s s') in X by done. unfold vf_file in X. rewrite Hb in X. congruence.
Qed.
End seal.

(** Eleven seconds after mounting the locations of the shards are looked up again;
    when the master does not answer with ten of them, nothing is read. *)
Lemma stale_unreadable {CL : EcCluster} {RI : ReedSolomonInverse} crc now vid nd w :
  w.(shard_locations) = ∅ -> w.(shard_locations_refresh_time) + 11000 <= now ->
  (forall response, EcVolume.lookup_ec_volume w.(EcVolume.ev_volume_id) = Ok response -> len response < DATA_SHARDS_COUNT) ->
  forall x, (read_ec_shard_needle crc now vid nd w).2 <> Ok x.
Proof.
  intros Hu Ht Hl x. unfold read_ec_shard_needle, mbind', mget, mlift, mthrow.
  destruct (locate_ec_shard_needle (n_id nd) w) as [[nv ivs]|e|]; [|done..].
  destruct (Size.is_deleted (nv_size nv)); [done|].
  unfold read_ec_shard_intervals, cached_lookup_ec_shard_locations, mbind', mget, mlift, mthrow. rewrite Hu, map_size_empty.
  rewrite (proj2 (Z.ltb_ge now (shard_locations_refresh_time w + 11 * 1000))) by lia. cbn [andb orb Z.of_nat].
  change (0 =? TOTAL_SHARDS_COUNT) with false. change (DATA_SHARDS_COUNT <=? 0) with false. rewrite andb_false_r. cbn [andb orb].
  destruct (EcVolume.lookup_ec_volume (EcVolume.ev_volume_id w)) as [response|e|]; [|done..].
  by rewrite (proj2 (Z.ltb_lt _ _) (Hl response eq_refl)).
Qed.

(** C14: a sealed volume is readable after a restart, for eleven seconds.  Take any
    fault-free history of writes, deletions and reads of a new volume below 4 GiB of
    needles that fit the format, generate its shards, and start again on a directory
    that kept at least the sorted index, the volume description and the ten data
    shards, listed in any order: the shards are mounted, and within eleven seconds,
    or when the master answers the lookup of the shards with at least ten of them,
    every key is answered from them with the last needle that was written under it,
    every stored field included, or that it is not found.  Deleted needles are
    answered too: the index file keeps their last value.  Later, with a master that
    does not answer ten shards, nothing is read; a master that only has the
    heartbeats of its servers knows no shards. *)
Theorem sealed_volume_readable :
  forall (VI : VolumeInfoJson) (RS : ReedSolomon) (CL : EcCluster) (RI : ReedSolomonInverse)
    crc mtime dir collection id rp t s os,
  let sb := SuperBlock CURRENT_VERSION rp t 0 in
  let v0 := Volume id dir collection None None sb false false false 0 0 0 in
  s !! data_filename v0 = None -> SuperBlock.wf sb ->
  Forall (log_op crc) os -> total_cost os < 2 ^ 32 - 16 ->
  ends_with_slash dir = false -> plain collection -> 1 <= id -> in_u32 id ->
  vi_from_slice (vi_to_vec (VolumeInfo [] VERSION2 "")) = Some (VolumeInfo [] VERSION2 "") ->
  exists v1 s1 v2 s2,
    volume_new crc None mtime dir collection id rp t s = (s1, Ok v1)
    /\ (exec_all crc os (v1, s1)).1 = (v2, s2)
    /\ forall st i, find_volume id st = Some (i, v2) ->
         (forall nd, s2 !! dotted (filename v0) "vif" = Some nd -> nd.(f_readonly) = false) ->
    exists s3, volume_ec_shards_generate id collection (st, s2) = (sync (st, s3), Ok tt)
    /\ (forall e, e ∈ "ecx" :: "vif" :: map shard_ext shard_ids -> is_Some (s3 !! dotted (filename v0) e))
    /\ forall g s4 max names now, vf_collection g = collection -> vf_vid g = id ->
         keeps dir s3 s4 g -> names ≡ₚ vf_names g ->
    exists l s5, load_all_shards now names (Location.new dir max, s4) = ((l, s5), Ok tt)
    /\ forall st' now' k, st'.(st_locations) = [l] ->
         (now' < now + 11000 \/ (exists response, EcVolume.lookup_ec_volume id = Ok response /\ DATA_SHARDS_COUNT <= len response) ->
          (read_ec_volume_needle crc now' id (ask k) (st', s5)).2
          = match written os !! k with
            | Some n => Ok (decode n (ask k), len (encode n))
            | None => Err (EEcVolume (EvNeedle (NNotFound k)))
            end)
         /\ (now + 11000 <= now' ->
             (forall response, EcVolume.lookup_ec_volume id = Ok response -> len response < DATA_SHARDS_COUNT) ->
             forall x, (read_ec_volume_needle crc now' id (ask k) (st', s5)).2 <> Ok x).
Proof.
  intros VI RS CL RI crc mtime dir collection id rp t s os sb v0 Hd Hwf Hos Hc Hslash Hpl H1 Hid Hj.
  destruct (new_indexed crc mtime dir collection id rp t s Hd Hwf) as (v1 & s1 & f1 & nm1 & ix1 & E1 & Hid1 & Hv1 & Hi1 & Hr1).
  destruct (exec_all_indexed crc os v1 s1 f1 nm1 ix1 ∅ sb [] ∅ Hv1 Hi1 Hos)
    as (v2 & s2 & f2 & nm2 & ix2 & ns & E2 & Hid2 & Hv2 & Hi2 & Hp2); [change (pos []) with 8; lia|].
  change (pos []) with 8 in Hp2. exists v1, s1, v2, s2. do 2 (split; [done|]). intros st i Hf Hvif.
  assert (Hid' : identity v2 = identity v0) by (etrans; [exact Hid2|exact Hid1]).
  assert (Hfn : filename v2 = filename v0) by (unfold filename; injection Hid' as -> -> -> _; done).
  destruct Hi2 as (es & Fi & Wes & _ & HW). pose proof (vl_at _ _ _ _ _ _ _ _ _ Hv2) as Ha.
  assert (Hcoll : v_collection v2 = collection) by (injection Hid' as _ _ -> _; done).
  destruct (generate_spec id st s2 i v2 es f2 Hf) as (s3 & Eg & Hs).
  { apply (at_version _ _ _ _ _ _ _ _ _ _ Ha). } { exact Fi. } { exact Wes. } { apply (at_file _ _ _ _ _ _ _ _ _ _ Ha). }
  { by rewrite Hfn. }
  rewrite Hcoll in Eg. exists s3. split; [done|].
  split; [rewrite <- Hfn; intros e; by apply (sealed_files _ es f2 s2 s3)|]. intros g s4 max names now Hgc Hgv Hk Hn.
  assert (Hb : vf_path dir g = filename v2).
  { rewrite Hfn. symmetry. by apply (filename_path v0 g). }
  assert (Hg : vf_ok g) by (unfold vf_ok; by rewrite Hgc, Hgv).
  destruct (remount dir max names now (filename v2) es f2 s2 s3 s4 g Hs Hb Hg Hj Hk Hn)
    as (l & s5 & w & ecx & shards & El & Hw & Ecx & Ew & Ho & Hm & Hx).
  exists l, s5. split; [done|]. intros st' now' k Hl. rewrite Hgv in Hw.
  assert (Hfind : find_ec_volume id st' = Some (0%nat, w)).
  { unfold find_ec_volume. rewrite Hl. cbn [find_ec_in]. by rewrite Hw. }
  unfold read_ec_volume_needle. cbn [fst snd]. rewrite Hfind. destruct Ho. split.
  2:{ intros Hlate Hfew x. pose proof (stale_unreadable crc now' id (ask k) w op_locations) as Hst.
      rewrite op_time, op_id, Hgv in Hst. specialize (Hst Hlate Hfew).
      destruct (read_ec_shard_needle crc now' id (ask k) w) as [w' [y|e|]]; [by destruct (Hst y)|done..]. }
  intros Hr. pose proof (read_sealed crc v2 s2 f2 nm2 ix2 _ sb ns (written os) es now' id w shards ecx k Hv2) as R.
  destruct (read_ec_shard_needle crc now' id (ask k) w) as [w' r]. cbn [snd] in R |- *. rewrite R; try done.
  - by destruct (written os !! k).
  - lia.
  - by rewrite op_ecx_size, Hx.
  - unfold ready. by rewrite op_time, op_id, Hgv.
Qed.

(** A volume with two needles, one of them deleted. *)
#[local] Instance fixed_json : VolumeInfoJson := {
  vi_to_vec _ := [Byte.x7b; Byte.x7d];
  vi_from_slice _ := Some (VolumeInfo [] VERSION2 "");
}.

Definition history : list op :=
  [OpWrite None None (live_needle 42); OpWrite None None (live_needle 43); OpDelete None None (ask 43)].
Definition kept_files : volume_files :=
  VolumeFiles "c" 3 (fun e => bool_decide (e ∈ "ecx" :: "vif" :: map shard_ext (seqZ 0 10))).

Lemma history_ok : Forall (log_op zero_crc) history.
Proof.
  unfold history. apply Forall_cons. split; [by apply live_needle_loggable|].
  apply Forall_cons. split; [by apply live_needle_loggable|]. apply Forall_singleton. by apply ask_loggable.
Qed.

Lemma history_no_vif v1 s1 v2 s2 :
  volume_new zero_crc None 5 "/d" "c" 3 Replica.default Ttl.default ∅ = (s1, Ok v1) ->
  (exec_all zero_crc history (v1, s1)).1 = (v2, s2) ->
  forall nd, s2 !! "/d/c_3.vif"%string = Some nd -> nd.(f_readonly) = false.
Proof.
  intros E1 E2 nd.
  assert (H : match volume_new zero_crc None 5 "/d" "c" 3 Replica.default Ttl.default ∅ with
              | (s, Ok v) => (exec_all zero_crc history (v, s)).1.2 !! "/d/c_3.vif"%string = None
              | _ => False
              end) by (vm_compute; reflexivity).
  rewrite E1, E2 in H. cbn [snd] in H. by rewrite H.
Qed.

Lemma sealed_volume_readable_witness : exists st s2 s3 l s5,
  volume_ec_shards_generate (RS := zero_parity) 3 "c" (st, s2) = (sync (st, s3), Ok tt)
  /\ load_all_shards 1000 (vf_names kept_files) (Location.new "/d" 7, s3) = ((l, s5), Ok tt)
  /\ forall st', st_locations st' = [l] ->
     (read_ec_volume_needle (CL := helpful_cluster) (RI := trusting_decoder) zero_crc 1005 3 (ask 43) (st', s5)).2
     = Ok (decode (live_needle 43) (ask 43), len (encode (live_needle 43))).
Proof.
  destruct (sealed_volume_readable fixed_json zero_parity helpful_cluster trusting_decoder zero_crc 5 "/d" "c" 3
    Replica.default Ttl.default ∅ history) as (v1 & s1 & v2 & s2 & E1 & E2 & H).
  - reflexivity.
  - split; cbn; try done; vm_compute; split; congruence.
  - exact history_ok.
  - vm_compute. reflexivity.
  - reflexivity.
  - split; [|split]; repeat constructor; cbn; intros X; discriminate X.
  - lia.
  - done.
  - reflexivity.
  - destruct (H (Store "a" 80 "" [DiskLocation "/d" 7 {[ 3 := v2 ]} ∅] "" "" 0 [] "") O) as (s3 & E & Hf & H').
    + reflexivity.
    + exact (history_no_vif v1 s1 v2 s2 E1 E2).
    + destruct (H' kept_files s3 7 (vf_names kept_files) 1000) as (l & s5 & El & Hr); [done|done| |done|].
      * split; [repeat split; try reflexivity; intros id [Hid1 Hid2]|intros e _ He; split; [done|]].
        -- apply bool_decide_eq_true_2. do 2 apply list_elem_of_further. apply list_elem_of_fmap_2, elem_of_seqZ.
           unfold DATA_SHARDS_COUNT in Hid2. lia.
        -- apply (Hf e). apply bool_decide_eq_true_1 in He. set_unfold in He. set_unfold.
           destruct He as [?|[?|(x & ? & Hx)]]; [by left|by right; left|]. right. right. exists x. split; [done|].
           unfold TOTAL_SHARDS_COUNT, PARITY_SHARDS_COUNT, DATA_SHARDS_COUNT. lia.
      * exists (Store "a" 80 "" [DiskLocation "/d" 7 {[ 3 := v2 ]} ∅] "" "" 0 [] ""), s2, s3, l, s5. split; [exact E|]. split; [exact El|]. intros st' Hst.
        rewrite (proj1 (Hr st' 1005 43 Hst) ltac:(left; lia)). reflexivity.
Defined.
