(* ===== verification/RebuildFacts.v ===== *)
(** * Rebuilding the shards of a directory

    [volume_ec_shards_rebuild] on a directory that has lost some shards of a
    volume: what it writes when enough of them are left, and when too few are. *)

From stdpp Require Import sorting.
From S2P Require Import Prelude Messages Types Text Errors Fid Files Fs Needle NeedleMap Volume ShardBits EcCodec EcCodecFacts EcRebuild EcIndex EcVolume Store EcDisk EcDiskFacts Server SealFacts.
From Stdlib Require Import Strings.Ascii.
#[local] Open Scope list_scope.
#[local] Open Scope Z_scope.

(** The shards of [present] are left in the directory, with the sorted index. *)
Record shards_left (base : string) (shards : list file) (present : Z -> bool) (s : fs) : Prop := {
  sl_ecx : is_Some (s !! dotted base "ecx");
  sl_shards : forall id, id ∈ shard_ids ->
    fs_bytes s (shard_path base id) = if present id then shards !! Z.to_nat id else None;
}.

Definition lost (present : Z -> bool) : list Z := List.filter (fun id => negb (present id)) shard_ids.

Lemma lost_elem present id : id ∈ lost present <-> id ∈ shard_ids /\ present id = false.
Proof. unfold lost. rewrite list_elem_of_In, filter_In, <- list_elem_of_In. destruct (present id); cbn; naive_solver. Qed.

Lemma shards_len {RS : ReedSolomon} data shards : EcCodec.write_ec_files data = Ok shards -> len shards = TOTAL_SHARDS_COUNT.
Proof. rewrite write_ec_files_ok. intros [= <-]. unfold len. rewrite coded_length. by rewrite Z2Nat.id. Qed.

Section left.
Context (base : string) (shards : list file) (present : Z -> bool) (s : fs).
Context (Hlen : len shards = TOTAL_SHARDS_COUNT) (Hleft : shards_left base shards present s).

Lemma shard_there id : id ∈ shard_ids -> is_Some (shards !! Z.to_nat id).
Proof. intros H%all_shard_ids. apply lookup_lt_is_Some_2. unfold len in Hlen. lia. Qed.

Lemma missing_lost : Disk.missing base s = lost present.
Proof.
  apply filter_ext_in. intros id Hid%list_elem_of_In. rewrite (sl_shards _ _ _ _ Hleft id Hid).
  destruct (present id); [|by rewrite bool_decide_false by (intros [? ?]; done)].
  by rewrite bool_decide_true by (by apply shard_there).
Qed.

Lemma inputs_masked : map (fun id => fs_bytes s (shard_path base id)) shard_ids = masked present shards.
Proof.
  apply list_eq. intros i. rewrite list_lookup_fmap. unfold masked. rewrite list_lookup_imap.
  destruct (decide (Z.of_nat i < TOTAL_SHARDS_COUNT)) as [Hi|Hi].
  - assert (Hid : Z.of_nat i ∈ shard_ids) by (apply all_shard_ids; lia).
    unfold shard_ids. rewrite lookup_seqZ_lt by lia. rewrite Z.add_0_l. cbn [fmap option_fmap option_map].
    rewrite (sl_shards _ _ _ _ Hleft _ Hid). destruct (shard_there _ Hid) as [f Hf]. rewrite Nat2Z.id in *. rewrite Hf. cbn.
    by destruct (present (Z.of_nat i)).
  - unfold len in Hlen. rewrite (lookup_ge_None_2 shards) by lia. unfold shard_ids. rewrite lookup_seqZ_ge by lia. done.
Qed.

Lemma count_masked : len (omap id (masked present shards)) = len (List.filter present shard_ids).
Proof.
  unfold masked, len. f_equal. unfold len in Hlen. unfold shard_ids. rewrite <- Hlen. clear Hlen Hleft.
  assert (H : forall k, length (omap id (imap (fun i (b : file) => if present (k + Z.of_nat i) then Some b else None) shards))
    = length (List.filter present (seqZ k (Z.of_nat (length shards))))); [|exact (H 0)].
  induction shards as [|f l IH]; intros k; [done|]. cbn [imap length]. rewrite seqZ_cons by lia.
  replace (Z.pred (Z.of_nat (S (length l)))) with (Z.of_nat (length l)) by lia. cbn [List.filter]. rewrite Z.add_0_r.
  assert (E : imap ((fun i (b : file) => if present (k + Z.of_nat i) then Some b else None) ∘ S) l
    = imap (fun i (b : file) => if present (Z.succ k + Z.of_nat i) then Some b else None) l).
  { apply imap_ext. intros i x _. cbn. by replace (k + Z.of_nat (S i)) with (Z.succ k + Z.of_nat i) by lia. }
  rewrite E. destruct (present k); cbn [omap list_omap id length]; by rewrite IH.
Qed.
End left.

(** The files [put_missing] writes. *)
Lemma put_missing_other base ids outputs n : forall s, (forall id, id ∈ ids -> shard_path base id <> n) ->
  Disk.put_missing base ids outputs s !! n = s !! n.
Proof.
  unfold Disk.put_missing. induction ids as [|i ids IH]; intros s H; [done|]. cbn [fold_left].
  rewrite IH by (intros j Hj; apply H; by right). apply fs_put_lookup_ne. intros ->. by apply (H i); [left|].
Qed.

Lemma put_missing_at base outputs id : id ∈ shard_ids -> forall ids s, (forall i, i ∈ ids -> i ∈ shard_ids) -> id ∈ ids ->
  fs_bytes (Disk.put_missing base ids outputs s) (shard_path base id) = Some (default [] (outputs !! Z.to_nat id)).
Proof.
  intros Hid ids. induction ids as [|i ids IH]; intros s Hs Hin; [by apply not_elem_of_nil in Hin|].
  destruct (decide (id ∈ ids)) as [Hd|Hd]; [unfold Disk.put_missing; cbn [fold_left]; apply IH; [|done]; intros j Hj; apply Hs; by right|].
  apply elem_of_cons in Hin as [->|Hin]; [|done]. unfold Disk.put_missing. cbn [fold_left]. unfold fs_bytes.
  pose proof (put_missing_other base ids outputs (shard_path base i)) as O. unfold Disk.put_missing in O. rewrite O; [apply fs_bytes_put_eq|].
  intros j Hj E. apply shard_path_inj in E; [congruence|apply Hs; by right|done].
Qed.

(** The location with the sorted index is the one that is used. *)
Lemma rebuild_here {RI : ReedSolomonInverse} name ls1 l ls2 s :
  (forall l', l' ∈ ls1 -> s !! dotted (l'.(dl_directory) ++ "/" ++ name)%string "ecx" = None) ->
  let base := (l.(dl_directory) ++ "/" ++ name)%string in
  is_Some (s !! dotted base "ecx") ->
  rebuild_in name (ls1 ++ l :: ls2) s = rebuild_in name [l] s.
Proof.
  intros H base Hb. induction ls1 as [|l' ls1 IH]; cbn [app].
  - unfold rebuild_in, mbind', mget, mlift, file_exists. cbn [map_err]. 
    change (l.(dl_directory) ++ "/" ++ name ++ ".ecx")%string with ((l.(dl_directory) ++ "/" ++ name) ++ ".ecx")%string.
    fold base. change (base ++ ".ecx")%string with (dotted base "ecx"). by rewrite bool_decide_true.
  - cbn [rebuild_in]. unfold mbind' at 1, mget, mbind' at 1, mlift, file_exists. cbn [map_err].
    change ((l'.(dl_directory) ++ "/" ++ name) ++ ".ecx")%string with (dotted (l'.(dl_directory) ++ "/" ++ name)%string "ecx").
    rewrite bool_decide_false by (rewrite H by (by left); by intros [? ?]). apply IH. intros x Hx. apply H. by right.
Qed.

(** ** Enough shards *)

Lemma rebuild_enough {RS : ReedSolomon} {RI : ReedSolomonInverse} base data shards present s :
  recovers_from present -> EcCodec.write_ec_files data = Ok shards ->
  DATA_SHARDS_COUNT <= len (List.filter present shard_ids) -> shards_left base shards present s ->
  exists s', Disk.rebuild_ec_files base s = (s', Ok (lost present))
    /\ (forall id, id ∈ shard_ids -> fs_bytes s' (shard_path base id) = shards !! Z.to_nat id)
    /\ forall n, (forall id, id ∈ lost present -> n <> shard_path base id) -> s' !! n = s !! n.
Proof.
  intros Hrec Ew Hc Hl. pose proof (shards_len data shards Ew) as Hlen.
  pose proof (rebuild_restores RS RI data shards present Hrec Ew) as E. rewrite count_masked in E by done. specialize (E Hc).
  unfold Disk.rebuild_ec_files, mbind', mget, mmodify. rewrite (missing_lost base shards present s), (inputs_masked base shards present s), E by done.
  set (outputs := imap _ shards). set (s1 := Disk.create_shards base (lost present) s).
  assert (Hother : forall n, (forall id, id ∈ lost present -> n <> shard_path base id) ->
    Disk.put_missing base (lost present) outputs s1 !! n = s !! n).
  { intros n Hn. unfold s1. rewrite put_missing_other by (intros id Hid; apply not_eq_sym; by apply Hn).
    apply create_shards_other. intros id Hid. apply not_eq_sym. by apply Hn. }
  eexists. split; [reflexivity|]. split; [|exact Hother]. intros id Hid. destruct (shard_there shards Hlen id Hid) as [f Hf].
  destruct (decide (id ∈ lost present)) as [Hd|Hd].
  - rewrite put_missing_at; [|done|by intros i [? _]%lost_elem|done]. unfold outputs. rewrite list_lookup_imap, Hf. cbn.
    apply lost_elem in Hd as [_ Hd]. apply all_shard_ids in Hid. rewrite Z2Nat.id by lia. by rewrite Hd.
  - unfold fs_bytes. rewrite Hother.
    + change (fs_bytes s (shard_path base id) = shards !! Z.to_nat id). rewrite (sl_shards _ _ _ _ Hl id Hid).
      destruct (present id) eqn:Ep; [done|]. destruct Hd. by apply lost_elem.
    + intros i Hi E'. apply shard_path_inj in E'; [congruence|done|by apply lost_elem in Hi as [? _]].
Qed.

(** ** Too few shards *)

(** Files of one length, some of them missing. *)
Definition of_length (n : Z) (i : option file) : Prop := match i with Some f => len f = n | None => True end.

Lemma first_block (f : file) n : len f = n -> 0 < n ->
  len (take (Z.to_nat ERASURE_CODING_SMALL_BLOCK_SIZE) (drop (Z.to_nat 0) f)) = Z.min n ERASURE_CODING_SMALL_BLOCK_SIZE.
Proof. intros <- H. unfold len in *. rewrite drop_0, length_take. unfold ERASURE_CODING_SMALL_BLOCK_SIZE in *. lia. Qed.

Lemma read_blocks_all n inputs : 0 < n -> Forall (of_length n) inputs ->
  forall size, size = 0 \/ size = Z.min n ERASURE_CODING_SMALL_BLOCK_SIZE ->
  exists blocks size', read_blocks inputs 0 size = Ok (Some (blocks, size')) /\ length (omap id blocks) = length (omap id inputs).
Proof.
  intros Hn. assert (HB : 0 < ERASURE_CODING_SMALL_BLOCK_SIZE) by done.
  induction inputs as [|[f|] inputs IH]; intros Hall size Hs; cbn [read_blocks].
  - by exists [], size.
  - apply Forall_cons in Hall as [Hf Hall]. cbn in Hf. pose proof (first_block f n Hf Hn) as Hb. rewrite Hb.
    rewrite (proj2 (Z.eqb_neq _ 0)) by lia.
    assert (Hsz : (if size =? 0 then Z.min n ERASURE_CODING_SMALL_BLOCK_SIZE else size) = Z.min n ERASURE_CODING_SMALL_BLOCK_SIZE)
      by (destruct (Z.eqb_spec size 0); lia).
    rewrite Hsz, Z.eqb_refl. cbn [negb]. destruct (IH Hall (Z.min n ERASURE_CODING_SMALL_BLOCK_SIZE)) as (bs & sz & E & Hl); [by right|].
    rewrite E. cbn [obind]. do 2 eexists. split; [reflexivity|]. cbn. by rewrite Hl.
  - apply Forall_cons in Hall as [_ Hall]. destruct (IH Hall size Hs) as (bs & sz & E & Hl). rewrite E. cbn [obind].
    do 2 eexists. split; [reflexivity|]. done.
Qed.

(** An empty file ends the loop. *)
Lemma read_blocks_empty n (inputs : list file) : 0 < n -> Forall (fun f => len f = n \/ f = []) inputs -> [] ∈ inputs ->
  forall size, size = 0 \/ size = Z.min n ERASURE_CODING_SMALL_BLOCK_SIZE ->
  read_blocks (map Some inputs) 0 size = Ok None.
Proof.
  intros Hn. assert (HB : 0 < ERASURE_CODING_SMALL_BLOCK_SIZE) by done.
  induction inputs as [|f inputs IH]; intros Hall Hin size Hs; [by apply not_elem_of_nil in Hin|]. cbn [map read_blocks].
  apply Forall_cons in Hall as [[Hf| ->] Hall]; [|by rewrite drop_nil, take_nil].
  apply elem_of_cons in Hin as [<-|Hin]; [cbn in Hf; unfold len in Hf; cbn in Hf; lia|].
  pose proof (first_block f n Hf Hn) as Hb. rewrite Hb. rewrite (proj2 (Z.eqb_neq _ 0)) by lia.
  assert (Hsz : (if size =? 0 then Z.min n ERASURE_CODING_SMALL_BLOCK_SIZE else size) = Z.min n ERASURE_CODING_SMALL_BLOCK_SIZE)
    by (destruct (Z.eqb_spec size 0); lia).
  rewrite Hsz, Z.eqb_refl. cbn [negb]. rewrite IH by (done || by right). done.
Qed.

Lemma shards_not_empty {RS : ReedSolomon} data shards : EcCodec.write_ec_files data = Ok shards -> data <> [] ->
  exists n, 0 < n /\ Forall (fun f => len f = n) shards.
Proof.
  intros Ew Hd. eexists. split; [|exact (write_ec_files_lens data shards Ew)].
  set (lg := ERASURE_CODING_LARGE_BLOCK_SIZE). set (sm := ERASURE_CODING_SMALL_BLOCK_SIZE).
  assert (Hlg : 0 < lg) by done. assert (Hsm : 0 < sm) by done.
  assert (Hn : 0 < len data) by (destruct data; [done|]; unfold len; cbn; lia).
  destruct (large_rows_spec lg Hlg (len data) ltac:(lia)) as (L1 & _ & _ & _ & L5). specialize (L5 Hn).
  destruct (small_rows_spec lg sm Hlg Hsm (len data) ltac:(lia)) as (S1 & _ & _ & S4). unfold shard_size.
  assert (0 < small_rows lg sm (len data)) by (unfold DATA_SHARDS_COUNT in *; nia). nia.
Qed.

Lemma masked_lengths n shards present : Forall (fun f => len f = n) shards -> Forall (of_length n) (masked present shards).
Proof.
  intros H. apply Forall_lookup_2. intros i o Hi. unfold masked in Hi. rewrite list_lookup_imap in Hi.
  apply fmap_Some in Hi as (f & Hf & ->). destruct (present _); [|done]. exact (Forall_lookup_1 _ _ _ _ H Hf).
Qed.

Lemma rebuild_too_few {RS : ReedSolomon} {RI : ReedSolomonInverse} base data shards present s :
  EcCodec.write_ec_files data = Ok shards -> data <> [] ->
  len (List.filter present shard_ids) < DATA_SHARDS_COUNT -> shards_left base shards present s ->
  exists s', Disk.rebuild_ec_files base s = (s', Err EcReedSolomon)
    /\ (forall id, id ∈ shard_ids -> fs_bytes s' (shard_path base id) = if present id then shards !! Z.to_nat id else Some [])
    /\ forall n, (forall id, id ∈ lost present -> n <> shard_path base id) -> s' !! n = s !! n.
Proof.
  intros Ew Hd Hc Hl. pose proof (shards_len data shards Ew) as Hlen.
  destruct (shards_not_empty data shards Ew Hd) as (n & Hn & Hall).
  destruct (read_blocks_all n (masked present shards) Hn (masked_lengths n shards present Hall) 0 ltac:(by left))
    as (blocks & size & Eb & Hcount).
  assert (Er : EcCodec.rebuild_ec_files (masked present shards)
    = Err (EcReedSolomon, replicate (length (masked present shards)) [])).
  { unfold EcCodec.rebuild_ec_files. cbn [rebuild_loop]. rewrite Eb. cbn [map_err obind]. unfold reconstruct_rows.
    assert (Hfew : len (omap id blocks) < DATA_SHARDS_COUNT).
    { unfold len. rewrite Hcount. fold (len (omap id (masked present shards))). by rewrite count_masked. }
    by rewrite (proj2 (Z.ltb_lt _ _) Hfew). }
  unfold Disk.rebuild_ec_files, mbind', mget, mmodify, mthrow. rewrite (missing_lost base shards present s), (inputs_masked base shards present s), Er by done.
  set (outputs := replicate _ []). set (s1 := Disk.create_shards base (lost present) s).
  assert (Hother : forall n, (forall id, id ∈ lost present -> n <> shard_path base id) ->
    Disk.put_missing base (lost present) outputs s1 !! n = s !! n).
  { intros m Hm. unfold s1. rewrite put_missing_other by (intros id Hid; apply not_eq_sym; by apply Hm).
    apply create_shards_other. intros id Hid. apply not_eq_sym. by apply Hm. }
  eexists. split; [reflexivity|]. split; [|exact Hother]. intros id Hid. destruct (present id) eqn:Ep.
  - unfold fs_bytes. rewrite Hother.
    + change (fs_bytes s (shard_path base id) = shards !! Z.to_nat id). rewrite (sl_shards _ _ _ _ Hl id Hid). by rewrite Ep.
    + intros i Hi E'. apply lost_elem in Hi as [Hi Hp]. apply shard_path_inj in E'; [congruence|done|done].
  - rewrite put_missing_at; [|done|by intros i [? _]%lost_elem|by apply lost_elem]. f_equal. unfold outputs.
    destruct (replicate _ _ !! _) as [x|] eqn:Ex; [|done]. by apply lookup_replicate in Ex as [-> _].
Qed.

(** Once the lost shards are empty files, nothing counts as missing. *)
Lemma rebuild_again {RI : ReedSolomonInverse} base shards present n s : len shards = TOTAL_SHARDS_COUNT ->
  0 < n -> Forall (fun f => len f = n) shards -> lost present <> [] ->
  (forall id, id ∈ shard_ids -> fs_bytes s (shard_path base id) = if present id then shards !! Z.to_nat id else Some []) ->
  Disk.rebuild_ec_files base s = (s, Ok []).
Proof.
  intros Hlen Hn Hall Hlost Hs.
  set (files := map (fun id => if present id then default [] (shards !! Z.to_nat id) else []) shard_ids).
  assert (Hf : forall id, id ∈ shard_ids -> fs_bytes s (shard_path base id)
    = Some (if present id then default [] (shards !! Z.to_nat id) else [])).
  { intros id Hid. rewrite Hs by done. destruct (present id); [|done]. by destruct (shard_there shards Hlen id Hid) as [f ->]. }
  assert (Em : Disk.missing base s = []).
  { unfold Disk.missing. rewrite (filter_ext_in _ (fun _ => false)); [generalize shard_ids; intros l; by induction l|].
    intros id Hid%list_elem_of_In. rewrite Hf by done. by rewrite bool_decide_true. }
  assert (Ei : map (fun id => fs_bytes s (shard_path base id)) shard_ids = map Some files).
  { unfold files. rewrite map_map. apply map_ext_in. intros id Hid%list_elem_of_In. by apply Hf. }
  assert (Er : EcCodec.rebuild_ec_files (map Some files) = Ok (replicate (length (map Some files)) [])).
  { unfold EcCodec.rebuild_ec_files. cbn [rebuild_loop]. rewrite (read_blocks_empty n); [done|done| | |by left].
    - apply Forall_lookup_2. intros i f Hi. unfold files in Hi. rewrite list_lookup_fmap in Hi. apply fmap_Some in Hi as (id & Hid & ->).
      destruct (present id); [left|by right]. apply list_elem_of_lookup_2 in Hid.
      destruct (shard_there shards Hlen id Hid) as [x Hx]. rewrite Hx. exact (Forall_lookup_1 _ _ _ _ Hall Hx).
    - destruct (lost present) as [|id l] eqn:El; [done|]. assert (Hid : id ∈ lost present) by (rewrite El; by left).
      apply lost_elem in Hid as [Hid Hp]. unfold files. apply list_elem_of_fmap. exists id. by rewrite Hp. }
  unfold Disk.rebuild_ec_files, mbind', mget, mmodify, mret. by rewrite Em, Ei, Er.
Qed.

(** ** The journal *)

(** The sorted index after the keys of the journal were marked in it. *)
Definition journaled (base : string) (s : fs) (ecx : file) : file :=
  match fs_bytes s (dotted base "ecj") with
  | None => ecx
  | Some ecj => (replay_ecj (length ecj) ecj ecx (len ecx)).1
  end.

Lemma journal_no_key base s ecx : (forall ecj, fs_bytes s (dotted base "ecj") = Some ecj -> len ecj < NEEDLE_ID_SIZE) ->
  journaled base s ecx = ecx.
Proof.
  unfold journaled. destruct (fs_bytes s (dotted base "ecj")) as [ecj|]; [|done]. intros H. specialize (H ecj eq_refl).
  destruct (length ecj); [done|]. cbn [replay_ecj]. unfold read_exact_at. change (NEEDLE_ID_SIZE =? 0) with false. cbn match.
  by rewrite (proj2 (Z.leb_gt (0 + NEEDLE_ID_SIZE) _)) by lia.
Qed.

Lemma index_not_journal base : dotted base "ecx" <> dotted base "ecj".
Proof. intros X. apply dotted_inj in X as [_ X]; [discriminate|by repeat constructor..]. Qed.

(** [rebuild_ecx_file] applies the journal and removes it. *)
Lemma journal_applied base s ecx : fs_bytes s (dotted base "ecx") = Some ecx ->
  exists s', rebuild_ecx_file base s = (s', Ok tt) /\ fs_bytes s' (dotted base "ecx") = Some (journaled base s ecx)
    /\ s' !! dotted base "ecj" = None /\ forall n, n <> dotted base "ecx" -> n <> dotted base "ecj" -> s' !! n = s !! n.
Proof.
  intros Hx. unfold rebuild_ecx_file, journaled. change (base ++ ".ecj")%string with (dotted base "ecj").
  change (base ++ ".ecx")%string with (dotted base "ecx"). pose proof (index_not_journal base) as Hne.
  pose proof (proj1 (fs_get_bytes s (dotted base "ecx") ecx) Hx) as Gx.
  unfold fs_get at 1, fs_bytes at 2. destruct (s !! dotted base "ecj") as [nd|] eqn:Ej; [|by exists s].
  cbn [fmap option_fmap option_map]. rewrite Gx.
  destruct (replay_ecj_total (length (f_bytes nd)) (f_bytes nd) ecx (len ecx)) as [ecx' E]; [pose proof (len_nonneg ecx); lia|].
  rewrite E. unfold fs_remove. rewrite fs_put_lookup_ne, Ej by done. cbn [map_err fst].
  eexists. split; [reflexivity|]. split; [unfold fs_bytes; rewrite lookup_delete_ne by done; apply fs_bytes_put_eq|].
  split; [apply lookup_delete_eq|]. intros n N1 N2. rewrite lookup_delete_ne by done. by apply fs_put_lookup_ne.
Qed.

(** ** The handler *)

Section handler.
Context {RI : ReedSolomonInverse} (vid : Z) (collection : string) (st : store) (ls1 : list disk_location) (l : disk_location) (ls2 : list disk_location).
Let name := ec_shard_base_filename collection vid.
Let base := (l.(dl_directory) ++ "/" ++ name)%string.
Context (Hst : st.(st_locations) = ls1 ++ l :: ls2).

Lemma rebuild_handler s s' r :
  (forall l', l' ∈ ls1 -> s !! dotted (l'.(dl_directory) ++ "/" ++ name)%string "ecx" = None) ->
  is_Some (s !! dotted base "ecx") -> Disk.rebuild_ec_files base s = (s', r) ->
  volume_ec_shards_rebuild vid collection (st, s)
  = match r with
    | Ok ids => let '(s'', j) := rebuild_ecx_file base s' in
                (sync (st, s''), match j with Ok _ => Ok ids | Err _ => Err Internal | Panic => Panic end)
    | _ => (sync (st, s'), map_err (fun _ => Internal) r)
    end.
Proof.
  intros H1 Hx E. unfold volume_ec_shards_rebuild, synced, mbind', mget, on_files. cbn [fst snd].
  rewrite Hst. fold name. rewrite (rebuild_here name ls1 l ls2 s H1 Hx).
  unfold rebuild_in, mbind', mget, mlift, file_exists, mret. cbn [map_err]. fold base.
  change (base ++ ".ecx")%string with (dotted base "ecx"). rewrite bool_decide_true by done. rewrite E.
  destruct r as [ids|e|]; cbn [map_err]; [|done..]. by destruct (rebuild_ecx_file base s') as [s'' [[]|e|]].
Qed.
End handler.

Lemma not_lost_shard base present e : e ∈ ["ecx"; "ecj"]%string ->
  forall id, id ∈ lost present -> dotted base e <> shard_path base id.
Proof.
  intros He id [Hid _]%lost_elem E. symmetry in E. revert E. apply shard_path_other; [done|..].
  - apply elem_of_cons in He as [->|He]; [by repeat constructor|]. apply list_elem_of_singleton in He as ->. by repeat constructor.
  - intros i Hi. apply elem_of_cons in He as [->|He].
    + destruct (not_shard_exts "ecx") as [_ N]; [by apply (bool_decide_unpack _)|]. by apply N.
    + apply list_elem_of_singleton in He as ->. apply (shard_ext_ok i Hi).
Qed.

(** C12: rebuilding the shards of a volume in the directory that has its sorted
    index.  When at least ten of the fourteen shards are left, the call answers the
    ids of the lost ones and afterwards every shard file has its original contents.
    The journal of deletions, which a mounted volume has, is applied to the sorted
    index and removed; when it holds no key the index is as before.  No other file
    is touched.  When fewer than ten shards are left the call fails, but leaves an
    empty file for every lost shard: from then on it succeeds, finds nothing missing
    and restores nothing. *)
Theorem shards_rebuilt :
  forall (RS : ReedSolomon) (RI : ReedSolomonInverse) vid collection st ls1 l ls2 s data shards present,
  let name := ec_shard_base_filename collection vid in
  let base := (l.(dl_directory) ++ "/" ++ name)%string in
  st.(st_locations) = ls1 ++ l :: ls2 ->
  (forall l', l' ∈ ls1 -> s !! dotted (l'.(dl_directory) ++ "/" ++ name)%string "ecx" = None) ->
  EcCodec.write_ec_files data = Ok shards -> data <> [] -> shards_left base shards present s ->
  (recovers_from present -> DATA_SHARDS_COUNT <= len (List.filter present shard_ids) ->
     exists s' ecx, volume_ec_shards_rebuild vid collection (st, s) = (sync (st, s'), Ok (lost present))
       /\ (forall id, id ∈ shard_ids -> fs_bytes s' (shard_path base id) = shards !! Z.to_nat id)
       /\ fs_bytes s (dotted base "ecx") = Some ecx
       /\ fs_bytes s' (dotted base "ecx") = Some (journaled base s ecx)
       /\ ((forall ecj, fs_bytes s (dotted base "ecj") = Some ecj -> len ecj < NEEDLE_ID_SIZE) -> journaled base s ecx = ecx)
       /\ s' !! dotted base "ecj" = None
       /\ forall n, (forall id, id ∈ lost present -> n <> shard_path base id) ->
            n <> dotted base "ecx" -> n <> dotted base "ecj" -> s' !! n = s !! n)
  /\ (len (List.filter present shard_ids) < DATA_SHARDS_COUNT ->
     exists s', volume_ec_shards_rebuild vid collection (st, s) = (sync (st, s'), Err Internal)
       /\ (forall id, id ∈ lost present -> fs_bytes s' (shard_path base id) = Some [])
       /\ forall st', st'.(st_locations) = ls1 ++ l :: ls2 -> exists s'',
          volume_ec_shards_rebuild vid collection (st', s') = (sync (st', s''), Ok [])
          /\ forall id, id ∈ lost present -> fs_bytes s'' (shard_path base id) = Some []).
Proof.
  intros RS RI vid collection st ls1 l ls2 s data shards present name base Hst H1 Ew Hd Hl.
  pose proof (sl_ecx _ _ _ _ Hl) as Hx. destruct (Hx) as [nd Hnd].
  assert (Hxb : fs_bytes s (dotted base "ecx") = Some (f_bytes nd)) by (unfold fs_bytes; by rewrite Hnd).
  assert (Hshard : forall id, id ∈ shard_ids -> shard_path base id <> dotted base "ecx" /\ shard_path base id <> dotted base "ecj").
  { intros id Hid. assert (Hin : id ∈ lost (fun _ => false)) by (by apply lost_elem).
    split; apply not_eq_sym; apply (not_lost_shard base (fun _ => false)); (exact Hin || (by apply (bool_decide_unpack _))). }
  assert (Hecx : forall s' : fs, (forall n, (forall id, id ∈ lost present -> n <> shard_path base id) -> s' !! n = s !! n) ->
    forall e, e ∈ ["ecx"; "ecj"]%string -> s' !! dotted base e = s !! dotted base e).
  { intros s' Ho e He. apply Ho. by apply not_lost_shard. }
  split.
  - intros Hrec Hc. destruct (rebuild_enough base data shards present s Hrec Ew Hc Hl) as (s1 & E & Hf & Ho).
    assert (X1 : fs_bytes s1 (dotted base "ecx") = Some (f_bytes nd))
      by (unfold fs_bytes; rewrite (Hecx s1 Ho) by (by apply (bool_decide_unpack _)); exact Hxb).
    assert (Ej : journaled base s1 (f_bytes nd) = journaled base s (f_bytes nd))
      by (unfold journaled, fs_bytes; rewrite (Hecx s1 Ho) by (by apply (bool_decide_unpack _)); done).
    destruct (journal_applied base s1 (f_bytes nd) X1) as (s' & Ea & Fx & Fj & Fo).
    exists s', (f_bytes nd). rewrite (rebuild_handler vid collection st ls1 l ls2 Hst s s1 _ H1 Hx E). fold name base. rewrite Ea.
    split; [done|]. split; [intros id Hid; unfold fs_bytes; rewrite Fo by (by apply Hshard); by apply Hf|].
    split; [done|]. split; [by rewrite Fx, Ej|]. split; [apply journal_no_key|]. split; [done|].
    intros n N1 N2 N3. rewrite Fo by done. by apply Ho.
  - intros Hc. destruct (rebuild_too_few base data shards present s Ew Hd Hc Hl) as (s' & E & Hf & Ho).
    destruct (shards_not_empty data shards Ew Hd) as (n & Hn & Hall).
    assert (Hkeep : forall b, s' !! dotted b "ecx" = s !! dotted b "ecx").
    { intros b. apply Ho. intros id [Hid _]%lost_elem E'. symmetry in E'. revert E'.
      destruct (not_shard_exts "ecx") as [L N]; [by apply (bool_decide_unpack _)|]. by apply shard_path_other. }
    assert (Hsome : lost present <> []).
    { intros E0. assert (Hall' : List.filter present shard_ids = shard_ids).
      { apply List.forallb_filter_id, List.forallb_forall. intros id Hid%list_elem_of_In. destruct (present id) eqn:Ep; [done|].
        assert (X : id ∈ lost present) by (by apply lost_elem). rewrite E0 in X. by apply not_elem_of_nil in X. }
      rewrite Hall' in Hc. vm_compute in Hc. discriminate Hc. }
    assert (Hempty : forall id, id ∈ lost present -> fs_bytes s' (shard_path base id) = Some [])
      by (intros id [Hid Hp]%lost_elem; rewrite Hf by done; by rewrite Hp).
    exists s'. split; [exact (rebuild_handler vid collection st ls1 l ls2 Hst s s' (Err EcReedSolomon) H1 Hx E)|]. split; [done|].
    intros st' Hst'.
    assert (X1 : fs_bytes s' (dotted base "ecx") = Some (f_bytes nd)) by (unfold fs_bytes; rewrite Hkeep; exact Hxb).
    destruct (journal_applied base s' (f_bytes nd) X1) as (s'' & Ea & _ & _ & Fo). exists s''. split.
    + rewrite (rebuild_handler vid collection st' ls1 l ls2 Hst' s' s' (Ok [])).
      * fold name base. by rewrite Ea.
      * intros l' Hl'. rewrite Hkeep. by apply H1.
      * rewrite Hkeep. exact Hx.
      * by apply (rebuild_again base shards present n s' (shards_len data shards Ew)).
    + intros id Hid. pose proof Hid as [Hi _]%lost_elem. unfold fs_bytes. rewrite Fo by (by apply Hshard). by apply Hempty.
Qed.

(** A directory with the sorted index, the empty journal of a mounted volume and
    some of the shards. *)
Definition directory_with (present : Z -> bool) (shards : list file) : fs :=
  Disk.put_missing "/d/c_3" (List.filter present shard_ids) shards
    (<["/d/c_3.ecj"%string := FNode [] false]> {[ "/d/c_3.ecx"%string := FNode [] false ]}).

Lemma directory_with_left present shards : len shards = TOTAL_SHARDS_COUNT ->
  shards_left "/d/c_3" shards present (directory_with present shards).
Proof.
  intros Hlen. unfold directory_with.
  assert (Hsub : forall id, id ∈ List.filter present shard_ids <-> id ∈ shard_ids /\ present id = true).
  { intros id. by rewrite list_elem_of_In, filter_In, <- list_elem_of_In. }
  assert (Hext : forall e, lacks "." e -> (forall i, i ∈ shard_ids -> shard_ext i <> e) ->
    forall id, id ∈ List.filter present shard_ids -> shard_path "/d/c_3" id <> dotted "/d/c_3" e).
  { intros e L N id [Hid _]%Hsub. by apply shard_path_other. }
  split.
  - rewrite put_missing_other; [by eexists|]. destruct (not_shard_exts "ecx") as [L N]; [by apply (bool_decide_unpack _)|]. by apply Hext.
  - intros id Hid. destruct (present id) eqn:Ep.
    + rewrite put_missing_at; [|done|by intros i [? _]%Hsub|by apply Hsub]. by destruct (shard_there shards Hlen id Hid) as [f ->].
    + unfold fs_bytes. rewrite put_missing_other.
      * assert (Hin : id ∈ lost present) by (by apply lost_elem).
        rewrite lookup_insert_ne, lookup_singleton_ne; [done|..]; apply (not_lost_shard "/d/c_3" present);
          (exact Hin || by apply (bool_decide_unpack _)).
      * intros i [Hi Hp]%Hsub E. apply shard_path_inj in E; congruence.
Qed.

Definition one_directory : store := Store "a" 80 "" [DiskLocation "/d" 7 ∅ ∅] "" "" 0 [] "".
Definition first_five_lost (i : Z) : bool := 5 <=? i.

Lemma shards_rebuilt_witness : exists shards s1 s2,
  EcCodec.write_ec_files (RS := mirror) tiny = Ok shards
  /\ volume_ec_shards_rebuild (RI := mirror_inverse) 3 "c" (one_directory, directory_with first_four_lost shards)
     = (sync (one_directory, s1), Ok [0; 1; 2; 3])
  /\ fs_bytes s1 (shard_path "/d/c_3" 0) = shards !! Z.to_nat 0
  /\ volume_ec_shards_rebuild (RI := mirror_inverse) 3 "c" (one_directory, directory_with first_five_lost shards)
     = (sync (one_directory, s2), Err Internal)
  /\ exists s3, volume_ec_shards_rebuild (RI := mirror_inverse) 3 "c" (one_directory, s2) = (sync (one_directory, s3), Ok []).
Proof.
  assert (Hzero : 0 ∈ shard_ids) by (apply all_shard_ids; split; [lia|reflexivity]).
  pose proof (write_ec_files_ok (RS := mirror) tiny) as Ew.
  set (shards := coded _ _) in Ew. clearbody shards. pose proof (shards_len tiny shards Ew) as Hlen.
  destruct (shards_rebuilt mirror mirror_inverse 3 "c" one_directory [] (DiskLocation "/d" 7 ∅ ∅) []
    (directory_with first_four_lost shards) tiny shards first_four_lost) as [H1 _].
  - reflexivity.
  - intros l' Hl'. destruct (not_elem_of_nil _ Hl').
  - exact Ew.
  - discriminate.
  - exact (directory_with_left first_four_lost shards Hlen).
  - destruct H1 as (s1 & ecx & E1 & F1 & _); [exact mirror_recovers|vm_compute; discriminate|].
    destruct (shards_rebuilt mirror mirror_inverse 3 "c" one_directory [] (DiskLocation "/d" 7 ∅ ∅) []
      (directory_with first_five_lost shards) tiny shards first_five_lost) as [_ H2].
    + reflexivity.
    + intros l' Hl'. destruct (not_elem_of_nil _ Hl').
    + exact Ew.
    + discriminate.
    + exact (directory_with_left first_five_lost shards Hlen).
    + destruct H2 as (s2 & E2 & _ & E3); [vm_compute; reflexivity|].
      exists shards, s1, s2. split; [exact Ew|]. split; [exact E1|]. split; [exact (F1 0 Hzero)|].
      split; [exact E2|]. destruct (E3 one_directory eq_refl) as (s3 & E4 & _). exists s3. exact E4.
Defined.
