(* ===== verification/RestoreFacts.v ===== *)
(** * Turning shards back into a volume

    What [volume_ec_shards_to_volume] writes from the shards, the sorted index and
    the journal of a sealed volume: the data file up to its last needle, and an
    index file without the journaled keys. *)

From stdpp Require Import sorting.
From S2P Require Import Prelude Messages Types Text Ttl Replica Errors Fid Files Fs Needle NeedleCodec NeedleMap NeedleMapFacts Volume VolumeFacts Vacuum VacuumFacts ShardBits EcCodec EcCodecFacts EcIndex EcVolume Store StoreFacts EcDisk EcDiskFacts Directory Api Server SealFacts.
From Stdlib Require Import Strings.Byte Strings.Ascii.
#[local] Open Scope list_scope.
#[local] Open Scope Z_scope.

(** ** Where the last needle ends *)

Definition entry_end (v : needle_value) : Z := u64 (Offset.actual_offset v.(nv_offset) + Size.actual_size v.(nv_size)).

Lemma ecx_stop_spec sm : Forall entry_wf sm -> Forall (fun e => Size.is_deleted e.2.(nv_size) = false) sm ->
  forall n d, (length (entries_bytes sm) <= n)%nat -> exists stop, ecx_stop n (entries_bytes sm) d = Ok stop
    /\ d <= stop /\ Forall (fun e => entry_end e.2 <= stop) sm
    /\ (stop = d \/ exists e, e ∈ sm /\ stop = entry_end e.2).
Proof.
  induction sm as [|[k v] sm IH]; intros Hwf Hlive n d Hn.
  - exists d. split; [by destruct n|]. split; [lia|]. split; [constructor|by left].
  - apply Forall_cons in Hwf as [Hw Hwf]. apply Forall_cons in Hlive as [Hl Hlive]. cbn [snd] in Hl.
    change (entries_bytes ((k, v) :: sm)) with (as_bytes v k ++ entries_bytes sm) in *.
    assert (H16 : length (as_bytes v k) = 16%nat) by (pose proof (len_entry v k); unfold len in *; lia).
    rewrite length_app, H16 in Hn. destruct n as [|n]; [lia|]. cbn [ecx_stop].
    pose proof (read_exact_at_app [] (as_bytes v k) (entries_bytes sm)) as R.
    rewrite len_entry, app_nil_l in R. change (len []) with 0 in R. change NEEDLE_ENTRY_SIZE with 16. rewrite R.
    rewrite read_index_entry_as_bytes by done. cbn [obind]. rewrite Hl. fold (entry_end v).
    rewrite <- H16, drop_app_length. set (d' := if d <? entry_end v then entry_end v else d).
    assert (Hd : d <= d' /\ entry_end v <= d' /\ (d' = d \/ d' = entry_end v)) by (unfold d'; destruct (Z.ltb_spec d (entry_end v)); lia).
    clearbody d'. destruct (IH Hwf Hlive n d' ltac:(lia)) as (stop & E & H1 & H2 & H3).
    exists stop. split; [done|]. split; [lia|]. split; [apply Forall_cons; split; [cbn; lia|done]|].
    destruct H3 as [->|(e & He & ->)]; [|right; exists e; split; [by right|done]].
    destruct Hd as (_ & _ & [->| ->]); [by left|right]. exists (k, v). split; [by left|done].
Qed.

(** The entries of the index, as ends of needles of the log. *)
Lemma entry_end_log crc sb a n b : Forall (loggable crc) (a ++ n :: b) -> pos (a ++ n :: b) < 2 ^ 32 ->
  Offset.actual_offset (entry_at a n).(nv_offset) = pos a
  /\ entry_end (entry_at a n) = pos a + len (encode n)
  /\ pos a + len (encode n) <= len (SuperBlock.as_bytes sb ++ encodes (a ++ n :: b)).
Proof.
  intros Hl Hp. apply Forall_app in Hl as [Hla [[[Hwf _] _] _]%Forall_cons].
  assert (Hlen : len (SuperBlock.as_bytes sb ++ encodes (a ++ n :: b)) = pos (a ++ n :: b)) by (by rewrite len_app, SuperBlock.len_as_bytes).
  assert (Hle : pos a + len (encode n) <= pos (a ++ n :: b)).
  { unfold pos. rewrite encodes_app, encodes_cons, !len_app. pose proof (len_nonneg (encodes b)). lia. }
  pose proof (pos_ge a). pose proof (len_nonneg (encode n)). unfold SUPER_BLOCK_SIZE in *.
  assert (Hoff : Offset.actual_offset (nv_offset (entry_at a n)) = pos a).
  { cbn [entry_at nv_offset]. apply Offset.actual_from; [lia|]. apply pos_aligned. eapply Forall_impl; [exact Hla|]. by intros x [[? ?] ?]. }
  split; [done|]. split; [|lia]. unfold entry_end. rewrite Hoff. cbn [entry_at nv_size]. rewrite <- len_encode by done.
  apply u64_id. unfold in_u64. lia.
Qed.

(** ** The restored files *)

Section restore.
Context {VI : VolumeInfoJson} {RS : ReedSolomon} (crc : list byte -> Z).

(** The index file and the log that a sealed volume was made from. *)
Record history_of (W : gmap Z needle) (ns : list needle) (es : list (Z * needle_value)) : Prop := {
  ho_log : Forall (loggable crc) ns;
  ho_size : pos ns < 2 ^ 32;
  ho_entries : Forall entry_wf es;
  ho_index : forall k, match W !! k with
                       | Some n => exists a b, ns = a ++ n :: b /\ n.(n_id) = k /\ replay es !! k = Some (entry_at a n)
                       | None => replay es !! k = None
                       end;
}.

(** What is left of a sealed volume from which nothing was deleted since: the
    sorted index, the data shards, and no journal or the empty one that mounting
    makes. *)
Record remains (base : string) (s s' : fs) : Prop := {
  rm_files : forall e, e ∈ "ecx" :: map shard_ext (seqZ 0 DATA_SHARDS_COUNT) -> s' !! dotted base e = s !! dotted base e;
  rm_journal : fs_bytes s' (dotted base "ecj") = None \/ fs_bytes s' (dotted base "ecj") = Some [];
}.

Lemma ecx_entry W ns es sb k v : history_of W ns es -> replay es !! k = Some v ->
  exists a n b, W !! k = Some n /\ ns = a ++ n :: b /\ v = entry_at a n
    /\ entry_end v = pos a + len (encode n) /\ entry_end v <= len (SuperBlock.as_bytes sb ++ encodes ns)
    /\ Size.is_deleted v.(nv_size) = false.
Proof.
  intros [Hl Hp _ Hi] Hk. specialize (Hi k). destruct (W !! k) as [n|]; [|congruence].
  destruct Hi as (a & b & -> & Hid & Hr). rewrite Hk in Hr. injection Hr as ->.
  destruct (entry_end_log crc sb a n b Hl Hp) as (_ & E1 & E2). exists a, n, b. do 3 (split; [done|]). split; [done|].
  split; [lia|]. cbn [entry_at nv_size]. apply Size.valid_not_deleted, len_body_bound.
  by apply Forall_app in Hl as [_ [[[Hwf _] _] _]%Forall_cons].
Qed.

(** The size [find_data_filesize] computes. *)
Lemma data_filesize_spec W ns es sb ecx : history_of W ns es ->
  EcIndex.write_sorted_file_from_index (entries_bytes es) = Ok ecx ->
  exists stop, ecx_stop (length ecx) ecx 0 = Ok stop /\ 0 <= stop <= len (SuperBlock.as_bytes sb ++ encodes ns)
    /\ (forall k n a b, W !! k = Some n -> ns = a ++ n :: b -> replay es !! k = Some (entry_at a n) -> pos a + len (encode n) <= stop)
    /\ (W = ∅ -> stop = 0).
Proof.
  intros Hh Ex. destruct (sorted_file_spec es (ho_entries _ _ _ Hh)) as (sm & E & _ & Hw & Hin).
  rewrite E in Ex. injection Ex as <-.
  assert (Hlive : Forall (fun e => Size.is_deleted (nv_size e.2) = false) sm).
  { apply Forall_forall. intros [k v] He. apply Hin in He. by destruct (ecx_entry W ns es sb k v Hh He) as (? & ? & ? & _ & _ & _ & _ & _ & ?). }
  destruct (ecx_stop_spec sm Hw Hlive (length (entries_bytes sm)) 0 ltac:(done)) as (stop & Es & H0 & Hall & Hex).
  exists stop. split; [done|]. split; [split; [done|]|split].
  - destruct Hex as [->|([k v] & He & ->)]; [apply len_nonneg|]. apply Hin in He.
    by destruct (ecx_entry W ns es sb k v Hh He) as (? & ? & ? & _ & _ & _ & _ & ? & _).
  - intros k n a b Hk Hns Hr. rewrite Forall_forall in Hall. specialize (Hall (k, entry_at a n) ltac:(by apply Hin)). cbn [snd] in Hall.
    destruct Hh as [Hl Hp _ _]. rewrite Hns in Hl, Hp. destruct (entry_end_log crc sb a n b Hl Hp) as (_ & E1 & _). lia.
  - intros ->. destruct Hex as [->|([k v] & He & _)]; [done|]. apply Hin in He.
    pose proof (ho_index _ _ _ Hh k) as X. rewrite lookup_empty in X. congruence.
Qed.

Lemma open_all_ok s names files : length names = length files ->
  (forall (i : nat) n, names !! i = Some n -> fs_bytes s n = files !! i) -> Disk.open_all s names = Ok files.
Proof.
  revert files. induction names as [|n names IH]; intros [|f files] Hl H; try done. cbn [Disk.open_all].
  pose proof (H O n eq_refl) as H0. cbn in H0. apply fs_get_bytes in H0. unfold Disk.open_file. rewrite H0. cbn [map_err obind].
  rewrite (IH files); [done|by injection Hl|]. intros i m Hi. apply (H (S i) m Hi).
Qed.

(** The first shard begins with the super block. *)
Lemma version_of_shard sb rest shards ec00 : SuperBlock.wf sb -> EcCodec.write_ec_files (SuperBlock.as_bytes sb ++ rest) = Ok shards ->
  len (SuperBlock.as_bytes sb ++ rest) < 2 ^ 32 ->
  shards !! 0%nat = Some ec00 -> read_ec_volume_version ec00 = Ok sb.(sb_version).
Proof.
  set (data := SuperBlock.as_bytes sb ++ rest). intros Hwf Ew Hd H0. rewrite write_ec_files_ok in Ew. injection Ew as <-.
  assert (Hlen : 8 <= len data) by (unfold data; rewrite len_app, SuperBlock.len_as_bytes; pose proof (len_nonneg rest); unfold SUPER_BLOCK_SIZE; lia).
  unfold coded, data_rows in H0. change (seqZ 0 DATA_SHARDS_COUNT) with (0 :: seqZ 1 9) in H0. cbn [map app] in H0.
  injection H0 as <-.
  set (lg := ERASURE_CODING_LARGE_BLOCK_SIZE). set (sm := ERASURE_CODING_SMALL_BLOCK_SIZE).
  assert (Hlg : lg = 1024 * 1024 * 1024) by done. assert (Hsm : sm = 1024 * 1024) by done.
  assert (Elr : large_rows lg (len data) = 0).
  { unfold large_rows, DATA_SHARDS_COUNT. assert ((len data - 1) / (lg * 10) < 1) by (apply Z.div_lt_upper_bound; lia). lia. }
  assert (Hsz : 8 <= shard_size lg sm (len data)).
  { unfold shard_size, small_rows. rewrite Elr. unfold DATA_SHARDS_COUNT. assert (1 <= (len data - 0 * (lg * 10) + sm * 10 - 1) / (sm * 10)) by (apply Z.div_le_lower_bound; lia). nia. }
  assert (Es : take 8 (tab (shard_byte lg sm data 0) (shard_size lg sm (len data))) = SuperBlock.as_bytes sb).
  { replace (shard_size lg sm (len data)) with (8 + (shard_size lg sm (len data) - 8)) by lia.
    destruct (take_drop_tab (shard_byte lg sm data 0) (shard_size lg sm (len data) - 8) 8) as [X _]; [lia..|].
    change (Z.to_nat 8) with 8%nat in X. rewrite X. rewrite <- (tab_data (SuperBlock.as_bytes sb)), SuperBlock.len_as_bytes.
    apply tab_ext. intros p Hp. change SUPER_BLOCK_SIZE with 8 in Hp. unfold shard_byte. rewrite Elr.
    replace p with (0 * lg + (0 * sm + p)) at 1 by lia. rewrite source_small by lia.
    replace (0 * (lg * DATA_SHARDS_COUNT) + 0 * (sm * DATA_SHARDS_COUNT) + sm * 0 + p) with p by lia.
    unfold data, byte_at. rewrite lookup_app_l; [done|]. pose proof (SuperBlock.len_as_bytes sb). unfold len, SUPER_BLOCK_SIZE in *. lia. }
  unfold read_ec_volume_version, read_exact_at. change (SUPER_BLOCK_SIZE =? 0) with false. cbn match.
  rewrite tab_len by lia. rewrite (proj2 (Z.leb_le _ _)) by (unfold SUPER_BLOCK_SIZE; lia).
  change (Z.to_nat SUPER_BLOCK_SIZE) with 8%nat. rewrite drop_0, Es. cbn [map_err obind].
  by rewrite SuperBlock.parse_as_bytes.
Qed.

Lemma kept_bytes base s s' e : remains base s s' -> e ∈ "ecx" :: map shard_ext (seqZ 0 DATA_SHARDS_COUNT) ->
  fs_bytes s' (dotted base e) = fs_bytes s (dotted base e).
Proof. intros Hr He. unfold fs_bytes. by rewrite (rm_files _ _ _ Hr e He). Qed.

(** [write_data_file] restores the file up to a length. *)
Lemma write_data_ok base data shards s n : EcCodec.write_ec_files data = Ok shards -> len data < 2 ^ 32 -> 0 <= n <= len data ->
  (forall id, 0 <= id < DATA_SHARDS_COUNT -> fs_bytes s (shard_path base id) = shards !! Z.to_nat id) ->
  exists s', Disk.write_data_file base n s = (s', Ok tt)
    /\ fs_bytes s' (dotted base "dat") = Some (take (Z.to_nat n) data)
    /\ forall m, m <> dotted base "dat" -> s' !! m = s !! m.
Proof.
  intros Ew Hd Hn Hsh. unfold Disk.write_data_file, mbind', mmodify, mget, mlift. change (base ++ ".dat")%string with (dotted base "dat").
  rewrite (open_all_ok _ _ (take 10 shards)).
  - rewrite write_ec_files_ok in Ew. injection Ew as <-. unfold EcCodec.write_data_file. 
    change 10%nat with (Z.to_nat DATA_SHARDS_COUNT). rewrite take_take, Nat.min_id, take_coded.
    rewrite decode_prefix by (unfold ERASURE_CODING_LARGE_BLOCK_SIZE, ERASURE_CODING_SMALL_BLOCK_SIZE, DATA_SHARDS_COUNT; lia).
    eexists. split; [reflexivity|]. split; [apply fs_bytes_put_eq|]. intros m Hm. unfold fs_create. by rewrite !fs_put_lookup_ne.
  - rewrite write_ec_files_ok in Ew. injection Ew as <-. rewrite length_take, coded_length, length_map, length_seqZ. done.
  - intros i name Hi. rewrite list_lookup_fmap in Hi. apply fmap_Some in Hi as (id & Hid & ->).
    apply lookup_seqZ in Hid as [-> Hid]. rewrite lookup_take_lt by (unfold DATA_SHARDS_COUNT in Hid; lia).
    unfold fs_create. rewrite fs_bytes_put_ne.
    + rewrite Hsh by (unfold DATA_SHARDS_COUNT in *; lia). f_equal. lia.
    + intros E. assert (Hin : 0 + Z.of_nat i ∈ shard_ids) by (apply all_shard_ids; unfold TOTAL_SHARDS_COUNT, PARITY_SHARDS_COUNT, DATA_SHARDS_COUNT in *; lia).
      destruct (not_shard_exts "dat") as [L N]; [by apply (bool_decide_unpack _)|]. by apply (shard_path_other base base "dat" (0 + Z.of_nat i)).
Qed.

(** The index file, from what is left. *)
Lemma write_index_ok base s es ecx : Forall entry_wf es ->
  EcIndex.write_sorted_file_from_index (entries_bytes es) = Ok ecx -> fs_bytes s (dotted base "ecx") = Some ecx ->
  fs_bytes s (dotted base "ecj") = None \/ fs_bytes s (dotted base "ecj") = Some [] ->
  exists idx m, Disk.write_index_file_from_ec_index base s = (fs_put (dotted base "idx") idx s, Ok tt)
    /\ load_from_index idx = (m, Ok tt)
    /\ forall k, index_get m k = replay es !! k.
Proof.
  intros Hwf Ex Hx Hj. destruct (ec_index_roundtrip es [] Hwf ltac:(constructor)) as (ecx' & m & Ex' & Hl & Hm).
  rewrite Ex in Ex'. injection Ex' as <-. eexists _, m. split; [|split; [exact Hl|]].
  2:{ intros k. rewrite Hm. by rewrite decide_False by apply not_elem_of_nil. }
  unfold Disk.write_index_file_from_ec_index, mbind', mget, mlift, mmodify, Disk.open_file.
  change (base ++ ".ecx")%string with (dotted base "ecx"). change (base ++ ".ecj")%string with (dotted base "ecj").
  apply fs_get_bytes in Hx. rewrite Hx. cbn [map_err].
  destruct Hj as [->| ->]; cbn [map concat EcIndex.write_index_file_from_ec_index length ecj_keys]; by rewrite ?app_nil_r.
Qed.

Lemma read_restored (sb : super_block) ns a n b stop k : Forall (loggable crc) ns -> pos ns < 2 ^ 32 ->
  ns = a ++ n :: b -> pos a + len (encode n) <= stop ->
  read_data crc (take (Z.to_nat stop) (SuperBlock.as_bytes sb ++ encodes ns)) (entry_at a n).(nv_offset) (entry_at a n).(nv_size)
    VERSION2 (ask k) = (decode n (ask k), Ok tt).
Proof.
  intros Hl Hp -> Hs. destruct (entry_end_log crc sb a n b Hl Hp) as (Hoff & _ & _).
  apply Forall_app in Hl as [_ [[[Hwf Hcrc] _] _]%Forall_cons].
  assert (Hpa : len (SuperBlock.as_bytes sb ++ encodes a) = pos a) by (by rewrite len_app, SuperBlock.len_as_bytes).
  rewrite encodes_app, encodes_cons, app_assoc, take_app_ge, (take_app_ge (encode n)) by (unfold len in *; rewrite ?length_app in *; lia).
  apply read_data_encode; [done|done|done|]. by rewrite Hoff.
Qed.

Lemma to_volume_spec vid st j w s0 s s' W ns es sb :
  let base := Disk.volume_filename w in
  let data := SuperBlock.as_bytes sb ++ encodes ns in
  find_ec_volume vid st = Some (j, w) -> SuperBlock.wf sb -> history_of W ns es ->
  sealed base es data s0 s -> remains base s s' ->
  exists s5 restored rest idx m, volume_ec_shards_to_volume vid w.(ev_collection) (st, s') = ((st, s5), Ok tt)
    /\ data = restored ++ rest /\ (W = ∅ -> restored = [])
    /\ fs_bytes s5 (dotted base "dat") = Some restored /\ fs_bytes s5 (dotted base "idx") = Some idx
    /\ load_from_index idx = (m, Ok tt)
    /\ forall k, match W !! k with
                 | Some n => exists nv, index_get m k = Some nv
                     /\ read_data crc restored nv.(nv_offset) nv.(nv_size) VERSION2 (ask k) = (decode n (ask k), Ok tt)
                 | None => index_get m k = None
                 end.
Proof.
  intros base data Hf Hsb Hh Hs Hr. destruct (se_ecx _ _ _ _ _ Hs) as (ecx & Ex & Fx). destruct (se_shards _ _ _ _ _ Hs) as (shards & Ew & Fs).
  destruct (data_filesize_spec W ns es sb ecx Hh Ex) as (stop & Estop & Hstop & Hends & Hempty). fold data in Hstop.
  assert (Hdlen : len data < 2 ^ 32) by (unfold data; rewrite len_app, SuperBlock.len_as_bytes; apply (ho_size _ _ _ Hh)).
  assert (Hsh : forall id, 0 <= id < DATA_SHARDS_COUNT -> fs_bytes s' (shard_path base id) = shards !! Z.to_nat id).
  { intros id Hid. rewrite shard_path_dotted, (kept_bytes base s s' _ Hr).
    - apply Fs, all_shard_ids. unfold TOTAL_SHARDS_COUNT, PARITY_SHARDS_COUNT, DATA_SHARDS_COUNT in *. lia.
    - right. apply list_elem_of_fmap_2, elem_of_seqZ. lia. }
  assert (Hx : fs_bytes s' (dotted base "ecx") = Some ecx) by (rewrite (kept_bytes base s s' _ Hr); [done|by left]).
  destruct (lookup_lt_is_Some_2 shards 0) as [ec00 H00].
  { rewrite write_ec_files_ok in Ew. injection Ew as <-. rewrite coded_length. vm_compute. lia. }
  assert (Esize : Disk.find_data_filesize base s' = Ok stop).
  { unfold Disk.find_data_filesize, Disk.open_file. pose proof (Hsh 0 ltac:(done)) as F0. change (Z.to_nat 0) with 0%nat in F0.
    rewrite H00 in F0. apply fs_get_bytes in F0. change (base ++ ".ec00")%string with (shard_path base 0). rewrite F0. cbn [map_err obind].
    rewrite (version_of_shard sb (encodes ns) shards ec00 Hsb Ew Hdlen H00). cbn [map_err obind].
    change (base ++ ".ecx")%string with (dotted base "ecx"). apply fs_get_bytes in Hx. rewrite Hx. cbn [map_err obind]. by rewrite Estop. }
  destruct (write_data_ok base data shards s' stop Ew Hdlen Hstop Hsh) as (s1 & E1 & Hdat & Hrest).
  assert (Hne : forall e, e ∈ ["ecx"; "ecj"; "idx"] -> dotted base e <> dotted base "dat").
  { apply Forall_forall. repeat constructor; intros X; apply dotted_inj in X as [_ X]; discriminate || by repeat constructor. }
  destruct (write_index_ok base s1 es ecx (ho_entries _ _ _ Hh) Ex) as (idx & m & E2 & Hl & Hm).
  { unfold fs_bytes. rewrite Hrest by (apply Hne; by apply (bool_decide_unpack _)). exact Hx. }
  { unfold fs_bytes. rewrite !Hrest by (apply Hne; by apply (bool_decide_unpack _)). apply (rm_journal _ _ _ Hr). }
  exists (fs_put (dotted base "idx") idx s1), (take (Z.to_nat stop) data), (drop (Z.to_nat stop) data), idx, m.
  split.
  { unfold volume_ec_shards_to_volume, mbind', mget, on_files, mlift. cbn [fst snd]. rewrite Hf, bool_decide_true by done. cbn [negb].
    fold base. unfold mbind'. cbn [fst snd]. rewrite Esize. cbn [map_err fst snd].
    replace (i64 stop) with stop by (unfold i64; rewrite Z.mod_small by lia; lia). rewrite E1. cbn [map_err fst snd]. by rewrite E2. }
  split; [by rewrite take_drop|]. split; [intros HW; by rewrite (Hempty HW)|].
  split; [rewrite fs_bytes_put_ne by (apply Hne; by apply (bool_decide_unpack _)); exact Hdat|].
  split; [apply fs_bytes_put_eq|]. split; [done|]. intros k. rewrite Hm.
  pose proof (ho_index _ _ _ Hh k) as Hi. destruct (W !! k) as [n|] eqn:EW; [|done].
  destruct Hi as (a & b & Hns & Hid & Hrp). exists (entry_at a n). split; [done|].
  apply (read_restored sb ns a n b stop k); [apply (ho_log _ _ _ Hh)|apply (ho_size _ _ _ Hh)|done|by apply (Hends k n a b)].
Qed.
End restore.

Lemma volume_names v w : ends_with_slash v.(v_dir) = false ->
  w.(ev_volume_id) = v.(v_id) -> w.(ev_dir) = v.(v_dir) -> w.(ev_collection) = v.(v_collection) ->
  Disk.volume_filename w = filename v.
Proof.
  intros Hs H1 H2 H3. unfold Disk.volume_filename, ec_shard_filename, filename. rewrite H1, H2, H3, Hs.
  case_bool_decide; by rewrite append_assoc'.
Qed.

(** C15: shards are turned back into a volume.  Take any fault-free history of
    writes, deletions and reads of a new volume below 4 GiB of needles that fit the
    format, generate its shards, and call [volume_ec_shards_to_volume] where at least
    the sorted index and the ten data shards are left and nothing was deleted since:
    it succeeds, the restored data file is the original one up to the end of the last
    needle of the index, the restored index file loads, and every key ever written
    is found in it at a position where the restored data file holds the last needle
    written under it, every stored field included; no other key is found.  Of a
    volume without needles not even the super block is restored.  (A deletion from
    the sealed volume overwrites part of the next entry of the sorted index,
    [ecx_delete_scrambles].) *)
Theorem volume_restored :
  forall (VI : VolumeInfoJson) (RS : ReedSolomon) crc mtime dir collection id rp t s os,
  let sb := SuperBlock CURRENT_VERSION rp t 0 in
  let v0 := Volume id dir collection None None sb false false false 0 0 0 in
  s !! data_filename v0 = None -> SuperBlock.wf sb ->
  Forall (log_op crc) os -> total_cost os < 2 ^ 32 - 16 -> ends_with_slash dir = false ->
  exists v1 s1 v2 s2 original,
    volume_new crc None mtime dir collection id rp t s = (s1, Ok v1)
    /\ (exec_all crc os (v1, s1)).1 = (v2, s2)
    /\ fs_bytes s2 (data_filename v0) = Some original
    /\ forall st i, find_volume id st = Some (i, v2) ->
         (forall nd, s2 !! dotted (filename v0) "vif" = Some nd -> nd.(f_readonly) = false) ->
    exists s3, volume_ec_shards_generate id collection (st, s2) = (sync (st, s3), Ok tt)
    /\ forall st' j w s4, find_ec_volume id st' = Some (j, w) ->
         w.(ev_volume_id) = id -> w.(ev_dir) = dir -> w.(ev_collection) = collection ->
         remains (filename v0) s3 s4 ->
    exists s5 restored rest idx m, volume_ec_shards_to_volume id collection (st', s4) = ((st', s5), Ok tt)
    /\ original = restored ++ rest /\ (written os = ∅ -> restored = [])
    /\ fs_bytes s5 (data_filename v0) = Some restored /\ fs_bytes s5 (index_filename v0) = Some idx
    /\ load_from_index idx = (m, Ok tt)
    /\ forall k, match written os !! k with
                 | Some n => exists nv, index_get m k = Some nv
                     /\ read_data crc restored nv.(nv_offset) nv.(nv_size) VERSION2 (ask k) = (decode n (ask k), Ok tt)
                 | None => index_get m k = None
                 end.
Proof.
  intros VI RS crc mtime dir collection id rp t s os sb v0 Hd Hwf Hos Hc Hslash.
  destruct (new_indexed crc mtime dir collection id rp t s Hd Hwf) as (v1 & s1 & f1 & nm1 & ix1 & E1 & Hid1 & Hv1 & Hi1 & _).
  destruct (exec_all_indexed crc os v1 s1 f1 nm1 ix1 ∅ sb [] ∅ Hv1 Hi1 Hos)
    as (v2 & s2 & f2 & nm2 & ix2 & ns & E2 & Hid2 & Hv2 & Hi2 & Hp2); [change (pos []) with 8; lia|].
  change (pos []) with 8 in Hp2. exists v1, s1, v2, s2, f2.
  assert (Hid' : identity v2 = identity v0) by (etrans; [exact Hid2|exact Hid1]).
  assert (Hfn : filename v2 = filename v0) by (unfold filename; injection Hid' as -> -> -> _; done).
  assert (Hcoll : v_collection v2 = collection) by (injection Hid' as _ _ -> _; done).
  pose proof (vl_at _ _ _ _ _ _ _ _ _ Hv2) as Ha. destruct Hi2 as (es & Fi & Wes & _ & HW).
  do 2 (split; [done|]). split; [unfold data_filename; rewrite <- Hfn; apply (at_file _ _ _ _ _ _ _ _ _ _ Ha)|].
  intros st i Hf Hvif. destruct (generate_spec id st s2 i v2 es f2 Hf) as (s3 & Eg & Hs).
  { apply (at_version _ _ _ _ _ _ _ _ _ _ Ha). } { exact Fi. } { exact Wes. } { apply (at_file _ _ _ _ _ _ _ _ _ _ Ha). }
  { by rewrite Hfn. }
  rewrite Hcoll in Eg. exists s3. split; [done|]. intros st' j w s4 Hw W1 W2 W3 Hr.
  assert (Hb : Disk.volume_filename w = filename v0) by (by apply (volume_names v0 w)).
  assert (Hh : history_of crc (written os) ns es) by (split; [apply (vl_log _ _ _ _ _ _ _ _ _ Hv2)|lia|done|done]).
  rewrite (vl_file _ _ _ _ _ _ _ _ _ Hv2) in Hs |- *. rewrite Hfn in Hs. rewrite <- Hb in Hs, Hr.
  pose proof (to_volume_spec crc id st' j w s2 s3 s4 (written os) ns es sb Hw Hwf Hh Hs Hr) as H. cbv zeta in H.
  rewrite Hb, W3 in H. exact H.
Qed.

(** The sealed sample, with the empty journal of a mounted volume. *)
Definition sealed_ec_volume : ec_volume := EcVolume 3 "/d" "c" [] 0 [] ∅ 0 VERSION2 [].

Lemma kept_exts : Forall (fun e => lacks "." e /\ e <> "ecj"%string) ("ecx" :: map shard_ext (seqZ 0 DATA_SHARDS_COUNT)).
Proof. vm_compute. repeat constructor; intros X; discriminate X. Qed.

Lemma volume_restored_witness : exists st s2 s3 s5 restored idx m nv,
  volume_ec_shards_generate (VI := fixed_json) (RS := zero_parity) 3 "c" (st, s2) = (sync (st, s3), Ok tt)
  /\ volume_ec_shards_to_volume 3 "c" (st, fs_put "/d/c_3.ecj" [] s3) = ((st, s5), Ok tt)
  /\ fs_bytes s5 "/d/c_3.dat" = Some restored /\ fs_bytes s5 "/d/c_3.idx" = Some idx /\ load_from_index idx = (m, Ok tt)
  /\ index_get m 44 = None /\ index_get m 42 = Some nv
  /\ read_data zero_crc restored nv.(nv_offset) nv.(nv_size) VERSION2 (ask 42) = (decode (live_needle 42) (ask 42), Ok tt).
Proof.
  destruct (volume_restored fixed_json zero_parity zero_crc 5 "/d" "c" 3
    Replica.default Ttl.default ∅ history) as (v1 & s1 & v2 & s2 & original & E1 & E2 & _ & H).
  - reflexivity.
  - split; cbn; try done; vm_compute; split; congruence.
  - exact history_ok.
  - vm_compute. reflexivity.
  - reflexivity.
  - set (st := Store "a" 80 "" [DiskLocation "/d" 7 {[ 3 := v2 ]} {[ 3 := sealed_ec_volume ]}] "" "" 0 [] "").
    destruct (H st O) as (s3 & E & H').
    + reflexivity.
    + exact (history_no_vif v1 s1 v2 s2 E1 E2).
    + destruct (H' st O sealed_ec_volume (fs_put "/d/c_3.ecj" [] s3))
        as (s5 & restored & rest & idx & m & R1 & _ & _ & R2 & R3 & R4 & R5); try reflexivity.
      * split.
        -- intros e He. apply fs_put_lookup_ne. destruct (proj1 (Forall_forall _ _) kept_exts e He) as [L N].
           change "/d/c_3.ecj"%string with (dotted "/d/c_3" "ecj"). change (filename _) with "/d/c_3"%string.
           intros X. apply dotted_inj in X as [_ X]; [by apply N|done|by repeat constructor].
        -- right. apply fs_bytes_put_eq.
      * destruct (R5 42) as (nv & N1 & N2). exists st, s2, s3, s5, restored, idx, m, nv.
        split; [exact E|]. split; [exact R1|]. split; [exact R2|]. split; [exact R3|]. split; [exact R4|].
        split; [exact (R5 44)|]. split; [exact N1|exact N2].
Defined.
