(* ===== verification/Cluster.v ===== *)
(** * Servers that call each other ([util/grpc.rs], [topology/data_node.rs],
      [storage/api/erasure_coding.rs], [operation/cluster.rs],
      [util/http/extractor.rs], [directory/api.rs])

    The calls of the master and of the HTTP handlers to volume servers, the
    requests masters pass on to their leader, and the start of a volume server. *)

From stdpp Require Import sorting.
From S2P Require Import Prelude Messages Types Text Ttl Replica Errors Fid Files Fs Needle NeedleMap Volume EcCodec EcVolume Store EcDisk Rand VolumeLayout VolumeGrow Sequence Topology Raft Directory Api.
From S2P Require Server.
From Stdlib Require Import Strings.Ascii.
#[local] Open Scope string_scope.
#[local] Open Scope list_scope.
#[local] Open Scope Z_scope.

(** ** Clients of volume servers ([util/grpc.rs]) *)

Definition grpc_port (port : Z) : Z := u16 (port + 10000).

(** Where the client of an address connects to.  Clients are kept by address, and
    reused. *)
Definition volume_server_client (addr : string) : outcome VolumeError (string * Z) :=
  let? hp := map_err VParseInt (Parser.parse_host_port addr) in
  Ok (hp.1, grpc_port hp.2).

(** The client of a master, by its HTTP address. *)
Definition helyim_client (addr : string) : outcome VolumeError (string * Z) :=
  let? hp := map_err VParseInt (Parser.parse_host_port addr) in
  Ok (hp.1, grpc_port hp.2).

(** The volume servers, each with its store and files, by the address their gRPC
    service listens on. *)
Notation volume_servers := (gmap (string * Z) (store * fs)).

(** A call: the request runs on the server, which answers or reports a status; a
    handler that panics ends the call, and there may be no server. *)
Definition call {A} (addr : string) (handler : Server.GM A) (p : volume_servers) : volume_servers * outcome VolumeError A :=
  match volume_server_client addr with
  | Ok e =>
      match p !! e with
      | Some st =>
          let '(st, r) := handler st in
          (<[e := st]> p, match r with Ok a => Ok a | _ => Err VTonicStatus end)
      | None => (p, Err VTonicStatus)
      end
  | Err e => (p, Err e)
  | Panic => (p, Panic)
  end.

(** ** The calls of the master ([impl DataNode]) *)

Section data_node.
Context (crc : list byte -> Z) (fuel : nat) (mtime now : Z).
Context (order : gmap Z needle_value -> list (Z * needle_value)).

Definition allocate_volume (addr : string) (r : allocate_request) : volume_servers -> volume_servers * outcome VolumeError unit :=
  call addr (Server.allocate_volume crc None mtime r.(al_volume_id) r.(al_collection) r.(al_replication) r.(al_ttl)).
Definition vacuum_volume_check (addr : string) (vid : Z) : volume_servers -> volume_servers * outcome VolumeError (Z * Z) :=
  call addr (Server.vacuum_volume_check vid).
Definition vacuum_volume_compact (addr : string) (vid preallocate : Z) : volume_servers -> volume_servers * outcome VolumeError unit :=
  call addr (Server.vacuum_volume_compact crc fuel mtime now vid).
Definition vacuum_volume_commit (addr : string) (vid : Z) : volume_servers -> volume_servers * outcome VolumeError unit :=
  call addr (Server.vacuum_volume_commit crc order mtime vid).
Definition vacuum_volume_cleanup (addr : string) (vid : Z) : volume_servers -> volume_servers * outcome VolumeError unit :=
  call addr (Server.vacuum_volume_cleanup vid).

Definition failure {A} (r : outcome VolumeError A) : option VolumeError :=
  match r with Ok _ => None | Err e => Some e | Panic => Some VTonicStatus end.
Definition succeeded {A} (r : outcome VolumeError A) : bool := match r with Ok _ => true | _ => false end.

(** The master's view of these servers.  A garbage ratio is the quotient of two
    counters. *)
#[local] Instance cluster : Rpc := {
  f64 := Z * Z;
  f64_gt a b := b.1 * a.2 <? a.1 * b.2;
  servers := volume_servers;
  rpc_allocate_volume addr r p := let '(p, r) := allocate_volume addr r p in (p, failure r);
  rpc_vacuum_check addr vid p :=
    let '(p, r) := vacuum_volume_check addr vid p in (p, match r with Ok ratio => Some ratio | _ => None end);
  rpc_vacuum_compact addr vid pre p := let '(p, r) := vacuum_volume_compact addr vid pre p in (p, succeeded r);
  rpc_vacuum_commit addr vid p := let '(p, r) := vacuum_volume_commit addr vid p in (p, succeeded r);
  rpc_vacuum_cleanup addr vid p := let '(p, r) := vacuum_volume_cleanup addr vid p in (p, succeeded r);
}.

End data_node.

(** ** The HTTP handlers for shards ([storage/api/erasure_coding.rs])

    A volume server calls its own gRPC service, at its public address. *)

Record ec_query := ErasureCodingQuery { eq_volume : Z; eq_collection : option string }.

Section ec_handlers.
Context {VI : VolumeInfoJson} {RS : ReedSolomon} {RI : ReedSolomonInverse}.

(** [?] on the error of the client, and on the status of the call. *)
Definition own_call {A} (s : store) (handler : Server.GM A) (p : volume_servers) : volume_servers * outcome EcVolumeError unit :=
  match volume_server_client s.(st_public_url) with
  | Ok _ => let '(p, r) := call s.(st_public_url) handler p in
            (p, match r with Ok _ => Ok tt | _ => Err EvTonic end)
  | Err e => (p, Err (EvVolume e))
  | Panic => (p, Panic)
  end.

Definition generate_ec_shards_handler (s : store) (q : ec_query) : volume_servers -> volume_servers * outcome EcVolumeError unit :=
  own_call s (Server.volume_ec_shards_generate q.(eq_volume) (default "" q.(eq_collection))).
Definition generate_volume_from_ec_shards_handler (s : store) (q : ec_query)
  : volume_servers -> volume_servers * outcome EcVolumeError unit :=
  own_call s (Server.volume_ec_shards_to_volume q.(eq_volume) (default "" q.(eq_collection))).
Definition rebuild_missing_ec_shards_handler (s : store) (q : ec_query)
  : volume_servers -> volume_servers * outcome EcVolumeError unit :=
  own_call s (Server.volume_ec_shards_rebuild q.(eq_volume) (default "" q.(eq_collection))).

End ec_handlers.

(** ** Requests to the masters *)

Record http_request := HttpRequest {
  hq_method : string;
  hq_uri : string;
  hq_headers : headers;
  hq_body : list byte;
}.
Definition BAD_REQUEST : Z := 400.

(** [FormOrJson]: what the extractors of axum make of a request is given; each
    answers a value or the status it rejects the request with. *)
Definition form_or_json {W : Web} {T} (query json form : http_request -> outcome Z T) (req : http_request) : outcome Z T :=
  if bool_decide (hq_method req = "GET") || bool_decide (hq_method req = "HEAD") then query req
  else if bool_decide (hq_method req = "POST") then
    match header "content-type" req.(hq_headers) with
    | Some ct =>
        if negb (header_text ct) then Err BAD_REQUEST
        else if String.prefix "application/json" ct then json req
        else if String.prefix "application/x-www-form-urlencoded" ct then form req
        else Err BAD_REQUEST
    | None => Err BAD_REQUEST
    end
  else Err BAD_REQUEST.

(** [TopologyError], as far as a forwarded request goes. *)
Inductive proxy_error := PNoLeader | PInvalidUrl | PIo | PInvalidHeaderValue.

Section masters.
Context {W : Web} {St : Type}.

(** [Uri::try_from] accepts it. *)
Context (uri_ok : string -> bool).
(** The handler behind [require_leader]. *)
Context (next : http_request -> St -> St * response).

(** The masters by their address, each with what its raft server knows. *)
#[local] Notation masters := (gmap string (option raft_server * St)).

Definition x_forwarded_for : string := "http_x_forwarded_for".
Definition mark_forwarded (addr : string) (r : response) : response :=
  Response r.(rp_status) (<[x_forwarded_for := addr]> r.(rp_headers)) r.(rp_body).

(** What the sender of a request sees of its outcome. *)
Definition answer (r : outcome proxy_error response) : response :=
  match r with Ok r => r | _ => Response BAD_REQUEST ∅ [] end.

(** A request to the master at [addr]: [require_leader], and [proxy_to_leader]
    when it is not the leader.  The result is [None] when the request is still
    being passed on after [fuel] hops. *)
Fixpoint require_leader (fuel : nat) (addr : string) (req : http_request) (ms : masters)
  : option (masters * outcome proxy_error response) :=
  match fuel with
  | O => None
  | S fuel' =>
      match ms !! addr with
      | None => Some (ms, Err PIo)
      | Some (raft, s) =>
          if is_leader raft then
            let '(s, r) := next req s in Some (<[addr := (raft, s)]> ms, Ok r)
          else
            match current_leader_address raft with
            | None => Some (ms, Err PNoLeader)
            | Some leader =>
                let uri := ("http://" ++ leader ++ hq_uri req)%string in
                if negb (uri_ok uri) then Some (ms, Err PInvalidUrl)
                else
                  match ms !! leader with
                  | None => Some (ms, Err PIo)
                  | Some _ =>
                      match require_leader fuel' leader req ms with
                      | None => None
                      | Some (ms, Panic) => Some (ms, Panic)
                      | Some (ms, r) =>
                          if header_value_ok leader then Some (ms, Ok (mark_forwarded leader (answer r)))
                          else Some (ms, Err PInvalidHeaderValue)
                      end
                  end
            end
      end
  end.

End masters.

(** ** The cluster status *)

Record cluster_status := ClusterStatus {
  cs_is_leader : bool;
  cs_leader : string;
  cs_peers : gmap Z string;
}.

Definition cluster_status_handler (raft : option raft_server) : cluster_status :=
  ClusterStatus (is_leader raft) (default "" (current_leader_address raft)) (Raft.peers raft).

(** [list_master]: up to three requests, [None] when one cannot be sent or its
    answer not be read. *)
Fixpoint list_master_loop (n : nat) (get : nat -> option cluster_status) : outcome VolumeError cluster_status :=
  match n with
  | O => Err VMasterNotFound
  | S n' =>
      match get (3 - n)%nat with
      | None => Err VReqwest
      | Some status => if bool_decide (cs_peers status = ∅) then list_master_loop n' get else Ok status
      end
  end.
Definition list_master (get : nat -> option cluster_status) : outcome VolumeError cluster_status := list_master_loop 3 get.

(** ** Starting a volume server *)

(** [VolumeServer::new]: the store is loaded, and the masters are listed. *)
Record volume_server := VolumeServer {
  vs_store : store;
  vs_current_master : string;
  vs_seed_masters : list string;
}.

Definition by_id (a b : Z * string) : Prop := a.1 <= b.1.
#[local] Instance by_id_dec : RelDecision by_id := fun a b => Z_le_dec a.1 b.1.
(** The values of a [BTreeMap]. *)
Definition into_values (m : gmap Z string) : list string := map snd (merge_sort by_id (map_to_list m)).

Definition volume_server_new {VI : VolumeInfoJson} (socket_addr_ok : string -> bool) (crc : list byte -> Z)
    (mtime : string -> Z) (now : Z) (listing : string -> fs -> list string) (get : nat -> option cluster_status)
    (o : EcStore.volume_options) : M fs Error volume_server :=
  let* store := EcStore.store_new crc mtime now listing o in
  if negb (socket_addr_ok (EcStore.op_ip o ++ ":" ++ fmt_dec (grpc_port (EcStore.op_port o)))%string) then mthrow EAddrParse
  else
    let* status := mlift (map_err EVolume (list_master get)) in
    mret (VolumeServer store status.(cs_leader) (into_values status.(cs_peers))).

(** [VolumeServer::start]: the state of the HTTP server. *)
Definition volume_server_start (socket_addr_ok : string -> bool) (o : EcStore.volume_options) (vs : volume_server) (s : fs)
  : outcome Error Api.server :=
  if socket_addr_ok (EcStore.op_ip o ++ ":" ++ fmt_dec (EcStore.op_port o))%string
  then Ok (Api.Server (vs.(vs_store), s) ∅ []) else Err EAddrParse.

(** [start_volume] of [bin/helyim.rs], up to the signal that ends it. *)
Definition start_volume {VI : VolumeInfoJson} (socket_addr_ok : string -> bool) (crc : list byte -> Z)
    (mtime : string -> Z) (now : Z) (listing : string -> fs -> list string) (get : nat -> option cluster_status)
    (o : EcStore.volume_options) : M fs Error Api.server :=
  let* vs := volume_server_new socket_addr_ok crc mtime now listing get o in
  let* s := mget in
  mlift (volume_server_start socket_addr_ok o vs s).
