(* ===== verification/ClusterFacts.v ===== *)
(** * What a cluster guarantees

    The master's calls reach the stores of its volume servers, so what it
    believes about them stays true: a file id it assigns can be written to the
    server it names and read back.  Requests to any master reach the leader when
    the masters agree who it is. *)

From S2P Require Import Prelude Messages Types Text Ttl Replica Errors Fid Files Fs Needle NeedleCodec NeedleMap NeedleMapFacts Volume VolumeFacts EcCodec EcVolume Store StoreFacts EcDisk Node NodeFacts Rand VolumeLayout VolumeLayoutFacts VolumeGrow VolumeGrowFacts Sequence Topology TopologyFacts Raft Directory DirectoryFacts Api ApiFacts Cluster.
From S2P Require Server.
From Stdlib Require Import Strings.Ascii.
#[local] Open Scope string_scope.
#[local] Open Scope list_scope.
#[local] Open Scope Z_scope.

(** ** A new volume in a store *)

Section stores.
Context (crc : list byte -> Z).

Lemma add_volume_cases mtime vid c rp t st a : store_inv crc st a -> in_u32 vid ->
  do_add_volume crc None mtime vid c rp t st = (st, Err EBox)
  \/ exists st' i v, do_add_volume crc None mtime vid c rp t st = (st', Ok tt)
       /\ find_volume vid st.1 = None
       /\ find_volume vid st'.1 = Some (i, v) /\ v.(v_super_block).(sb_replica_placement) = rp
       /\ forall vid', vid' <> vid -> find_volume vid' st'.1 = find_volume vid' st.1.
Proof.
  intros Hinv Hu. destruct st as [s0 s]. unfold do_add_volume, lift_volume, mbind', mget, mlift, mmodify, mthrow.
  cbn [fst snd]. destruct (find_volume vid s0) as [[i v]|] eqn:Ef; [by left|].
  unfold find_free_location. destruct (free_location (st_locations s0) 0 None 0) as [i|] eqn:El; [|by left].
  apply free_location_bound in El as [El|El]; [done|].
  destruct (lookup_lt_is_Some_2 (st_locations s0) i) as [l Hl]; [lia|]. rewrite Hl. cbn [unwrap fst snd].
  set (v0 := Volume vid (dl_directory l) c None None (SuperBlock CURRENT_VERSION rp t 0) false false false 0 0 0).
  pose proof (new_name_free crc _ _ _ v0 Hinv Ef Hu) as Hd.
  destruct (volume_new_spec crc mtime (dl_directory l) c vid rp t s Hd) as (v & s' & -> & Hid & _).
  cbn [map_err fst snd]. right. do 2 eexists. exists v. split; [done|]. split; [done|]. split; [|split].
  - cbn. apply find_in_put_new; [exact Ef|lia].
  - unfold identity in Hid. injection Hid as _ _ _ ->. done.
  - intros vid' Hne. cbn. by apply find_in_put_ne.
Qed.

(** What a request to allocate a volume does to a store: nothing, or a new empty
    volume with the placement of the request. *)
Lemma allocate_store mtime vid c rp ttl st a : store_inv crc st a -> in_u32 vid -> Replica.digits_ok rp ->
  let '(st', r) := Server.allocate_volume crc None mtime vid c (Replica.fmt rp) ttl st in
  (st' = st /\ r <> Ok tt)
  \/ exists a' i v, r = Ok tt /\ store_inv crc st' a'
       /\ a'.(as_volumes) = <[vid := AVol ∅ false 8]> a.(as_volumes) /\ a.(as_volumes) !! vid = None
       /\ find_volume vid st'.1 = Some (i, v) /\ v.(v_super_block).(sb_replica_placement) = rp
       /\ forall vid', vid' <> vid -> find_volume vid' st'.1 = find_volume vid' st.1.
Proof.
  intros Hinv Hu Hrp. unfold Server.allocate_volume, Server.internal, add_volume.
  unfold mbind' at 1, mlift. rewrite (Replica.placement_new_fmt rp Hrp). cbn [map_err].
  unfold mbind', mlift. destruct (Ttl.new ttl) as [t|e|]; cbn [map_err]; [|by left..].
  destruct (add_volume_cases mtime vid c rp t st a Hinv Hu) as [->|(st' & i & v & E & Hf & H1 & H2 & H3)]; [by left|].
  rewrite E. right. destruct (add_sim crc mtime vid c rp t st a Hinv Hu) as (st'' & E' & Hinv').
  unfold sexec in E'. rewrite E in E'. injection E' as <- E'.
  pose proof (si_none _ _ _ Hinv vid Hf) as Ha. unfold spec_sop in E', Hinv'. cbn [sop_vid] in E', Hinv'. rewrite Ha in E', Hinv'.
  destruct (best_free (as_free a) 0 None 0) as [k|]; [|done].
  eexists. exists i, v. split; [done|]. split; [exact Hinv'|]. done.
Qed.
End stores.

(** ** What the master believes *)

Lemma url_addr r t : url r t = match dn_addr t r with Some (ip, port) => (ip ++ ":" ++ fmt_dec port)%string | None => "" end.
Proof. unfold url, dn_addr. destruct (get_node t r) as [nd|]; [|done]. by destruct (nd_type nd). Qed.

Lemma url_keeps t t' r : keeps_servers t t' -> is_dn t r -> url r t' = url r t.
Proof. intros Hk Hr. rewrite !url_addr. by rewrite (proj2 (Hk r Hr)). Qed.

Section cluster.
Context (crc : list byte -> Z) (fuel : nat) (mtime now : Z).
Context (order : gmap Z needle_value -> list (Z * needle_value)).
Context {R : Rng} {F : Flake}.
(** The bytes that have been written to any one volume. *)
Context (used : Z) (Hused : 8 <= used).
#[local] Notation net := (cluster crc fuel mtime now order).
#[local] Hint Extern 0 Rpc => exact net : typeclass_instances.

(** The server at an address can write a volume of that placement. *)
Definition writable_at (p : volume_servers) (addr : string) (vid : Z) (rp : replica_placement) : Prop :=
  exists e st a i v av, volume_server_client addr = Ok e /\ p !! e = Some st /\ store_inv crc st a
    /\ find_volume vid st.1 = Some (i, v) /\ v.(v_super_block).(sb_replica_placement) = rp
    /\ a.(as_volumes) !! vid = Some av /\ av.(av_readonly) = false /\ av.(av_bytes) <= used.

Definition sound (p : volume_servers) : Prop := forall e st, p !! e = Some st -> exists a, store_inv crc st a.

(** Allocating a volume: it is there afterwards, and everything else still is. *)
Lemma allocate_effect addr vid o p : sound p -> in_u32 vid -> Replica.digits_ok o.(go_replica_placement) ->
  let '(p', failed) := rpc_allocate_volume addr (allocate_request_of vid o) p in
  sound p' /\ (failed = None -> writable_at p' addr vid o.(go_replica_placement))
  /\ forall addr' vid' rp, writable_at p addr' vid' rp -> writable_at p' addr' vid' rp.
Proof.
  intros Hs Hu Hrp. cbn [rpc_allocate_volume cluster]. unfold allocate_volume, call.
  cbn [allocate_request_of al_volume_id al_collection al_replication al_ttl].
  destruct (volume_server_client addr) as [e|e|] eqn:Ee; [|done..].
  destruct (p !! e) as [st|] eqn:Ep; [|done]. destruct (Hs e st Ep) as [a Ha].
  pose proof (allocate_store crc mtime vid (go_collection o) (go_replica_placement o) (Ttl.fmt (go_ttl o)) st a Ha Hu Hrp) as H.
  destruct (Server.allocate_volume _ _ _ _ _ _ _ st) as [st' r] eqn:E.
  destruct H as [[-> Hr]|(a' & i & v & -> & Ha' & Hv & Hn & Hf & Hp & Ho)].
  - cbn beta iota zeta. rewrite (insert_id p e st Ep). split; [done|]. split; [|done]. destruct r as [[]| |]; done.
  - split; [|split].
    + intros e0 st0. destruct (decide (e0 = e)) as [->|Hne].
      * rewrite lookup_insert_eq. intros [= <-]. by exists a'.
      * rewrite lookup_insert_ne by done. apply Hs.
    + intros _. exists e, st', a', i, v, (AVol ∅ false 8). rewrite lookup_insert_eq, Hv, lookup_insert_eq. done.
    + intros addr' vid' rp (e0 & st0 & a0 & j & w & av & E0 & P0 & I0 & F0 & R0 & A0 & W0).
      destruct (decide (e0 = e)) as [->|Hne].
      2:{ exists e0, st0, a0, j, w, av. rewrite lookup_insert_ne by done. done. }
      rewrite Ep in P0. injection P0 as <-.
      pose proof (allocate_store crc mtime vid (go_collection o) (go_replica_placement o) (Ttl.fmt (go_ttl o)) st a0 I0 Hu Hrp) as H.
      rewrite E in H. destruct H as [[_ []]|(a0' & _ & _ & _ & I0' & V0 & N0 & _)]; [done|].
      assert (Hvid : vid' <> vid) by congruence.
      exists e, st', a0', j, w, av. rewrite lookup_insert_eq, Ho, V0, lookup_insert_ne by done. done.
Qed.

(** Keys are 64 bits wide. *)
Definition keys_ok (q : sequencer) : Prop :=
  match q with
  | SMemory c => in_u64 c
  | SSnowflake _ => forall f id, (flake_next_id f).2 = Some id -> in_u64 id
  end.

(** The master's view agrees with the servers: what a data node is said to hold
    it can write, and the replicas of a writable volume are said to hold it. *)
Record consistent (o : grow_option) (s : topology) : Prop := {
  co_sound : sound (tp_servers s);
  co_keys : keys_ok (tp_sequencer s);
  co_reports : forall r vid w, volumes_of r (tp_tree s) !! vid = Some w -> w.(vi_read_only) = false ->
    writable_at (tp_servers s) (url r (tp_tree s)) vid w.(vi_replica_placement);
  co_keyed : forall vid, keyed (tp_tree s) vid;
  co_writable : forall vid locs r, vid ∈ vl_writable (option_layout_of o s) ->
    Layout.lookup vid (option_layout_of o s) = Some locs -> r ∈ locs -> healthy (tp_tree s) vid r = true;
  co_placed : forall vid locs r w, Layout.lookup vid (option_layout_of o s) = Some locs -> r ∈ locs ->
    volumes_of r (tp_tree s) !! vid = Some w -> w.(vi_replica_placement) = o.(go_replica_placement);
}.

Lemma consistent_same o s s' : tp_tree s' = tp_tree s -> tp_servers s' = tp_servers s ->
  keys_ok (tp_sequencer s') -> option_layout_of o s' = option_layout_of o s -> consistent o s -> consistent o s'.
Proof. intros Ht Hp Hq Hl [H1 _ H2 H3 H4 H5]. split; rewrite ?Ht, ?Hp, ?Hl; done. Qed.

Lemma update_layout_servers name rp t f s :
  tp_servers (update_layout name rp t f s) = tp_servers s /\ tp_sequencer (update_layout name rp t f s) = tp_sequencer s.
Proof.
  unfold update_layout, get_volume_layout, put_layout. destruct Coll.get_or_create_volume_layout as [c vl].
  by destruct (assoc name _).
Qed.

Lemma volumes_dn r t vid w : volumes_of r t !! vid = Some w -> is_dn t r.
Proof.
  unfold volumes_of, is_dn, is_data_node. destruct (get_node t r) as [nd|]; [|by rewrite lookup_empty].
  intros H. exists nd. split; [done|]. destruct (nd_type nd); first [done|by rewrite lookup_empty in H].
Qed.

Lemma grow_one_consistent vid o dn p s : master_ok o s -> consistent o s -> is_dn (tp_tree s) dn -> sound p ->
  writable_at p (url dn (tp_tree s)) vid o.(go_replica_placement) ->
  (forall addr vid rp, writable_at (tp_servers s) addr vid rp -> writable_at p addr vid rp) ->
  consistent o (grow_one vid o dn (set_servers p s)).
Proof.
  intros Hm [C1 C0 C2 C3 C4 C5] Hd Hs Hw Hmono. set (s1 := set_servers (P := net) p s). set (s' := grow_one vid o dn s1).
  assert (Hl1 : option_layout_of o s1 = option_layout_of o s) by apply layout_set_servers.
  destruct (grow_one_layout vid o dn s1) as [Et El]. fold s' in Et, El. rewrite Hl1 in El.
  destruct (add_volume_data dn (new_volume vid o) (tp_tree s) Hd) as (V1 & V2 & V3).
  change (tp_tree s1) with (tp_tree s) in Et. rewrite <- Et in V1, V2, V3. cbn [vi_id new_volume] in V1.
  assert (Hpq : tp_servers s' = p /\ tp_sequencer s' = tp_sequencer s)
    by (unfold s', grow_one, register_volume_layout; split; [by rewrite (proj1 (update_layout_servers _ _ _ _ _))
                                                           |by rewrite (proj2 (update_layout_servers _ _ _ _ _))]).
  destruct Hpq as [Hp Hq].
  assert (Hvol : forall r k w, volumes_of r (tp_tree s') !! k = Some w ->
    (r = dn /\ k = vid /\ w = new_volume vid o) \/ volumes_of r (tp_tree s) !! k = Some w).
  { intros r k w. destruct (decide (r = dn)) as [->|Hr]; [|rewrite V2 by done; by right]. rewrite V1.
    destruct (decide (k = vid)) as [->|Hk]; [rewrite lookup_insert_eq; intros [= <-]; by left|].
    rewrite lookup_insert_ne by done. by right. }
  assert (Hkept : forall r k, (r, k) <> (dn, vid) -> volumes_of r (tp_tree s') !! k = volumes_of r (tp_tree s) !! k).
  { intros r k Hne. destruct (decide (r = dn)) as [->|Hr]; [|by rewrite V2]. rewrite V1.
    rewrite lookup_insert_ne; [done|]. intros ->. by apply Hne. }
  assert (Hk : forall k, keyed (tp_tree s') k).
  { intros k r w Hrw. destruct (Hvol r k w Hrw) as [(-> & -> & ->)|Hrw']; [done|by apply (C3 k r)]. }
  assert (Hinv : layout_inv (tp_tree s') (option_layout_of o s)) by (eapply layout_inv_tree; [exact V3|apply (mo_layout _ _ Hm)]).
  destruct (register_volume_lemma (tp_tree s') (option_layout_of o s) (new_volume vid o) dn Hinv (Hk vid)) as (L1 & L2 & L3).
  cbn [vi_id new_volume] in L1, L2, L3. rewrite <- El in L1, L2, L3.
  assert (Hset : forall ls r, r ∈ Layout.set_node (tp_tree s') ls dn -> r = dn \/ r ∈ ls).
  { induction ls as [|x ls IH]; intros r; cbn [Layout.set_node]; [set_solver|].
    destruct (same_server _ _ _); [set_solver|]. intros [->|Hr]%elem_of_cons; [right; left|].
    destruct (IH r Hr); [by left|right; by right]. }
  assert (Hrep : forall r, r ∈ Layout.replicas (option_layout_of o s) vid -> exists locs,
    Layout.lookup vid (option_layout_of o s) = Some locs /\ r ∈ locs).
  { intros r. unfold Layout.replicas, Layout.lookup. destruct (vl_locations _ !! vid) as [ls|]; [|by intros ?%not_elem_of_nil].
    intros Hr. by exists ls. }
  split; rewrite ?Hp, ?Hq.
  - done.
  - done.
  - intros r k w Hrw Hro. destruct (Hvol r k w Hrw) as [(-> & -> & ->)|Hrw'].
    + by rewrite (url_keeps _ _ _ V3 Hd).
    + rewrite (url_keeps _ _ _ V3 (volumes_dn _ _ _ _ Hrw')). by apply Hmono, C2.
  - done.
  - intros k locs r Hkw Hkl Hr. destruct (decide (k = vid)) as [->|Hne].
    + rewrite L1 in Hkl. injection Hkl as <-. apply L2 in Hkw as [Hh _].
      rewrite forallb_forall in Hh. by apply Hh, list_elem_of_In.
    + destruct (L3 k Hne) as [E1 E2]. rewrite E1 in Hkl. rewrite E2 in Hkw.
      pose proof (C4 k locs r Hkw Hkl Hr) as Hh. unfold healthy in *. by rewrite Hkept by congruence.
  - intros k locs r w Hkl Hr Hrw. destruct (Hvol r k w Hrw) as [(-> & -> & ->)|Hrw']; [done|].
    destruct (decide (k = vid)) as [->|Hne].
    + rewrite L1 in Hkl. injection Hkl as <-. destruct (Hset _ _ Hr) as [->|Hr'].
      * rewrite V1, lookup_insert_eq in Hrw. by injection Hrw as <-.
      * destruct (Hrep r Hr') as (locs & E1 & E2). by apply (C5 vid locs r w).
    + rewrite (proj1 (L3 k Hne)) in Hkl. by apply (C5 k locs r w).
Qed.

Definition settled (o : grow_option) (s : topology) : Prop := master_ok o s /\ consistent o s.

Lemma settled_same o s s' : tp_tree s' = tp_tree s -> tp_servers s' = tp_servers s -> keys_ok (tp_sequencer s') ->
  option_layout_of o s' = option_layout_of o s -> settled o s -> settled o s'.
Proof. intros Ht Hp Hq Hl [H1 H2]. split; [by apply (master_ok_same o s)|by apply (consistent_same o s)]. Qed.

Lemma consistent_servers o p s : consistent o s -> sound p ->
  (forall addr vid rp, writable_at (tp_servers s) addr vid rp -> writable_at p addr vid rp) ->
  consistent o (set_servers (P := net) p s).
Proof.
  intros [C1 C0 C2 C3 C4 C5] Hs Hmono. split; unfold option_layout_of; rewrite ?layout_set_servers; try done.
  intros r vid w Hw Hro. by apply Hmono, C2.
Qed.

Lemma grow_settled vid o nodes : in_u32 vid -> forall s, settled o s -> Forall (is_dn (tp_tree s)) nodes ->
  let '(s', r) := grow vid o nodes s in settled o s' /\ r <> Panic.
Proof.
  intros Hu. induction nodes as [|dn nodes IH]; intros s [Hm Hc] Hd; cbn [grow]; [done|].
  apply Forall_cons in Hd as [Hd Hds].
  pose proof (allocate_effect (url dn (tp_tree s)) vid o (tp_servers s) (co_sound _ _ Hc) Hu (mo_digits _ _ Hm)) as H.
  destruct (rpc_allocate_volume _ _ _) as [p failed]. destruct H as (Hs & Hw & Hmono).
  assert (Hm0 : master_ok o (set_servers (P := net) p s)) by (apply (master_ok_same o s); [done|apply layout_set_servers|done]).
  destruct failed as [e|].
  - split; [|done]. split; [done|]. by apply consistent_servers.
  - destruct (grow_one_ok vid o dn (set_servers (P := net) p s) Hm0 Hd) as [Hm' Hk].
    fold (grow_one vid o dn (set_servers (P := net) p s)). apply IH.
    + split; [done|]. apply grow_one_consistent; [done..|by apply Hw|done].
    + eapply Forall_impl; [exact Hds|]. intros x Hx. by apply Hk.
Qed.

Lemma next_volume_id_range s : in_u32 (next_volume_id s).
Proof. unfold next_volume_id. destruct (get_node _ _); [apply u32_range|]. unfold in_u32. lia. Qed.

Lemma find_and_grow_settled o s : settled o s ->
  let '(s', r) := find_and_grow o s in settled o s' /\ r <> Panic.
Proof.
  intros Hs. pose proof (proj1 Hs) as [H1 (tn & Et & El) H3 H4 H5]. unfold find_and_grow.
  assert (Hnn : nonneg_fields o.(go_replica_placement)) by (unfold nonneg_fields; destruct H3 as (? & ? & ?); lia).
  pose proof (find_empty_slots_lemma o TOPO tn (tp_tree s) (tp_rng s) (ok_shape _ H1) Et El Hnn) as Hf.
  assert (Hrng : forall g, settled o (set_rng g s)) by (intros g; apply (settled_same o s); [done|done|apply (co_keys _ _ (proj2 Hs))|apply layout_set_rng|done]).
  unfold mbind' at 1, with_rng.
  destruct (Grow.find_empty_slots o TOPO (tp_tree s) (tp_rng s)) as [g [nodes|e|]]; cbn [snd] in Hf; [|by split|done].
  destruct Hf as (main & same & racks & centers & -> & Hp & _). set (nodes := main :: same ++ racks ++ centers).
  assert (Hdn : Forall (is_dn (tp_tree s)) nodes).
  { destruct Hp as (_ & _ & _ & _ & Hp). eapply Forall_impl; [exact Hp|]. by intros x [? _]. }
  unfold mbind' at 1, mget. unfold mbind'.
  pose proof (grow_settled (next_volume_id (set_rng g s)) o nodes (next_volume_id_range _) (set_rng g s) (Hrng g) Hdn) as Hg.
  destruct (grow _ o nodes _) as [s' [[]|e|]]; cbn [mret]; destruct Hg; done.
Qed.

Lemma grow_by_count_settled n o : forall s, settled o s ->
  let '(s', r) := grow_by_count_and_type n o s in settled o s' /\ r <> Panic.
Proof.
  induction n as [|n IH]; intros s Hm; cbn [grow_by_count_and_type]; [done|].
  unfold mbind' at 1. pose proof (find_and_grow_settled o s Hm) as H.
  destruct (find_and_grow o s) as [s1 [k|e|]]; destruct H as [H1 H2]; [|done..].
  unfold mbind'. pose proof (IH s1 H1) as H. destruct (grow_by_count_and_type n o s1) as [s2 [j|e|]]; destruct H; done.
Qed.

Lemma option_layout_settled o s : settled o s -> settled o (option_layout o s).1.
Proof.
  intros Hs. destruct (option_layout_same o s) as (L1 & L2 & _).
  assert (H : tp_servers (option_layout o s).1 = tp_servers s /\ tp_sequencer (option_layout o s).1 = tp_sequencer s)
    by (unfold option_layout, get_volume_layout; by destruct Coll.get_or_create_volume_layout).
  destruct H as [H1 H2]. apply (settled_same o s); try done. rewrite H2. apply (co_keys _ _ (proj2 Hs)).
Qed.

Lemma next_file_id_keys count q : keys_ok q ->
  keys_ok (Sequencer.next_file_id count q).1 /\ forall id, (Sequencer.next_file_id count q).2 = Ok id -> in_u64 id.
Proof.
  destruct q as [c|f]; cbn; intros H.
  - split; [int_solve|]. by intros id [= <-].
  - pose proof (H f) as Hf. destruct (flake_next_id f) as [f' [id|]]; cbn [fst snd] in *; split; try done.
    intros id' [= <-]. by apply Hf.
Qed.

(** The keys and cookies that are handed out fit their fields. *)
Lemma pick_settled count o s : settled o s ->
  let '(s', r) := pick_for_write count o s in
  settled o s' /\ match r with Ok (fid, _, _) => in_u64 fid.(key) /\ in_u32 fid.(hash) | _ => True end.
Proof.
  intros Hs. pose proof (next_file_id_keys count (tp_sequencer s) (co_keys _ _ (proj2 Hs))) as [Hq Hid].
  unfold pick_for_write. destruct (Sequencer.next_file_id count (tp_sequencer s)) as [q id]. cbn [fst snd] in *.
  assert (H1 : settled o (set_sequencer q s)).
  { apply (settled_same o s); [done..| |done]. unfold option_layout_of, layout_of, get_volume_layout. cbn.
    by destruct Coll.get_or_create_volume_layout. }
  destruct id as [k|e|]; [|done..]. specialize (Hid k eq_refl).
  pose proof (option_layout_settled o _ H1) as H2. destruct (option_layout o (set_sequencer q s)) as [s1 vl]. cbn [fst] in H2.
  assert (Hrng : forall g s0, settled o s0 -> settled o (set_rng g s0)).
  { intros g s0 H0. apply (settled_same o s0); [done|done|apply (co_keys _ _ (proj2 H0))|apply layout_set_rng|done]. }
  unfold mbind' at 1, with_rng at 1. destruct (Layout.pick_for_write o (tp_tree s1) vl (tp_rng s1)) as [g [[vid nodes]|e|]];
    [|split; [by apply Hrng|done]..].
  unfold mbind' at 1, mlift. destruct (nodes !! 0%nat) as [node|]; cbn [unwrap]; [|split; [by apply Hrng|done]].
  unfold mbind', with_rng. cbn [tp_rng set_rng].
  destruct (gen_range_spec (E := VolumeError) (2 ^ 32) g) as (h & g' & Eg & Hh); [done|]. rewrite Eg. cbn [mret].
  split; [by apply Hrng, Hrng|]. cbn. split; [done|]. unfold in_u32. lia.
Qed.

(** The assignment, as [assign_hands_out] describes it, and the state it leaves. *)
Lemma assign_settled dflt request o s : volume_grow_option dflt request = Ok o -> settled o s ->
  let '(s', r) := assign_handler dflt request s in
  settled o s' /\ match r with
    | Ok a => exists fid r others, a.(as_fid) = FileId.fmt fid /\ a.(as_url) = url r (tp_tree s')
        /\ in_u64 fid.(key) /\ in_u32 fid.(hash)
        /\ volume_id fid ∈ vl_writable (option_layout_of o s')
        /\ Layout.lookup (volume_id fid) (option_layout_of o s') = Some (r :: others)
    | Err _ => True
    | Panic => False
    end.
Proof.
  intros Eo Hs. unfold assign_handler. unfold mbind' at 1, mlift at 1. rewrite Eo.
  assert (Hs1 : settled o (has_writable_volume o s).1).
  { unfold has_writable_volume. pose proof (option_layout_settled o s Hs). by destruct (option_layout o s). }
  unfold mbind' at 1. destruct (has_writable_volume o s) as [s1 w]. cbn [fst] in Hs1.
  set (grown := if w then _ else _ : M topology VolumeError unit).
  assert (Hg : let '(s2, r) := grown s1 in settled o s2 /\ r <> Panic).
  { unfold grown. destruct w; [done|]. unfold mbind' at 1, mget. unfold mbind' at 1, mlift.
    destruct (mo_root _ _ (proj1 Hs1)) as (tn & Et & _). rewrite Et. cbn [unwrap]. destruct (free_space tn <=? 0); [done|].
    unfold mbind', grow_by_type.
    pose proof (grow_by_count_settled (Z.to_nat (Grow.find_volume_count (Replica.copy_count (go_replica_placement o)))) o s1 Hs1) as H.
    destruct (grow_by_count_and_type _ o s1) as [s2 [k|e|]]; destruct H; done. }
  unfold mbind' at 1. destruct (grown s1) as [s2 [[]|e|]]; destruct Hg as [Hs2 Hg]; [|done..].
  set (count := match ar_count request with Some n => if 1 <? n then n else 1 | None => 1 end).
  pose proof (pick_ok count o s2 (proj1 Hs2)) as Hp. pose proof (pick_settled count o s2 Hs2) as Hq. unfold mbind' at 1.
  destruct (pick_for_write count o s2) as [s3 [[[fid n] r]|e|]]; [|done..]. destruct Hq as (Hs3 & Hk & Hh).
  destruct Hp as (-> & Ht & Hl & Hw & others & H1 & _). unfold mbind', mget. cbn [mret].
  split; [done|]. exists fid, r, others. rewrite Ht, Hl. done.
Qed.

End cluster.

(** C5: from the assignment of a file id to its download.  In a cluster whose
    master's view agrees with its volume servers, an assignment for a volume
    without replicas (one copy) never panics and keeps the agreement; when it
    succeeds it names a file id and a server such that a non-empty file that fits
    the needle format, posted there under that id while the volume has room below
    4 GiB, is stored and served back with its data and headers until its TTL has
    passed; the volume may be one that the master has just had allocated. *)
Theorem assigned_upload_served : forall (W : Web) (CL : EcCluster) (RI : ReedSolomonInverse) (R : Rng) (F : Flake)
    crc fuel mtime now order used dflt request o s,
  (forall d, in_u32 (crc d)) -> web_ok W -> 8 <= used ->
  volume_grow_option dflt request = Ok o -> Replica.copy_count o.(go_replica_placement) = 1 ->
  settled crc fuel mtime now order used o s ->
  let '(s', r) := assign_handler (P := cluster crc fuel mtime now order) dflt request s in
  settled crc fuel mtime now order used o s' /\ match r with
  | Ok asg => exists fid e st,
      asg.(as_fid) = FileId.fmt fid /\ volume_server_client asg.(as_url) = Ok e /\ tp_servers s' !! e = Some st
      /\ forall master looker sent now_ms ex pu,
           0 < now_ms < 2 ^ 63 -> ex.(po_path) = ("/" ++ asg.(as_fid))%string -> is_replicate ex.(po_query) = false ->
           parse_upload ex = Ok pu -> uploadable pu -> received ex.(po_headers) ->
           used + 16 + len (encode (posted crc fid now_ms pu)) < 2 ^ 32 ->
           exists sv', post_handler crc master None None now_ms ex (Server st looker sent)
                       = (sv', Ok (Upload pu.(pu_filename) (len pu.(pu_data)) ""))
             /\ forall rr now' req d, unconditional req -> http_date (i64 (modified_at now_ms pu)) = Some d ->
                Ttl.minutes pu.(pu_ttl) = 0 \/ now' / 1000 < u64 (modified_at now_ms pu + u64 (Ttl.minutes pu.(pu_ttl) * 60)) ->
                exists hs, get_or_head_handler crc rr now' (GetOrHeadExtractor ex.(po_path) req) sv'
                           = (sv', Ok (Response ACCEPTED hs pu.(pu_data)))
                  /\ hs !! "content-length" = Some (fmt_dec (len pu.(pu_data)))
                  /\ forall k w, pu.(pu_pair_map) !! k = Some w -> hs !! k = Some w
  | Err _ => True
  | Panic => False
  end.
Proof.
  intros W CL RI R F crc fuel mtime now order used dflt request o s Hcrc Hweb Hused Eo Hcc Hs.
  pose proof (assign_settled crc fuel mtime now order used Hused dflt request o s Eo Hs) as H.
  destruct (assign_handler dflt request s) as [s' [asg|e|]]; destruct H as [Hs' H]; [|done..]. split; [done|].
  destruct H as (fid & r & others & Ef & Eu & Hk & Hh & Hw & Hl). destruct Hs' as [Hm' Hc'].
  pose proof (co_writable _ _ _ _ _ _ _ _ Hc' _ _ r Hw Hl ltac:(left)) as Hr. unfold healthy in Hr.
  destruct (volumes_of r (tp_tree s') !! volume_id fid) as [w|] eqn:Ew; [|done]. apply negb_true_iff in Hr.
  pose proof (co_placed _ _ _ _ _ _ _ _ Hc' _ _ r w Hl ltac:(left) Ew) as Hrp.
  destruct (co_reports _ _ _ _ _ _ _ _ Hc' r _ w Ew Hr)
    as (e & st & a & i & v & av & He & Hp & Ha & Hf & Hv & Hav & Hro & Hb).
  exists fid, e, st. rewrite Eu. do 3 (split; [done|]).
  intros master looker sent now_ms ex pu Hnow Hpath Hq Hparse Hup Hrec Hroom.
  destruct (si_some _ _ _ Ha _ _ _ Hf) as (av' & _ & Hok).
  assert (Hfid : FileId.wf fid) by (split; [apply (ok_id _ _ _ _ _ Hok)|done]).
  assert (Hrep : need_to_replicate v = false) by (unfold need_to_replicate; rewrite Hv, Hrp, Hcc; done).
  assert (Hroom' : room_for av (posted crc fid now_ms pu)) by (unfold room_for; lia). rewrite Ef in Hpath.
  destruct (posted_is_served W CL RI crc master (Server st looker sent) a fid i v av now_ms ex pu) as (sv' & E & _ & Hget); try done.
  exists sv'. split; [done|]. intros rr now' req d H1 H2 H3. destruct (Hget rr now' req d H1 H2 H3) as (hs & G1 & G2 & _ & G3).
  exists hs. done.
Qed.

(** Two servers with empty stores, and a master that knows their addresses. *)
#[local] Existing Instance list_rng.
#[local] Existing Instance no_flake.
#[local] Existing Instance plain_web.
#[local] Existing Instance no_cluster.
#[local] Existing Instance no_decoder.
#[local] Notation small_cluster := (cluster sum_crc 100 5 9 map_to_list).
#[local] Hint Extern 0 Rpc => exact small_cluster : typeclass_instances.

Definition two_stores : volume_servers :=
  {[ ("10.0.0.1", 10080) := (two_dirs, ∅); ("10.0.0.2", 10080) := (two_dirs, ∅) ]}.
Definition cluster_master : topology :=
  set_tree sample_topology
    (topology_new (R := list_rng) (F := no_flake) (P := small_cluster) (SMemory 42) 1000 [0; 1; 0; 1; 1; 0] two_stores).
Definition plain_request : assign_request := AssignRequest None None None None (Some "pics") None None None.
Definition plain_option : grow_option := VolumeGrowOption "pics" Replica.default Ttl.default 0 "" "" "".

Lemma cluster_tree : tp_tree cluster_master = sample_topology.
Proof. reflexivity. Qed.

Lemma cluster_layout : option_layout_of plain_option cluster_master = Layout.new Replica.default (Some Ttl.default) 1000.
Proof. vm_compute. reflexivity. Qed.

Lemma cluster_master_ok : master_ok plain_option cluster_master.
Proof.
  split; rewrite ?cluster_layout.
  - exact sample_topology_ok.
  - exists (default (node_new "" TTopology) (get_node sample_topology TOPO)). split; vm_compute; reflexivity.
  - vm_compute. repeat split; congruence.
  - apply layout_inv_new.
  - reflexivity.
Qed.

Lemma no_volumes r vid : volumes_of r sample_topology !! vid = None.
Proof.
  destruct (volumes_of r sample_topology !! vid) as [w|] eqn:E; [|done].
  assert (H4 : volumes_of 4 sample_topology = ∅) by (vm_compute; reflexivity).
  assert (H5 : volumes_of 5 sample_topology = ∅) by (vm_compute; reflexivity).
  destruct (sample_dns r (volumes_dn _ _ _ _ E)) as [-> | ->]; rewrite ?H4, ?H5, lookup_empty in E; discriminate E.
Qed.

Lemma cluster_master_settled : settled sum_crc 100 5 9 map_to_list 8 plain_option cluster_master.
Proof.
  split; [exact cluster_master_ok|]. split.
  - intros e st He. exists (AStore ∅ (map (fun l => i64 l.(dl_max_volume_count)) two_dirs.(st_locations))).
    change (tp_servers cluster_master) with two_stores in He. unfold two_stores in He.
    apply lookup_insert_Some in He as [[_ <-]|[_ [_ <-]%lookup_singleton_Some]]; apply store_inv_new; repeat constructor.
  - split; [discriminate|reflexivity].
  - intros r vid w Hw. by rewrite cluster_tree, no_volumes in Hw.
  - intros vid. apply keyedb_ok. vm_compute. reflexivity.
  - intros vid locs r Hw. rewrite cluster_layout in Hw. by apply not_elem_of_nil in Hw.
  - intros vid locs r w _ _ Hw. by rewrite cluster_tree, no_volumes in Hw.
Qed.

Definition first_post : post_extractor :=
  PostExtractor "/1,2a00000000" [("content-type", "multipart/form-data; boundary=x"); ("helyim-color", "red")]
    (StorageQuery None None (Some "1d") None) hello.

(** The first assignment grows seven volumes; the file goes to volume 1. *)
Lemma assigned_upload_served_witness : exists s' asg st sv' hs,
  assign_handler "000" plain_request cluster_master = (s', Ok asg) /\ asg = Assignment "1,2a00000000" "10.0.0.2:80" "n2" 1
  /\ tp_servers s' !! ("10.0.0.2", 10080) = Some st
  /\ post_handler sum_crc (fun _ => Err NotFound) None None 5000 first_post (Server st ∅ []) = (sv', Ok (Upload "a.txt" 5 ""))
  /\ get_or_head_handler sum_crc false 5000 (GetOrHeadExtractor "/1,2a00000000" []) sv' = (sv', Ok (Response ACCEPTED hs hello)).
Proof.
  assert (E : (assign_handler "000" plain_request cluster_master).2 = Ok (Assignment "1,2a00000000" "10.0.0.2:80" "n2" 1))
    by (vm_compute; reflexivity).
  pose proof (assigned_upload_served plain_web no_cluster no_decoder list_rng no_flake sum_crc 100 5 9 map_to_list 8 "000"
    plain_request plain_option cluster_master sum_crc_range plain_web_ok ltac:(lia) eq_refl eq_refl cluster_master_settled) as H.
  destruct (assign_handler "000" plain_request cluster_master) as [s' r]. cbn [snd] in E. subst r.
  destruct H as (_ & fid & e & st & Ef & He & Hp & H). vm_compute in He. injection He as <-.
  destruct (H (fun _ => Err NotFound) ∅ [] 5000 first_post sample_pu) as (sv' & H1 & H2);
    [lia|reflexivity|reflexivity|reflexivity|exact sample_uploadable|repeat constructor| |].
  - destruct fid as [v k h]. vm_compute. reflexivity.
  - destruct (H2 false 5000 [] "Thu, 01 Jan 1970 00:00:05 GMT") as (hs & H3 & _);
      [split; reflexivity|reflexivity|right; reflexivity|].
    exists s', (Assignment "1,2a00000000" "10.0.0.2:80" "n2" 1), st, sv', hs. split; [reflexivity|]. split; [reflexivity|]. split; [exact Hp|]. split; [exact H1|exact H3].
Defined.

(** ** Requests to the masters *)

Section routing.
Context {W : Web} {St : Type} (uri_ok : string -> bool) (next : http_request -> St -> St * response).

Lemma leader_serves fuel addr raft s req (ms : gmap string (option raft_server * St)) :
  ms !! addr = Some (raft, s) -> is_leader raft = true ->
  require_leader uri_ok next (S fuel) addr req ms
  = Some (<[addr := (raft, (next req s).1)]> ms, Ok (next req s).2).
Proof. intros E H. cbn [require_leader]. rewrite E, H. by destruct (next req s). Qed.

Lemma follower_forwards fuel addr raft s leader req (ms : gmap string (option raft_server * St)) :
  ms !! addr = Some (raft, s) -> is_leader raft = false -> current_leader_address raft = Some leader ->
  uri_ok ("http://" ++ leader ++ hq_uri req)%string = true -> is_Some (ms !! leader) ->
  require_leader uri_ok next (S fuel) addr req ms
  = match require_leader uri_ok next fuel leader req ms with
    | Some (ms', Panic) => Some (ms', Panic)
    | Some (ms', r) => if header_value_ok leader then Some (ms', Ok (mark_forwarded leader (answer r)))
                       else Some (ms', Err PInvalidHeaderValue)
    | None => None
    end.
Proof.
  intros E H Hl Hu [x Hx]. cbn [require_leader]. rewrite E, H, Hl, Hu, Hx. cbn [negb].
  by destruct (require_leader uri_ok next fuel leader req ms) as [[ms' [r|e|]]|].
Qed.
End routing.


Definition node_a : string := "10.0.0.1:9333".
Definition node_b : string := "10.0.0.2:9333".
Definition members : list (Z * string) := [(1, node_a); (2, node_b)].
Definition counters : gmap string (option raft_server * Z) :=
  {[ node_a := (Some (RaftServer 1 (Some 2) members), 0); node_b := (Some (RaftServer 2 (Some 2) members), 5) ]}.

