(* ===== verification/Startup.v ===== *)
(** * Starting the masters ([bin/helyim.rs], [directory/server.rs], [raft/mod.rs],
      [util/args.rs])

    How a master is put together from its command line, how the masters of a
    cluster find each other, and the loop that asks for compactions.  The consensus
    algorithm is given by the class [OpenRaft]. *)

From S2P Require Import Prelude Messages Types Text Rand VolumeLayout VolumeGrow Sequence Topology Raft Client Cluster.
From S2P Require EcDiskFacts.
From Stdlib Require Import Strings.Ascii.
#[local] Open Scope string_scope.
#[local] Open Scope list_scope.
#[local] Open Scope Z_scope.

(** ** The command line *)

(** [raft.peers] is flattened. *)
Record master_options := MasterOptions {
  mo_ip : string;
  mo_port : Z;
  mo_meta_path : string;
  mo_pulse : Z;
  mo_volume_size_limit_mb : Z;
  mo_default_replication : string;
  mo_peers : list string;
}.
Definition set_peers (peers : list string) (o : master_options) : master_options :=
  MasterOptions o.(mo_ip) o.(mo_port) o.(mo_meta_path) o.(mo_pulse) o.(mo_volume_size_limit_mb) o.(mo_default_replication) peers.
Definition this_node (o : master_options) : string := (o.(mo_ip) ++ ":" ++ fmt_dec o.(mo_port))%string.

Definition check_raft_peers (o : master_options) : master_options :=
  if bool_decide (this_node o ∈ o.(mo_peers)) then o else set_peers (o.(mo_peers) ++ [this_node o]) o.

(** The errors of [errors.rs] that starting reports. *)
Inductive start_error := StAddrParse | StRaft.

(** ** The consensus of the masters *)

(** openraft: a node with its id, and the request to start a cluster with some
    members, which may be refused. *)
Class OpenRaft := {
  raft : Type;
  raft_new : Z -> option raft;
  raft_initialize : gmap Z string -> raft -> raft * bool;
}.

Section masters.
Context {OR : OpenRaft}.

(** The masters that answer requests, by their address. *)
#[local] Notation masters := (gmap string raft).

(** [RaftServer::start_node] *)
Definition start_node (node_addr : string) : outcome start_error raft :=
  match raft_new (compute_node_id node_addr) with Some r => Ok r | None => Err StRaft end.

(** [RaftServer::initialize]: the addresses become nodes. *)
Definition initialize (peers : gmap Z string) (r : raft) : raft * bool := raft_initialize peers r.

(** [RaftClient::new(addr).init(peers)], which the master at [addr] handles by
    [init_handler]; a refusal and a failed request are only logged. *)
Definition init (addr : string) (peers : gmap Z string) (ms : masters) : masters :=
  match ms !! addr with
  | Some r => <[addr := (initialize peers r).1]> ms
  | None => ms
  end.

(** [RaftServer::start_node_with_peers]; [peers[0]] panics when there is none. *)
Definition start_node_with_peers (node_addr : string) (peers : list string) : M masters start_error unit :=
  match peers with
  | [] => mpanic
  | first :: _ => if bool_decide (node_addr = first) then mmodify (init node_addr (peer_with_node_id peers)) else mret tt
  end.

(** ** The master *)

Context {R : Rng} {F : Flake} {P : Rpc} {Sh : Shards}.
(** An address parses as a socket address. *)
Context (socket_addr_ok : string -> bool).

Record directory_server := DirectoryServer {
  ds_options : master_options;
  ds_garbage_threshold : f64;
  ds_topology : topology;
  ds_master_client : master_client;
}.

(** What the gRPC server and the vacuum loop get. *)
Definition volume_size_limit (o : master_options) : Z := u64 (o.(mo_volume_size_limit_mb) * 1024 * 1024).
Definition vacuum_preallocate (o : master_options) : Z := u64 (o.(mo_volume_size_limit_mb) * 2 ^ 20).

Definition directory_server_new (o : master_options) (garbage_threshold : f64) (q : sequencer) (g : rng) (p : servers)
  : outcome start_error directory_server :=
  let d := DirectoryServer o garbage_threshold (topology_new q (volume_size_limit o) g p) (master_client_new "master" o.(mo_peers)) in
  if socket_addr_ok (o.(mo_ip) ++ ":" ++ fmt_dec (grpc_port o.(mo_port)))%string then Ok d else Err StAddrParse.

(** [DirectoryServer::start]: the raft node is created, its HTTP server started,
    and the cluster initialised. *)
Definition directory_server_start (d : directory_server) : M masters start_error unit :=
  let raft_node_addr := this_node d.(ds_options) in
  let* r := mlift (start_node raft_node_addr) in
  if negb (socket_addr_ok raft_node_addr) then mthrow StAddrParse
  else
    let* _ := mmodify (fun ms => <[raft_node_addr := r]> ms) in
    start_node_with_peers raft_node_addr d.(ds_options).(mo_peers).

(** The master's part of [main]. *)
Definition start_master (garbage_threshold : f64) (g : rng) (p : servers) (o : master_options) : M masters start_error unit :=
  let o := check_raft_peers o in
  let* d := mlift (directory_server_new o garbage_threshold (SMemory Memory.new) g p) in
  directory_server_start d.

(** Masters that are started one after the other. *)
Definition start_masters (garbage_threshold : f64) (g : rng) (p : servers) (os : list master_options) (ms : masters) : masters :=
  fold_left (fun ms o => (start_master garbage_threshold g p o ms).1) os ms.

(** ** Compactions *)

(** [topology_vacuum_loop]: what raft says at each tick; [None] when a vacuum does
    not return. *)
Fixpoint topology_vacuum_loop (order : gmap Z (list Node.nref) -> list (Z * list Node.nref))
    (garbage_threshold : f64) (preallocate : Z) (ticks : list (option raft_server)) (s : topology) : option topology :=
  match ticks with
  | [] => Some s
  | raft :: ticks' =>
      if is_leader raft then
        match vacuum order garbage_threshold preallocate s with
        | Some s => topology_vacuum_loop order garbage_threshold preallocate ticks' s
        | None => None
        end
      else topology_vacuum_loop order garbage_threshold preallocate ticks' s
  end.

End masters.

(** ** Addresses *)

Lemma parse_port port : in_u16 port -> parse_u16 (fmt_dec port) = Ok port.
Proof.
  intros Hz. unfold in_u16 in Hz. assert (N : digits_num 10 (digits 10 64 port) = port).
  { apply digits_value_ok; [lia|]. split; [lia|]. apply (Z.lt_le_trans _ (2 ^ 32)); [lia|]. vm_compute. discriminate. }
  unfold parse_u16, fmt_dec. rewrite from_str_radix_digits; rewrite ?N; try done; try lia.
  - apply digits_range; lia.
  - apply digits_nonempty. lia.
Qed.

Lemma host_port_parsed ip port : Forall is_ascii (chars ip) -> in_u16 port ->
  Fid.Parser.parse_host_port (ip ++ ":" ++ fmt_dec port)%string = Ok (ip, port).
Proof.
  intros Ha Hp. assert (0 <= port) by (unfold in_u16 in Hp; lia). unfold Fid.Parser.parse_host_port.
  change (":" ++ fmt_dec port)%string with (String.String ":" (fmt_dec port)).
  assert (Hall : Forall is_ascii (chars (ip ++ String.String ":" (fmt_dec port)))).
  { rewrite chars_app, Forall_app. split; [done|]. cbn. constructor; [done|]. by apply EcDiskFacts.fmt_dec_ascii. }
  rewrite EcDiskFacts.str_rfind_app by (apply EcDiskFacts.fmt_dec_lacks; [done|right; done]).
  rewrite EcDiskFacts.str_slice_after by done. cbn [unwrap obind]. rewrite parse_port by done. cbn [obind].
  by rewrite str_slice_app_l by done.
Qed.

(** The clients of a server at a host and a port of 16 bits connect to the address
    its gRPC server was bound to when it was started there; the port is ten
    thousand above the other one, and wraps around past 55535. *)
Theorem grpc_addresses_agree : forall ip port, Forall is_ascii (chars ip) -> in_u16 port ->
  let addr := (ip ++ ":" ++ fmt_dec port)%string in
  let bound := (ip ++ ":" ++ fmt_dec (grpc_port port))%string in
  (exists p, helyim_client addr = Ok (ip, p) /\ volume_server_client addr = Ok (ip, p) /\ (ip ++ ":" ++ fmt_dec p)%string = bound
             /\ p = if port <? 55536 then port + 10000 else port - 55536)
  /\ (forall o, mo_ip o = ip -> mo_port o = port -> this_node o = addr
       /\ forall (R : Rng) (F : Flake) (P : Rpc) ok thr q g p, (exists d, directory_server_new ok o thr q g p = Ok d) <-> ok bound = true).
Proof.
  intros ip port Ha Hp addr bound. split.
  - exists (grpc_port port). unfold helyim_client, volume_server_client, addr. rewrite host_port_parsed by done.
    cbn [map_err obind fst snd]. repeat split. unfold grpc_port, in_u16 in *. unfold u16.
    destruct (Z.ltb_spec port 55536); [rewrite Z.mod_small; lia|].
    symmetry. apply (Z.mod_unique _ _ 1); lia.
  - intros o <- <-. split; [done|]. intros R F P ok thr q g p. unfold directory_server_new. fold bound.
    destruct (ok bound); split; try done; [by eexists|by intros [d Hd]].
Qed.

Lemma grpc_addresses_agree_witness :
  exists p, helyim_client "127.0.0.1:9333" = Ok ("127.0.0.1", p) /\ p = 19333.
Proof.
  destruct (grpc_addresses_agree "127.0.0.1" 9333) as [(p & H1 & _ & _ & H2) _].
  - apply (bool_decide_unpack _). vm_compute. exact I.
  - unfold in_u16. lia.
  - exists p. split; [exact H1|exact H2].
Defined.

(** ** Founding a cluster *)

Section founding.
Context {OR : OpenRaft} {R : Rng} {F : Flake} {P : Rpc} (socket_addr_ok : string -> bool).
Context (garbage_threshold : f64) (g : rng) (p : servers).

(** Nothing but its peers can keep this master from starting. *)
Definition can_start (o : master_options) : Prop :=
  is_Some (raft_new (compute_node_id (this_node o)))
  /\ socket_addr_ok (this_node o) = true
  /\ socket_addr_ok (o.(mo_ip) ++ ":" ++ fmt_dec (grpc_port o.(mo_port)))%string = true.

(** A master asks for the cluster when its address comes first. *)
Definition founder (o : master_options) : Prop := o.(mo_peers) = [] \/ head o.(mo_peers) = Some (this_node o).
#[local] Instance founder_dec o : Decision (founder o) := ltac:(unfold founder; apply _).

Lemma check_raft_peers_first o : exists first rest, mo_peers (check_raft_peers o) = first :: rest
  /\ (first = this_node o <-> founder o).
Proof.
  unfold check_raft_peers, founder. case_bool_decide as Hin.
  - destruct (mo_peers o) as [|a l]; [by apply not_elem_of_nil in Hin|]. exists a, l. split; [done|]. cbn. naive_solver.
  - destruct (mo_peers o) as [|a l]; cbn; [by exists (this_node o), []; naive_solver|]. exists a, (l ++ [this_node o]).
    split; [done|]. naive_solver.
Qed.

Lemma this_node_checked o : this_node (check_raft_peers o) = this_node o
  /\ mo_ip (check_raft_peers o) = mo_ip o /\ mo_port (check_raft_peers o) = mo_port o.
Proof. unfold check_raft_peers. by case_bool_decide. Qed.

Definition founded (o : master_options) (r : raft) : raft :=
  if decide (founder o) then (raft_initialize (peer_with_node_id (mo_peers (check_raft_peers o))) r).1 else r.

Lemma start_master_spec o ms : can_start o -> exists r, raft_new (compute_node_id (this_node o)) = Some r
  /\ start_master socket_addr_ok garbage_threshold g p o ms = (<[this_node o := founded o r]> ms, Ok tt).
Proof.
  intros ([r Hr] & H1 & H2). exists r. split; [done|].
  destruct (this_node_checked o) as (T1 & T2 & T3). destruct (check_raft_peers_first o) as (first & rest & Hp & Hf).
  unfold start_master, directory_server_new, directory_server_start, start_node, start_node_with_peers, mbind', mlift, mmodify.
  rewrite T2, T3, H2. cbn [ds_options]. rewrite T1, Hr, H1, Hp. cbn [negb]. unfold founded. rewrite Hp.
  destruct (decide (founder o)) as [Hd|Hd].
  - rewrite bool_decide_true by (symmetry; by apply Hf). unfold init. rewrite lookup_insert_eq, insert_insert_eq. done.
  - rewrite bool_decide_false; [done|]. intros E. apply Hd, Hf. done.
Qed.

Lemma start_masters_spec os : forall ms, NoDup (map this_node os) -> Forall can_start os ->
  (forall o, o ∈ os -> exists r, raft_new (compute_node_id (this_node o)) = Some r
     /\ start_masters socket_addr_ok garbage_threshold g p os ms !! this_node o = Some (founded o r))
  /\ forall a, a ∉ map this_node os -> start_masters socket_addr_ok garbage_threshold g p os ms !! a = ms !! a.
Proof.
  induction os as [|o os IH]; intros ms Hn Hs; [split; [intros o Ho; by apply not_elem_of_nil in Ho|done]|].
  cbn [map] in Hn. apply NoDup_cons in Hn as [Hno Hn]. apply Forall_cons in Hs as [Ho Hs].
  destruct (start_master_spec o ms Ho) as (r & Hr & E). unfold start_masters. cbn [fold_left]. rewrite E. cbn [fst].
  fold (start_masters socket_addr_ok garbage_threshold g p os (<[this_node o := founded o r]> ms)).
  destruct (IH (<[this_node o := founded o r]> ms) Hn Hs) as [H1 H2]. split.
  - intros o' [->|Ho']%elem_of_cons; [|by apply H1]. exists r. split; [done|]. rewrite H2 by done. apply lookup_insert_eq.
  - intros a Ha. cbn [map] in Ha. apply not_elem_of_cons in Ha as [N1 N2]. rewrite H2 by done. by apply lookup_insert_ne.
Qed.
End founding.

Lemma peer_ids_kept l : forall (m : gmap Z string) i a, NoDup (map compute_node_id l) ->
  fold_left (fun m peer => <[compute_node_id peer := peer]> m) l m !! i = Some a
  <-> (a ∈ l /\ compute_node_id a = i) \/ (i ∉ map compute_node_id l /\ m !! i = Some a).
Proof.
  induction l as [|b l IH]; intros m i a Hn; cbn [fold_left map] in *.
  - split; [intros H; right; split; [apply not_elem_of_nil|done]|]. intros [[H _]|[_ H]]; [by apply not_elem_of_nil in H|done].
  - apply NoDup_cons in Hn as [Hb Hn]. rewrite IH by done. rewrite lookup_insert, !elem_of_cons.
    assert (Hin : forall x, x ∈ l -> compute_node_id x ∈ map compute_node_id l) by (intros x Hx; by apply list_elem_of_fmap_2).
    case_decide; subst; naive_solver.
Qed.

(** C22: founding a cluster of masters.  Started one after the other on different
    addresses with the same list of peers, which names each of them, exactly the
    master whose address is first asks for the cluster, with the listed peers as
    its members; when the ids computed from their addresses differ, these are all
    the peers.  Masters that are each given only the addresses of the others put
    themselves last, and none of them ever asks. *)
Theorem cluster_founding :
  forall (OR : OpenRaft) (R : Rng) (F : Flake) (P : Rpc) socket_addr_ok garbage_threshold g p os (ms : gmap string raft),
  NoDup (map this_node os) -> Forall (can_start socket_addr_ok) os ->
  let final := start_masters socket_addr_ok garbage_threshold g p os ms in
  (forall first rest, Forall (fun o => mo_peers o = first :: rest /\ this_node o ∈ first :: rest) os ->
     (forall o, o ∈ os -> exists r, raft_new (compute_node_id (this_node o)) = Some r
        /\ final !! this_node o = Some (if decide (this_node o = first)
             then (raft_initialize (peer_with_node_id (first :: rest)) r).1 else r))
     /\ (NoDup (map compute_node_id (first :: rest)) ->
         forall i a, peer_with_node_id (first :: rest) !! i = Some a <-> a ∈ first :: rest /\ compute_node_id a = i))
  /\ (Forall (fun o => mo_peers o <> [] /\ this_node o ∉ mo_peers o) os ->
      forall o, o ∈ os -> final !! this_node o = raft_new (compute_node_id (this_node o))).
Proof.
  intros OR R F P ok th g p os ms Hn Hs final. destruct (start_masters_spec ok th g p os ms Hn Hs) as [H _]. fold final in H. split.
  - intros first rest Hl. rewrite Forall_forall in Hl. split.
    + intros o Ho. destruct (Hl o Ho) as [Hp Hin]. destruct (H o Ho) as (r & Hr & E). exists r. split; [done|]. rewrite E.
      unfold founded, check_raft_peers. rewrite bool_decide_true by by rewrite Hp. rewrite Hp. f_equal.
      assert (Hf : founder o <-> this_node o = first) by (unfold founder; rewrite Hp; cbn; naive_solver).
      destruct (decide (founder o)), (decide (this_node o = first)); naive_solver.
    + intros Hid i a. unfold peer_with_node_id. rewrite peer_ids_kept by done. rewrite lookup_empty. naive_solver.
  - intros Hl o Ho. rewrite Forall_forall in Hl. destruct (Hl o Ho) as [Hp Hin]. destruct (H o Ho) as (r & Hr & E). rewrite E, Hr.
    f_equal. unfold founded. rewrite decide_False; [done|]. intros [Hf|Hf]; [done|].
    apply Hin. destruct (mo_peers o); cbn in Hf; [done|]. injection Hf as ->. by left.
Qed.

(** Three masters as the documentation starts them, with an algorithm that keeps
    the members it was given. *)
#[local] Instance member_raft : OpenRaft := {
  raft := Z * option (gmap Z string);
  raft_new id := Some (id, None);
  raft_initialize ms r := match r.2 with None => ((r.1, Some ms), true) | Some _ => (r, false) end;
}.
#[local] Existing Instance list_rng.
#[local] Instance no_flake : Flake := {| flake := unit; flake_next_id u := (u, None) |}.
#[local] Instance no_servers : Rpc := {|
  f64 := Z; f64_gt a b := b <? a; servers := unit;
  rpc_allocate_volume _ _ u := (u, None); rpc_vacuum_check _ _ u := (u, None); rpc_vacuum_compact _ _ _ u := (u, true);
  rpc_vacuum_commit _ _ u := (u, true); rpc_vacuum_cleanup _ _ u := (u, true);
|}.
Definition documented_peers : list string := ["127.0.0.1:9333"; "127.0.0.1:9335"; "127.0.0.1:9337"].
Definition documented_master (port : Z) : master_options :=
  MasterOptions "127.0.0.1" port "./" 5 30000 "000" documented_peers.

Lemma cluster_founding_witness :
  let final := start_masters (fun _ => true) 30 [] tt (map documented_master [9335; 9333; 9337]) ∅ in
  final !! "127.0.0.1:9335" = Some (compute_node_id "127.0.0.1:9335", None)
  /\ exists members, final !! "127.0.0.1:9333" = Some (compute_node_id "127.0.0.1:9333", Some members)
  /\ forall i a, members !! i = Some a <-> a ∈ documented_peers /\ compute_node_id a = i.
Proof.
  destruct (cluster_founding member_raft list_rng no_flake no_servers (fun _ => true) 30 [] tt
    (map documented_master [9335; 9333; 9337]) ∅) as [H _].
  - apply (bool_decide_unpack _). vm_compute. exact I.
  - repeat constructor; eexists; reflexivity.
  - destruct (H "127.0.0.1:9333" ["127.0.0.1:9335"; "127.0.0.1:9337"]) as [H1 H2].
    + repeat constructor; (split; [reflexivity|apply (bool_decide_unpack _); vm_compute; exact I]).
    + split.
      * destruct (H1 (documented_master 9335)) as (r & Hr & E); [by left|]. injection Hr as <-. exact E.
      * destruct (H1 (documented_master 9333)) as (r & Hr & E); [by right; left|]. injection Hr as <-.
        exists (peer_with_node_id documented_peers). split; [exact E|].
        apply H2. apply (bool_decide_unpack _). vm_compute. exact I.
Defined.
