(* ===== verification/Routes.v ===== *)
(** * The routes of the HTTP servers ([start_volume_server] of
      [storage/server.rs], [start_directory_server] of [directory/server.rs],
      [create_raft_router] of [raft/mod.rs], [util/http/mod.rs])

    The routers are the terms the servers build.  Which handler a router runs for
    a request is axum's business: it is a parameter, with what axum documents of
    literal paths, methods, fallbacks, layers, merging and nesting as its laws. *)

From S2P Require Import Prelude Messages Types Text Ttl Replica Errors Fid Files Fs Needle NeedleMap Volume EcCodec EcVolume Store EcDisk Rand VolumeLayout VolumeGrow Sequence Topology Raft Directory Api Cluster.
From S2P Require NeedleCodec EcCodecFacts EcDiskFacts ApiFacts.
From Stdlib Require Import Strings.Ascii.
#[local] Open Scope string_scope.
#[local] Open Scope list_scope.
#[local] Open Scope Z_scope.

(** ** Routers *)

Inductive http_method := GET | HEAD | POST | PUT | DELETE | Method (name : string).
#[export] Instance http_method_eq_dec : EqDecision http_method.
Proof. solve_decision. Defined.

(** The layers in use; [RequireLeader] is [from_fn_with_state(state, require_leader)]. *)
Inductive layer := CompressionLayer | DefaultBodyLimit (max : Z) | TimeoutLayer (secs : Z) | RequireLeader.

(** [MethodRouter]: the handlers by method, the last one first, each behind the
    layers added after it. *)
Record method_router (H : Type) := MethodRouter {
  mr_handlers : list (http_method * (list layer * H));
  mr_fallback : option (list layer * H);
}.
Arguments MethodRouter {H} _ _.
Arguments mr_handlers {H} _.
Arguments mr_fallback {H} _.

(** Calls of a builder, in the order they are written. *)
#[local] Notation "x |> f" := (f x) (at level 50, left associativity, only parsing).

Section builders.
Context {H : Type}.

(** [get(h)], [post(h)] *)
Definition on (m : http_method) (h : H) : method_router H := MethodRouter [(m, ([], h))] None.
(** [.post(h)], [.put(h)], [.head(h)], [.delete(h)] *)
Definition also (m : http_method) (h : H) (r : method_router H) : method_router H :=
  MethodRouter ((m, ([], h)) :: mr_handlers r) (mr_fallback r).
(** [.fallback(h)] *)
Definition otherwise (h : H) (r : method_router H) : method_router H :=
  MethodRouter (mr_handlers r) (Some ([], h)).
(** [.layer(l)] *)
Definition behind (l : layer) (r : method_router H) : method_router H :=
  let add (e : list layer * H) := (l :: e.1, e.2) in
  MethodRouter (map (fun e => (e.1, add e.2)) (mr_handlers r)) (add <$> mr_fallback r).

End builders.

(** [Router], by the calls that build it. *)
Inductive router (H : Type) :=
  | RouterNew
  | Route (path : string) (mr : method_router H) (r : router H)
  | Fallback (h : H) (r : router H)
  | FallbackService (mr : method_router H) (r : router H)
  | Layers (ls : list layer) (r : router H)
  | Merge (other r : router H)
  | Nest (path : string) (other r : router H).
Arguments RouterNew {H}.
Arguments Route {H} _ _ _.
Arguments Fallback {H} _ _.
Arguments FallbackService {H} _ _.
Arguments Layers {H} _ _.
Arguments Merge {H} _ _.
Arguments Nest {H} _ _ _.

(** The paths a router has routes for, and whether a fallback was given to it. *)
Fixpoint paths {H} (r : router H) : list string :=
  match r with
  | RouterNew => []
  | Route p _ r => p :: paths r
  | Fallback _ r | FallbackService _ r | Layers _ r => paths r
  | Merge o r => paths o ++ paths r
  | Nest p o r => map (String.append p) (paths o) ++ paths r
  end.

Fixpoint has_fallback {H} (r : router H) : bool :=
  match r with
  | RouterNew => false
  | Fallback _ _ | FallbackService _ _ => true
  | Route _ _ r | Layers _ r | Nest _ _ r => has_fallback r
  | Merge o r => has_fallback o || has_fallback r
  end.

(** A path without captures and wildcards. *)
Definition literal (path : string) : bool :=
  String.prefix "/" path && forallb (fun c => negb (Ascii.eqb c ":") && negb (Ascii.eqb c "*")) (chars path).

(** What becomes of a request: a handler runs behind layers, the outermost first,
    or axum answers 405 or 404. *)
Inductive dispatched (H : Type) := Run (ls : list layer) (h : H) | MethodNotAllowed | NotRouted.
Arguments Run {H} _ _.
Arguments MethodNotAllowed {H}.
Arguments NotRouted {H}.

Definition wrap {H} (ls : list layer) (d : dispatched H) : dispatched H :=
  match d with Run ls' h => Run (ls ++ ls') h | d => d end.
Definition or_else {H} (d d' : dispatched H) : dispatched H :=
  match d with NotRouted => d' | d => d end.

Definition run {H} (e : list layer * H) : dispatched H := Run e.1 e.2.

(** The handler given for a method. *)
Definition handler_of {H} (m : http_method) (r : method_router H) : option (list layer * H) :=
  snd <$> List.find (fun e => bool_decide (e.1 = m)) (mr_handlers r).

(** axum, and the extractors the handlers use: the body, the query string of
    a file request and of a request about shards, the [Host] header. *)
Class Axum := {
  on_method : forall H, method_router H -> http_method -> dispatched H;
  dispatch : forall H, router H -> http_method -> string -> dispatched H;
  extract_body : list layer -> list byte -> option (list byte);
  extract_query : string -> option storage_query;
  extract_ec_query : string -> option ec_query;
  extract_host : headers -> bool;
}.
Arguments on_method {_ H} _ _.
Arguments dispatch {_ H} _ _ _.

(** What axum documents. *)
Class AxumLaws (A : Axum) : Prop := {
  (* a handler answers its method *)
  on_method_own : forall H (r : method_router H) m e, handler_of m r = Some e -> on_method r m = run e;
  (* [get] also answers HEAD when there is no handler for HEAD *)
  on_method_head : forall H (r : method_router H) e, handler_of HEAD r = None -> handler_of GET r = Some e ->
    on_method r HEAD = run e;
  on_method_none : forall H (r : method_router H) m, handler_of m r = None -> (m = HEAD -> handler_of GET r = None) ->
    on_method r m = match mr_fallback r with Some e => run e | None => MethodNotAllowed end;
  dispatch_new : forall H m q, dispatch (@RouterNew H) m q = NotRouted;
  (* a literal path matches exactly itself; adding a path twice is refused *)
  dispatch_route : forall H p mr (r : router H) m q, literal p = true -> p ∉ paths r ->
    dispatch (Route p mr r) m q = if bool_decide (q = p) then on_method mr m else dispatch r m q;
  (* a fallback answers what no route matches; a route without the method is a match *)
  dispatch_fallback : forall H h (r : router H) m q, has_fallback r = false ->
    dispatch (Fallback h r) m q = or_else (dispatch r m q) (Run [] h);
  dispatch_fallback_service : forall H mr (r : router H) m q, has_fallback r = false ->
    dispatch (FallbackService mr r) m q = or_else (dispatch r m q) (on_method mr m);
  dispatch_layers : forall H ls (r : router H) m q, dispatch (Layers ls r) m q = wrap ls (dispatch r m q);
  (* merging keeps the routes of both and the fallback of the one that has one *)
  dispatch_merge : forall H (o r : router H) m q, has_fallback o = false -> paths o ## paths r ->
    dispatch (Merge o r) m q = or_else (dispatch o m q) (dispatch r m q);
  (* nesting puts a prefix before each path *)
  dispatch_nest : forall H p (o r : router H) m q, literal p = true -> has_fallback o = false -> has_fallback r = false ->
    "/" ∉ paths o -> map (String.append p) (paths o) ## paths r ->
    dispatch (Nest p o r) m (p ++ q)%string = or_else (dispatch o m q) (dispatch r m (p ++ q)%string);
  dispatch_nest_other : forall H p (o r : router H) m q, literal p = true -> String.prefix p q = false ->
    dispatch (Nest p o r) m q = dispatch r m q;
  (* [DefaultBodyLimit::max] bounds the body *)
  extract_limited : forall ls ls' max b, (forall max', DefaultBodyLimit max' ∉ ls ++ ls') ->
    extract_body (ls ++ DefaultBodyLimit max :: ls') b = if len b <=? max then Some b else None;
}.

(** ** The routers of the servers *)

Inductive volume_handler :=
  | VDefault | VStatus | VFavicon | VGenerate | VRestore | VRebuild | VGetOrHead | VPost | VDelete.

Definition volume_layers : list layer := [CompressionLayer; DefaultBodyLimit (1024 * 1024 * 50); TimeoutLayer 10].

(** The router of [start_volume_server]. *)
Definition volume_app : router volume_handler :=
  RouterNew
  |> Route "/" (on GET VDefault)
  |> Route "/status" (on GET VStatus)
  |> Route "/favicon.ico" (on GET VFavicon)
  |> Route "/volume/ec/generate" (on GET VGenerate |> also PUT VGenerate)
  |> Route "/volume/ec/restore" (on GET VRestore |> also PUT VRestore)
  |> Route "/volume/ec/rebuild" (on GET VRebuild |> also PUT VRebuild)
  |> FallbackService
       (on GET VGetOrHead |> also HEAD VGetOrHead |> also POST VPost |> also DELETE VDelete |> otherwise VDefault)
  |> Layers volume_layers.

(** The handlers of a master, those of [raft/network] last. *)
Inductive master_handler :=
  | MAssign | MLookup | MDirStatus | MClusterStatus | MDefault
  | RMaxVolumeId | RSetMaxVolumeId | RAddLearner | RChangeMembership | RInit | RMetrics | RVote | RSnapshot | RAppend.

Definition raft_layers : list layer := [CompressionLayer; DefaultBodyLimit (1024 * 1024 * 50); TimeoutLayer 10].

Definition create_raft_router : router master_handler :=
  RouterNew
  |> Route "/max_volume_id" (on GET RMaxVolumeId)
  |> Route "/set_max_volume_id" (on POST RSetMaxVolumeId)
  |> Route "/add-learner" (on POST RAddLearner)
  |> Route "/change-membership" (on POST RChangeMembership)
  |> Route "/init" (on GET RInit |> also POST RInit)
  |> Route "/metrics" (on GET RMetrics |> also POST RMetrics)
  |> Route "/raft-vote" (on POST RVote)
  |> Route "/raft-snapshot" (on POST RSnapshot)
  |> Route "/raft-append" (on POST RAppend)
  |> Layers raft_layers.

Definition master_layers : list layer := [CompressionLayer; DefaultBodyLimit (1024 * 1024); TimeoutLayer 10].

Definition http_router : router master_handler :=
  RouterNew
  |> Route "/dir/assign" (on GET MAssign |> also POST MAssign |> behind RequireLeader)
  |> Route "/dir/lookup" (on GET MLookup |> also POST MLookup |> behind RequireLeader)
  |> Route "/dir/status" (on GET MDirStatus |> also POST MDirStatus)
  |> Route "/cluster/status" (on GET MClusterStatus |> also POST MClusterStatus)
  |> Fallback MDefault
  |> Layers master_layers.

(** The router of [start_directory_server]. *)
Definition master_app : router master_handler :=
  http_router |> Merge (Nest "/raft" create_raft_router RouterNew).

(** ** What axum makes of a router *)

Definition resolve_method {H} (r : method_router H) (m : http_method) : dispatched H :=
  match handler_of m r with
  | Some e => run e
  | None =>
      match (if bool_decide (m = HEAD) then handler_of GET r else None), mr_fallback r with
      | Some e, _ => run e
      | None, Some e => run e
      | None, None => MethodNotAllowed
      end
  end.

Fixpoint strip_prefix (p q : string) : option string :=
  match p, q with
  | EmptyString, q => Some q
  | String c p, String d q => if Ascii.eqb c d then strip_prefix p q else None
  | _, _ => None
  end.

Fixpoint resolve {H} (r : router H) (m : http_method) (q : string) : dispatched H :=
  match r with
  | RouterNew => NotRouted
  | Route p mr r => if bool_decide (q = p) then resolve_method mr m else resolve r m q
  | Fallback h r => or_else (resolve r m q) (Run [] h)
  | FallbackService mr r => or_else (resolve r m q) (resolve_method mr m)
  | Layers ls r => wrap ls (resolve r m q)
  | Merge o r => or_else (resolve o m q) (resolve r m q)
  | Nest p o r =>
      or_else (match strip_prefix p q with Some q' => resolve o m q' | None => NotRouted end) (resolve r m q)
  end.

(** The builders are called as they document: literal paths, no path twice, one
    fallback. *)
Fixpoint well_built {H} (r : router H) : bool :=
  match r with
  | RouterNew => true
  | Route p _ r => well_built r && literal p && bool_decide (p ∉ paths r)
  | Fallback _ r | FallbackService _ r => well_built r && negb (has_fallback r)
  | Layers _ r => well_built r
  | Merge o r => well_built o && well_built r && negb (has_fallback o)
                 && forallb (fun p => bool_decide (p ∉ paths r)) (paths o)
  | Nest p o r => well_built o && well_built r && literal p && negb (has_fallback o) && negb (has_fallback r)
                  && bool_decide ("/" ∉ paths o)
                  && forallb (fun p' => bool_decide (p' ∉ paths r)) (map (String.append p) (paths o))
  end.

Lemma forallb_disjoint (l k : list string) : forallb (fun p => bool_decide (p ∉ k)) l = true -> l ## k.
Proof.
  rewrite forallb_forall. intros H x Hx Hk. apply list_elem_of_In, H, bool_decide_eq_true in Hx. by destruct (Hx Hk).
Qed.

Lemma strip_app p q : strip_prefix p (p ++ q)%string = Some q.
Proof. induction p as [|c p IH]; [done|]. change (String c p ++ q)%string with (String c (p ++ q)); cbn [strip_prefix]. by rewrite Ascii.eqb_refl. Qed.

Lemma strip_spec p : forall q, match strip_prefix p q with
  | Some q' => q = (p ++ q')%string /\ String.prefix p q = true
  | None => String.prefix p q = false
  end.
Proof.
  induction p as [|c p IH]; intros q; [by destruct q|]. destruct q as [|d q]; [done|]. cbn [strip_prefix String.prefix].
  destruct (Ascii.eqb_spec c d) as [->|Hn], (Ascii.ascii_dec _ _); try done.
  specialize (IH q). destruct (strip_prefix p q) as [q'|]; [|done]. by destruct IH as [-> ?].
Qed.

Section lawful.
Context {A : Axum} {L : AxumLaws A}.

Lemma on_method_resolves {H} (r : method_router H) m : on_method r m = resolve_method r m.
Proof.
  unfold resolve_method. destruct (handler_of m r) as [e|] eqn:E; [by apply on_method_own|].
  case_bool_decide as Hm; [subst; destruct (handler_of GET r) eqn:G|].
  - by apply on_method_head.
  - rewrite on_method_none by done. by destruct (mr_fallback r).
  - rewrite on_method_none by done. by destruct (mr_fallback r).
Qed.

(** Axum's laws determine the handler of every request to a router that is
    built as documented. *)
Lemma dispatch_resolves {H} (r : router H) : well_built r = true -> forall m q, dispatch r m q = resolve r m q.
Proof.
  induction r as [|p mr r IH|h r IH|mr r IH|ls r IH|o IHo r IH|p o IHo r IH]; cbn [well_built]; intros Hb m q;
    rewrite ?andb_true_iff, ?negb_true_iff, ?bool_decide_eq_true in Hb; cbn [resolve].
  - apply dispatch_new.
  - destruct Hb as [[Hb Hl] Hp]. rewrite dispatch_route by done. case_bool_decide; [apply on_method_resolves|by apply IH].
  - destruct Hb as [Hb Hf]. by rewrite dispatch_fallback, IH.
  - destruct Hb as [Hb Hf]. by rewrite dispatch_fallback_service, IH, on_method_resolves.
  - by rewrite dispatch_layers, IH.
  - destruct Hb as [[[Ho Hb] Hf] Hd%forallb_disjoint]. by rewrite dispatch_merge, IHo, IH.
  - destruct Hb as [[[[[[Ho Hb] Hl] Hf] Hf'] Hs] Hd%forallb_disjoint]. pose proof (strip_spec p q) as Hq.
    destruct (strip_prefix p q) as [q'|]; cbn [or_else].
    + destruct Hq as [-> _]. by rewrite dispatch_nest, IHo, IH.
    + by rewrite dispatch_nest_other, IH by done.
Qed.

End lawful.

Lemma handler_cons {H} m m' e (r : list (http_method * (list layer * H))) f :
  handler_of m (MethodRouter ((m', e) :: r) f)
  = if bool_decide (m' = m) then Some e else handler_of m (MethodRouter r f).
Proof. unfold handler_of. cbn. by case_bool_decide. Qed.

(** ** Serving a request ([util/http/mod.rs], [storage/api/mod.rs]) *)

Definition PHRASE : string := "<h1>Hello, World!</h1>".

(** A request: its method, the path and the query of its URI, headers, body. *)
Record file_request := FileRequest {
  fr_method : http_method;
  fr_path : string;
  fr_query : string;
  fr_headers : headers;
  fr_body : list byte;
}.

(** Answers by their status: what the handlers return, and what axum answers. *)
Inductive volume_answer :=
  | Html (text : string)
  | Favicon
  | StatusJson (version : string) (volumes : list Volume.volume_info)
  | UploadJson (u : upload)
  | SizeJson (size : Z)
  | File (r : response)
  | Done
  | ErrorJson
  | Rejected (status : Z).

Definition PAYLOAD_TOO_LARGE : Z := 413.
Definition METHOD_NOT_ALLOWED : Z := 405.

Section serve.
Context {AX : Axum} {W : Web} {CL : EcCluster} {VI : VolumeInfoJson} {RS : ReedSolomon} {RI : ReedSolomonInverse}.
Context (crc : list byte -> Z) (master : list string -> outcome status (list volume_id_location)).
Context (flt iflt : fault) (read_redirect : bool) (now_ms : Z).
(** The order in which a location lists its volumes. *)
Context (order : gmap Z volume -> list (Z * volume)).
(** Where the gRPC service of this server listens. *)
Context (own : string * Z).

(** The volume servers, and what this one keeps of the locations it looked up
    and of the requests it sent. *)
Record http_state := HttpState {
  ht_servers : volume_servers;
  ht_looker : gmap Z volume_id_location;
  ht_sent : list (method * string * list byte);
}.

(** [default_handler], [favicon_handler], [status_handler] *)
Definition default_handler : volume_answer := Html PHRASE.
Definition favicon_handler : volume_answer := Favicon.
Definition status_handler (s : store) : volume_answer :=
  StatusJson "0.1" (concat (map (fun l => map (fun e => get_volume_info e.2) (order l.(dl_volumes))) s.(st_locations))).

(** A handler of files, and its answer; any error is answered with a text. *)
Definition on_own {A} (ok : A -> volume_answer) (h : AM A) (s : http_state) : http_state * outcome Empty_set volume_answer :=
  match s.(ht_servers) !! own with
  | None => (s, Panic)
  | Some st =>
      let '(s', r) := h (Api.Server st s.(ht_looker) s.(ht_sent)) in
      (HttpState (<[own := s'.(sv_store)]> s.(ht_servers)) s'.(sv_looker) s'.(sv_sent),
       match r with Ok a => Ok (ok a) | Err _ => Ok ErrorJson | Panic => Panic end)
  end.

Definition on_shards (h : store -> ec_query -> volume_servers -> volume_servers * outcome EcVolumeError unit) (query : string)
    (s : http_state) : http_state * outcome Empty_set volume_answer :=
  match extract_ec_query query, s.(ht_servers) !! own with
  | None, _ => (s, Ok (Rejected BAD_REQUEST))
  | _, None => (s, Panic)
  | Some q, Some st =>
      let '(p, r) := h st.1 q s.(ht_servers) in
      (HttpState p s.(ht_looker) s.(ht_sent), match r with Ok _ => Ok Done | Err _ => Ok ErrorJson | Panic => Panic end)
  end.

Definition serve_handler (ls : list layer) (h : volume_handler) (r : file_request) (s : http_state)
  : http_state * outcome Empty_set volume_answer :=
  match h with
  | VDefault => (s, Ok default_handler)
  | VFavicon => (s, Ok favicon_handler)
  | VStatus => (s, match s.(ht_servers) !! own with Some st => Ok (status_handler st.1) | None => Panic end)
  | VGenerate => on_shards generate_ec_shards_handler r.(fr_query) s
  | VRestore => on_shards generate_volume_from_ec_shards_handler r.(fr_query) s
  | VRebuild => on_shards rebuild_missing_ec_shards_handler r.(fr_query) s
  | VGetOrHead =>
      on_own File (get_or_head_handler crc read_redirect now_ms (GetOrHeadExtractor r.(fr_path) r.(fr_headers))) s
  | VPost =>
      match extract_query r.(fr_query), extract_body ls r.(fr_body) with
      | None, _ => (s, Ok (Rejected BAD_REQUEST))
      | _, None => (s, Ok (Rejected PAYLOAD_TOO_LARGE))
      | Some q, Some body =>
          on_own UploadJson (post_handler crc master flt iflt now_ms (PostExtractor r.(fr_path) r.(fr_headers) q body)) s
      end
  | VDelete =>
      match extract_host r.(fr_headers), extract_query r.(fr_query) with
      | false, _ | _, None => (s, Ok (Rejected BAD_REQUEST))
      | true, Some q => on_own SizeJson (delete_handler crc master flt iflt now_ms (DeleteExtractor r.(fr_path) q)) s
      end
  end.

Definition serve (r : file_request) (s : http_state) : http_state * outcome Empty_set volume_answer :=
  match dispatch volume_app r.(fr_method) r.(fr_path) with
  | Run ls h => serve_handler ls h r s
  | MethodNotAllowed => (s, Ok (Rejected METHOD_NOT_ALLOWED))
  | NotRouted => (s, Ok (Rejected NOT_FOUND))
  end.

End serve.

(** ** Which handler answers *)

Lemma volume_app_built : well_built volume_app = true.
Proof. vm_compute. reflexivity. Qed.

Lemma master_app_built : well_built master_app = true.
Proof. vm_compute. reflexivity. Qed.

(** A path with a comma is none of the fixed paths. *)
Lemma file_path_unrouted {A : Axum} {L : AxumLaws A} m q : In ","%char (chars q) ->
  dispatch volume_app m q =
  wrap volume_layers (resolve_method
    (otherwise VDefault (also DELETE VDelete (also POST VPost (also HEAD VGetOrHead (on GET VGetOrHead))))) m).
Proof.
  intros Hc. rewrite (dispatch_resolves _ volume_app_built). unfold volume_app. cbn [resolve].
  assert (Hq : forall p, forallb (fun c => negb (Ascii.eqb c ",")) (chars p) = true -> q <> p).
  { intros p Hp ->. rewrite forallb_forall in Hp. by specialize (Hp _ Hc). }
  repeat (rewrite bool_decide_eq_false_2 by (apply Hq; reflexivity)). reflexivity.
Qed.

Lemma file_id_comma f : In ","%char (chars ("/" ++ FileId.fmt f)).
Proof. unfold FileId.fmt. rewrite !chars_app, !in_app_iff. right. right. left. by left. Qed.

(** The extractors of a post behind the layers of the volume server. *)
Lemma volume_body_limit {A : Axum} {L : AxumLaws A} b :
  extract_body volume_layers b = if len b <=? 52428800 then Some b else None.
Proof.
  apply (extract_limited [CompressionLayer] [TimeoutLayer 10] 52428800). intros max' H.
  apply elem_of_cons in H as [|H]; [done|]. apply elem_of_cons in H as [|H]; [done|]. destruct (not_elem_of_nil _ H).
Qed.

(** C9: at the path of a file id the volume server downloads on GET and HEAD,
    uploads bodies of at most 50 MiB on POST and refuses longer ones, deletes on
    DELETE when the request names its host, refuses queries it cannot read, and
    answers every other method with its page, changing nothing. *)
Theorem file_requests_served : forall (A : Axum) (L : AxumLaws A) (W : Web) (CL : EcCluster) (VI : VolumeInfoJson)
  (RS : ReedSolomon) (RI : ReedSolomonInverse) crc master flt iflt rr now_ms order own f query hs body s,
  let path := ("/" ++ FileId.fmt f)%string in
  let go m := serve crc master flt iflt rr now_ms order own (FileRequest m path query hs body) s in
  let download := on_own own File (get_or_head_handler crc rr now_ms (GetOrHeadExtractor path hs)) s in
  go GET = download /\ go HEAD = download
  /\ (extract_query query = None -> go POST = (s, Ok (Rejected BAD_REQUEST)) /\ go DELETE = (s, Ok (Rejected BAD_REQUEST)))
  /\ (forall q, extract_query query = Some q ->
      go POST = (if len body <=? 50 * 2 ^ 20 then
                   on_own own UploadJson (post_handler crc master flt iflt now_ms (PostExtractor path hs q body)) s
                 else (s, Ok (Rejected PAYLOAD_TOO_LARGE)))
      /\ go DELETE = (if extract_host hs then
                        on_own own SizeJson (delete_handler crc master flt iflt now_ms (DeleteExtractor path q)) s
                      else (s, Ok (Rejected BAD_REQUEST))))
  /\ forall m, m <> GET -> m <> HEAD -> m <> POST -> m <> DELETE -> go m = (s, Ok (Html PHRASE)).
Proof.
  intros A L W CL VI RS RI crc master flt iflt rr now_ms order own f query hs body s path go download.
  assert (E : forall m, go m = match dispatch volume_app m path with
    | Run ls h => serve_handler crc master flt iflt rr now_ms order own ls h (FileRequest m path query hs body) s
    | MethodNotAllowed => (s, Ok (Rejected METHOD_NOT_ALLOWED)) | NotRouted => (s, Ok (Rejected NOT_FOUND)) end) by done.
  assert (D : forall m, dispatch volume_app m path = _) by (intros m; apply file_path_unrouted, file_id_comma).
  assert (DP : dispatch volume_app POST path = Run volume_layers VPost) by apply D.
  assert (DD : dispatch volume_app DELETE path = Run volume_layers VDelete) by apply D.
  split; [by rewrite E, D|]. split; [by rewrite E, D|]. split; [|split].
  - intros Hq. rewrite !E, DP, DD. cbn [serve_handler fr_query fr_headers fr_body]. rewrite Hq. by destruct (extract_host hs).
  - intros q Hq. rewrite !E, DP, DD. cbn [serve_handler fr_query fr_headers fr_body fr_path]. rewrite Hq, volume_body_limit.
    change (50 * 2 ^ 20) with 52428800. split; [by destruct (_ <=? _)|by destruct (extract_host hs)].
  - intros m H1 H2 H3 H4. rewrite E, D. unfold resolve_method, otherwise, also, on. cbn [mr_handlers mr_fallback].
    rewrite !handler_cons, !bool_decide_eq_false_2 by congruence. done.
Qed.

(** ** The guard of the leader *)

(** The handlers a router may run, with their layers. *)
Definition mr_outcomes {H} (r : method_router H) : list (list layer * H) :=
  map snd (mr_handlers r) ++ option_list (mr_fallback r).

Fixpoint outcomes {H} (r : router H) : list (list layer * H) :=
  match r with
  | RouterNew => []
  | Route _ mr r => mr_outcomes mr ++ outcomes r
  | Fallback h r => ([], h) :: outcomes r
  | FallbackService mr r => mr_outcomes mr ++ outcomes r
  | Layers ls r => map (fun e => (ls ++ e.1, e.2)) (outcomes r)
  | Merge o r | Nest _ o r => outcomes o ++ outcomes r
  end.

Lemma handler_of_outcome {H} m (r : method_router H) e : handler_of m r = Some e -> e ∈ mr_outcomes r.
Proof.
  unfold handler_of, mr_outcomes. intros (x & Hx & ->)%fmap_Some. apply find_some in Hx as [Hx _].
  apply elem_of_app. left. by apply list_elem_of_fmap_2, list_elem_of_In.
Qed.

Lemma resolve_method_outcome {H} (r : method_router H) m ls h : resolve_method r m = Run ls h -> (ls, h) ∈ mr_outcomes r.
Proof.
  unfold resolve_method. intros E.
  destruct (handler_of m r) as [e|] eqn:E1; [|destruct (if bool_decide (m = HEAD) then _ else _) as [e|] eqn:E2;
    [|destruct (mr_fallback r) as [e|] eqn:E3; [|done]]]; destruct e as [ls' h']; injection E as <- <-.
  - by eapply handler_of_outcome.
  - case_bool_decide; [by eapply handler_of_outcome|done].
  - unfold mr_outcomes. rewrite E3. apply elem_of_app. right. cbn. by apply list_elem_of_singleton.
Qed.

Lemma or_else_run {H} (d d' : dispatched H) ls h : or_else d d' = Run ls h -> d = Run ls h \/ d' = Run ls h.
Proof. destruct d; cbn; auto. Qed.

Lemma resolve_outcome {H} (r : router H) m : forall q ls h, resolve r m q = Run ls h -> (ls, h) ∈ outcomes r.
Proof.
  induction r as [|p mr r IH|h' r IH|mr r IH|ls' r IH|o IHo r IH|p o IHo r IH]; cbn [resolve outcomes]; intros q ls h Hr.
  - done.
  - apply elem_of_app. case_bool_decide; [left; by eapply resolve_method_outcome|right; by eapply IH].
  - apply or_else_run in Hr as [Hr|[= <- <-]]; apply elem_of_cons; [right; by eapply IH|by left].
  - apply elem_of_app. apply or_else_run in Hr as [Hr|Hr]; [right; by eapply IH|left; by eapply resolve_method_outcome].
  - destruct (resolve r m q) as [ls1 h1| |] eqn:E; [|done..]. cbn in Hr. injection Hr as <- <-.
    apply (list_elem_of_fmap_2 (fun e : list layer * H => (ls' ++ e.1, e.2)) _ (ls1, h1)). by eapply IH.
  - apply elem_of_app. apply or_else_run in Hr as [Hr|Hr]; [left; by eapply IHo|right; by eapply IH].
  - apply elem_of_app. apply or_else_run in Hr as [Hr|Hr]; [|right; by eapply IH].
    left. destruct (strip_prefix p q); [by eapply IHo|done].
Qed.

Lemma resolve_answers {H} (r : router H) m : has_fallback r = true -> forall q, resolve r m q <> NotRouted.
Proof.
  induction r as [|p mr r IH|h r IH|mr r IH|ls r IH|o IHo r IH|p o IHo r IH]; cbn [has_fallback resolve]; intros Hf q.
  - done.
  - case_bool_decide; [|by apply IH]. unfold resolve_method. by repeat case_match.
  - by destruct (resolve r m q).
  - destruct (resolve r m q); try done. cbn. unfold resolve_method. by repeat case_match.
  - specialize (IH Hf q). by destruct (resolve r m q).
  - apply orb_true_iff in Hf as [Hf|Hf]; [specialize (IHo Hf q); by destruct (resolve o m q)|].
    specialize (IH Hf q). by destruct (resolve o m q).
  - specialize (IH Hf q). by destruct (match strip_prefix p q with Some q' => _ | None => _ end).
Qed.

(** No fallback of the router depends on the method. *)
Fixpoint plain_fallback {H} (r : router H) : bool :=
  match r with
  | RouterNew => true
  | FallbackService _ _ => false
  | Route _ _ r | Fallback _ r | Layers _ r => plain_fallback r
  | Merge o r | Nest _ o r => plain_fallback o && plain_fallback r
  end.

Lemma resolve_refuses {H} (r : router H) m : plain_fallback r = true -> forall q, resolve r m q = MethodNotAllowed -> q ∈ paths r.
Proof.
  induction r as [|p mr r IH|h r IH|mr r IH|ls r IH|o IHo r IH|p o IHo r IH]; cbn [plain_fallback resolve paths]; intros Hp q Hr;
    rewrite ?andb_true_iff in Hp.
  - done.
  - apply elem_of_cons. case_bool_decide; [by left|right; by apply IH].
  - apply IH; [done|]. by destruct (resolve r m q).
  - done.
  - apply IH; [done|]. by destruct (resolve r m q).
  - destruct Hp as [Ho Hp]. apply elem_of_app. destruct (resolve o m q) eqn:E; [done|left; by apply IHo|right; by apply IH].
  - destruct Hp as [Ho Hp]. apply elem_of_app. pose proof (strip_spec p q) as Hq.
    destruct (strip_prefix p q) as [q'|]; [|right; by apply IH].
    destruct (resolve o m q') eqn:E; [done|left|right; by apply IH]. destruct Hq as [-> _].
    by apply (list_elem_of_fmap_2 (String.append p)), IHo.
Qed.

Definition guarded (h : master_handler) : bool := match h with MAssign | MLookup => true | _ => false end.
Definition of_raft (h : master_handler) : bool :=
  match h with MAssign | MLookup | MDirStatus | MClusterStatus | MDefault => false | _ => true end.
Definition has_guard (ls : list layer) : bool := existsb (fun l => match l with RequireLeader => true | _ => false end) ls.
Definition limit_of (ls : list layer) : option Z :=
  head (omap (fun l => match l with DefaultBodyLimit max => Some max | _ => None end) ls).

(** C20: whatever a master is asked, assignments and lookups run behind the check that
    it is the leader and nothing else does; requests of the other masters may
    be 50 MiB long, all others 1 MiB, and every path is answered. *)
Theorem leader_guards_requests : forall (A : Axum) (L : AxumLaws A) m q,
  match dispatch master_app m q with
  | Run ls h => has_guard ls = guarded h /\ limit_of ls = Some (if of_raft h then 50 * 2 ^ 20 else 2 ^ 20)
  | MethodNotAllowed => q ∈ paths master_app
  | NotRouted => False
  end.
Proof.
  intros A L m q. rewrite (dispatch_resolves _ master_app_built). destruct (resolve master_app m q) as [ls h| |] eqn:E.
  - assert (Hall : forallb (fun e => Bool.eqb (has_guard e.1) (guarded e.2)
      && bool_decide (limit_of e.1 = Some (if of_raft e.2 then 50 * 2 ^ 20 else 2 ^ 20))) (outcomes master_app) = true)
      by (vm_compute; reflexivity).
    rewrite forallb_forall in Hall. apply resolve_outcome, list_elem_of_In, Hall in E.
    by apply andb_true_iff in E as [E1%eqb_prop E2%bool_decide_eq_true].
  - by apply resolve_refuses in E.
  - by apply resolve_answers in E.
Qed.

(** ** An implementation of axum's laws *)

#[local] Instance plain_axum : Axum := {
  on_method H := resolve_method;
  dispatch H := resolve;
  extract_body ls b := match limit_of ls with Some max => if len b <=? max then Some b else None | None => Some b end;
  extract_query q := if bool_decide (q = "") then Some (StorageQuery None None None None) else None;
  extract_ec_query _ := None;
  extract_host hs := bool_decide (is_Some (header "host" hs));
}.

Lemma limit_of_app ls max ls' : (forall max', DefaultBodyLimit max' ∉ ls) -> limit_of (ls ++ DefaultBodyLimit max :: ls') = Some max.
Proof.
  intros H. unfold limit_of. rewrite omap_app. replace (omap _ ls) with (@nil Z); [done|]. symmetry.
  induction ls as [|l ls IH]; [done|]. destruct l; cbn; try (apply IH; intros max' Hm; by apply (H max'), elem_of_cons; right).
  destruct (H max0). apply elem_of_cons. by left.
Qed.

#[local] Instance plain_axum_laws : AxumLaws plain_axum.
Proof.
  split; cbn [on_method dispatch extract_body plain_axum resolve]; intros.
  - unfold resolve_method. by rewrite H0.
  - unfold resolve_method. by rewrite H0, bool_decide_eq_true_2, H1.
  - unfold resolve_method. rewrite H0. case_bool_decide; [by rewrite H1|]. by destruct (mr_fallback r).
  - done.
  - done.
  - done.
  - done.
  - done.
  - done.
  - by rewrite strip_app.
  - pose proof (strip_spec p q) as Hq. destruct (strip_prefix p q); [by destruct Hq; congruence|done].
  - rewrite limit_of_app; [done|]. intros max' Hm. apply (H max'), elem_of_app. by left.
Qed.

Lemma leader_guards_requests_witness :
  resolve master_app GET "/dir/assign" = Run (master_layers ++ [RequireLeader]) MAssign
  /\ has_guard (master_layers ++ [RequireLeader]) = guarded MAssign.
Proof.
  assert (E : resolve master_app GET "/dir/assign" = Run (master_layers ++ [RequireLeader]) MAssign) by (vm_compute; reflexivity).
  split; [exact E|]. pose proof (leader_guards_requests plain_axum plain_axum_laws GET "/dir/assign") as H.
  change (dispatch master_app GET "/dir/assign") with (resolve master_app GET "/dir/assign") in H. rewrite E in H. exact (proj1 H).
Defined.

(** A server with one volume, and a file posted to it and fetched back. *)
Definition one_server (st : store * fs) : http_state := HttpState {[ ("127.0.0.1", 18080) := st ]} ∅ [].
Definition serve_sample (m : http_method) (hs : headers) (body : list byte) (s : http_state) :=
  serve (AX := plain_axum) (W := ApiFacts.plain_web) (CL := ApiFacts.no_cluster) (VI := EcDiskFacts.any_json)
    (RS := EcCodecFacts.zero_parity) (RI := ApiFacts.no_decoder)
    NeedleCodec.sum_crc (fun _ => Err NotFound) None None false 5000 map_to_list ("127.0.0.1", 18080)
    (FileRequest m "/3,2a00000007" "" hs body) s.

Lemma file_requests_served_witness :
  let s := one_server (ApiFacts.new_server Replica.default).(sv_store) in
  let posted := on_own ("127.0.0.1", 18080) UploadJson
    (post_handler (W := ApiFacts.plain_web) NeedleCodec.sum_crc (fun _ => Err NotFound) None None 5000
       (PostExtractor "/3,2a00000007" (po_headers ApiFacts.sample_post) (StorageQuery None None None None) NeedleCodec.hello)) s in
  serve_sample POST (po_headers ApiFacts.sample_post) NeedleCodec.hello s = posted
  /\ posted.2 = Ok (UploadJson (Upload "a.txt" 5 ""))
  /\ serve_sample PUT [] [] s = (s, Ok (Html PHRASE)).
Proof.
  set (s := one_server _). intros posted.
  pose proof (file_requests_served plain_axum plain_axum_laws ApiFacts.plain_web ApiFacts.no_cluster EcDiskFacts.any_json
    EcCodecFacts.zero_parity ApiFacts.no_decoder NeedleCodec.sum_crc (fun _ => Err NotFound) None None false 5000 map_to_list
    ("127.0.0.1", 18080) ApiFacts.sample_fid "" (po_headers ApiFacts.sample_post) NeedleCodec.hello s) as (_ & _ & _ & H & _).
  split; [exact (proj1 (H (StorageQuery None None None None) eq_refl))|]. split; [vm_compute; reflexivity|].
  pose proof (file_requests_served plain_axum plain_axum_laws ApiFacts.plain_web ApiFacts.no_cluster EcDiskFacts.any_json
    EcCodecFacts.zero_parity ApiFacts.no_decoder NeedleCodec.sum_crc (fun _ => Err NotFound) None None false 5000 map_to_list
    ("127.0.0.1", 18080) ApiFacts.sample_fid "" [] [] s) as (_ & _ & _ & _ & K).
  apply (K PUT); discriminate.
Defined.

(** The file is served to a HEAD request too. *)
Example posted_file_served :
  let s := one_server (ApiFacts.new_server Replica.default).(sv_store) in
  let s' := (serve_sample POST (po_headers ApiFacts.sample_post) NeedleCodec.hello s).1 in
  match (serve_sample HEAD [] [] s').2 with Ok (File r) => r.(rp_body) = NeedleCodec.hello | _ => False end.
Proof. vm_compute. reflexivity. Qed.
