(* ===== verification/RaftNet.v ===== *)
(** * Masters that talk to each other ([raft/client.rs], [raft/network], the
      requests of [raft/mod.rs])

    The client that follows the leader, the network openraft sends its messages
    over, and the handlers that hand them to openraft on the other side, joined
    by the routes of a master.  openraft itself is a parameter. *)

From S2P Require Import Prelude Types Text Ttl Replica Errors Fid Volume Node NodeFacts Rand VolumeLayout VolumeGrow Sequence Topology Raft.
From S2P Require TopologyFacts.
From S2P Require Import Startup Routes.
From Stdlib Require Import Strings.Ascii.
#[local] Open Scope string_scope.
#[local] Open Scope list_scope.
#[local] Open Scope Z_scope.

(** ** Messages *)

(** The messages openraft exchanges, and its answer to a write. *)
Class RaftMessages := {
  vote_request : Type;
  vote_response : Type;
  append_request : Type;
  append_response : Type;
  snapshot_request : Type;
  snapshot_response : Type;
  write_response : Type;
}.

(** [RaftMetrics]: the leader, and the nodes of the membership. *)
Record raft_metrics := RaftMetrics { mt_current_leader : option Z; mt_nodes : list (Z * string) }.

(** [http://{authority}{path}] *)
Record url := Http { u_authority : string; u_path : string }.

Section messages.
Context {T : RaftMessages}.

(** What is sent as JSON: [AppData] and the request of the same shape, the
    peers, a learner, the members, and openraft's messages. *)
Inductive raft_body :=
  | BNone
  | BMaxVolumeId (max_volume_id : Z)
  | BPeers (peers : gmap Z string)
  | BLearner (id : Z) (addr : string)
  | BMembers (members : gset Z)
  | BVote (r : vote_request)
  | BAppend (r : append_request)
  | BSnapshot (r : snapshot_request).

Inductive raft_answer :=
  | AUnit
  | AWrite (w : write_response)
  | AMetrics (m : raft_metrics)
  | AMaxVolumeId (id : Z)
  | AVote (r : vote_response)
  | AAppend (r : append_response)
  | ASnapshot (r : snapshot_response).

(** What comes back from a request: nothing that can be read, a result, or an
    error of the remote, which may name the leader. *)
Inductive reply := RNetwork | ROk (a : raft_answer) | RErr (f : option forward).

Definition as_unit (a : raft_answer) : option unit := match a with AUnit => Some tt | _ => None end.
Definition as_write (a : raft_answer) : option write_response := match a with AWrite w => Some w | _ => None end.
Definition as_metrics (a : raft_answer) : option raft_metrics := match a with AMetrics m => Some m | _ => None end.
Definition as_vote (a : raft_answer) : option vote_response := match a with AVote r => Some r | _ => None end.
Definition as_append (a : raft_answer) : option append_response := match a with AAppend r => Some r | _ => None end.
Definition as_snapshot (a : raft_answer) : option snapshot_response := match a with ASnapshot r => Some r | _ => None end.

(** ** The client *)

(** The leader the client believes in.  The clones of a client share it. *)
Definition raft_client : Type := option Z * string.
Definition raft_client_new (leader_addr : string) : raft_client := (None, leader_addr).

Section client.
(** The network, with whatever state it has. *)
Context {St : Type} (http : http_method -> url -> raft_body -> St -> St * reply).

(** POST with a body, GET without. *)
Definition do_send_rpc_to_leader {A} (expect : raft_answer -> option A) (uri : string) (req : option raft_body)
  : M (raft_client * St) rpc_error A := fun '(c, st) =>
  let u := Http c.2 ("/raft/" ++ uri) in
  let leader_id := default 0 c.1 in
  let '(st, r) := match req with Some b => http POST u b st | None => http GET u BNone st end in
  ((c, st), match r with
            | RNetwork => Err Network
            | ROk a => match expect a with Some a => Ok a | None => Err Network end
            | RErr f => Err (RemoteError leader_id f)
            end).

(** The loop of [send_rpc_to_leader], with [n_retry] requests left. *)
Fixpoint send_loop {A} (n_retry : nat) (expect : raft_answer -> option A) (uri : string) (req : option raft_body)
    (s : raft_client * St) : (raft_client * St) * outcome rpc_error A :=
  let '(s, res) := do_send_rpc_to_leader expect uri req s in
  match res with
  | Err e =>
      match forward_to_leader e with
      | Some (Forward leader_id (Some addr)) =>
          let s := ((leader_id, addr), s.2) in
          match n_retry with
          | S (S _ as k) => send_loop k expect uri req s
          | _ => (s, Err e)
          end
      | _ => (s, Err e)
      end
  | r => (s, r)
  end.

Definition send_rpc_to_leader {A} (expect : raft_answer -> option A) (uri : string) (req : option raft_body)
  : M (raft_client * St) rpc_error A := send_loop 3 expect uri req.

Definition set_max_volume_id (max_volume_id : Z) : M (raft_client * St) rpc_error write_response :=
  send_rpc_to_leader as_write "set_max_volume_id" (Some (BMaxVolumeId max_volume_id)).
Definition init (peers : gmap Z string) : M (raft_client * St) rpc_error unit :=
  do_send_rpc_to_leader as_unit "init" (Some (BPeers peers)).
Definition add_learner (req : Z * string) : M (raft_client * St) rpc_error write_response :=
  send_rpc_to_leader as_write "add-learner" (Some (BLearner req.1 req.2)).
Definition change_membership (req : gset Z) : M (raft_client * St) rpc_error write_response :=
  send_rpc_to_leader as_write "change-membership" (Some (BMembers req)).
Definition metrics : M (raft_client * St) rpc_error raft_metrics :=
  do_send_rpc_to_leader as_metrics "metrics" None.

(** ** The network of openraft *)

Definition remove_member (member : Z) : M (raft_client * St) rpc_error write_response :=
  let* m := metrics in
  let nodes := list_to_set (filter (fun id => id <> member) (map fst m.(mt_nodes))) in
  fun s => let '(s, r) := change_membership nodes s in
           (s, match r with Ok w => Ok w | Err _ => Err Unreachable | Panic => Panic end).

(** [NetworkFactory::send_rpc] *)
Definition send_rpc {A} (expect : raft_answer -> option A) (target : Z) (target_node uri : string) (req : raft_body)
  : M (raft_client * St) rpc_error A := fun '(c, st) =>
  let '(st, r) := http POST (Http target_node ("/raft/" ++ uri)) req st in
  ((c, st), match r with
            | RNetwork => Err Unreachable
            | ROk a => match expect a with Some a => Ok a | None => Err Unreachable end
            | RErr f => Err (RemoteError target f)
            end).

(** [NetworkConnection]; the factory it belongs to is the client. *)
Record connection := Connection { nc_target : Z; nc_target_node : string; nc_error_count : Z }.
Definition new_client (target : Z) (node : string) : connection := Connection target node 0.

Definition append_entries (req : append_request) : M (connection * (raft_client * St)) rpc_error append_response :=
  fun '(k, s) =>
    let '(s, r) := send_rpc as_append k.(nc_target) k.(nc_target_node) "raft-append" (BAppend req) s in
    match r with
    | Ok a => ((Connection k.(nc_target) k.(nc_target_node) 0, s), Ok a)
    | r =>
        let k := Connection k.(nc_target) k.(nc_target_node) (u64 (k.(nc_error_count) + 1)) in
        if 10 <=? k.(nc_error_count) then
          let '(s, o) := remove_member k.(nc_target) s in
          ((k, s), match o with Ok _ => r | Err e => Err e | Panic => Panic end)
        else ((k, s), r)
    end.

Definition vote (req : vote_request) : M (connection * (raft_client * St)) rpc_error vote_response :=
  fun '(k, s) => let '(s, r) := send_rpc as_vote k.(nc_target) k.(nc_target_node) "raft-vote" (BVote req) s in ((k, s), r).
Definition install_snapshot (req : snapshot_request) : M (connection * (raft_client * St)) rpc_error snapshot_response :=
  fun '(k, s) =>
    let '(s, r) := send_rpc as_snapshot k.(nc_target) k.(nc_target_node) "raft-snapshot" (BSnapshot req) s in ((k, s), r).

End client.
End messages.

(** ** The handlers ([raft/network/api.rs], [management.rs], [raft.rs]) *)

(** openraft's handle on a node; an error of a write may name the leader. *)
Class OpenRaftNode (OR : OpenRaft) (T : RaftMessages) := {
  raft_client_write : raft_request -> raft -> raft * outcome (option forward) write_response;
  raft_add_learner : Z -> string -> bool -> raft -> raft * outcome (option forward) write_response;
  raft_change_membership : gset Z -> bool -> raft -> raft * outcome (option forward) write_response;
  raft_get_metrics : raft -> raft_metrics;
  raft_vote : vote_request -> raft -> raft * outcome unit vote_response;
  raft_append_entries : append_request -> raft -> raft * outcome unit append_response;
  raft_install_snapshot : snapshot_request -> raft -> raft * outcome unit snapshot_response;
}.

Section handlers.
Context {OR : OpenRaft} {T : RaftMessages} {O : OpenRaftNode OR T} {SM : StateMachineTypes}.

(** [RaftServer]: openraft's handle and the state machine, with the tree its
    topology is in. *)
Record raft_node := RaftNode { rn_raft : raft; rn_machine : state_machine_store; rn_tree : tree }.
Definition set_raft (r : raft) (n : raft_node) : raft_node := RaftNode r n.(rn_machine) n.(rn_tree).

(** A result of openraft as JSON. *)
Definition answered {A} (wrap : A -> raft_answer) (r : outcome (option forward) A) : reply :=
  match r with Ok a => ROk (wrap a) | Err f => RErr f | Panic => RNetwork end.
Definition answered_rpc {A} (wrap : A -> raft_answer) (r : outcome unit A) : reply :=
  answered wrap (map_err (fun _ => None) r).

(** The methods of [RaftServer]. *)
Definition server_add_learner (id : Z) (addr : string) (n : raft_node) : raft_node * outcome (option forward) write_response :=
  let '(r, o) := raft_add_learner id addr true n.(rn_raft) in (set_raft r n, o).
Definition server_change_membership (members : gset Z) (n : raft_node) : raft_node * outcome (option forward) write_response :=
  let '(r, o) := raft_change_membership members false n.(rn_raft) in (set_raft r n, o).
Definition server_set_max_volume_id (max_volume_id : Z) (n : raft_node) : raft_node * outcome (option forward) write_response :=
  let '(r, o) := raft_client_write (MaxVolumeId max_volume_id) n.(rn_raft) in (set_raft r n, o).

Definition set_max_volume_id_handler (max_volume_id : Z) (n : raft_node) : raft_node * reply :=
  let '(r, o) := raft_client_write (MaxVolumeId max_volume_id) n.(rn_raft) in (set_raft r n, answered AWrite o).
(** A panic without a topology; the caller gets no answer then. *)
Definition max_volume_id_handler (n : raft_node) : outcome Empty_set Z :=
  match sm_topology n.(rn_machine).(ss_state_machine) with
  | Some topo => Ok (match get_node n.(rn_tree) topo with Some nd => nd_max_volume_id nd | None => 0 end)
  | None => Panic
  end.
Definition add_learner_handler (id : Z) (addr : string) (n : raft_node) : raft_node * reply :=
  let '(n, o) := server_add_learner id addr n in (n, answered AWrite o).
Definition change_membership_handler (members : gset Z) (n : raft_node) : raft_node * reply :=
  let '(n, o) := server_change_membership members n in (n, answered AWrite o).
Definition init_handler (peers : gmap Z string) (n : raft_node) : raft_node * reply :=
  let '(r, ok) := initialize peers n.(rn_raft) in (set_raft r n, if ok : bool then ROk AUnit else RErr None).
Definition metrics_handler (n : raft_node) : raft_node * reply := (n, ROk (AMetrics (raft_get_metrics n.(rn_raft)))).
Definition vote_handler (v : vote_request) (n : raft_node) : raft_node * reply :=
  let '(r, o) := raft_vote v n.(rn_raft) in (set_raft r n, answered_rpc AVote o).
Definition append_entries_handler (a : append_request) (n : raft_node) : raft_node * reply :=
  let '(r, o) := raft_append_entries a n.(rn_raft) in (set_raft r n, answered_rpc AAppend o).
Definition install_snapshot_handler (s : snapshot_request) (n : raft_node) : raft_node * reply :=
  let '(r, o) := raft_install_snapshot s n.(rn_raft) in (set_raft r n, answered_rpc ASnapshot o).

(** The handler a route names; one that is given a body it does not expect, and
    those that are not about raft, answer nothing a client of raft can read. *)
Definition raft_handle (h : master_handler) (b : raft_body) (n : raft_node) : raft_node * reply :=
  match h, b with
  | RMaxVolumeId, _ => (n, match max_volume_id_handler n with Ok id => ROk (AMaxVolumeId id) | _ => RNetwork end)
  | RSetMaxVolumeId, BMaxVolumeId id => set_max_volume_id_handler id n
  | RAddLearner, BLearner id addr => add_learner_handler id addr n
  | RChangeMembership, BMembers members => change_membership_handler members n
  | RInit, BPeers peers => init_handler peers n
  | RMetrics, _ => metrics_handler n
  | RVote, BVote v => vote_handler v n
  | RAppend, BAppend a => append_entries_handler a n
  | RSnapshot, BSnapshot s => install_snapshot_handler s n
  | _, _ => (n, RNetwork)
  end.

(** ** The masters *)

#[local] Notation masters := (gmap string raft_node).

(** The masters as a network: the master at the address answers by the handler
    its router finds. *)
Definition masters_http {AX : Axum} (m : http_method) (u : url) (b : raft_body) (ms : masters) : masters * reply :=
  match ms !! u.(u_authority) with
  | None => (ms, RNetwork)
  | Some n =>
      match dispatch master_app m u.(u_path) with
      | Run _ h => let '(n, r) := raft_handle h b n in (<[u.(u_authority) := n]> ms, r)
      | _ => (ms, RNetwork)
      end
  end.

End handlers.

(** ** Requests reach their handlers *)

Section delivery.
Context {OR : OpenRaft} {T : RaftMessages} {O : OpenRaftNode OR T} {SM : StateMachineTypes} {AX : Axum} {L : AxumLaws AX}.
#[local] Notation masters := (gmap string raft_node).

Lemma masters_http_at (ms : masters) addr n m p b ls h : ms !! addr = Some n -> resolve master_app m p = Run ls h ->
  masters_http m (Http addr p) b ms = let '(n', r) := raft_handle h b n in (<[addr := n']> ms, r).
Proof.
  intros Hn Hp. unfold masters_http. cbn [u_authority u_path].
  by rewrite Hn, (dispatch_resolves _ master_app_built), Hp.
Qed.

(** A write of the client, and what it asks of openraft. *)
Inductive write_call := WMaxVolumeId (id : Z) | WLearner (id : Z) (addr : string) | WMembers (members : gset Z).
Definition client_call (w : write_call) : M (raft_client * masters) rpc_error write_response :=
  match w with
  | WMaxVolumeId id => set_max_volume_id masters_http id
  | WLearner id addr => add_learner masters_http (id, addr)
  | WMembers members => change_membership masters_http members
  end.
Definition node_call (w : write_call) : raft -> raft * outcome (option forward) write_response :=
  match w with
  | WMaxVolumeId id => raft_client_write (MaxVolumeId id)
  | WLearner id addr => raft_add_learner id addr true
  | WMembers members => raft_change_membership members false
  end.
Definition call_uri (w : write_call) : string :=
  match w with WMaxVolumeId _ => "set_max_volume_id" | WLearner _ _ => "add-learner" | WMembers _ => "change-membership" end.
Definition call_body (w : write_call) : raft_body :=
  match w with WMaxVolumeId id => BMaxVolumeId id | WLearner id addr => BLearner id addr | WMembers m => BMembers m end.

Lemma client_call_loop w s : client_call w s = send_loop masters_http 3 as_write (call_uri w) (Some (call_body w)) s.
Proof. by destruct w. Qed.

Lemma write_sent w (ms : masters) c n r o : ms !! c.2 = Some n -> node_call w n.(rn_raft) = (r, o) ->
  do_send_rpc_to_leader masters_http as_write (call_uri w) (Some (call_body w)) (c, ms)
  = ((c, <[c.2 := set_raft r n]> ms),
     match o with Ok a => Ok a | Err f => Err (RemoteError (default 0 c.1) f) | Panic => Err Network end).
Proof.
  intros Hn Hw. unfold do_send_rpc_to_leader. destruct w; cbn [call_uri call_body node_call] in *;
    (erewrite masters_http_at by (done || reflexivity));
    unfold raft_handle, set_max_volume_id_handler, add_learner_handler, server_add_learner, change_membership_handler,
      server_change_membership; rewrite Hw; by destruct o.
Qed.

(** C21: a write sent to the leader, or to a master that names the leader's
    address, is answered by the leader: openraft's answer comes back, the client
    remembers the leader, and no master but those two was asked.  A master that
    knows no leader passes its error on. *)
Theorem writes_reach_leader : forall w (ms : masters) c n r o, ms !! c.2 = Some n -> node_call w n.(rn_raft) = (r, o) ->
  (forall a, o = Ok a -> client_call w (c, ms) = ((c, <[c.2 := set_raft r n]> ms), Ok a))
  /\ (forall lid, o = Err (Some (Forward lid None)) \/ o = Err None ->
      exists e, client_call w (c, ms) = ((c, <[c.2 := set_raft r n]> ms), Err e))
  /\ forall lid laddr nl rl a, o = Err (Some (Forward lid (Some laddr))) -> laddr <> c.2 ->
     ms !! laddr = Some nl -> node_call w nl.(rn_raft) = (rl, Ok a) ->
     client_call w (c, ms) = (((lid, laddr), <[laddr := set_raft rl nl]> (<[c.2 := set_raft r n]> ms)), Ok a).
Proof.
  intros w ms c n r o Hn Hw. rewrite client_call_loop. cbn [send_loop]. rewrite (write_sent _ _ _ _ _ _ Hn Hw).
  split; [by intros a ->|]. split.
  - intros lid [->| ->]; cbn [forward_to_leader]; by eexists.
  - intros lid laddr nl rl a -> Hne Hl Hwl. cbn [forward_to_leader snd].
    rewrite (write_sent w _ (lid, laddr) nl rl (Ok a)); [done| |done]. cbn [snd]. by rewrite lookup_insert_ne.
Qed.

(** What openraft sends to another master over its connection is handed to the
    openraft of that master, and its answer is brought back; an error there is
    an error here, and a master that is gone is unreachable. *)
Theorem raft_messages_delivered : forall (ms : masters) k c,
  match ms !! k.(nc_target_node) with
  | Some n =>
      let there r := <[k.(nc_target_node) := set_raft r n]> ms in
      (forall v r a, raft_vote v n.(rn_raft) = (r, Ok a) -> vote masters_http v (k, (c, ms)) = ((k, (c, there r)), Ok a))
      /\ (forall e r a, raft_append_entries e n.(rn_raft) = (r, Ok a) ->
          append_entries masters_http e (k, (c, ms)) = ((Connection k.(nc_target) k.(nc_target_node) 0, (c, there r)), Ok a))
      /\ (forall s r a, raft_install_snapshot s n.(rn_raft) = (r, Ok a) ->
          install_snapshot masters_http s (k, (c, ms)) = ((k, (c, there r)), Ok a))
      /\ (forall v r e, raft_vote v n.(rn_raft) = (r, Err e) ->
          vote masters_http v (k, (c, ms)) = ((k, (c, there r)), Err (RemoteError k.(nc_target) None)))
  | None => forall v, vote masters_http v (k, (c, ms)) = ((k, (c, ms)), Err Unreachable)
  end.
Proof.
  intros ms k c. destruct (ms !! nc_target_node k) as [n|] eqn:Hn.
  - repeat split; intros x r a Hr; unfold vote, append_entries, install_snapshot, send_rpc;
      (erewrite masters_http_at by (done || reflexivity));
      unfold raft_handle, vote_handler, append_entries_handler, install_snapshot_handler; by rewrite Hr.
  - intros v. unfold vote, send_rpc, masters_http. cbn [u_authority]. by rewrite Hn.
Qed.

End delivery.

(** ** How many requests *)

Section counted.
Context {T : RaftMessages} (answer : list (http_method * url * raft_body) -> reply).

(** A network that answers depending on all requests so far, the last one first. *)
#[local] Notation log := (list (http_method * url * raft_body)).
Definition logged (m : http_method) (u : url) (b : raft_body) (l : log) : log * reply :=
  let l := (m, u, b) :: l in (l, answer l).

Lemma send_loop_unfold {A} n (expect : raft_answer -> option A) uri req s :
  send_loop logged (S n) expect uri req s =
  let '(s, res) := do_send_rpc_to_leader logged expect uri req s in
  match res with
  | Err e =>
      match forward_to_leader e with
      | Some (Forward leader_id (Some addr)) =>
          let s := ((leader_id, addr), s.2) in
          match n with S _ => send_loop logged n expect uri req s | O => (s, Err e) end
      | _ => (s, Err e)
      end
  | r => (s, r)
  end.
Proof. by destruct n. Qed.

Lemma send_loop_spec {A} (expect : raft_answer -> option A) uri b n : forall s,
  let '(s', r) := send_loop logged (S n) expect uri (Some b) s in
  exists sent, s'.2 = sent ++ s.2 /\ (1 <= length sent <= S n)%nat
    /\ (forall q, q ∈ sent -> exists addr, q = (POST, Http addr ("/raft/" ++ uri), b))
    /\ match r with
       | Ok a => exists x, answer s'.2 = ROk x /\ expect x = Some a
       | Err _ => length sent = S n \/ answer s'.2 = RNetwork \/ (exists x, answer s'.2 = ROk x /\ expect x = None)
                  \/ exists f, answer s'.2 = RErr f /\ forall g, f = Some g -> g.(fw_leader_node) = None
       | Panic => False
       end.
Proof.
  induction n as [|n IH]; intros [c l]; rewrite send_loop_unfold; unfold do_send_rpc_to_leader, logged at 1;
    set (q := (POST, _, b)); destruct (answer (q :: l)) as [|x|[[lid [ad|]]|]] eqn:E; cbn [forward_to_leader];
    try (destruct (expect x) eqn:Ex); cbn [forward_to_leader];
    try (exists [q]; cbn [snd app length]; split; [done|]; split; [lia|];
         split; [intros ? ->%list_elem_of_singleton; by eexists|]; rewrite ?E; naive_solver).
  specialize (IH ((lid, ad), q :: l)). cbn [snd]. revert IH.
  destruct (send_loop logged (S n) expect uri (Some b) _) as [s' r]. intros (sent & H1 & H2 & Hq & H3).
  exists (sent ++ [q]). cbn [snd] in *. rewrite H1, <- app_assoc. split; [done|]. rewrite length_app. cbn [length]. split; [lia|].
  split; [intros x [Hx| ->%list_elem_of_singleton]%elem_of_app; [by apply Hq|by eexists]|].
  rewrite H1 in H3. destruct r; [done| |done]. destruct H3 as [H3|H3]; [left; lia|by right].
Qed.

End counted.

(** A request to the leader is sent at least once and at most three times.  It
    succeeds with the answer to its last request; it fails early only when
    that request got no answer it can read, or an error that names no leader to
    try. *)
Theorem leader_requests_bounded : forall (T : RaftMessages) answer A (expect : raft_answer -> option A) uri b s,
  let '(s', r) := send_rpc_to_leader (logged answer) expect uri (Some b) s in
  exists sent, s'.2 = sent ++ s.2 /\ (1 <= length sent <= 3)%nat
    /\ (forall q, q ∈ sent -> exists addr, q = (POST, Http addr ("/raft/" ++ uri), b))
    /\ match r with
       | Ok a => exists x, answer s'.2 = ROk x /\ expect x = Some a
       | Err _ => length sent = 3%nat \/ answer s'.2 = RNetwork \/ (exists x, answer s'.2 = ROk x /\ expect x = None)
                  \/ exists f, answer s'.2 = RErr f /\ forall g, f = Some g -> g.(fw_leader_node) = None
       | Panic => False
       end.
Proof. intros T answer A expect uri b s. apply send_loop_spec. Qed.

(** ** Dead members *)

(** The number of failures since the last success. *)
Fixpoint trailing_failures (history : list bool) : Z :=
  match history with
  | [] => 0
  | ok :: history' => if ok then 0 else 1 + trailing_failures history'
  end.

Lemma trailing_range h : 0 <= trailing_failures h <= len h.
Proof. unfold len. induction h as [|[] h IH]; cbn [trailing_failures length]; lia. Qed.

Section dead_members.
Context {T : RaftMessages} (answer : list (http_method * url * raft_body) -> reply).
Context (target : Z) (node leader : string) (lid current : option Z) (nodes : list (Z * string)) (written : write_response).
(** The leader tells its metrics and accepts every membership. *)
Context (Hmetrics : forall l, answer ((GET, Http leader "/raft/metrics", BNone) :: l) = ROk (AMetrics (RaftMetrics current nodes))).
Context (Hchange : forall ms l, answer ((POST, Http leader "/raft/change-membership", BMembers ms) :: l) = ROk (AWrite written)).

#[local] Notation log := (list (http_method * url * raft_body)).
Definition succeeds {A} (r : outcome rpc_error A) : bool := match r with Ok _ => true | _ => false end.

(** A connection over a sequence of appends, the last one first, and whether each
    succeeded. *)
Fixpoint run_appends (reqs : list append_request) (s : connection * (raft_client * log))
  : (connection * (raft_client * log)) * list bool :=
  match reqs with
  | [] => (s, [])
  | b :: reqs' =>
      let '(s, h) := run_appends reqs' s in
      let '(s, r) := append_entries (logged answer) b s in (s, succeeds r :: h)
  end.

(** The requests that ask the target to leave. *)
Definition removal : log :=
  [(POST, Http leader "/raft/change-membership", BMembers (list_to_set (filter (fun id => id <> target) (map fst nodes))));
   (GET, Http leader "/raft/metrics", BNone)].

Lemma remove_member_spec l : remove_member (logged answer) target ((lid, leader), l) = (((lid, leader), removal ++ l), Ok written).
Proof.
  unfold remove_member, metrics, do_send_rpc_to_leader, mbind', logged. cbn [snd].
  change ("/raft/" ++ "metrics")%string with "/raft/metrics". rewrite Hmetrics. cbn [as_metrics mt_nodes].
  unfold change_membership, send_rpc_to_leader. cbn [send_loop]. unfold do_send_rpc_to_leader. cbn [snd].
  change ("/raft/" ++ "change-membership")%string with "/raft/change-membership". by rewrite Hchange.
Qed.

Definition append_of (b : append_request) : http_method * url * raft_body := (POST, Http node "/raft/raft-append", BAppend b).

Lemma append_step b k l : nc_target k = target -> nc_target_node k = node -> 0 <= nc_error_count k < 2 ^ 64 - 1 ->
  exists r, let ok := succeeds r in let failures := if ok then 0 else 1 + nc_error_count k in
    append_entries (logged answer) b (k, ((lid, leader), l))
    = ((Connection target node failures, ((lid, leader), (if 10 <=? failures then removal else []) ++ append_of b :: l)), r).
Proof.
  intros Ht Hn Hc. unfold append_entries, send_rpc, logged at 1. rewrite Hn.
  change ("/raft/" ++ "raft-append")%string with "/raft/raft-append". fold (append_of b).
  set (r := match answer (append_of b :: l) with RNetwork => _ | ROk a => _ | RErr f => _ end).
  exists r. destruct r as [a|e|] eqn:Er; cbn [succeeds]; [by rewrite Ht|..].
  - rewrite u64_id by (unfold in_u64; lia). cbn [nc_error_count nc_target]. rewrite Ht.
    rewrite Z.add_comm. destruct (10 <=? 1 + nc_error_count k); [|done]. by rewrite remove_member_spec.
  - exfalso. unfold r in Er. destruct (answer _) as [|a|f]; try done. by destruct (as_append a).
Qed.

Lemma run_appends_spec reqs l : len reqs < 2 ^ 64 ->
  exists l' h, run_appends reqs (new_client target node, ((lid, leader), l))
    = ((Connection target node (trailing_failures h), ((lid, leader), l')), h) /\ length h = length reqs.
Proof.
  induction reqs as [|b reqs IH]; intros Hl; [by exists l, []|]. rewrite len_cons in Hl.
  destruct IH as (l' & h & E & Eh); [unfold len in *; lia|]. cbn [run_appends]. rewrite E. pose proof (trailing_range h).
  destruct (append_step b (Connection target node (trailing_failures h)) l') as [r Hr]; [done..|cbn; unfold len in *; lia|].
  rewrite Hr. eexists _, (succeeds r :: h). split; [reflexivity|]. cbn. by rewrite Eh.
Qed.

End dead_members.

(** As long as the leader answers, a member is asked to leave at exactly those
    appends that end at least ten failures in a row: the leader is asked for the
    members, and then to keep all but that one. *)
Theorem dead_member_removed : forall (T : RaftMessages) answer target node leader lid current nodes written,
  (forall l, answer ((GET, Http leader "/raft/metrics", BNone) :: l) = ROk (AMetrics (RaftMetrics current nodes))) ->
  (forall ms l, answer ((POST, Http leader "/raft/change-membership", BMembers ms) :: l) = ROk (AWrite written)) ->
  forall b reqs l, len reqs < 2 ^ 64 - 1 ->
  let s := (new_client target node, ((lid, leader), l)) in
  exists l' h ok, (run_appends answer reqs s).1.2.2 = l' /\ (run_appends answer reqs s).2 = h
    /\ (run_appends answer (b :: reqs) s).2 = ok :: h
    /\ (run_appends answer (b :: reqs) s).1.2.2
       = (if 10 <=? trailing_failures (ok :: h) then removal target leader nodes else []) ++ append_of node b :: l'.
Proof.
  intros T answer target node leader lid current nodes written Hm Hc b reqs l Hl s.
  destruct (run_appends_spec answer target node leader lid current nodes written Hm Hc reqs l) as (l' & h & E & Eh); [lia|].
  fold s in E. pose proof (trailing_range h).
  destruct (append_step answer target node leader lid current nodes written Hm Hc b (Connection target node (trailing_failures h)) l')
    as [r Hr]; [done..|cbn; unfold len in *; lia|].
  exists l', h, (succeeds r). cbn [run_appends]. rewrite E, Hr. by repeat split.
Qed.

(** ** Volume ids

    [next_volume_id] answers the largest known id plus one, and tells raft only
    in the background. *)

Lemma max_of_le {T : StateMachineTypes} es : forall vid, vid <= max_of es vid.
Proof. induction es as [|e es IH]; intros vid; cbn [max_of]; [lia|]. destruct (en_payload e) as [|[v]|]; etrans; [|apply IH| |apply IH| |apply IH]; lia. Qed.

Lemma max_of_entry {T : StateMachineTypes} es : forall e id vid, e ∈ es -> en_payload e = Normal (MaxVolumeId id) -> id <= max_of es vid.
Proof.
  induction es as [|e' es IH]; intros e id vid He Hp; [destruct (not_elem_of_nil _ He)|].
  apply elem_of_cons in He as [<-|He]; cbn [max_of]; [|by eapply IH]. rewrite Hp. etrans; [|apply max_of_le]. lia.
Qed.

(** A master that has applied the entry for a volume id hands out larger ids. *)
Theorem agreed_id_not_reused : forall (T : StateMachineTypes) (R : Rng) (F : Flake) (P : Rpc) es e id m nd (s : topology),
  sm_topology (ss_state_machine m) = Some TOPO -> get_node (tp_tree s) TOPO = Some nd -> nd_parent nd = None ->
  e ∈ es -> en_payload e = Normal (MaxVolumeId id) -> 0 <= nd_max_volume_id nd -> max_of es (nd_max_volume_id nd) < 2 ^ 32 - 1 ->
  id < next_volume_id (set_tree (apply es (m, tp_tree s)).1.2 s).
Proof.
  intros T R F P es e id m nd s Hm Hn Hp He Hid H0 Hlt.
  destruct (apply_spec es (ss_state_machine m) TOPO nd (tp_tree s) Hm Hn Hp) as (m' & t' & E & _ & _ & _ & (nd' & Hn' & Hmax) & _).
  unfold apply. rewrite E. cbn [fst snd]. unfold next_volume_id, set_tree. cbn [tp_tree]. rewrite Hn', Hmax.
  pose proof (max_of_entry es e id (nd_max_volume_id nd) He Hid). pose proof (max_of_le es (nd_max_volume_id nd)).
  rewrite u32_id by (unfold in_u32; lia). lia.
Qed.

Section race.
Context {R : Rng} {F : Flake} {P : Rpc}.

(** [find_and_grow] up to its first call of a volume server. *)
Definition begin_growth (o : grow_option) : M topology VolumeError (Z * list nref) :=
  fun s =>
    (let* nodes := with_rng (Grow.find_empty_slots o TOPO s.(tp_tree)) in
     let* s := mget in
     mret (next_volume_id s, nodes)) s.

Lemma begin_growth_state o s : exists g, (begin_growth o s).1 = set_rng g s.
Proof.
  unfold begin_growth, with_rng, mbind', mget. destruct (Grow.find_empty_slots _ _ _ _) as [g r]. exists g. by destruct r.
Qed.

Lemma find_and_grow_begins o s : find_and_grow o s =
  (let* b := begin_growth o in let* _ := grow b.1 o b.2 in mret (len b.2)) s.
Proof. unfold find_and_grow, begin_growth, with_rng, mbind', mget. by destruct (Grow.find_empty_slots _ _ _ _) as [g []]. Qed.

(** The id is not taken when it is asked for: growths that begin before the
    volume of another one is added all use the same id. *)
Theorem growths_share_id : forall o1 o2 s s1 s2 b1 b2,
  begin_growth o1 s = (s1, Ok b1) -> begin_growth o2 s1 = (s2, Ok b2) -> b1.1 = b2.1.
Proof.
  assert (H : forall o s s' b, begin_growth o s = (s', Ok b) -> b.1 = next_volume_id s).
  { intros o s s' b. unfold begin_growth, with_rng, mbind', mget. destruct (Grow.find_empty_slots _ _ _ _) as [g []]; [|done..].
    cbn [mret]. by intros [= _ <-]. }
  intros o1 o2 s s1 s2 b1 b2 H1 H2. rewrite (H _ _ _ _ H1), (H _ _ _ _ H2).
  destruct (begin_growth_state o1 s) as [g Hg]. rewrite H1 in Hg. cbn in Hg. by subst.
Qed.

End race.

(** ** Examples *)

(** An algorithm in which the second of two masters leads: a node knows whether it
    leads, the last id written and how many messages it got. *)
#[local] Instance unit_messages : RaftMessages :=
  {| vote_request := unit; vote_response := unit; append_request := unit; append_response := unit;
     snapshot_request := unit; snapshot_response := unit; write_response := unit |}.
#[local] Instance led_raft : OpenRaft := {
  raft := bool * Z * Z;
  raft_new id := Some (false, 0, 0);
  raft_initialize ms r := (r, true);
}.
Definition led_write (id : Z) (r : bool * Z * Z) : (bool * Z * Z) * outcome (option forward) unit :=
  if r.1.1 then ((true, id, r.2), Ok tt) else (r, Err (Some (Forward (Some 2) (Some "b:9333")))).
Definition got_message (r : bool * Z * Z) : (bool * Z * Z) * outcome unit unit := ((r.1.1, r.1.2, r.2 + 1), Ok tt).
#[local] Instance led_node : OpenRaftNode led_raft unit_messages := {
  raft_client_write q := match q with MaxVolumeId id => led_write id end;
  raft_add_learner id _ _ := led_write id;
  raft_change_membership ms _ := led_write (Z.of_nat (size ms));
  raft_get_metrics r := RaftMetrics (Some 2) [(1, "a:9333"); (2, "b:9333")];
  raft_vote _ := got_message;
  raft_append_entries _ := got_message;
  raft_install_snapshot _ := got_message;
}.
#[local] Existing Instance plain_types.
#[local] Existing Instance plain_axum.
#[local] Existing Instance plain_axum_laws.

Definition node_with (lead : bool) (id messages : Z) : raft_node (OR := led_raft) (SM := plain_types) :=
  RaftNode (OR := led_raft) (lead, id, messages) store_default one_topology.
Definition two_masters (id votes : Z) : gmap string (raft_node (OR := led_raft) (SM := plain_types)) :=
  {[ "a:9333" := node_with false 0 votes;
     "b:9333" := node_with true id 0 ]}.

Lemma writes_reach_leader_witness :
  client_call (WMaxVolumeId 7) (raft_client_new "a:9333", two_masters 0 0)
  = (((Some 2, "b:9333"), two_masters 7 0), Ok tt).
Proof.
  destruct (writes_reach_leader (WMaxVolumeId 7) (two_masters 0 0) (raft_client_new "a:9333")
    (node_with false 0 0) (false, 0, 0) (Err (Some (Forward (Some 2) (Some "b:9333")))))
    as (_ & _ & H); [reflexivity..|].
  refine (eq_trans (H (Some 2) "b:9333" (node_with true 0 0) (true, 7, 0) tt _ _ _ _) _); [done..|reflexivity].
Defined.

Lemma raft_messages_delivered_witness :
  vote masters_http tt (new_client 1 "a:9333", (raft_client_new "b:9333", two_masters 0 0))
  = ((new_client 1 "a:9333", (raft_client_new "b:9333", two_masters 0 1)), Ok tt).
Proof.
  destruct (raft_messages_delivered (two_masters 0 0) (new_client 1 "a:9333") (raft_client_new "b:9333")) as (H & _).
  exact (H tt (false, 0, 1) tt eq_refl).
Defined.

(** The member at an address nobody answers is removed at the tenth append. *)
Definition dead_target (l : list (http_method * url * raft_body)) : reply :=
  match l with
  | (GET, _, _) :: _ => ROk (AMetrics (RaftMetrics (Some 1) [(1, "a:9333"); (2, "b:9333"); (3, "c:9333")]))
  | (_, _, BMembers _) :: _ => ROk (AWrite tt)
  | _ => RNetwork
  end.

Lemma dead_member_removed_witness :
  exists l', (run_appends dead_target (replicate 10 tt) (new_client 2 "b:9333", ((None, "a:9333"), []))).1.2.2
    = removal 2 "a:9333" [(1, "a:9333"); (2, "b:9333"); (3, "c:9333")] ++ append_of "b:9333" tt :: l'.
Proof.
  destruct (dead_member_removed unit_messages dead_target 2 "b:9333" "a:9333" None (Some 1)
    [(1, "a:9333"); (2, "b:9333"); (3, "c:9333")] tt (fun _ => eq_refl) (fun _ _ => eq_refl) tt (replicate 9 tt) [])
    as (l' & h & ok & _ & H2 & H3 & H4); [vm_compute; reflexivity|].
  assert (E : (run_appends dead_target (tt :: replicate 9 tt) (new_client 2 "b:9333", ((None, "a:9333"), []))).2 = replicate 10 false)
    by (vm_compute; reflexivity).
  exists l'. refine (eq_trans H4 _). pose proof (eq_trans (eq_sym H3) E) as K. rewrite K. reflexivity.
Defined.

(** Two collections that grow at the same time get one volume id. *)
#[local] Existing Instance list_rng.
#[local] Existing Instance TopologyFacts.no_flake.
#[local] Existing Instance TopologyFacts.willing.
Definition grow_option_in (collection : string) : grow_option :=
  VolumeGrowOption collection Replica.default Ttl.default 0 "" "" "".
Example growths_race :
  let s := set_rng [0; 0; 0; 0; 0; 0; 0; 0] TopologyFacts.sample_master in
  match (let* b1 := begin_growth (grow_option_in "pics") in let* b2 := begin_growth (grow_option_in "docs") in
         let* _ := grow b1.1 (grow_option_in "pics") b1.2 in let* _ := grow b2.1 (grow_option_in "docs") b2.2 in
         mret (b1.1, b2.1)) s with
  | (s, Ok (v1, v2)) =>
      v1 = v2 /\ v1 ∈ vl_writable (TopologyFacts.option_layout_of (grow_option_in "pics") s)
      /\ v2 ∈ vl_writable (TopologyFacts.option_layout_of (grow_option_in "docs") s)
  | _ => False
  end.
Proof. vm_compute. repeat split; by left. Qed.
