(* ===== verification/Tests.v ===== *)
(** * The unit tests of the repository, run on the model

    Each test is the sequence of calls and assertions of the test function of
    the same name: it is [true] when every assertion holds.  A call that is
    unwrapped fails the test when it does not succeed.  That the tests pass on
    the model is evidence that the model is the code's. *)

From S2P Require Import Prelude Types Text Ttl Replica Errors Fid Files Fs Needle NeedleMap Volume Vacuum Node Rand VolumeLayout VolumeGrow Sequence Topology Raft.
From S2P Require NeedleCodec TopologyFacts.
From Stdlib Require Import Strings.Ascii.
#[local] Open Scope string_scope.
#[local] Open Scope list_scope.
#[local] Open Scope Z_scope.

(** [assert_eq!], and [unwrap] with the rest of the test. *)
Definition assert_eq {A} `{EqDecision A} (a b : A) : bool := bool_decide (a = b).
Definition unwrapped {E A} (r : outcome E A) (rest : A -> bool) : bool := match r with Ok a => rest a | _ => false end.
Definition is_ok {E A} (r : outcome E A) : bool := match r with Ok _ => true | _ => false end.
Definition is_err {E A} (r : outcome E A) : bool := match r with Err _ => true | _ => false end.
#[local] Notation "'let!' x := r 'in' k" := (unwrapped r (fun x => k)) (at level 200, x pattern).
#[local] Infix "=?=" := assert_eq (at level 70).

(** ** [util/parser.rs] *)

Definition parsed_vid_fid (s : string) : outcome unit (string * string * string) :=
  match Parser.parse_vid_fid (chars s) with
  | Some (input, (vid, fid)) => Ok (of_chars input, of_chars vid, of_chars fid)
  | None => Err tt
  end.

Definition test_parse_vid_fid : bool :=
  (let! (input, vid, fid) := parsed_vid_fid "3/01637037d6" in
   (vid =?= "3") && (fid =?= "01637037d6") && (input =?= ""))
  && (let! (input, vid, fid) := parsed_vid_fid "3/01637037d6/" in
      (vid =?= "3") && (fid =?= "01637037d6") && (input =?= "/"))
  && (let! (input, vid, fid) := parsed_vid_fid "3,01637037d6" in
      (vid =?= "3") && (fid =?= "01637037d6") && (input =?= ""))
  && (let! (input, vid, fid) := parsed_vid_fid "3,01637037d6/" in
      (vid =?= "3") && (fid =?= "01637037d6") && (input =?= "/")).

Definition test_parse_filename : bool :=
  let parse s := let '(input, filename) := Parser.parse_filename (chars s) in (of_chars input, of_chars filename) in
  (let '(input, filename) := parse "my_preferred_name.jpg" in (filename =?= "my_preferred_name") && (input =?= ".jpg"))
  && (let '(input, filename) := parse "my_preferred_name" in (filename =?= "my_preferred_name") && (input =?= ""))
  && (let '(input, filename) := parse "" in (filename =?= "") && (input =?= "")).

Definition test_parse_path : bool :=
  let case path vid fid filename ext :=
    let! (v, f, n, e) := Parser.parse_url_path path in
    (v =?= vid) && (f =?= fid) && (n =?= filename) && (e =?= ext) in
  case "/3/01637037d6/my_preferred_name.jpg" 3 "01637037d6" (Some "my_preferred_name") ".jpg"
  && case "/3/01637037d6/my_preferred_name" 3 "01637037d6" (Some "my_preferred_name") ""
  && case "/3/01637037d6.jpg" 3 "01637037d6" None ".jpg"
  && case "/30,01637037d6.jpg" 30 "01637037d6" None ".jpg"
  && case "/300/01637037d6" 300 "01637037d6" None ""
  && case "/300,01637037d6" 300 "01637037d6" None "".

(** ** [storage/ttl.rs], [storage/needle/mod.rs], [replica_placement.rs], [raft/mod.rs] *)

Definition test_ttl : bool :=
  let minutes s m := let! ttl := Ttl.new s in Ttl.minutes ttl =?= m in
  minutes "" 0 && minutes "9" 9 && minutes "8m" 8 && minutes "5h" 300 && minutes "5d" (5 * 24 * 60)
  && minutes "50d" (50 * 24 * 60) && minutes "5w" (5 * 7 * 24 * 60) && minutes "5M" (5 * 60 * 24 * 31)
  && (let! ttl := Ttl.new "5y" in
      (Ttl.minutes ttl =?= 5 * 60 * 24 * 365)
      && (let! ttl2 := Ttl.from_bytes (Ttl.as_bytes ttl) in Ttl.minutes ttl =?= Ttl.minutes ttl2)
      && (let! ttl3 := Ttl.from_u32 (Ttl.into_u32 ttl) in Ttl.minutes ttl =?= Ttl.minutes ttl3)).

Definition test_parse_key_hash : bool :=
  let case s k c := let! (key, cookie) := KeyHash.parse_key_hash s in (key =?= k) && (cookie =?= c) in
  case "4ed4c8116e41" 0x4ed4 0xc8116e41
  && case "4ed401116e41" 0x4ed4 0x01116e41
  && case "ed400116e41" 0xed4 0x00116e41
  && case "fed4c8114ed4c811f0116e41" 0xfed4c8114ed4c811 0xf0116e41
  && is_err (KeyHash.parse_key_hash "helloworld")
  && is_err (KeyHash.parse_key_hash "4ed4c8114ed4c8114ed4c8111")
  && is_err (KeyHash.parse_key_hash "4ed4c811").

Definition test_replica_placement : bool :=
  let counts rp copies dc rack same :=
    (Replica.copy_count rp =?= copies) && (rp.(diff_data_center_count) =?= dc) && (rp.(diff_rack_count) =?= rack)
    && (rp.(same_rack_count) =?= same) in
  (let! rp := Replica.new "000" in counts rp 1 0 0 0)
  && (let! rp := Replica.new "001" in counts rp 2 0 0 1)
  && (let! rp := Replica.new "010" in counts rp 2 0 1 0)
  && (let! rp := Replica.new "100" in counts rp 2 1 0 0)
  && (let! rp := Replica.from_u8 211 in counts rp 5 2 1 1 && (Replica.into_u8 rp =?= 211)).

(** The JSON the last test prints is not looked at. *)
Definition test_parse_raft_peer : bool :=
  let case s h := let! (node, host) := parse_raft_peer s in (host =?= h) && (node =?= 1) in
  case "1:localhost:9333" "localhost:9333" && case "1:127.0.0.1:9333" "127.0.0.1:9333"
  && case "1:github.com/helyim" "github.com/helyim".

Example text_tests_pass :
  [test_parse_vid_fid; test_parse_filename; test_parse_path; test_ttl; test_parse_key_hash; test_replica_placement;
   test_parse_raft_peer] = replicate 7 true.
Proof. vm_compute. reflexivity. Qed.

(** ** [topology/data_node.rs] *)

Definition volume_info_default : volume_info := VolumeInfo 0 0 Replica.default Ttl.default "" 0 0 0 0 false.
Definition with_version (version : Z) (v : volume_info) : volume_info :=
  VolumeInfo v.(vi_id) v.(vi_size) v.(vi_replica_placement) v.(vi_ttl) v.(vi_collection) version v.(vi_file_count)
    v.(vi_delete_count) v.(vi_delete_bytes) v.(vi_read_only).

(** The data node of the tests, alone in its tree. *)
Definition dn : nref := 0.
Definition setup_data_node : tree :=
  (alloc (data_node_new "127.0.0.1:8080" "127.0.0.1" 8080 "127.0.0.1:8080" 1) (Tree dn ∅)).1.

Definition test_volume_info (id : Z) : outcome unit volume_info :=
  let? ttl := map_err (fun _ => tt) (Ttl.new "1d") in
  let? rp := map_err (fun _ => tt) (Replica.new "000") in
  Ok (VolumeInfo id 0 rp ttl "default_collection" CURRENT_VERSION 0 0 0 false).

Definition count_is (c : counter) (r : nref) (n : Z) (t : tree) : bool :=
  match get_node t r with Some nd => cnt c nd =?= n | None => false end.
Definition volumes_len (r : nref) (n : nat) (t : tree) : bool := size (volumes_of r t) =?= n.

Definition test_add_or_update_volume : bool :=
  let t := setup_data_node in
  let! volume := test_volume_info 0 in
  let '(t, is_new) := add_or_update_volume dn volume t in
  let '(t, is_new') := add_or_update_volume dn volume t in
  is_new && negb is_new'
  && (option_map nd_max_volume_id (get_node t dn) =?= Some 0)
  && count_is CMax dn 1 t && count_is CActive dn 1 t
  && (option_map free_space (get_node t dn) =?= Some 0).

Definition three_volumes (rest : list volume_info -> bool) : bool :=
  let! v0 := test_volume_info 0 in let! v1 := test_volume_info 1 in let! v2 := test_volume_info 2 in rest [v0; v1; v2].

Definition test_delta_update_volume : bool :=
  let t := setup_data_node in
  three_volumes (fun new_volumes =>
    let t := delta_update_volumes dn new_volumes [] t in
    volumes_len dn 3 t && count_is CVolume dn 3 t && count_is CActive dn 3 t
    && (let t := delta_update_volumes dn [] new_volumes t in
        volumes_len dn 0 t && count_is CVolume dn 0 t && count_is CActive dn 0 t)).

Definition test_update_volume : bool :=
  let t := setup_data_node in
  three_volumes (fun volumes =>
    let '(t, (new_volumes, deleted_volumes)) := update_volumes map_to_list dn volumes t in
    volumes_len dn 3 t && count_is CVolume dn 3 t && count_is CActive dn 3 t
    && (length new_volumes =?= 3%nat) && (length deleted_volumes =?= 0%nat)
    && (let! v0 := test_volume_info 0 in let! v2 := test_volume_info 2 in
        let '(t, (new_volumes, deleted_volumes)) := update_volumes map_to_list dn [v0; v2] t in
        volumes_len dn 2 t && count_is CVolume dn 2 t && count_is CActive dn 2 t
        && (length new_volumes =?= 0%nat) && (length deleted_volumes =?= 1%nat))).

Example data_node_tests_pass : [test_add_or_update_volume; test_delta_update_volume; test_update_volume] = replicate 3 true.
Proof. vm_compute. reflexivity. Qed.

(** ** [topology/volume_layout.rs], [topology/collection.rs] *)

#[local] Existing Instance list_rng.

Definition setup_layout : outcome unit volume_layout :=
  let? rp := map_err (fun _ => tt) (Replica.new "000") in Ok (Layout.new rp None 10240).
(** [data_node()]: a volume is entered without being counted. *)
Definition layout_data_node : tree :=
  upd dn (set_volumes (<[0 := volume_info_default]> (volumes_of dn setup_data_node))) setup_data_node.
Definition grow_option_default : grow_option := VolumeGrowOption "" Replica.default Ttl.default 0 "" "" "".
Definition option_in_data_center (dc : string) : grow_option := VolumeGrowOption "" Replica.default Ttl.default 0 dc "" "".

Definition locations_len (n : nat) (vl : volume_layout) : bool := size vl.(vl_locations) =?= n.
Definition located_at (vid : Z) (n : nat) (vl : volume_layout) : bool :=
  match vl.(vl_locations) !! vid with Some nodes => length nodes =?= n | None => false end.
Definition active_count_is (n : Z) (vl : volume_layout) : bool :=
  Layout.active_volume_count grow_option_default layout_data_node vl =?= n.
Definition current : volume_info := with_version CURRENT_VERSION volume_info_default.

Definition test_register_volume : bool :=
  let! vl := setup_layout in
  let t := layout_data_node in
  active_count_is 0 vl
  && (let vl := Layout.register_volume t volume_info_default dn vl in
      locations_len 1 vl && located_at 0 1 vl && active_count_is 0 vl
      && (let vl := Layout.register_volume t current dn vl in
          locations_len 1 vl && located_at 0 1 vl && active_count_is 1 vl)).

Definition test_unregister_volume : bool :=
  let! vl := setup_layout in
  let t := layout_data_node in
  active_count_is 0 vl
  && (let vl := Layout.register_volume t current dn vl in
      bool_decide (is_Some (Layout.lookup current.(vi_id) vl)) && active_count_is 1 vl
      && (let vl := Layout.unregister_volume t current dn vl in
          (Layout.lookup current.(vi_id) vl =?= None) && locations_len 0 vl && active_count_is 0 vl)).

Definition test_set_or_remove_from_writable : bool :=
  let! vl := setup_layout in
  (length vl.(vl_writable) =?= 0%nat)
  && (let vl := (Layout.set_volume_writable volume_info_default.(vi_id) vl).1 in
      (length vl.(vl_writable) =?= 1%nat)
      && (let vl := (Layout.remove_from_writable volume_info_default.(vi_id) vl).1 in length vl.(vl_writable) =?= 0%nat)).

(** With the draws of the random generator. *)
Definition test_pick_for_write (draws : list Z) : bool :=
  let! vl := setup_layout in
  let t := layout_data_node in
  is_err (Layout.pick_for_write grow_option_default t vl draws).2
  && (let vl := Layout.register_volume t current dn vl in
      (let! (vid, data_nodes) := (Layout.pick_for_write grow_option_default t vl draws).2 in
       (vid =?= current.(vi_id)) && (length data_nodes =?= 1%nat))
      && is_err (Layout.pick_for_write (option_in_data_center "default") t vl draws).2).

(** [vl] is the layout in the collection. *)
Definition test_lookup : bool :=
  let c := Collection "default" 1024 [] in
  let! rp := Replica.new "000" in
  let! ttl := Ttl.new "1d" in
  let '(c, vl) := Coll.get_or_create_volume_layout rp (Some ttl) c in
  (Coll.lookup 0 c =?= None) && (Layout.lookup 0 vl =?= None)
  && (let vl := Layout.register_volume layout_data_node current dn vl in
      let c := with_layouts (assoc_set (Coll.layout_key rp (Some ttl)) vl c.(cl_layouts)) c in
      bool_decide (is_Some (Coll.lookup 0 c)) && bool_decide (is_Some (Layout.lookup 0 vl))).

Example layout_tests_pass :
  [test_register_volume; test_unregister_volume; test_set_or_remove_from_writable; test_pick_for_write [];
   test_pick_for_write [5; 3]; test_lookup] = replicate 6 true.
Proof. vm_compute. reflexivity. Qed.

(** ** [topology/topology.rs], [topology/node.rs], [topology/volume_grow.rs], [topology/rack.rs] *)

(** [tests/topo.json]: the volumes of a server with their sizes, and its limit. *)
Definition server_layout : Type := list (Z * Z) * Z.
Definition topo_json : list (string * list (string * list (string * server_layout))) :=
  let vs (ids : list Z) := map (fun id => (id, 12312)) ids in
  [("dc1", [("rack11", [("server111", (vs [1; 2; 3], 3)); ("server112", (vs [4; 5; 6], 10))]);
            ("rack12", [("server121", (vs [4; 5; 6], 4)); ("server122", (vs [], 4)); ("server123", (vs [2; 3; 4], 5))])]);
   ("dc2", []);
   ("dc3", [("rack32", [("server321", (vs [1; 3; 5], 4))])])].

(** The volumes of a data node, then its limit. *)
Definition setup_server (rack : nref) (t : tree) (e : string * server_layout) : tree :=
  let '(t, r) := alloc (data_node_new e.1 "" 0 "" 0) t in
  let t := link_data_node rack r t in
  let t := fold_left (fun t (v : Z * Z) =>
    (add_or_update_volume r (VolumeInfo v.1 v.2 Replica.default Ttl.default "" CURRENT_VERSION 0 0 0 false) t).1) e.2.1 t in
  adjust_max_volume_count e.2.2 r t.
Definition setup_rack (dc : nref) (t : tree) (e : string * list (string * server_layout)) : tree :=
  let '(t, r) := alloc (node_new e.1 TRack) t in
  fold_left (setup_server r) e.2 (link_rack dc r t).
#[local] Existing Instance TopologyFacts.no_flake.
#[local] Existing Instance TopologyFacts.willing.
Definition setup_topo : tree :=
  tp_tree (fold_left (fun topo e =>
      let '(t, r) := alloc (node_new e.1 TDataCenter) topo.(tp_tree) in
      let topo := link_data_center r (set_tree t topo) in
      set_tree (fold_left (setup_rack r) e.2 topo.(tp_tree)) topo)
    topo_json (topology_new (SMemory Memory.new) (32 * 1024) [] tt)).

(** [volume_count], [max_volume_count], [active_volume_count], [ec_shard_count] *)
Definition counts_are (r : nref) (volumes max active shards : Z) (t : tree) : bool :=
  count_is CVolume r volumes t && count_is CMax r max t && count_is CActive r active t && count_is CEcShard r shards t.

(** A loop over the children of a node, each of which may change the tree. *)
Definition for_children (r : nref) (body : string -> nref -> tree -> tree * bool) (t : tree) : tree * bool :=
  fold_left (fun '(t, ok) child => let '(t, ok') := body child.1 child.2 t in (t, ok && ok'))
    (match get_node t r with Some nd => nd.(nd_children) | None => [] end) (t, true).

Fixpoint match_name {A} (name : string) (cases : list (string * A)) : option A :=
  match cases with [] => None | (n, a) :: cases => if bool_decide (n = name) then Some a else match_name name cases end.
Definition checked (name : string) (cases : list (string * (tree -> bool))) (t : tree) : bool :=
  match match_name name cases with Some check => check t | None => false end.

Definition test_server (name : string) (r : nref) (t : tree) : tree * bool :=
  match match_name name
    [("server111", (counts_are r 3 3 3 0, adjust_volume_count (-1) r));
     ("server112", (counts_are r 3 10 3 0, adjust_active_volume_count (-1) r));
     ("server121", (counts_are r 3 4 3 0, adjust_ec_shard_count 1 r));
     ("server122", (counts_are r 0 4 0 0, adjust_max_volume_count 4 r));
     ("server123", (counts_are r 3 5 3 0, id));
     ("server321", (counts_are r 3 4 3 0, id))] with
  | Some (check, adjust) => (adjust t, check t)
  | None => (t, false)
  end.

Definition test_rack (name : string) (r : nref) (t : tree) : tree * bool :=
  let before := checked name [("rack11", counts_are r 6 13 6 0); ("rack12", counts_are r 6 13 6 0); ("rack32", counts_are r 3 4 3 0)] t in
  let '(t, ok) := for_children r test_server t in
  (t, before && ok
      && checked name [("rack11", counts_are r 5 13 5 0); ("rack12", counts_are r 6 17 6 1); ("rack32", counts_are r 3 4 3 0)] t).

Definition test_data_center (name : string) (r : nref) (t : tree) : tree * bool :=
  let before := checked name [("dc1", counts_are r 12 26 12 0); ("dc2", counts_are r 0 0 0 0); ("dc3", counts_are r 3 4 3 0)] t in
  let '(t, ok) := for_children r test_rack t in
  (t, before && ok
      && checked name [("dc1", counts_are r 11 30 11 1); ("dc2", counts_are r 0 0 0 0); ("dc3", counts_are r 3 4 3 0)] t).

Definition test_node : bool :=
  let t := setup_topo in
  counts_are TOPO 15 30 15 0 t
  && (let '(t, ok) := for_children TOPO test_data_center t in ok && counts_are TOPO 14 34 14 1 t).

Definition test_find_volume_count : bool :=
  (Grow.find_volume_count 1 =?= 7) && (Grow.find_volume_count 2 =?= 6) && (Grow.find_volume_count 3 =?= 3)
  && (Grow.find_volume_count 4 =?= 1) && (Grow.find_volume_count 5 =?= 1).

(** With the draws of the random generator. *)
Definition test_find_empty_slots (draws : list Z) : bool :=
  let! rp := Replica.new "002" in
  let! servers := (Grow.find_empty_slots (VolumeGrowOption "" rp Ttl.default 0 "dc1" "" "") TOPO setup_topo draws).2 in
  length servers =?= 3%nat.

(** [data_node(volume_id, ip, port)]: a volume is entered without being counted. *)
Definition grow_data_node (volume_id : Z) (ip : string) (port : Z) (t : tree) : tree * nref :=
  let id := (ip ++ ":" ++ fmt_dec port)%string in
  let '(t, r) := alloc (data_node_new id ip port id 1) t in
  (upd r (set_volumes (<[volume_id := volume_info_default]> (volumes_of r t))) t, r).

(** The loop of the test: how often each node was picked, or nothing when a
    pick fails or another node is picked. *)
Fixpoint pick_turns (turns : nat) (o : grow_option) (t : tree) (nodes : list nref) (counts : Z * Z * Z) (draws : list Z)
  : option (Z * Z * Z) :=
  match turns with
  | O => Some counts
  | S turns' =>
      let accept r :=
        negb (negb (is_empty o.(go_data_node)) && negb (bool_decide (Some o.(go_data_node) = option_map nd_id (get_node t r))))
        && match get_node t r with Some nd => negb (free_space nd <? 1) | None => false end in
      match Grow.randomly_pick_nodes t nodes accept o.(go_replica_placement).(same_rack_count) draws with
      | (draws, Ok (main_node, _)) =>
          let '(c1, c2, c3) := counts in
          match get_node t main_node with
          | Some nd =>
              match nd.(nd_type) with
              | TDataNode d =>
                  if bool_decide (d.(dn_ip) = "127.0.0.1") then pick_turns turns' o t nodes (c1 + 1, c2, c3) draws
                  else if bool_decide (d.(dn_ip) = "127.0.0.2") then pick_turns turns' o t nodes (c1, c2 + 1, c3) draws
                  else if bool_decide (d.(dn_ip) = "127.0.0.3") then pick_turns turns' o t nodes (c1, c2, c3 + 1) draws
                  else None
              | _ => None
              end
          | None => None
          end
      | _ => None
      end
  end.

(** With the number of turns, a million in the source, and the draws. *)
Definition test_find_main_node (turns : nat) (draws : list Z) : bool :=
  let '(t, r1) := grow_data_node 0 "127.0.0.1" 8080 (Tree 0 ∅) in
  let '(t, r2) := grow_data_node 1 "127.0.0.2" 8080 t in
  let '(t, r3) := grow_data_node 2 "127.0.0.3" 8080 t in
  bool_decide (is_Some (pick_turns turns grow_option_default t [r1; r2; r3] (0, 0, 0) draws)).

(** The references to a node: those the test holds, and the entry of its parent. *)
Definition strong_count (r : nref) (held : list nref) (t : tree) : nat :=
  (length (filter (fun x => x = r) held)
   + length (filter (fun x => x = r) (concat (map (fun e => map snd e.2.(nd_children)) (map_to_list t.(t_nodes))))))%nat.
Definition lone_rack : tree := (alloc (node_new "default" TRack) (Tree 0 ∅)).1.

Definition test_get_or_create_data_node : bool :=
  let get := get_or_create_data_node 0 "127.0.0.1:8080" "127.0.0.1" 8080 "127.0.0.1:8080" 1 in
  let '(t, r) := get lone_rack in
  let! node := r in
  let '(t, r) := get t in
  let! node1 := r in strong_count node [node; node1] t =?= 3%nat.

Definition test_reserve_one_volume (draws : list Z) : bool :=
  let '(t, r) := get_or_create_data_node 0 "127.0.0.1:8080" "127.0.0.1" 8080 "127.0.0.1:8080" 1 lone_rack in
  let! node := r in
  let! random := (gen_range (E := unit) (match get_node t 0 with Some rack => free_space rack | None => 0 end) draws).2 in
  let! node1 := reserve_one_volume 0 random t in strong_count node [node; node1] t =?= 3%nat.

Example topology_tests_pass :
  [test_node; test_find_volume_count; test_find_empty_slots []; test_find_empty_slots [4; 1; 7; 2; 9; 3; 5; 8];
   test_find_main_node 300 (seqZ 0 300); test_get_or_create_data_node; test_reserve_one_volume []] = replicate 7 true.
Proof. vm_compute. reflexivity. Qed.

(** ** [storage/volume/mod.rs], [storage/volume/checking.rs] *)

Section volumes.
Context (crc : list byte -> Z).
Context (dir : string).

Definition hello_world : list byte := String.list_byte_of_string "Hello World".

(** One turn of the loop: the needle of a file id. *)
Definition write_hello (i h : Z) : VM unit :=
  let fid := FileId 1 i h in
  let* kc := mlift (map_err VNeedle (KeyHash.parse_path (FileId.fmt_key_hash fid.(key) fid.(hash)))) in
  let n := set_header kc.2 kc.1 0 (set_checksum (crc hello_world) (set_data 0 hello_world 0 needle_default)) in
  let* _ := write_needle None None n in mret tt.
Fixpoint write_hellos (i : Z) (hashes : list Z) : VM unit :=
  match hashes with
  | [] => mret tt
  | h :: hashes => let* _ := write_hello i h in write_hellos (i + 1) hashes
  end.

(** [setup], with the random hashes, of which the source draws a thousand; the
    directory is new. *)
Definition setup_volume (hashes : list Z) : fs * outcome VolumeError volume :=
  match volume_new crc None 0 dir "" 1 Replica.default Ttl.default ∅ with
  | (s, Ok v) => let '((v, s), r) := write_hellos 0 hashes (v, s) in (s, let? _ := r in Ok v)
  | r => r
  end.

Definition test_scan_volume_file (hashes : list Z) : bool :=
  let '(s, v) := setup_volume hashes in
  let! v := v in
  let '((sizes_ok, s), r) := scan_volume_file crc true
    (fun n offset st => ((st.1 && (n.(n_data_size) =?= 11), st.2), Ok tt)) (length hashes + 2) 0 dir "" v.(v_id)
    (fun sb => mret tt) (true, s) in
  is_ok r && sizes_ok.

Definition test_check_volume_data_integrity (hashes : list Z) : bool :=
  let '(s, v) := setup_volume hashes in
  let! v := v in
  let! index_file := fs_get s (index_filename v) in is_ok (check_volume_data_integrity crc v s index_file).

End volumes.

Definition some_hashes : list Z := map (fun i => u32 (Z.of_nat i * 2654435761)) (seq 1 150).
Example volume_tests_pass :
  [test_scan_volume_file NeedleCodec.sum_crc "d" some_hashes;
   test_check_volume_data_integrity NeedleCodec.sum_crc "d" some_hashes] = replicate 2 true.
Proof. vm_compute. reflexivity. Qed.
